(* ===== verification/_CoqProject ===== *)
-Q . S2P
Prelude.v
RustStr.v
KeyBuffer.v
Mem.v
Vga.v
Kernel.v
Signal.v
Scheduler.v
Keyboard.v
Interrupts.v
Process.v
Syscall.v
Lifecycle.v
Preempt.v
Runs.v
Atomicity.v
ExitWait.v
Files.v
FileSpec.v
Safety.v
SafeCalls.v
ProcSpec.v
Delivery.v
Abi.v
UserMemory.v
Interleaving.v
Console.v
Net.v
NetSpec.v
Checksum.v
Vfs.v
VfsSpec.v
Initramfs.v
InitramfsSpec.v
Shell.v
ShellSpec.v
ShellPreempt.v
Session.v
Framebuffer.v
Pci.v
Memory.v
Acpi.v
Arch.v
Boot.v
Locks.v
LockPaths.v
Init.v
Build.v
