(* ===== verification/Prelude.v ===== *)
(** * ComputeKERNEL: a verification development

    ComputeKERNEL is an x86_64 hobby kernel in Rust ([kernel/]) with a small
    user-space init program ([init/]).  The bootloader enters [kernel_main],
    which sets up the console, the descriptor tables, the interrupt
    controllers, memory, PCI, keyboard and processes, enables interrupts and
    runs a shell.  Interrupts drive the keyboard ring, the clock, signal
    delivery and the scheduler; system calls work on the process table and on
    a table of open files; file systems and a network stack are libraries
    beside them.

    The development is a shallow embedding: each Rust function is a Rocq
    function of the same name where Rocq allows it, executable throughout.

    ** Conventions

    - Machine integers are [Z]s in range; wrap-around and overflow are written
      out.  Arithmetic that can overflow takes the build profile ([Profile]):
      a panic under [dev], wrap-around under [release].  Theorems hold for
      both unless they say which.
    - A function that can panic returns an [outcome]; panics are overflow, an
      index or slice out of range, a failed [expect], a page fault, an address
      that is not canonical ([VirtAddr::new]) and, under [dev], a store through
      a pointer that is not aligned.
    - The statics of the kernel are one record [Kernel] (Kernel.v), and the
      functions over them run in the monad [M], whose results are [Done],
      [Panicked], [Halted] (the caller never runs again) and [Waiting] (in
      [hlt] with no interrupt to come).
    - Raw memory is a finite map from addresses to bytes (Mem.v); touching an
      unmapped address panics, as [page_fault_handler] does.
    - Interrupts arrive in three models.  A function in [M] is a call in one
      piece: interrupts are served while it waits in [hlt], from the list
      [irqs] of the state.  A [task] (Preempt.v) is the same call cut at its
      uninterruptible sections ([without_interrupts], the accesses to what no
      handler uses, single atomic loads): between any two of them interrupts
      are served and devices change, in the order of a list of [event]s; run
      without a break it is the function in [M].  A section that holds the
      process table with interrupts enabled ([Locked]: in [getppid], in the
      scheduling of [exit] and in [ps]) can be interrupted too: the timer
      handler counts its tick and then waits for the lock for good ([Spin]).
      The lock model (Locks.v) keeps only locks and interrupt flags and
      delivers interrupts between any two steps.

    ** Files

    - Prelude.v, RustStr.v, Mem.v: integers, panics, slices; [core::str] and
      [core::fmt]; raw memory.
    - KeyBuffer.v, Keyboard.v: [drivers/keyboard.rs], the ring and the driver.
      Vga.v: [drivers/vga.rs].
    - Kernel.v: the statics.  Signal.v, Scheduler.v, Process.v:
      [process/signal.rs], [process/scheduler.rs], [process/mod.rs].
      Interrupts.v: the handlers of [arch/x86_64/interrupts.rs] and the table of
      [arch/x86_64/idt.rs].  Syscall.v: [syscall/mod.rs].
    - Preempt.v: tasks, and [syscall/mod.rs], [exit] and [waitpid] as tasks.
      Atomicity.v: what preemption cannot change.  Interleaving.v: what it can.
    - Lifecycle.v, Runs.v, ExitWait.v: processes over time.  Files.v,
      FileSpec.v, Console.v: the descriptor calls.  Safety.v, SafeCalls.v:
      freedom from panics and termination.  ProcSpec.v: the process calls and
      interrupts as an abstract machine; Delivery.v: signals on that machine.
      Abi.v: all system calls as one machine.  UserMemory.v: console output and
      pointers from user space.
    - Net.v, NetSpec.v, Checksum.v: [net/].
    - Vfs.v, VfsSpec.v: [fs/vfs.rs], [fs/dev_fs.rs], [fs/proc_fs.rs],
      [fs/sys_fs.rs], [fs/ext4.rs].  Initramfs.v, InitramfsSpec.v:
      [fs/initramfs.rs].
    - Shell.v, ShellSpec.v, Session.v: [shell.rs]; ShellPreempt.v: the shell as
      a task.
    - Framebuffer.v: [drivers/framebuffer.rs].  Pci.v: [drivers/pci.rs] and the
      drivers that bind to its devices.  Memory.v: [memory/].  Acpi.v:
      [drivers/acpi_driver.rs].
    - Arch.v: [arch/x86_64/gdt.rs], [arch/x86_64/idt.rs] and [init_pics] of
      [arch/x86_64/interrupts.rs].  Boot.v: [main.rs].
    - Locks.v, LockPaths.v: spin locks against interrupts, over all the files of
      the kernel that take locks.
    - Init.v: [init/src/main.rs].  Build.v: [build.rs].

    ** What the theorems show

    - Safety: from a well-formed state every system call with any arguments
      whose memory is mapped, preempted anywhere between its sections, and every
      interrupt, goes on without a panic in a well-formed state; the boot, from
      what the bootloader hands over for the configuration of the kernel,
      reaches the shell, and the shell never panics (Safety.v, SafeCalls.v,
      Boot.v, ShellSpec.v, ShellPreempt.v).  The conditions are stated in the
      theorems; one holds throughout, that allocations succeed.
    - Preemption: a preempted call returns what the call in one piece returns
      at one moment between the interrupts (a reduction argument: all sections
      but one touch only what interrupt handlers do not); calls that do not
      wait and do not hold the process table with interrupts enabled return
      within a number of turns; a key is not slept through.  Where the order of
      sections matters, it is shown from which states what happens: keys that
      overtake each other, an exit that names another process, and [getppid]
      left spinning (Atomicity.v, SafeCalls.v, Interleaving.v).
    - Locks: with interrupts arriving anywhere the kernel never spins on a lock
      it holds, with the exception of three paths that take the process table
      with interrupts enabled; for those the deadlock is exhibited (LockPaths.v).
      [check] decides a discipline on the skeletons, proved sound for the
      small-step machine.
    - Processes: the table refines an abstract life-cycle machine; unique PIDs
      and the finality of death are proved on that machine and hold for all runs
      of preempted calls.  exit, wait4, kill, scheduling and time slices are
      described on every branch; two theorems show where a child or a wait is
      lost (Lifecycle.v, Runs.v, ExitWait.v, Signal.v, Scheduler.v).  Every
      sequence of process calls and interrupts gives the answers of a machine
      whose processes are a finite map and whose scheduler takes the next
      living PID (ProcSpec.v); on it a killed process dies within ten ticks for
      each process, and so it does in the kernel (Delivery.v).
    - The system call interface: the process machine and the file machine side
      by side are what the calls do, in any order; when calls are preempted,
      each falls on one moment among its interrupts (Abi.v).  What is written to
      the console appears on the serial line and the terminal, and a bad pointer
      panics (UserMemory.v).
    - Refinement: the ring is a bounded queue (class [ByteQueue]), the VGA
      writer a terminal, the shell an abstract session of prompts, lines and
      answers over that terminal (KeyBuffer.v, Vga.v, Session.v).
    - Files: open, close, read and write refine a machine with a finite map of
      open files, over any sequence of calls (FileSpec.v); reads deliver a
      file's bytes piece by piece; console reads deliver lines.  [DevFs] and
      [ProcFs] keep the contract of a read at an offset ([PositionalFs]), which
      [SysFs] does not; the RAM disk delivers what a cpio encoder packed.
    - Network: round trips of the codecs, exact conditions of refusal and panic,
      and the checksum as one's complement arithmetic.
    - Hardware: PCI enumeration finds exactly the functions of the bus, frames
      are usable and distinct, the heap is mapped, a filled rectangle changes
      exactly its pixels, the gates lead to their handlers on their stacks, and
      exactly the intended interrupt lines are open.

    ** Fuel and bounds

    - [wait_loop] takes one more turn than there are interrupts to come, since
      each turn uses one; [wait_loop_fuel] shows that more changes nothing.
    - [parse_loop] takes one turn per byte, and each turn moves by at least a
      header; more fuel changes nothing.
    - A [task] that waits is a [Loop] without fuel; runs are bounded by their
      list of events, and theorems hold for every list.
    - [fold_carry] takes three turns; two settle every 32-bit sum
      ([fold_carry_done]).
    - [read_line] is bounded by the keys of a line and [shell_run] by the turns,
      since the shell does not end; theorems hold for every bound, and those
      about results ask for at least as many keys as are typed.

    ** Code outside the repository

    Third-party crates and hardware are class parameters, with what is relied
    on in a second class of laws where a theorem needs any: [Platform]
    ([pc_keyboard] and the byte-wide ports), [HostBridge] with [Mechanism1] (PCI
    configuration mechanism #1), [X86] with [LawfulX86] and [SegmentTables] with
    [LawfulSegments] (the [x86_64] crate), [PicCrate] with [LawfulPics]
    ([pic8259]), [Bootloader] with [LawfulBootloader] ([bootloader_api]),
    [AcpiCrate] ([acpi]).  Each law class has a concrete instance
    in a demonstration module, on which the witnesses run.

    ** Not modelled

    - The registers of the UART, which the crate [uart_16550] writes: its
      initialisation and output are events of the trace.
    - The entry-point macro: it makes [kernel_main] the function the bootloader
      calls, and registers the configuration, which is modelled.
    - The macro front ends of formatting: a format string is its list of pieces.
    - Preemption inside a section that takes a lock no handler uses (files,
      PCI, framebuffer): handlers and the section have no state in common there.
    - The heap allocator ([linked_list_allocator]): allocation always succeeds
      in the data model, and its lock is in the lock model.  An allocation that
      fails would reach [alloc_error_handler] of [main.rs], which panics; the
      theorems say nothing of such runs.
    - Saving and restoring registers: the scheduler of the source only moves the
      current PID.
    - Declarations nothing uses: [SigAction] of [process/signal.rs], [FileMode]
      of [fs/vfs.rs].  What else has no definition here is imports, module
      declarations and the wrappers ([Mutex], [Lazy], [Once]) of the statics,
      whose contents are fields of [Kernel] and whose locks are in Locks.v. *)

From Stdlib Require Export ZArith Lia.
From stdpp Require Export base gmap numbers strings option.
From stdpp Require Export list.

#[export] Set Default Goal Selector "!".

Declare Scope kernel_scope.
Delimit Scope kernel_scope with K.
Global Open Scope Z_scope.
Global Open Scope kernel_scope.

(** ** Build profiles

    [kernel/Cargo.toml] has a [dev] and a [release] profile.  Arithmetic on
    machine integers panics on overflow under [dev] ([overflow_checks] is
    [true]) and wraps around under [release] ([overflow_checks] is [false]).
    Every definition whose Rust code can overflow takes the profile. *)

Class Profile : Type := overflow_checks : bool.

Definition dev : Profile := true.
Definition release : Profile := false.

(** [debug_assertions] goes with the overflow checks in both profiles; with it
    a raw pointer that is not aligned for its type panics when it is used. *)
Definition debug_assertions `{P : Profile} : bool := overflow_checks.

Definition aligned `{P : Profile} (size a : Z) : Prop :=
  debug_assertions = true -> a `mod` size = 0.

(** ** Panics

    A Rust function that can panic (overflow under [dev], index or slice out
    of range, page fault on a raw pointer) returns an [outcome]. *)

Inductive outcome (A : Type) : Type :=
| Ret (a : A)
| Panic.
Arguments Ret {A} a.
Arguments Panic {A}.

#[export] Instance outcome_ret : MRet outcome := @Ret.
#[export] Instance outcome_bind : MBind outcome :=
  fun A B f m => match m with Ret a => f a | Panic => Panic end.
#[export] Instance outcome_fmap : FMap outcome :=
  fun A B f m => match m with Ret a => Ret (f a) | Panic => Panic end.

Definition is_ret {A} (m : outcome A) : bool :=
  match m with Ret _ => true | Panic => false end.

(** [Option::expect], [Option::unwrap]. *)
Definition unwrap {A} (o : option A) : outcome A :=
  match o with Some a => Ret a | None => Panic end.

(** ** Machine integers

    A [w]-bit unsigned value is a [Z] in [0 <= z < 2^w]. *)

Definition wrap (w z : Z) : Z := z `mod` 2 ^ w.

Definition is_u (w z : Z) : Prop := 0 <= z < 2 ^ w.
Abbreviation is_u8 := (is_u 8).
Abbreviation is_u16 := (is_u 16).
Abbreviation is_u32 := (is_u 32).
Abbreviation is_u64 := (is_u 64).

#[export] Instance is_u_dec w z : Decision (is_u w z).
Proof. unfold is_u. apply _. Defined.

(** [e as u8], [e as u16], [e as u32], [e as u64 / usize]. *)
Abbreviation as_u8 := (wrap 8).
Abbreviation as_u16 := (wrap 16).
Abbreviation as_u32 := (wrap 32).
Abbreviation as_u64 := (wrap 64).

(** Two's complement reading: [e as i32], [e as i64]. *)
Definition as_signed (w z : Z) : Z :=
  let u := wrap w z in if u <? 2 ^ (w - 1) then u else u - 2 ^ w.
Abbreviation as_i32 := (as_signed 32).
Abbreviation as_i64 := (as_signed 64).

(** An arithmetic result outside the type: a panic or a wrapped value. *)
Definition in_width `{P : Profile} (w z : Z) : outcome Z :=
  if decide (is_u w z) then Ret z
  else if overflow_checks then Panic else Ret (wrap w z).

Definition add_u `{P : Profile} (w a b : Z) : outcome Z := in_width w (a + b).
Definition sub_u `{P : Profile} (w a b : Z) : outcome Z := in_width w (a - b).
Definition mul_u `{P : Profile} (w a b : Z) : outcome Z := in_width w (a * b).

(** [u64::saturating_add]. *)
Definition saturating_add (w a b : Z) : Z := Z.min (a + b) (2 ^ w - 1).

Lemma wrap_range w z : 0 <= w -> is_u w (wrap w z).
Proof. intros. apply Z.mod_pos_bound. by apply Z.pow_pos_nonneg. Qed.

Lemma wrap_id w z : is_u w z -> wrap w z = z.
Proof. apply Z.mod_small. Qed.

Lemma in_width_ok `{P : Profile} w z : is_u w z -> in_width w z = Ret z.
Proof. intros. unfold in_width. by rewrite decide_True. Qed.

Lemma in_width_dev w z : ~ is_u w z -> @in_width dev w z = Panic.
Proof. intros. unfold in_width. by rewrite decide_False. Qed.

Lemma in_width_release w z : @in_width release w z = Ret (wrap w z).
Proof. unfold in_width. case_decide; [by rewrite wrap_id|done]. Qed.

(** ** Slices

    Lists are indexed by [Z], as [usize] values of the source. *)

Definition zlen {A} (l : list A) : Z := Z.of_nat (length l).

(** [l.get(i)]. *)
Definition zget {A} (l : list A) (i : Z) : option A :=
  if decide (0 <= i < zlen l) then l !! Z.to_nat i else None.

(** [l[i]]: panics out of range. *)
Definition index {A} (l : list A) (i : Z) : outcome A := unwrap (zget l i).

(** [l[a..b]]: panics when [a > b] or [b > l.len()]. *)
Definition slice {A} (l : list A) (a b : Z) : outcome (list A) :=
  if decide (0 <= a <= b /\ b <= zlen l)
  then Ret (take (Z.to_nat (b - a)) (drop (Z.to_nat a) l))
  else Panic.

(** [l[a..]]. *)
Definition slice_from {A} (l : list A) (a : Z) : outcome (list A) :=
  slice l a (zlen l).

(** [l[..n].copy_from_slice(src)] with [n = src.len()]: the first [n]
    elements replaced. *)
Definition overwrite {A} (l src : list A) : list A := src ++ drop (length src) l.

Section slices.
Context {A : Type}.
Implicit Types (l : list A).

Lemma zlen_nonneg l : 0 <= zlen l.
Proof. unfold zlen. lia. Qed.

Lemma zlen_app l k : zlen (l ++ k) = zlen l + zlen k.
Proof. unfold zlen. rewrite length_app. lia. Qed.

Lemma zlen_cons x l : zlen (x :: l) = 1 + zlen l.
Proof. unfold zlen. simpl. lia. Qed.

Lemma zlen_nil : zlen ([] : list A) = 0.
Proof. done. Qed.

Lemma zget_Some l i x :
  zget l i = Some x -> 0 <= i < zlen l /\ l !! Z.to_nat i = Some x.
Proof. unfold zget. case_decide; naive_solver. Qed.

Lemma zget_None l i : zget l i = None <-> ~ 0 <= i < zlen l.
Proof.
  unfold zget. case_decide as H; [|naive_solver].
  split; [|naive_solver]. intros Hn%lookup_ge_None. unfold zlen in *. lia.
Qed.

Lemma zget_lookup l i : 0 <= i < zlen l -> zget l i = l !! Z.to_nat i.
Proof. intros. unfold zget. by rewrite decide_True. Qed.

Lemma index_ret l i x :
  index l i = Ret x <-> zget l i = Some x.
Proof. unfold index, unwrap. destruct (zget l i); naive_solver. Qed.

Lemma index_panic l i : index l i = Panic <-> ~ 0 <= i < zlen l.
Proof.
  rewrite <- zget_None. unfold index, unwrap.
  destruct (zget l i); naive_solver.
Qed.

Lemma slice_ret l a b :
  0 <= a <= b -> b <= zlen l ->
  slice l a b = Ret (take (Z.to_nat (b - a)) (drop (Z.to_nat a) l)).
Proof. intros. unfold slice. by rewrite decide_True. Qed.

Lemma slice_panic l a b :
  slice l a b = Panic <-> ~ (0 <= a <= b /\ b <= zlen l).
Proof. unfold slice. case_decide; naive_solver. Qed.

Lemma slice_inv l a b s :
  slice l a b = Ret s -> 0 <= a <= b /\ b <= zlen l /\ zlen s = b - a.
Proof.
  unfold slice. case_decide as H; intros ?; simplify_eq.
  unfold zlen in *. rewrite length_take, length_drop. lia.
Qed.

Lemma slice_from_ret l a :
  0 <= a <= zlen l -> slice_from l a = Ret (drop (Z.to_nat a) l).
Proof.
  intros. unfold slice_from. rewrite slice_ret by lia.
  rewrite take_ge; [done|]. rewrite length_drop. unfold zlen. lia.
Qed.

Lemma slice_from_panic l a :
  0 <= a -> slice_from l a = Panic <-> zlen l < a.
Proof. intros. unfold slice_from. rewrite slice_panic. lia. Qed.

(** The part of an appended list that starts after a known prefix. *)
Lemma slice_app_r p l k a b :
  a = zlen p -> b = zlen p + zlen l -> slice (p ++ l ++ k) a b = Ret l.
Proof.
  intros -> ->. pose proof (zlen_nonneg p). pose proof (zlen_nonneg l).
  pose proof (zlen_nonneg k). rewrite slice_ret; rewrite ?zlen_app; try lia.
  f_equal. replace (Z.to_nat (zlen p)) with (length p) by (unfold zlen; lia).
  rewrite drop_app_length.
  replace (Z.to_nat _) with (length l) by (unfold zlen; lia).
  by rewrite take_app_length.
Qed.

Lemma index_lookup l i x :
  0 <= i -> l !! Z.to_nat i = Some x -> index l i = Ret x.
Proof.
  intros Hi Hl. apply index_ret. rewrite zget_lookup; [done|].
  apply lookup_lt_Some in Hl. unfold zlen. lia.
Qed.

Lemma slice_at l a b p s r :
  l = p ++ s ++ r -> a = zlen p -> b = zlen p + zlen s -> slice l a b = Ret s.
Proof. intros ->. apply slice_app_r. Qed.

Lemma length_overwrite l src :
  (length src <= length l)%nat -> length (overwrite l src) = length l.
Proof. intros. unfold overwrite. rewrite length_app, length_drop. lia. Qed.

End slices.

(** ** Bit fields *)

(** A field placed above [n] low bits. *)
Lemma lor_shiftl a n b : 0 <= n -> 0 <= b < 2 ^ n -> Z.lor (Z.shiftl a n) b = a * 2 ^ n + b.
Proof.
  intros Hn Hb. rewrite <- Z.shiftl_mul_pow2 by done. rewrite <- Z.add_lor_land.
  assert (Z.land (Z.shiftl a n) b = 0) as ->; [|lia].
  apply Z.bits_inj'. intros i Hi. rewrite Z.land_spec, Z.bits_0, Z.shiftl_spec by done.
  destruct (decide (i < n)); [by rewrite Z.testbit_neg_r by lia|].
  pose proof (Z.pow_le_mono_r 2 n i ltac:(lia) ltac:(lia)).
  rewrite (Z.testbit_eqb b), Z.div_small by lia. apply andb_false_r.
Qed.

(** A field read back with a mask of [m] ones. *)
Lemma field_of x n m : 0 <= n -> 0 <= m -> Z.land (Z.shiftr x n) (Z.ones m) = (x / 2 ^ n) `mod` 2 ^ m.
Proof. intros. by rewrite Z.land_ones, Z.shiftr_div_pow2. Qed.

(** ** Byte strings *)

(** The bytes of a Rust byte-string or ASCII string literal. *)
Fixpoint lit (s : string) : list Z :=
  match s with
  | EmptyString => []
  | String c s => Z.of_N (Ascii.N_of_ascii c) :: lit s
  end.

Abbreviation bytes_ok := (Forall is_u8).

Lemma lit_bytes s : bytes_ok (lit s).
Proof.
  induction s as [|c s IH]; constructor; [|done].
  destruct c as [[] [] [] [] [] [] [] []]; split; cbv; congruence.
Qed.

(** ** Automation *)

Create HintDb kernel.
Create Rewrite HintDb zlen.
#[export] Hint Resolve wrap_range lit_bytes zlen_nonneg : kernel.
#[export] Hint Rewrite @zlen_app @zlen_cons @zlen_nil : zlen.

(** Evaluate the monadic binds of a goal whose head is a value. *)
Ltac unbind := cbn [mbind mret outcome_bind outcome_ret option_bind option_ret] in *.

(** Case split on the scrutinee of every [match] and [if] of the goal. *)
Ltac split_match :=
  repeat (case_match || case_decide); simplify_eq/=; try done.

(** Lengths. *)
Ltac zlen_lia := unfold zlen in *; simpl in *; autorewrite with zlen in *; lia.
