(* ===== verification/RustStr.v ===== *)
(** * The parts of Rust's [core::str] and [core::fmt] the kernel uses

    A [&str] is the list of its UTF-8 bytes.  This file models UTF-8
    validation and encoding, the [str] methods the kernel calls (with ASCII
    patterns) and the formatting directives of its messages. *)

From S2P Require Import Prelude.

(** ** UTF-8 *)

Definition in_rg (lo hi b : Z) : bool := (lo <=? b) && (b <=? hi).
Definition cont (b : Z) : bool := in_rg 0x80 0xBF b.

(** Decoder for well-formed sequences: no overlong forms, no surrogates,
    nothing above U+10FFFF. *)
Fixpoint utf8_decode (bs : list Z) : option (list Z) :=
  match bs with
  | [] => Some []
  | b0 :: r0 =>
    if in_rg 0 0x7F b0 then cons b0 <$> utf8_decode r0
    else match r0 with
    | [] => None
    | b1 :: r1 =>
      if in_rg 0xC2 0xDF b0 && cont b1
      then cons ((b0 - 0xC0) * 64 + (b1 - 0x80)) <$> utf8_decode r1
      else match r1 with
      | [] => None
      | b2 :: r2 =>
        if ((in_rg 0xE0 0xE0 b0 && in_rg 0xA0 0xBF b1)
            || (in_rg 0xE1 0xEC b0 && cont b1)
            || (in_rg 0xED 0xED b0 && in_rg 0x80 0x9F b1)
            || (in_rg 0xEE 0xEF b0 && cont b1)) && cont b2
        then cons ((b0 - 0xE0) * 4096 + (b1 - 0x80) * 64 + (b2 - 0x80))
               <$> utf8_decode r2
        else match r2 with
        | [] => None
        | b3 :: r3 =>
          if ((in_rg 0xF0 0xF0 b0 && in_rg 0x90 0xBF b1)
              || (in_rg 0xF1 0xF3 b0 && cont b1)
              || (in_rg 0xF4 0xF4 b0 && in_rg 0x80 0x8F b1)) && cont b2 && cont b3
          then cons ((b0 - 0xF0) * 262144 + (b1 - 0x80) * 4096
                     + (b2 - 0x80) * 64 + (b3 - 0x80)) <$> utf8_decode r3
          else None
        end
      end
    end
  end.

(** [char::encode_utf8]. *)
Definition utf8_char (c : Z) : list Z :=
  if c <? 0x80 then [c]
  else if c <? 0x800 then [0xC0 + c / 64; 0x80 + c `mod` 64]
  else if c <? 0x10000
       then [0xE0 + c / 4096; 0x80 + (c / 64) `mod` 64; 0x80 + c `mod` 64]
  else [0xF0 + c / 262144; 0x80 + (c / 4096) `mod` 64;
        0x80 + (c / 64) `mod` 64; 0x80 + c `mod` 64].

Definition utf8_encode (cs : list Z) : list Z := cs ≫= utf8_char.

(** [core::str::from_utf8(bs).ok()] and [String::from_utf8(bs).ok()]. *)
Definition from_utf8 (bs : list Z) : option (list Z) :=
  match utf8_decode bs with Some _ => Some bs | None => None end.

(** A Unicode scalar value, the values of Rust's [char]. *)
Definition is_char (c : Z) : Prop := 0 <= c < 0xD800 \/ 0xE000 <= c < 0x110000.

(** ** [str] methods *)

Definition slash : Z := 47.

(** [s.starts_with(p)]. *)
Fixpoint starts_with (p s : list Z) : bool :=
  match p, s with
  | [], _ => true
  | _, [] => false
  | a :: p, b :: s => (a =? b) && starts_with p s
  end.

(** [s.contains(c)] for an ASCII [char]. *)
Definition contains (c : Z) (s : list Z) : bool := existsb (Z.eqb c) s.

(** [s.trim_start_matches(c)]. *)
Fixpoint trim_start_matches (c : Z) (s : list Z) : list Z :=
  match s with
  | a :: s' => if a =? c then trim_start_matches c s' else s
  | [] => []
  end.

(** [s.find(c)]. *)
Fixpoint find_char (c : Z) (s : list Z) : option nat :=
  match s with
  | [] => None
  | a :: s' => if a =? c then Some 0%nat else S <$> find_char c s'
  end.

(** [s.rsplit(c).next()]: the part after the last [c]; a split always has a
    first item, so the value is never [None]. *)
Fixpoint rsplit_next (c : Z) (s : list Z) : list Z :=
  match s with
  | [] => []
  | a :: s' =>
    if contains c s' then rsplit_next c s' else if a =? c then s' else s
  end.

(** ** Numbers *)

(** [char::to_digit(16)]. *)
Definition hex_digit (b : Z) : option Z :=
  if in_rg 48 57 b then Some (b - 48)
  else if in_rg 97 102 b then Some (b - 87)
  else if in_rg 65 70 b then Some (b - 55)
  else None.

(** The digit loop of [u32::from_str_radix(_, 16)]: stops at the first
    character that is not a digit and at an overflow. *)
Fixpoint hex_digits (acc : Z) (bs : list Z) : option Z :=
  match bs with
  | [] => Some acc
  | b :: bs =>
    match hex_digit b with
    | None => None
    | Some d =>
      let acc' := acc * 16 + d in
      if acc' <? 2 ^ 32 then hex_digits acc' bs else None
    end
  end.

(** [u32::from_str_radix(s, 16).ok()]: no digits is an error, one leading
    ['+'] is accepted. *)
Definition u32_from_hex (s : list Z) : option Z :=
  match s with
  | [] => None
  | [b] => if (b =? 43) || (b =? 45) then None else hex_digits 0 [b]
  | b :: ds => if b =? 43 then hex_digits 0 ds else hex_digits 0 s
  end.

(** [{}] of an unsigned integer. *)
Fixpoint dec_go (fuel : nat) (n : Z) (acc : list Z) : list Z :=
  match fuel with
  | O => acc
  | S fuel =>
    let acc' := (48 + n `mod` 10) :: acc in
    if n / 10 =? 0 then acc' else dec_go fuel (n / 10) acc'
  end.
Definition fmt_dec (n : Z) : list Z := dec_go (S (Z.to_nat (Z.log2 n))) n [].

(** [{}] of a signed integer. *)
Definition fmt_int (n : Z) : list Z :=
  if n <? 0 then 45 :: fmt_dec (- n) else fmt_dec n.

(** ** Lemmas *)

Lemma in_rg_spec lo hi b : in_rg lo hi b = true <-> lo <= b <= hi.
Proof. unfold in_rg. rewrite andb_true_iff, !Z.leb_le. done. Qed.

Lemma utf8_ascii bs :
  Forall (fun b => 0 <= b < 0x80) bs -> utf8_decode bs = Some bs.
Proof.
  induction 1 as [|b bs Hb _ IH]; [done|]. simpl.
  rewrite (proj2 (in_rg_spec 0 0x7F b)) by lia. by rewrite IH.
Qed.

Lemma from_utf8_ascii bs :
  Forall (fun b => 0 <= b < 0x80) bs -> from_utf8 bs = Some bs.
Proof. intros. unfold from_utf8. by rewrite utf8_ascii. Qed.

Lemma from_utf8_Some bs s : from_utf8 bs = Some s -> s = bs.
Proof. unfold from_utf8. case_match; naive_solver. Qed.

Lemma starts_with_spec p s :
  starts_with p s = true <-> exists k, s = p ++ k.
Proof.
  revert s. induction p as [|a p IH]; intros [|b s]; simpl.
  - naive_solver.
  - naive_solver.
  - split; [done|]. by intros [k ?].
  - rewrite andb_true_iff, Z.eqb_eq, IH. split.
    + intros [-> [k ->]]. by exists k.
    + intros [k ?]. simplify_eq. naive_solver.
Qed.

Lemma contains_spec c s : contains c s = true <-> c ∈ s.
Proof.
  unfold contains. rewrite existsb_exists. setoid_rewrite <- list_elem_of_In.
  setoid_rewrite Z.eqb_eq. naive_solver.
Qed.

Lemma contains_false c s : contains c s = false <-> c ∉ s.
Proof. rewrite <- contains_spec. destruct (contains c s); naive_solver. Qed.

(** The last path component: no separator in it, and it ends the path. *)
Lemma rsplit_next_spec c s :
  c ∉ rsplit_next c s /\
  (rsplit_next c s = s \/ exists p, s = p ++ c :: rsplit_next c s).
Proof.
  induction s as [|a s IH]; [split; [apply not_elem_of_nil|by left]|].
  cbn [rsplit_next]. destruct (contains c s) eqn:Hs.
  - destruct IH as [IH1 IH2]. split; [done|]. right.
    destruct IH2 as [E|[p E]].
    + rewrite E in IH1. by apply contains_spec in Hs.
    + exists (a :: p). simpl. by rewrite <- E.
  - apply contains_false in Hs. case_match eqn:Ea.
    + apply Z.eqb_eq in Ea as ->. split; [done|]. right. by exists [].
    + apply Z.eqb_neq in Ea. split; [|by left].
      rewrite elem_of_cons. naive_solver.
Qed.

Lemma trim_start_matches_spec c s :
  exists n, s = replicate n c ++ trim_start_matches c s /\
            head (trim_start_matches c s) <> Some c.
Proof.
  induction s as [|a s [n [E H]]]; [by exists 0%nat|]. simpl.
  case_match eqn:Ea.
  - apply Z.eqb_eq in Ea as ->. exists (S n). simpl. by rewrite <- E.
  - apply Z.eqb_neq in Ea. exists 0%nat. split; [done|]. naive_solver.
Qed.

Lemma trim_start_matches_id c s :
  head s <> Some c -> trim_start_matches c s = s.
Proof.
  destruct s as [|a s]; simpl; [done|]. intros. case_match eqn:E; [|done].
  apply Z.eqb_eq in E as ->. done.
Qed.

(** Decoding is a left inverse of encoding: every Rust string is valid. *)
Lemma utf8_decode_char c s :
  is_char c -> utf8_decode (utf8_char c ++ s) = cons c <$> utf8_decode s.
Proof.
  intros Hc. unfold is_char in Hc. unfold utf8_char.
  pose proof (Z.mod_pos_bound c 64). pose proof (Z.mod_pos_bound (c / 64) 64).
  pose proof (Z.mod_pos_bound (c / 4096) 64).
  pose proof (Z.div_mod c 64). pose proof (Z.div_mod (c / 64) 64).
  pose proof (Z.div_mod (c / 4096) 64).
  assert (c / 4096 = c / 64 / 64) as E1 by (by rewrite Z.div_div by lia).
  assert (c / 262144 = c / 4096 / 64) as E2 by (by rewrite Z.div_div by lia).
  repeat case_match;
    repeat match goal with
    | H : (_ <? _) = true |- _ => apply Z.ltb_lt in H
    | H : (_ <? _) = false |- _ => apply Z.ltb_ge in H end; cbn [app utf8_decode];
    rewrite ?E1, ?E2 in *; unfold cont, in_rg;
    repeat (let b := fresh in
            match goal with |- context [(?x <=? ?y)] =>
              destruct (Z.leb_spec x y) as [b|b] end; try lia; cbn [andb orb]);
    try (f_equal; f_equal; lia); try lia.
Qed.

Lemma utf8_roundtrip cs :
  Forall is_char cs -> utf8_decode (utf8_encode cs) = Some cs.
Proof.
  induction 1 as [|c cs Hc _ IH]; [done|]. unfold utf8_encode in *.
  rewrite bind_cons, utf8_decode_char by done. by rewrite IH.
Qed.

Lemma hex_digit_range b d : hex_digit b = Some d -> 0 <= d < 16.
Proof.
  unfold hex_digit. intros. repeat case_match; simplify_eq;
  repeat match goal with H : in_rg _ _ _ = true |- _ => apply in_rg_spec in H end; lia.
Qed.

Lemma hex_digits_range acc bs n :
  is_u32 acc -> hex_digits acc bs = Some n -> is_u32 n.
Proof.
  revert acc. induction bs as [|b bs IH]; intros acc Ha; simpl; [naive_solver|].
  destruct (hex_digit b) as [d|] eqn:Hd; simpl; [|done].
  apply hex_digit_range in Hd. case_match eqn:Hlt; [|done].
  apply IH. apply Z.ltb_lt in Hlt. unfold is_u in *. lia.
Qed.

Lemma u32_from_hex_range s n : u32_from_hex s = Some n -> is_u32 n.
Proof.
  unfold u32_from_hex. intros H.
  assert (is_u32 0) by (unfold is_u; lia).
  repeat case_match; simplify_eq; eauto using hex_digits_range.
Qed.
