(* ===== verification/KeyBuffer.v ===== *)
(** * The keyboard ring buffer ([drivers/keyboard.rs], [KeyBuffer])

    The 256-byte ring the keyboard interrupt fills and the readers
    ([try_read_char]) drain.  The specification is a bounded FIFO queue; the
    class [ByteQueue] is what the readers are proved against and the ring is
    its instance. *)

From S2P Require Import Prelude.

Definition KEY_BUF_SIZE : Z := 256.

Record KeyBuffer := mkKeyBuffer {
  kb_buf : list Z;
  kb_read : Z;
  kb_write : Z;
  kb_count : Z;
}.

Module KeyRing.

Definition new : KeyBuffer :=
  mkKeyBuffer (replicate (Z.to_nat KEY_BUF_SIZE) 0) 0 0 0.

(** [self.buf[i] = byte]: panics out of range. *)
Definition buf_store (buf : list Z) (i b : Z) : outcome (list Z) :=
  if decide (0 <= i < zlen buf) then Ret (<[Z.to_nat i := b]> buf) else Panic.

(** The checked [write + 1], [count + 1] and [count - 1] cannot overflow: the
    indexed store bounds [write] and the guards bound [count]. *)
Definition push (q : KeyBuffer) (byte : Z) : outcome KeyBuffer :=
  if kb_count q <? KEY_BUF_SIZE then
    buf' ← buf_store (kb_buf q) (kb_write q) byte;
    Ret (mkKeyBuffer buf' (kb_read q)
           ((kb_write q + 1) `mod` KEY_BUF_SIZE) (kb_count q + 1))
  else Ret q.

Definition pop (q : KeyBuffer) : outcome (option Z * KeyBuffer) :=
  if kb_count q =? 0 then Ret (None, q)
  else
    byte ← index (kb_buf q) (kb_read q);
    Ret (Some byte,
         mkKeyBuffer (kb_buf q) ((kb_read q + 1) `mod` KEY_BUF_SIZE)
           (kb_write q) (kb_count q - 1)).

(** ** The queue a ring holds *)

Definition slot (q : KeyBuffer) (i : nat) : Z :=
  default 0 (kb_buf q !! Z.to_nat ((kb_read q + Z.of_nat i) `mod` KEY_BUF_SIZE)).

(** Queued bytes, oldest first. *)
Definition contents (q : KeyBuffer) : list Z :=
  slot q <$> seq 0 (Z.to_nat (kb_count q)).

Record inv (q : KeyBuffer) : Prop := {
  inv_len : zlen (kb_buf q) = KEY_BUF_SIZE;
  inv_read : 0 <= kb_read q < KEY_BUF_SIZE;
  inv_count : 0 <= kb_count q <= KEY_BUF_SIZE;
  inv_write : kb_write q = (kb_read q + kb_count q) `mod` KEY_BUF_SIZE;
}.

Lemma inv_new : inv new.
Proof. by split. Qed.

Lemma length_contents q : length (contents q) = Z.to_nat (kb_count q).
Proof. unfold contents. by rewrite length_fmap, length_seq. Qed.

Lemma mod_shift_inj a i j :
  0 <= i < KEY_BUF_SIZE -> 0 <= j < KEY_BUF_SIZE ->
  (a + i) `mod` KEY_BUF_SIZE = (a + j) `mod` KEY_BUF_SIZE -> i = j.
Proof.
  unfold KEY_BUF_SIZE. intros.
  pose proof (Z.div_mod (a + i) 256). pose proof (Z.div_mod (a + j) 256). lia.
Qed.

(** A store through the write index leaves the queued slots alone. *)
Lemma slot_store_old buf r w c c' b w' c'' i :
  zlen buf = KEY_BUF_SIZE -> w = (r + c) `mod` KEY_BUF_SIZE ->
  0 <= c < KEY_BUF_SIZE -> (i < Z.to_nat c)%nat ->
  slot (mkKeyBuffer (<[Z.to_nat w := b]> buf) r w' c') i
  = slot (mkKeyBuffer buf r w c'') i.
Proof.
  intros Hlen -> Hc Hi. unfold slot; simpl. f_equal.
  apply list_lookup_insert_ne. intros E.
  apply Z2Nat.inj in E; [|apply Z.mod_pos_bound; done..].
  apply mod_shift_inj in E; unfold KEY_BUF_SIZE in *; lia.
Qed.

Lemma push_spec q b :
  inv q ->
  exists q', push q b = Ret q' /\ inv q' /\
    contents q' = if kb_count q <? KEY_BUF_SIZE then contents q ++ [b] else contents q.
Proof.
  destruct q as [buf r w c]. intros [Hl Hr Hc Hw]. unfold push; simpl in *.
  destruct (Z.ltb_spec c KEY_BUF_SIZE) as [Hlt|]; [|by eexists].
  assert (0 <= w < KEY_BUF_SIZE) by (subst; by apply Z.mod_pos_bound).
  unfold buf_store. rewrite decide_True by (rewrite Hl; done). simpl.
  eexists; split; [done|]. split.
  - split; simpl; [|lia|lia|].
    + unfold zlen in *. by rewrite length_insert.
    + subst w. unfold KEY_BUF_SIZE. rewrite Zplus_mod_idemp_l. f_equal. lia.
  - unfold contents; simpl. replace (Z.to_nat (c + 1)) with (S (Z.to_nat c)) by lia.
    rewrite seq_S, fmap_app. simpl. f_equal.
    + apply list_fmap_ext. intros i ? [-> ?]%lookup_seq. simpl.
      apply (slot_store_old buf r w c); [done|done|lia|lia].
    + unfold slot; simpl. rewrite Z2Nat.id by lia. rewrite <- Hw.
      rewrite list_lookup_insert_eq; [done|]. unfold zlen, KEY_BUF_SIZE in *. lia.
Qed.

Lemma pop_spec q :
  inv q ->
  exists q', pop q = Ret (head (contents q), q') /\ inv q' /\
    contents q' = tail (contents q).
Proof.
  destruct q as [buf r w c]. intros [Hl Hr Hc Hw]. unfold pop; simpl in *.
  destruct (Z.eqb_spec c 0) as [->|Hne].
  { eexists. by split_and!. }
  destruct (lookup_lt_is_Some_2 buf (Z.to_nat r)) as [x Hx].
  { unfold zlen, KEY_BUF_SIZE in *. lia. }
  assert (index buf r = Ret x) as ->.
  { apply index_ret. rewrite zget_lookup; [done|]. by rewrite Hl. }
  destruct (Z.to_nat c) as [|n] eqn:En; [lia|].
  assert (contents (mkKeyBuffer buf r w c)
          = x :: contents (mkKeyBuffer buf ((r + 1) `mod` KEY_BUF_SIZE) w (c - 1))) as ->.
  { unfold contents; simpl. rewrite En. replace (Z.to_nat (c - 1)) with n by lia.
    simpl. f_equal.
    - unfold slot; simpl. rewrite Z.add_0_r, Z.mod_small by done. by rewrite Hx.
    - rewrite <- fmap_S_seq, <- list_fmap_compose. apply list_fmap_ext.
      intros i j _. unfold slot; simpl. do 2 f_equal.
      unfold KEY_BUF_SIZE. rewrite Zplus_mod_idemp_l. do 2 f_equal. lia. }
  eexists; split; [done|]. split; [|done]. split; simpl; [done| |lia|].
  - by apply Z.mod_pos_bound.
  - subst w. unfold KEY_BUF_SIZE. rewrite Zplus_mod_idemp_l. f_equal. lia.
Qed.

End KeyRing.

(** ** The interface of the input queue

    What a byte queue promises its readers: a queue of at most [q_cap] bytes,
    in arrival order; bytes that arrive when it is full are dropped, and
    neither operation can panic. *)

Class ByteQueue (Q : Type) := {
  q_push : Q -> Z -> outcome Q;
  q_pop : Q -> outcome (option Z * Q);
  q_inv : Q -> Prop;
  q_list : Q -> list Z;
  q_cap : nat;
  q_bounded q : q_inv q -> (length (q_list q) <= q_cap)%nat;
  q_push_ok q b : q_inv q -> exists q', q_push q b = Ret q' /\ q_inv q' /\
    q_list q' = if (length (q_list q) <? q_cap)%nat then q_list q ++ [b] else q_list q;
  q_pop_ok q : q_inv q -> exists q', q_pop q = Ret (head (q_list q), q') /\ q_inv q' /\
    q_list q' = tail (q_list q);
}.

#[export] Program Instance ring_queue : ByteQueue KeyBuffer := {|
  q_push := KeyRing.push;
  q_pop := KeyRing.pop;
  q_inv := KeyRing.inv;
  q_list := KeyRing.contents;
  q_cap := Z.to_nat KEY_BUF_SIZE;
|}.
Next Obligation.
  intros q [_ _ Hc _]. rewrite KeyRing.length_contents. lia.
Qed.
Next Obligation.
  intros q b H. destruct (KeyRing.push_spec q b H) as (q' & E & Hi & Hq).
  exists q'. split_and!; [done..|]. rewrite Hq, KeyRing.length_contents.
  destruct H. destruct (Z.ltb_spec (kb_count q) KEY_BUF_SIZE);
    destruct (Nat.ltb_spec (Z.to_nat (kb_count q)) (Z.to_nat KEY_BUF_SIZE)); done || lia.
Qed.
Next Obligation.
  intros q H. destruct (KeyRing.pop_spec q H) as (q' & E & Hi & Hq). eauto.
Qed.

(** ** Runs of pushes and pops *)

Inductive QueueOp := Push (b : Z) | Pop.

Section runs.
Context {Q : Type} `{!ByteQueue Q}.

(** A run of operations: the final queue and what the pops returned. *)
Fixpoint run (ops : list QueueOp) (q : Q) : outcome (list (option Z) * Q) :=
  match ops with
  | [] => Ret ([], q)
  | Push b :: ops => q' ← q_push q b; run ops q'
  | Pop :: ops =>
    r ← q_pop q;
    rs ← run ops r.2;
    Ret (r.1 :: rs.1, rs.2)
  end.

(** The same run on the specification, a list of at most [q_cap] bytes. *)
Fixpoint run_spec (cap : nat) (ops : list QueueOp) (l : list Z) : list (option Z) * list Z :=
  match ops with
  | [] => ([], l)
  | Push b :: ops => run_spec cap ops (if (length l <? cap)%nat then l ++ [b] else l)
  | Pop :: ops => let r := run_spec cap ops (tail l) in (head l :: r.1, r.2)
  end.

Lemma run_refines ops q :
  q_inv q ->
  exists q', run ops q = Ret ((run_spec q_cap ops (q_list q)).1, q') /\ q_inv q' /\
    q_list q' = (run_spec q_cap ops (q_list q)).2.
Proof.
  revert q. induction ops as [|[b|] ops IH]; intros q Hq; simpl.
  - by exists q.
  - destruct (q_push_ok q b Hq) as (q1 & -> & Hi & <-). by apply IH.
  - destruct (q_pop_ok q Hq) as (q1 & -> & Hi & <-). simpl.
    destruct (IH q1 Hi) as (q2 & -> & ? & ?). by exists q2.
Qed.

End runs.

(** C14: From the empty ring, every sequence of [push] and [pop] runs without
    a panic and behaves as a first-in first-out queue of 256 bytes: each
    [pop] returns the oldest byte still queued, [None] exactly when nothing
    is queued, and a [push] into a full ring drops the new byte. *)
Theorem ring_is_bounded_fifo (ops : list QueueOp) :
  exists q', run ops KeyRing.new = Ret ((run_spec 256 ops []).1, q') /\
    KeyRing.inv q' /\ KeyRing.contents q' = (run_spec 256 ops []).2.
Proof.
  destruct (@run_refines KeyBuffer ring_queue ops KeyRing.new KeyRing.inv_new) as (q' & E & Hi & Hq).
  exists q'. split; [exact E|]. split; [exact Hi|exact Hq].
Qed.
