(* ===== verification/Mem.v ===== *)
(** * Raw memory

    The kernel dereferences raw pointers (the VGA buffer, the buffers and
    strings of system calls).  Memory is a finite map from addresses to
    bytes; an access to an address that is not mapped raises a page fault,
    and [page_fault_handler] ([arch/x86_64/interrupts.rs]) panics. *)

From S2P Require Import Prelude.

Abbreviation mem := (gmap Z Z).

(** Every mapped byte is a byte. *)
Definition mem_ok (m : mem) : Prop := forall a v, m !! a = Some v -> is_u8 v.

Definition mapped (m : mem) (a n : Z) : Prop :=
  forall i, 0 <= i < n -> is_Some (m !! (a + i)).

(** [*p], [p.read_volatile()] for [p : *const u8]. *)
Definition load8 (m : mem) (a : Z) : outcome Z := unwrap (m !! a).

(** [*p = v], [p.write_volatile(v)] for [p : *mut u8]. *)
Definition store8 (m : mem) (a v : Z) : outcome mem :=
  match m !! a with Some _ => Ret (<[a := v]> m) | None => Panic end.

(** 16-bit accesses, little endian. *)
Definition load16 (m : mem) (a : Z) : outcome Z :=
  lo ← load8 m a; hi ← load8 m (a + 1); Ret (lo + 256 * hi).

Definition store16 (m : mem) (a v : Z) : outcome mem :=
  m' ← store8 m a (v `mod` 256); store8 m' (a + 1) ((v / 256) `mod` 256).

(** Stores of consecutive bytes, in order. *)
Fixpoint store_list (m : mem) (a : Z) (bs : list Z) : outcome mem :=
  match bs with
  | [] => Ret m
  | b :: bs => m' ← store8 m a b; store_list m' (a + 1) bs
  end.

(** Loads of [n] consecutive bytes. *)
Fixpoint load_list (m : mem) (a : Z) (n : nat) : outcome (list Z) :=
  match n with
  | O => Ret []
  | S n => b ← load8 m a; bs ← load_list m (a + 1) n; Ret (b :: bs)
  end.

(** Loops [for i in lo..hi] whose body can panic. *)
Fixpoint for_n {S} (n : nat) (i : Z) (body : Z -> S -> outcome S) (s : S) : outcome S :=
  match n with
  | O => Ret s
  | Datatypes.S n => s' ← body i s; for_n n (i + 1) body s'
  end.
Definition for_range {S} (lo hi : Z) (body : Z -> S -> outcome S) : S -> outcome S :=
  for_n (Z.to_nat (hi - lo)) lo body.

Lemma for_range_inv {S} (P : Z -> S -> Prop) lo hi body s :
  lo <= hi -> P lo s ->
  (forall i s, lo <= i < hi -> P i s -> exists s', body i s = Ret s' /\ P (i + 1) s') ->
  exists s', for_range lo hi body s = Ret s' /\ P hi s'.
Proof.
  intros Hle HP Hbody. unfold for_range.
  remember (Z.to_nat (hi - lo)) as n eqn:En.
  revert lo s Hle HP Hbody En. induction n as [|n IH]; intros lo s Hle HP Hbody En; simpl.
  - exists s. split; [done|]. by replace hi with lo by lia.
  - destruct (Hbody lo s) as (s1 & -> & HP1); [lia|done|]. simpl.
    apply IH; [lia|done| |lia]. intros. apply Hbody; [lia|done].
Qed.

Lemma load8_ret m a v : m !! a = Some v -> load8 m a = Ret v.
Proof. intros H. unfold load8. by rewrite H. Qed.

Lemma store8_ret m a v : is_Some (m !! a) -> store8 m a v = Ret (<[a := v]> m).
Proof. intros [x H]. unfold store8. by rewrite H. Qed.

Lemma store8_panic m a v : store8 m a v = Panic <-> m !! a = None.
Proof. unfold store8. destruct (m !! a); naive_solver. Qed.

Lemma mapped_insert m a n b v : mapped m a n -> mapped (<[b := v]> m) a n.
Proof. intros H i Hi. rewrite lookup_insert. case_decide; [done|by apply H]. Qed.

Lemma mem_ok_insert m a v : mem_ok m -> is_u8 v -> mem_ok (<[a := v]> m).
Proof. intros Hm Hv b x. rewrite lookup_insert. case_decide; naive_solver. Qed.

Lemma mapped_le m a n n' : mapped m a n -> n' <= n -> mapped m a n'.
Proof. intros H ? i ?. apply H. lia. Qed.

#[export] Hint Resolve mapped_insert mem_ok_insert : kernel.

Lemma store_list_spec m a bs :
  mapped m a (zlen bs) ->
  exists m', store_list m a bs = Ret m' /\
    (forall b, m' !! b = if decide (a <= b < a + zlen bs)
                         then bs !! Z.to_nat (b - a) else m !! b).
Proof.
  revert m a. induction bs as [|x bs IH]; intros m a H.
  - exists m. split; [done|]. intros b. rewrite decide_False; [done|]. zlen_lia.
  - rewrite zlen_cons in H. pose proof (zlen_nonneg bs). simpl.
    rewrite store8_ret by (replace a with (a + 0) by lia; apply H; lia). simpl.
    destruct (IH (<[a := x]> m) (a + 1)) as (m' & -> & Hm').
    { apply mapped_insert. intros i ?. replace (a + 1 + i) with (a + (1 + i)) by lia.
      apply H. lia. }
    exists m'. split; [done|]. intros b. rewrite Hm', zlen_cons.
    repeat case_decide; try lia.
    + replace (Z.to_nat (b - a)) with (S (Z.to_nat (b - (a + 1)))) by lia. done.
    + replace b with a by lia. rewrite lookup_insert_eq.
      by replace (Z.to_nat (a - a)) with 0%nat by lia.
    + by rewrite lookup_insert_ne by lia.
Qed.

Lemma load_list_spec m a (bs : list Z) :
  (forall i b, bs !! i = Some b -> m !! (a + Z.of_nat i) = Some b) ->
  load_list m a (length bs) = Ret bs.
Proof.
  revert a. induction bs as [|x bs IH]; intros a H; simpl; [done|].
  rewrite (load8_ret m a x) by (replace a with (a + Z.of_nat 0) by lia; by apply H).
  simpl. rewrite IH; [done|]. intros i b Hb.
  replace (a + 1 + Z.of_nat i) with (a + Z.of_nat (S i)) by lia. by apply H.
Qed.

Lemma store_list_ok m a bs m' :
  mem_ok m -> bytes_ok bs -> store_list m a bs = Ret m' -> mem_ok m'.
Proof.
  revert m a. induction bs as [|b bs IH]; intros m a Hm Hb; simpl; [naive_solver|].
  inversion Hb; subst. unfold store8. destruct (m !! a); [|done]. simpl.
  apply IH; [|done]. by apply mem_ok_insert.
Qed.

(** A memory with one mapped region. *)
Definition region (a : Z) (bs : list Z) : mem := map_seqZ a bs.

Lemma mapped_region a bs n : n <= zlen bs -> mapped (region a bs) a n.
Proof.
  intros Hn i Hi. unfold region, zlen in *. apply lookup_map_seqZ_is_Some. lia.
Qed.

Lemma mem_ok_region a bs : bytes_ok bs -> mem_ok (region a bs).
Proof.
  intros H b v. unfold region. rewrite lookup_map_seqZ_Some.
  intros [_ Hv]. eapply Forall_lookup_1; eauto.
Qed.
