(* ===== verification/Vga.v ===== *)
(** * The VGA text console ([drivers/vga.rs])

    The [Writer] and the 80x25 text buffer at 0xB8000, written through raw
    pointers.  The specification is a terminal: a grid of cells, a cursor and
    a colour. *)

From S2P Require Import Prelude Mem.

Definition BUFFER_WIDTH : Z := 80.
Definition BUFFER_HEIGHT : Z := 25.
Definition VGA_BUFFER_ADDR : Z := 0xB8000.

Inductive Color :=
| Black | Blue | Green | Cyan | Red | Magenta | Brown | LightGray
| DarkGray | LightBlue | LightGreen | LightCyan | LightRed | Pink | Yellow | White.

(** [c as u8]: the discriminants of the enum. *)
Definition color_u8 (c : Color) : Z :=
  match c with
  | Black => 0 | Blue => 1 | Green => 2 | Cyan => 3 | Red => 4 | Magenta => 5
  | Brown => 6 | LightGray => 7 | DarkGray => 8 | LightBlue => 9
  | LightGreen => 10 | LightCyan => 11 | LightRed => 12 | Pink => 13
  | Yellow => 14 | White => 15
  end.

(** [ColorCode::new]: [(bg as u8) << 4 | (fg as u8)]. *)
Definition ColorCode_new (fg bg : Color) : Z :=
  Z.lor (as_u8 (Z.shiftl (color_u8 bg) 4)) (color_u8 fg).

Record Writer := mkWriter {
  column_position : Z;
  color_code : Z;
  row : Z;
}.

Module Vga.

Definition offset (r c : Z) : Z := (r * BUFFER_WIDTH + c) * 2.

(** The address of a cell. *)
Definition addr (r c : Z) : Z := VGA_BUFFER_ADDR + offset r c.

Definition write_char_at (m : mem) (r c ascii color : Z) : outcome mem :=
  m' ← store8 m (addr r c) ascii; store8 m' (addr r c + 1) color.

Definition write_raw_at (m : mem) (r c cell : Z) : outcome mem :=
  store16 m (addr r c) cell.

Definition read_char_at (m : mem) (r c : Z) : outcome Z := load16 m (addr r c).

Definition scroll (w : Writer) (m : mem) : outcome mem :=
  m ← for_range 1 BUFFER_HEIGHT (fun r =>
        for_range 0 BUFFER_WIDTH (fun c m =>
          ch ← read_char_at m r c; write_raw_at m (r - 1) c ch)) m;
  for_range 0 BUFFER_WIDTH (fun c m =>
    write_char_at m (BUFFER_HEIGHT - 1) c 32 (color_code w)) m.

Definition new_line (w : Writer) (m : mem) : outcome (Writer * mem) :=
  if row w <? BUFFER_HEIGHT - 1 then Ret (mkWriter 0 (color_code w) (row w + 1), m)
  else m' ← scroll w m; Ret (mkWriter 0 (color_code w) (row w), m').

Definition write_byte (w : Writer) (m : mem) (byte : Z) : outcome (Writer * mem) :=
  if byte =? 10 then new_line w m
  else
    wm ← (if column_position w >=? BUFFER_WIDTH then new_line w m else Ret (w, m));
    m' ← write_char_at wm.2 (row wm.1) (column_position wm.1) byte (color_code wm.1);
    Ret (mkWriter (column_position wm.1 + 1) (color_code wm.1) (row wm.1), m').

(** The byte a [str] byte is shown as: printable ASCII and newline as
    themselves, anything else as 0xFE. *)
Definition glyph (b : Z) : Z :=
  if ((0x20 <=? b) && (b <=? 0x7e)) || (b =? 10) then b else 0xFE.

Fixpoint write_string (w : Writer) (m : mem) (s : list Z) : outcome (Writer * mem) :=
  match s with
  | [] => Ret (w, m)
  | b :: s => wm ← write_byte w m (glyph b); write_string wm.1 wm.2 s
  end.

Definition clear (w : Writer) (m : mem) : outcome (Writer * mem) :=
  m' ← for_range 0 BUFFER_HEIGHT (fun r =>
         for_range 0 BUFFER_WIDTH (fun c m =>
           write_char_at m r c 32 (color_code w))) m;
  Ret (mkWriter 0 (color_code w) 0, m').

Definition backspace (w : Writer) (m : mem) : outcome (Writer * mem) :=
  if column_position w >? 0 then
    let c := column_position w - 1 in
    m' ← write_char_at m (row w) c 32 (color_code w);
    Ret (mkWriter c (color_code w) (row w), m')
  else Ret (w, m).

Definition set_color (w : Writer) (fg bg : Color) : Writer :=
  mkWriter (column_position w) (ColorCode_new fg bg) (row w).

(** The static [WRITER]. *)
Definition initial : Writer := mkWriter 0 (ColorCode_new White Black) 0.

(** ** Well-formedness *)

Definition inv (w : Writer) : Prop :=
  0 <= column_position w <= BUFFER_WIDTH /\ 0 <= row w < BUFFER_HEIGHT /\
  is_u8 (color_code w).

(** The text buffer is mapped. *)
Definition ready (m : mem) : Prop := mapped m VGA_BUFFER_ADDR 4000 /\ mem_ok m.

(** ** The terminal a writer and a buffer show *)

Definition Cell : Type := Z * Z.

Definition cell (m : mem) (r c : Z) : Cell :=
  (default 0 (m !! addr r c), default 0 (m !! (addr r c + 1))).

Definition line (m : mem) (r : Z) : list Cell := cell m r <$> seqZ 0 BUFFER_WIDTH.
Definition grid (m : mem) : list (list Cell) := line m <$> seqZ 0 BUFFER_HEIGHT.

Record Term := mkTerm { t_grid : list (list Cell); t_row : Z; t_col : Z; t_color : Z }.

Definition term_of (w : Writer) (m : mem) : Term :=
  mkTerm (grid m) (row w) (column_position w) (color_code w).

Definition put (g : list (list Cell)) (r c : Z) (x : Cell) : list (list Cell) :=
  alter (insert (Z.to_nat c) x) (Z.to_nat r) g.

Definition blank_line (color : Z) : list Cell := replicate 80 (32, color).

Definition t_new_line (t : Term) : Term :=
  if t_row t <? 24 then mkTerm (t_grid t) (t_row t + 1) 0 (t_color t)
  else mkTerm (tail (t_grid t) ++ [blank_line (t_color t)]) (t_row t) 0 (t_color t).

Definition t_put (t : Term) (b : Z) : Term :=
  mkTerm (put (t_grid t) (t_row t) (t_col t) (b, t_color t)) (t_row t) (t_col t + 1) (t_color t).

Definition t_write_byte (t : Term) (b : Z) : Term :=
  if b =? 10 then t_new_line t
  else t_put (if t_col t <? 80 then t else t_new_line t) b.

Definition t_write_string (t : Term) (s : list Z) : Term :=
  foldl (fun t b => t_write_byte t (glyph b)) t s.

Definition t_clear (t : Term) : Term :=
  mkTerm (replicate 25 (blank_line (t_color t))) 0 0 (t_color t).

Definition t_backspace (t : Term) : Term :=
  if t_col t >? 0
  then mkTerm (put (t_grid t) (t_row t) (t_col t - 1) (32, t_color t))
         (t_row t) (t_col t - 1) (t_color t)
  else t.

(** Memory outside the text buffer is untouched. *)
Definition frame (m m' : mem) : Prop :=
  forall a, ~ VGA_BUFFER_ADDR <= a < VGA_BUFFER_ADDR + 4000 -> m' !! a = m !! a.

#[global] Instance frame_refl : Reflexive frame.
Proof. done. Qed.
#[global] Instance frame_trans : Transitive frame.
Proof. intros m1 m2 m3 H1 H2 a Ha. by rewrite H2, H1. Qed.

(** ** Single cells *)

Definition on_screen (r c : Z) : Prop := 0 <= r < BUFFER_HEIGHT /\ 0 <= c < BUFFER_WIDTH.

Ltac vga_lia := unfold on_screen, BUFFER_HEIGHT, BUFFER_WIDTH in *; lia.

Lemma cell_mapped m r c :
  ready m -> on_screen r c ->
  is_Some (m !! addr r c) /\ is_Some (m !! (addr r c + 1)).
Proof.
  intros [H _] [Hr Hc]. unfold addr, offset, BUFFER_WIDTH, BUFFER_HEIGHT in *. split.
  - apply H. lia.
  - rewrite <- Z.add_assoc. apply H. lia.
Qed.

(** Writing one cell. *)
Lemma write_cell m r c x y :
  ready m -> on_screen r c -> is_u8 x -> is_u8 y ->
  exists m', write_char_at m r c x y = Ret m' /\ ready m' /\ frame m m' /\
    cell m' r c = (x, y) /\
    forall r' c', on_screen r' c' -> (r', c') <> (r, c) -> cell m' r' c' = cell m r' c'.
Proof.
  intros Hm Hrc Hx Hy. destruct (cell_mapped m r c Hm Hrc) as [H1 H2].
  unfold write_char_at. rewrite store8_ret by done. simpl.
  rewrite store8_ret by (rewrite lookup_insert; case_decide; done).
  eexists; split; [done|]. split_and!.
  - destruct Hm. split; auto with kernel.
  - intros a Ha. destruct Hrc.
    unfold addr, offset, BUFFER_WIDTH, BUFFER_HEIGHT in *.
    rewrite !lookup_insert_ne by lia. done.
  - unfold cell. rewrite lookup_insert_eq, lookup_insert_ne, lookup_insert_eq by lia. done.
  - intros r' c' [Hr' Hc'] Hne. destruct Hrc as [Hr Hc]. unfold cell.
    assert (addr r' c' <> addr r c /\ addr r' c' <> addr r c + 1
            /\ addr r' c' + 1 <> addr r c) as (?&?&?).
    { unfold addr, offset, BUFFER_WIDTH, BUFFER_HEIGHT in *.
      assert (r' <> r \/ c' <> c) by (destruct (decide (r' = r)); naive_solver).
      split_and!; lia. }
    rewrite !lookup_insert_ne by lia. done.
Qed.

(** Copying one raw cell. *)
Lemma copy_cell m r c r' c' :
  ready m -> on_screen r c -> on_screen r' c' ->
  exists m', (ch ← read_char_at m r c; write_raw_at m r' c' ch) = Ret m' /\
    ready m' /\ frame m m' /\ cell m' r' c' = cell m r c /\
    forall a b, on_screen a b -> (a, b) <> (r', c') -> cell m' a b = cell m a b.
Proof.
  intros Hm Hrc Hrc'. destruct (cell_mapped m r c Hm Hrc) as [[x Hx] [y Hy]].
  unfold read_char_at, load16. rewrite (load8_ret _ _ _ Hx). simpl.
  rewrite (load8_ret _ _ _ Hy). simpl.
  assert (is_u8 x /\ is_u8 y) as [Hux Huy].
  { destruct Hm as [_ Hok]. split; [exact (Hok _ _ Hx)|exact (Hok _ _ Hy)]. }
  unfold write_raw_at, store16.
  replace ((x + 256 * y) `mod` 256) with x.
  2:{ unfold is_u in *. rewrite Z.mul_comm, Z_mod_plus_full, Z.mod_small; lia. }
  replace (((x + 256 * y) / 256) `mod` 256) with y.
  2:{ unfold is_u in *. rewrite Z.mul_comm, Z.div_add, Z.div_small, Z.mod_small; lia. }
  destruct (write_cell m r' c' x y) as (m' & Hw & ? & ? & Hc & ?); [done..|].
  exists m'. unfold write_char_at in Hw. split_and!; [done..| |done].
  rewrite Hc. unfold cell. by rewrite Hx, Hy.
Qed.

(** ** Loops over cells *)

(** The cells before [(r, c)] in row order. *)
Definition before (r c r' c' : Z) : Prop := r' < r \/ (r' = r /\ c' < c).

Lemma scroll_spec w m :
  inv w -> ready m ->
  exists m', scroll w m = Ret m' /\ ready m' /\ frame m m' /\
    (forall r c, on_screen r c -> cell m' r c =
       if decide (r < 24) then cell m (r + 1) c else (32, color_code w)).
Proof.
  intros (Hcol & Hrow & Hcc) Hm. unfold scroll.
  edestruct (for_range_inv (fun r m' => ready m' /\ frame m m' /\
     forall a b, on_screen a b ->
       cell m' a b = if decide (a < r - 1) then cell m (a + 1) b else cell m a b)
     1 BUFFER_HEIGHT) as (m1 & -> & Hm1 & Hf1 & Hc1); [done| | |].
  { split_and!; [done..|]. intros a b [??]. by rewrite decide_False by lia. }
  { intros r m1 Hr (Hm1 & Hf1 & Hc1).
    edestruct (for_range_inv (fun c m' => ready m' /\ frame m m' /\
       forall a b, on_screen a b ->
         cell m' a b = if decide (before (r - 1) c a b) then cell m (a + 1) b else cell m a b)
       0 BUFFER_WIDTH) as (m2 & -> & Hm2 & Hf2 & Hc2); [done| | |].
    - split_and!; [done..|]. intros a b Hab. rewrite Hc1 by done. unfold before.
      destruct Hab. repeat case_decide; done || lia.
    - intros c m2 Hc (Hm2 & Hf2 & Hc2).
      destruct (copy_cell m2 r c (r - 1) c) as (m3 & -> & Hm3 & Hf3 & He & Ho);
        [done|split; lia|split; lia|].
      exists m3. split_and!; [done|done|by etrans|]. intros a b Hab.
      destruct (decide ((a, b) = (r - 1, c))) as [E|Hne].
      + injection E as -> ->. rewrite He, Hc2 by (split; lia). unfold before.
        rewrite decide_False by lia. rewrite decide_True by lia. f_equal. lia.
      + rewrite Ho, Hc2 by done. unfold before.
        assert (a <> r - 1 \/ b <> c) by (destruct (decide (a = r - 1)); naive_solver).
        repeat case_decide; done || lia.
    - exists m2. split_and!; [done..|]. intros a b Hab. rewrite Hc2 by done.
      unfold before. destruct Hab as [? [??]]. unfold BUFFER_WIDTH in *.
      repeat case_decide; done || lia. }
  simpl.
  edestruct (for_range_inv (fun c m' => ready m' /\ frame m m' /\
     forall a b, on_screen a b -> cell m' a b =
       if decide (a < 24) then cell m (a + 1) b
       else if decide (b < c) then (32, color_code w) else cell m a b)
     0 BUFFER_WIDTH) as (m2 & -> & Hm2 & Hf2 & Hc2); [done| | |].
  - split_and!; [done..|]. intros a b Hab. rewrite Hc1 by done.
    destruct Hab as [? [??]]. unfold BUFFER_HEIGHT in *. repeat case_decide; done || lia.
  - intros c m2 Hc (Hm2 & Hf2 & Hc2).
    destruct (write_cell m2 (BUFFER_HEIGHT - 1) c 32 (color_code w))
      as (m3 & -> & Hm3 & Hf3 & He & Ho); [done|split; done|done..|].
    exists m3. split_and!; [done|done|by etrans|]. intros a b Hab.
    destruct (decide ((a, b) = (BUFFER_HEIGHT - 1, c))) as [E|Hne].
    + injection E as -> ->. rewrite He. rewrite decide_False by done.
      by rewrite decide_True by lia.
    + rewrite Ho, Hc2 by done. unfold BUFFER_HEIGHT in *. destruct Hab as [[??] ?].
      unfold BUFFER_HEIGHT in *.
      assert (a <> 24 \/ b <> c) by (destruct (decide (a = 24)); naive_solver).
      repeat case_decide; done || lia.
  - exists m2. split_and!; [done..|]. intros a b Hab. rewrite Hc2 by done.
    destruct Hab as [? [??]]. repeat case_decide; done || lia.
Qed.

Lemma clear_spec w m :
  inv w -> ready m ->
  exists m', clear w m = Ret (mkWriter 0 (color_code w) 0, m') /\ ready m' /\
    frame m m' /\ forall r c, on_screen r c -> cell m' r c = (32, color_code w).
Proof.
  intros (Hcol & Hrow & Hcc) Hm. unfold clear.
  edestruct (for_range_inv (fun r m' => ready m' /\ frame m m' /\
     forall a b, on_screen a b -> a < r -> cell m' a b = (32, color_code w))
     0 BUFFER_HEIGHT) as (m1 & -> & Hm1 & Hf1 & Hc1); [done| | |].
  { split_and!; [done..|]. intros a b [??]. lia. }
  { intros r m1 Hr (Hm1 & Hf1 & Hc1).
    edestruct (for_range_inv (fun c m' => ready m' /\ frame m m' /\
       forall a b, on_screen a b -> before r c a b -> cell m' a b = (32, color_code w))
       0 BUFFER_WIDTH) as (m2 & -> & Hm2 & Hf2 & Hc2); [done| | |].
    - split_and!; [done..|]. intros a b [??] [?|?]; [|lia]. by apply Hc1.
    - intros c m2 Hc (Hm2 & Hf2 & Hc2).
      destruct (write_cell m2 r c 32 (color_code w)) as (m3 & -> & Hm3 & Hf3 & He & Ho);
        [done|done|done|done|].
      exists m3. split_and!; [done|done|by etrans|]. intros a b Hab Hb.
      destruct (decide ((a, b) = (r, c))) as [E|Hne]; [by simplify_eq|].
      rewrite Ho by done. apply Hc2; [done|].
      assert (a <> r \/ b <> c) by (destruct (decide (a = r)); naive_solver).
      unfold before in *. lia.
    - exists m2. split_and!; [done..|]. intros a b Hab ?. apply Hc2; [done|].
      destruct Hab. unfold before. lia. }
  exists m1. split_and!; [done..|]. intros a b Hab. apply Hc1; [done|]. by destruct Hab as [[??] ?].
Qed.

(** ** The grid view *)

Lemma lookup_line m r (c : nat) :
  line m r !! c = if decide (Z.of_nat c < BUFFER_WIDTH) then Some (cell m r (Z.of_nat c)) else None.
Proof.
  unfold line. rewrite list_lookup_fmap. case_decide.
  - by rewrite lookup_seqZ_lt by lia.
  - by rewrite lookup_seqZ_ge by lia.
Qed.

Lemma lookup_grid m (r : nat) :
  grid m !! r = if decide (Z.of_nat r < BUFFER_HEIGHT) then Some (line m (Z.of_nat r)) else None.
Proof.
  unfold grid. rewrite list_lookup_fmap. case_decide.
  - by rewrite lookup_seqZ_lt by lia.
  - by rewrite lookup_seqZ_ge by lia.
Qed.

Lemma line_ext m r (l : list Cell) :
  length l = 80%nat ->
  (forall c, 0 <= c < 80 -> l !! Z.to_nat c = Some (cell m r c)) -> line m r = l.
Proof.
  intros Hl H. apply list_eq. intros c. rewrite lookup_line. unfold BUFFER_WIDTH.
  case_decide.
  - rewrite <- (H (Z.of_nat c)) by lia. by rewrite Nat2Z.id.
  - symmetry. apply lookup_ge_None. lia.
Qed.

Lemma grid_ext m (g : list (list Cell)) :
  length g = 25%nat ->
  (forall r, 0 <= r < 25 -> g !! Z.to_nat r = Some (line m r)) -> grid m = g.
Proof.
  intros Hl H. apply list_eq. intros r. rewrite lookup_grid. unfold BUFFER_HEIGHT.
  case_decide.
  - rewrite <- (H (Z.of_nat r)) by lia. by rewrite Nat2Z.id.
  - symmetry. apply lookup_ge_None. lia.
Qed.

(** Writing a cell is an update of the grid. *)
Lemma grid_put m m' r c x :
  on_screen r c -> cell m' r c = x ->
  (forall r' c', on_screen r' c' -> (r', c') <> (r, c) -> cell m' r' c' = cell m r' c') ->
  grid m' = put (grid m) r c x.
Proof.
  intros Hrc Hx Ho. apply grid_ext.
  { unfold put. rewrite length_alter. unfold grid. by rewrite length_fmap. }
  intros r' Hr'. unfold put. rewrite list_lookup_alter.
  destruct Hrc as [Hr Hc]. unfold BUFFER_HEIGHT, BUFFER_WIDTH in *.
  destruct (decide (Z.to_nat r = Z.to_nat r')) as [E|Hne];
    rewrite lookup_grid, Z2Nat.id, decide_True by (unfold BUFFER_HEIGHT; lia); simpl; f_equal.
  - assert (r = r') as <- by lia. symmetry. apply line_ext.
    { by rewrite length_insert. }
    intros c' Hc'. rewrite list_lookup_insert.
    destruct (decide _) as [[E1 ?]|Hn]; [assert (c = c') as <- by lia; by f_equal|].
    rewrite lookup_line, Z2Nat.id, decide_True by (unfold BUFFER_WIDTH; lia). f_equal.
    symmetry. apply Ho; [done|]. intros [= ->]. apply Hn. split; [done|].
    change (length (line m r)) with 80%nat. lia.
  - symmetry. apply line_ext; [done|].
    intros c' Hc'. rewrite lookup_line, Z2Nat.id, decide_True by (unfold BUFFER_WIDTH; lia).
    f_equal. symmetry. apply Ho; [done|]. intros [= -> _]. done.
Qed.

Lemma line_blank m r y :
  0 <= r < 25 -> (forall c, on_screen r c -> cell m r c = (32, y)) -> line m r = blank_line y.
Proof.
  intros Hr H. apply line_ext; [done|]. intros c Hc. unfold blank_line.
  rewrite lookup_replicate_2 by lia. by rewrite H.
Qed.

Lemma grid_scroll m m' y :
  (forall r c, on_screen r c -> cell m' r c =
       if decide (r < 24) then cell m (r + 1) c else (32, y)) ->
  grid m' = tail (grid m) ++ [blank_line y].
Proof.
  intros H. apply grid_ext; [done|]. intros r Hr.
  destruct (decide (r < 24)) as [Hlt|Hge].
  - rewrite lookup_app_l.
    2:{ change (length (tail (grid m))) with 24%nat. lia. }
    rewrite lookup_tail, lookup_grid, decide_True by (unfold BUFFER_HEIGHT; lia).
    replace (Z.of_nat (S (Z.to_nat r))) with (r + 1) by lia. f_equal.
    symmetry. apply line_ext; [done|]. intros c Hc.
    rewrite lookup_line, Z2Nat.id, decide_True by (unfold BUFFER_WIDTH; lia).
    by rewrite H, decide_True by done.
  - replace r with 24 by lia. simpl. f_equal. symmetry. apply line_blank; [done|].
    intros c Hc. by rewrite H.
Qed.

(** ** The writer implements the terminal *)

Definition refines (t : Term) (w : Writer) (m m0 : mem) : Prop :=
  inv w /\ ready m /\ frame m0 m /\ term_of w m = t.

Lemma new_line_spec w m :
  inv w -> ready m ->
  exists w' m', new_line w m = Ret (w', m') /\
    refines (t_new_line (term_of w m)) w' m' m.
Proof.
  intros Hw Hm. pose proof Hw as (Hcol & Hrow & Hcc). unfold new_line, t_new_line.
  simpl t_row. change (BUFFER_HEIGHT - 1) with 24. destruct (Z.ltb_spec (row w) 24).
  - do 2 eexists. split; [done|]. unfold refines, inv. simpl.
    unfold BUFFER_HEIGHT, BUFFER_WIDTH in *. split_and!; done || lia.
  - destruct (scroll_spec w m Hw Hm) as (m' & -> & Hm' & Hf & Hg). simpl.
    do 2 eexists. split; [done|]. unfold refines, inv. simpl.
    unfold BUFFER_HEIGHT, BUFFER_WIDTH in *. split_and!; try (done || lia).
    unfold term_of. simpl. f_equal. by apply grid_scroll.
Qed.

Lemma put_char_spec w m b :
  inv w -> column_position w < BUFFER_WIDTH -> ready m -> is_u8 b ->
  exists m', write_char_at m (row w) (column_position w) b (color_code w) = Ret m' /\
    refines (t_put (term_of w m) b)
      (mkWriter (column_position w + 1) (color_code w) (row w)) m' m.
Proof.
  intros (Hcol & Hrow & Hcc) Hlt Hm Hb.
  destruct (write_cell m (row w) (column_position w) b (color_code w))
    as (m' & -> & Hm' & Hf & He & Ho); [done|split; lia|done..|].
  exists m'. split; [done|]. unfold refines, inv. simpl.
  unfold BUFFER_HEIGHT, BUFFER_WIDTH in *. split_and!; try (done || lia).
  unfold term_of, t_put. simpl. f_equal. apply grid_put; [vga_lia|done..].
Qed.

Lemma write_byte_spec w m b :
  inv w -> ready m -> is_u8 b ->
  exists w' m', write_byte w m b = Ret (w', m') /\
    refines (t_write_byte (term_of w m) b) w' m' m.
Proof.
  intros Hw Hm Hb. unfold write_byte, t_write_byte.
  case_match; [by apply new_line_spec|]. simpl t_col.
  rewrite Z.geb_leb. change BUFFER_WIDTH with 80.
  destruct (Z.ltb_spec (column_position w) 80) as [Hlt|Hge].
  - rewrite (proj2 (Z.leb_gt _ _)) by lia. simpl.
    destruct (put_char_spec w m b) as (m' & -> & HR); [done..|]. simpl. eauto.
  - rewrite (proj2 (Z.leb_le _ _)) by lia.
    destruct (new_line_spec w m Hw Hm) as (w1 & m1 & E & Hw1 & Hm1 & Hf1 & Ht1).
    rewrite E. simpl.
    destruct (put_char_spec w1 m1 b) as (m' & -> & ? & ? & ? & ?); [done| |done..|].
    { unfold new_line in E. destruct (row w <? _); [|destruct (scroll w m)];
        simplify_eq/=; done. }
    simpl. do 2 eexists. split; [done|]. rewrite <- Ht1. unfold refines.
    split_and!; [done|done|by etrans|done].
Qed.

Lemma glyph_u8 b : is_u8 (glyph b).
Proof.
  unfold glyph. destruct (Z.leb_spec 0x20 b), (Z.leb_spec b 0x7e), (Z.eqb_spec b 10);
    simpl; try done; split; lia.
Qed.

Lemma write_string_app w m s s' :
  write_string w m (s ++ s') = wm ← write_string w m s; write_string wm.1 wm.2 s'.
Proof.
  revert w m. induction s as [|b s IH]; intros w m; [done|]. simpl.
  destruct (write_byte w m (glyph b)) as [[w1 m1]|]; [|done]. apply IH.
Qed.

Lemma write_string_spec w m s :
  inv w -> ready m ->
  exists w' m', write_string w m s = Ret (w', m') /\
    refines (t_write_string (term_of w m) s) w' m' m.
Proof.
  revert w m. induction s as [|b s IH]; intros w m Hw Hm; simpl.
  - do 2 eexists. by split.
  - destruct (write_byte_spec w m (glyph b)) as (w1 & m1 & -> & ? & ? & ? & Ht);
      [by auto using glyph_u8..|]. simpl.
    destruct (IH w1 m1) as (w2 & m2 & -> & ? & ? & ? & Ht2); [done..|].
    do 2 eexists. split; [done|]. unfold refines. rewrite <- Ht, Ht2.
    split_and!; [done|done|by etrans|done].
Qed.

Lemma backspace_spec w m :
  inv w -> ready m ->
  exists w' m', backspace w m = Ret (w', m') /\
    refines (t_backspace (term_of w m)) w' m' m.
Proof.
  intros (Hcol & Hrow & Hcc) Hm. unfold backspace, t_backspace. simpl t_col.
  rewrite Z.gtb_ltb. destruct (Z.ltb_spec 0 (column_position w)).
  - destruct (write_cell m (row w) (column_position w - 1) 32 (color_code w))
      as (m' & -> & Hm' & Hf & He & Ho); [done|split; lia|done..|].
    do 2 eexists. split; [done|]. unfold refines, inv. simpl.
    unfold BUFFER_HEIGHT, BUFFER_WIDTH in *. split_and!; try (done || lia).
    unfold term_of. simpl. f_equal. apply grid_put; [vga_lia|done..].
  - do 2 eexists. split; [done|]. unfold refines, inv.
    unfold BUFFER_HEIGHT, BUFFER_WIDTH in *. split_and!; done || lia.
Qed.

Lemma clear_term_spec w m :
  inv w -> ready m ->
  exists w' m', clear w m = Ret (w', m') /\
    refines (t_clear (term_of w m)) w' m' m.
Proof.
  intros Hw Hm. destruct (clear_spec w m Hw Hm) as (m' & -> & Hm' & Hf & Hc).
  destruct Hw as (_ & _ & Hcc). do 2 eexists. split; [done|].
  unfold refines, inv, term_of, t_clear. cbn [column_position row color_code t_color].
  split_and!; try (done || vga_lia). f_equal.
  apply grid_ext; [done|]. intros r Hr. rewrite lookup_replicate_2 by lia.
  f_equal. symmetry. apply line_blank; [done|]. auto.
Qed.

(** ** Runs of console operations *)

Inductive ConsoleOp :=
| Print (s : list Z)
| Clear
| Backspace
| SetColor (fg bg : Color).

Definition exec (o : ConsoleOp) (w : Writer) (m : mem) : outcome (Writer * mem) :=
  match o with
  | Print s => write_string w m s
  | Clear => clear w m
  | Backspace => backspace w m
  | SetColor fg bg => Ret (set_color w fg bg, m)
  end.

Definition t_exec (o : ConsoleOp) (t : Term) : Term :=
  match o with
  | Print s => t_write_string t s
  | Clear => t_clear t
  | Backspace => t_backspace t
  | SetColor fg bg => mkTerm (t_grid t) (t_row t) (t_col t) (color_u8 bg * 16 + color_u8 fg)
  end.

Fixpoint exec_all (os : list ConsoleOp) (w : Writer) (m : mem) : outcome (Writer * mem) :=
  match os with
  | [] => Ret (w, m)
  | o :: os => wm ← exec o w m; exec_all os wm.1 wm.2
  end.

Lemma exec_spec o w m :
  inv w -> ready m ->
  exists w' m', exec o w m = Ret (w', m') /\ refines (t_exec o (term_of w m)) w' m' m.
Proof.
  intros Hw Hm. destruct o; simpl;
    [by apply write_string_spec|by apply clear_term_spec|by apply backspace_spec|].
  do 2 eexists. split; [done|]. destruct Hw as (?&?&?). unfold refines, inv. simpl.
  split_and!; try (done || vga_lia).
  all: by destruct fg, bg.
Qed.

Lemma initial_inv : inv initial.
Proof. unfold inv, initial. simpl. split_and!; done. Qed.

End Vga.

(** C11: Whatever is printed, cleared, erased or recoloured on the console from the
    static [WRITER], with the text buffer mapped at 0xB8000, nothing panics
    and no byte outside the 4000 bytes of the buffer changes; the cursor
    stays on the screen, and the buffer shows what an 80x25 terminal shows:
    bytes at the cursor in the current colour, non-printable bytes as 0xFE,
    a new line at column 80 and at '\n', and scrolling by one line, with a
    blank line at the bottom, when the last row is full. *)
Theorem console_refines_terminal (os : list Vga.ConsoleOp) (m : mem) :
  Vga.ready m ->
  exists w' m', Vga.exec_all os Vga.initial m = Ret (w', m') /\
    Vga.inv w' /\ Vga.ready m' /\ Vga.frame m m' /\
    Vga.term_of w' m' = foldl (fun t o => Vga.t_exec o t) (Vga.term_of Vga.initial m) os.
Proof.
  intros Hm. generalize Vga.initial, Vga.initial_inv. revert m Hm.
  induction os as [|o os IH]; intros m Hm w Hw; simpl.
  - by exists w, m.
  - destruct (Vga.exec_spec o w m) as (w1 & m1 & -> & Hw1 & Hm1 & Hf1 & Ht1); [done..|].
    destruct (IH m1 Hm1 w1 Hw1) as (w2 & m2 & E & Hw2 & Hm2 & Hf2 & Ht2).
    exists w2, m2. rewrite <- Ht1. split_and!; [done..|by etrans|done].
Qed.

Lemma console_refines_terminal_witness :
  let os := [Vga.Print (lit "hello"); Vga.Backspace; Vga.SetColor Red Black; Vga.Clear] in
  exists w' m', Vga.exec_all os Vga.initial (region VGA_BUFFER_ADDR (replicate 4000 0))
                = Ret (w', m') /\ Vga.inv w'.
Proof.
  edestruct (console_refines_terminal
    [Vga.Print (lit "hello"); Vga.Backspace; Vga.SetColor Red Black; Vga.Clear]
    (region VGA_BUFFER_ADDR (replicate 4000 0))) as (w' & m' & E & Hw & _).
  - split; [by apply mapped_region|]. apply mem_ok_region. by apply Forall_replicate.
  - exists w', m'. exact (conj E Hw).
Defined.
