(* ===== verification/Kernel.v ===== *)
(** * Kernel state

    The statics of the kernel as one record, and the monad its free functions
    run in.  The types of the process table ([process/mod.rs]) and of the
    file-descriptor table ([syscall/mod.rs]) are declared here; their
    operations are in [Signal.v], [Scheduler.v], [Process.v] and [Syscall.v]. *)

From S2P Require Import Prelude RustStr KeyBuffer Mem Vga.

(** ** Processes ([process/mod.rs]) *)

Inductive ProcessState := Ready | Running | Blocked | Zombie.
Inductive Priority := PIdle | PLow | PNormal | PHigh | PRealTime.

#[export] Instance ProcessState_eq_dec : EqDecision ProcessState.
Proof. solve_decision. Defined.
#[export] Instance Priority_eq_dec : EqDecision Priority.
Proof. solve_decision. Defined.

(** The process control block; [p_name] is the bytes of the [String]. *)
Record Process := mkProcess {
  p_pid : Z;
  p_parent_pid : Z;
  p_name : list Z;
  p_state : ProcessState;
  p_priority : Priority;
  p_kernel_rsp : Z;
  p_exit_code : Z;
  p_pending_signals : Z;
}.

#[export] Instance Process_eq_dec : EqDecision Process.
Proof. solve_decision. Defined.

(** ** Open files ([syscall/mod.rs]) *)

Inductive PseudoNode :=
| ProcVersion | ProcUptime | ProcMeminfo | SysHostname
| DevNull | DevZero | DevFull | DevTtyS0.

#[export] Instance PseudoNode_eq_dec : EqDecision PseudoNode.
Proof. solve_decision. Defined.

Record OpenFile := mkOpenFile { f_node : PseudoNode; f_offset : Z }.

(** ** The platform

    Code outside the repository the kernel calls: the [pc_keyboard] decoder
    and the port-mapped devices behind [x86_64::instructions::port::Port]. *)

Inductive KeyCode := KeyBackspace | KeyDelete | KeyOther (debug : list Z).
Inductive DecodedKey := Unicode (c : Z) | RawKey (k : KeyCode).

(** [{:?}] of a [KeyCode]: the constructor's name. *)
Definition KeyCode_debug (k : KeyCode) : list Z :=
  match k with
  | KeyBackspace => lit "Backspace"
  | KeyDelete => lit "Delete"
  | KeyOther d => d
  end.

Class Platform := {
  (** [pc_keyboard::Keyboard<Us104Key, ScancodeSet1>] *)
  Keyboard : Type;
  KeyEvent : Type;
  (** [add_byte]: [None] is [Err(_)] *)
  add_byte : Keyboard -> Z -> option (option KeyEvent) * Keyboard;
  process_keyevent : Keyboard -> KeyEvent -> option DecodedKey * Keyboard;
  (** the devices behind the I/O ports, and a byte-wide port read *)
  Devices : Type;
  port_read : Devices -> Z -> Z * Devices;
}.

(** What the kernel sends out: the initialisation of the UART at a port, bytes
    for COM1, end-of-interrupt commands, and bytes written to other ports. *)
Inductive Io :=
| UartInit (port : Z)
| Com1 (bs : list Z)
| Eoi (vector : Z)
| PortOut (port byte : Z).

(** ** The statics

    [irqs] is the environment: the vectors of the interrupts that will arrive while the
    kernel waits in [hlt]. *)
Record Kernel `{P : Platform} := mkKernel {
  PROCESS_TABLE : list Process;
  NEXT_PID : Z;
  TICK : Z;
  CURRENT_PID : Z;
  FD_TABLE : list (option OpenFile);
  KEY_BUFFER : KeyBuffer;
  KEYBOARD : Keyboard;
  WRITER : Writer;
  memory : mem;
  devices : Devices;
  trace : list Io;
  irqs : list Z;
}.

Section state.
Context `{P : Platform}.
Implicit Types (k : Kernel).

Definition set_table (t : list Process) k : Kernel :=
  mkKernel _ t (NEXT_PID k) (TICK k) (CURRENT_PID k) (FD_TABLE k) (KEY_BUFFER k)
    (KEYBOARD k) (WRITER k) (memory k) (devices k) (trace k) (irqs k).
Definition set_next_pid (n : Z) k : Kernel :=
  mkKernel _ (PROCESS_TABLE k) n (TICK k) (CURRENT_PID k) (FD_TABLE k) (KEY_BUFFER k)
    (KEYBOARD k) (WRITER k) (memory k) (devices k) (trace k) (irqs k).
Definition set_tick (n : Z) k : Kernel :=
  mkKernel _ (PROCESS_TABLE k) (NEXT_PID k) n (CURRENT_PID k) (FD_TABLE k) (KEY_BUFFER k)
    (KEYBOARD k) (WRITER k) (memory k) (devices k) (trace k) (irqs k).
Definition set_current (n : Z) k : Kernel :=
  mkKernel _ (PROCESS_TABLE k) (NEXT_PID k) (TICK k) n (FD_TABLE k) (KEY_BUFFER k)
    (KEYBOARD k) (WRITER k) (memory k) (devices k) (trace k) (irqs k).
Definition set_fds (t : list (option OpenFile)) k : Kernel :=
  mkKernel _ (PROCESS_TABLE k) (NEXT_PID k) (TICK k) (CURRENT_PID k) t (KEY_BUFFER k)
    (KEYBOARD k) (WRITER k) (memory k) (devices k) (trace k) (irqs k).
Definition set_input (q : KeyBuffer) (kb : Keyboard) (d : Devices) k : Kernel :=
  mkKernel _ (PROCESS_TABLE k) (NEXT_PID k) (TICK k) (CURRENT_PID k) (FD_TABLE k) q
    kb (WRITER k) (memory k) d (trace k) (irqs k).
Definition set_screen (w : Writer) (m : mem) k : Kernel :=
  mkKernel _ (PROCESS_TABLE k) (NEXT_PID k) (TICK k) (CURRENT_PID k) (FD_TABLE k) (KEY_BUFFER k)
    (KEYBOARD k) w m (devices k) (trace k) (irqs k).
Definition set_irqs (l : list Z) k : Kernel :=
  mkKernel _ (PROCESS_TABLE k) (NEXT_PID k) (TICK k) (CURRENT_PID k) (FD_TABLE k) (KEY_BUFFER k)
    (KEYBOARD k) (WRITER k) (memory k) (devices k) (trace k) l.
Definition add_io (e : Io) k : Kernel :=
  mkKernel _ (PROCESS_TABLE k) (NEXT_PID k) (TICK k) (CURRENT_PID k) (FD_TABLE k) (KEY_BUFFER k)
    (KEYBOARD k) (WRITER k) (memory k) (devices k) (trace k ++ [e]) (irqs k).

(** ** Computations

    How a kernel function ends: it returns; it panics (the machine stops in
    the panic handler); it never returns ([loop { hlt() }]), interrupts going
    on; or the interrupts of [irqs] are used up while it waits in [hlt]. *)

Inductive res (A : Type) : Type :=
| Done (a : A) (k : Kernel)
| Panicked (k : Kernel)
| Halted (k : Kernel)
| Waiting (k : Kernel).

End state.

Arguments Done {P A} a k.
Arguments Panicked {P A} k.
Arguments Halted {P A} k.
Arguments Waiting {P A} k.

Definition M `{P : Platform} (A : Type) : Type := Kernel -> res A.

#[export] Instance M_ret `{P : Platform} : MRet M := fun A a k => Done a k.
#[export] Instance M_bind `{P : Platform} : MBind M := fun A B f m k =>
  match m k with
  | Done a k' => f a k'
  | Panicked k' => Panicked k'
  | Halted k' => Halted k'
  | Waiting k' => Waiting k'
  end.

Section monad.
Context `{P : Platform}.

Definition gets {A} (f : Kernel -> A) : M A := fun k => Done (f k) k.
Definition modify (f : Kernel -> Kernel) : M unit := fun k => Done tt (f k).

(** A pure computation that can panic. *)
Definition lift {A} (o : outcome A) : M A := fun k =>
  match o with Ret a => Done a k | Panic => Panicked k end.

(** The state a computation leaves behind, however it ends. *)
Definition state_of {A} (r : res A) : Kernel :=
  match r with Done _ k | Panicked k | Halted k | Waiting k => k end.

Definition panics {A} (r : res A) : bool :=
  match r with Panicked _ => true | _ => false end.

Definition COM1_PORT : Z := 0x3F8.

(** [serial::init]: the UART driver programs the chip. *)
Definition serial_init : M unit := modify (add_io (UartInit COM1_PORT)).

(** [serial_print!]: the formatted bytes go to the UART driver. *)
Definition serial_print (bs : list Z) : M unit := modify (add_io (Com1 bs)).
Definition serial_println (bs : list Z) : M unit := serial_print (bs ++ [10]).

(** [kprint!]: the formatted string is written by the VGA [WRITER]. *)
Definition kprint (s : list Z) : M unit := fun k =>
  match Vga.write_string (WRITER k) (memory k) s with
  | Ret (w, m) => Done tt (set_screen w m k)
  | Panic => Panicked k
  end.

(** [fmt::Write::write_str] for the [Writer] never reports an error. *)
Definition write_str (w : Writer) (m : mem) (s : list Z) : outcome (bool * (Writer * mem)) :=
  wm ← Vga.write_string w m s; Ret (true, wm).

(** [write_fmt]: the pieces of the format in order, up to the first error. *)
Fixpoint write_fmt (w : Writer) (m : mem) (pieces : list (list Z)) : outcome (bool * (Writer * mem)) :=
  match pieces with
  | [] => Ret (true, (w, m))
  | s :: pieces =>
    r ← write_str w m s;
    if (r.1 : bool) then write_fmt r.2.1 r.2.2 pieces else Ret r
  end.

(** [_kprint]: [WRITER.lock().write_fmt(args).unwrap()]. *)
Definition _kprint (pieces : list (list Z)) : M unit := fun k =>
  match write_fmt (WRITER k) (memory k) pieces with
  | Ret (true, (w, m)) => Done tt (set_screen w m k)
  | Ret (false, _) | Panic => Panicked k
  end.

(** A format printed piece by piece is the string it makes. *)
Lemma kprint_pieces pieces k : _kprint pieces k = kprint (concat pieces) k.
Proof.
  unfold _kprint, kprint. generalize (WRITER k) (memory k).
  induction pieces as [|s pieces IH]; intros w m; [done|]. cbn [write_fmt concat].
  rewrite Vga.write_string_app. unfold write_str.
  destruct (Vga.write_string w m s) as [[w1 m1]|]; [|done]. apply IH.
Qed.

End monad.

(** ** Relations between the states before and after

    [moves R m]: however [m] ends, [R] relates the state it started in to the
    state it leaves. *)
Section moves.
Context `{P : Platform} (R : relation Kernel) `{!PreOrder R}.

Definition moves {A} (m : M A) : Prop := forall k, R k (state_of (m k)).

Lemma moves_bind {A B} (m : M A) (f : A -> M B) :
  moves m -> (forall a, moves (f a)) -> moves (m ≫= f).
Proof.
  intros Hm Hf k. specialize (Hm k). unfold mbind, M_bind.
  destruct (m k); simpl in *; try done. etrans; [done|]. apply Hf.
Qed.

(** Computations that leave the state alone. *)
Lemma moves_same {A} (m : M A) : (forall k, state_of (m k) = k) -> moves m.
Proof. intros H k. by rewrite H. Qed.

Lemma moves_ret {A} (a : A) : moves (mret a).
Proof. by apply moves_same. Qed.
Lemma moves_gets {A} (f : Kernel -> A) : moves (gets f).
Proof. by apply moves_same. Qed.
Lemma moves_lift {A} (o : outcome A) : moves (lift o).
Proof. apply moves_same. intros k. by destruct o. Qed.
Lemma moves_modify f : (forall k, R k (f k)) -> moves (modify f).
Proof. intros H k. apply H. Qed.

End moves.

Create HintDb moves.
#[export] Hint Resolve moves_ret moves_gets moves_lift : moves.
#[export] Hint Extern 1 (PreOrder _) => typeclasses eauto : moves.

(** Split a computation into its primitive parts and discharge them with the
    [moves] database. *)
Ltac walk :=
  repeat first
    [ solve [auto with moves]
    | apply moves_bind; [typeclasses eauto| |intros ?]
    | apply moves_modify; intros; solve [auto with moves]
    | progress case_match
    | match goal with |- moves _ (let '(_, _) := ?p in _) => destruct p end ].

(** ** Initial values of the statics

    [static] initialisers of [process/mod.rs], [process/scheduler.rs],
    [syscall/mod.rs], [drivers/keyboard.rs] and [drivers/vga.rs]; the decoder,
    the devices, the memory and the interrupts to come are given. *)
Definition statics `{P : Platform} (kb : Keyboard) (d : Devices) (m : mem)
    (l : list Z) : Kernel :=
  mkKernel _ [] 1 0 0 [] KeyRing.new kb Vga.initial m d [] l.

(** A platform for concrete runs: the decoder turns a scancode below 0x80
    into the character with that code and ignores the others; the controller
    is a queue of scancodes, port 0x64 tells whether it is empty and port 0x60
    takes its head. *)
Module Demo.

#[global] Instance platform : Platform := {|
  Keyboard := unit;
  KeyEvent := Z;
  add_byte kb b := (Some (if b <? 0x80 then Some b else None), kb);
  process_keyevent kb e := (Some (Unicode e), kb);
  Devices := list Z;
  port_read d p :=
    if p =? 0x64 then (if d is [] then 0 else 1, d)
    else match d with [] => (0, []) | b :: d => (b, d) end;
|}.

(** A process and a kernel for examples. *)
Definition proc (pid parent : Z) (st : ProcessState) (pending : Z) : Process :=
  mkProcess pid parent (lit "demo") st PNormal 0 0 pending.

Definition kernel (t : list Process) (cur tick : Z) (m : mem) (l : list Z) : Kernel :=
  set_tick tick (set_current cur (set_table t (statics tt [] m l))).

End Demo.

(** A decidable closed proposition, by evaluation. *)
Ltac by_decide := refine (bool_decide_unpack _ _); vm_compute; exact I.

(** Case analysis over the entries of a concrete list. *)
Ltac each_entry :=
  let q := fresh "q" in let H := fresh "H" in
  intros q H; unfold Demo.kernel in H; cbn in H;
  repeat (apply elem_of_cons in H as [-> | H]; [ | ]);
  try (by apply not_elem_of_nil in H).
