(* ===== verification/Signal.v ===== *)
(** * Signals ([process/signal.rs])

    [kill] marks a signal pending, [dispatch_signals] applies the default
    actions to the process the timer interrupted. *)

From S2P Require Import Prelude Kernel.

Definition SIGHUP : Z := 1.
Definition SIGINT : Z := 2.
Definition SIGQUIT : Z := 3.
Definition SIGILL : Z := 4.
Definition SIGTRAP : Z := 5.
Definition SIGABRT : Z := 6.
Definition SIGFPE : Z := 8.
Definition SIGKILL : Z := 9.
Definition SIGSEGV : Z := 11.
Definition SIGPIPE : Z := 13.
Definition SIGALRM : Z := 14.
Definition SIGTERM : Z := 15.
Definition SIGCHLD : Z := 17.
Definition SIGCONT : Z := 18.
Definition SIGSTOP : Z := 19.

(** ** Table searches

    [table.iter().find(f)] and the update of the entry
    [table.iter_mut().find(f)] returns. *)

Definition find_proc (pid : Z) (t : list Process) : option Process :=
  List.find (fun p => p_pid p =? pid) t.

Fixpoint update_proc (pid : Z) (f : Process -> Process) (t : list Process) : list Process :=
  match t with
  | [] => []
  | p :: t => if p_pid p =? pid then f p :: t else p :: update_proc pid f t
  end.

Definition set_pending (s : Z) (p : Process) : Process :=
  mkProcess (p_pid p) (p_parent_pid p) (p_name p) (p_state p) (p_priority p)
    (p_kernel_rsp p) (p_exit_code p) s.

(** [proc.state = Zombie; proc.exit_code = code]. *)
Definition make_zombie (code : Z) (p : Process) : Process :=
  mkProcess (p_pid p) (p_parent_pid p) (p_name p) Zombie (p_priority p)
    (p_kernel_rsp p) code (p_pending_signals p).

(** [mask & (1u32 << sig) != 0]. *)
Definition has_signal (mask sig : Z) : bool :=
  negb (Z.land mask (Z.shiftl 1 sig) =? 0).

Definition terminating_sig (pending : Z) : option Z :=
  if has_signal pending SIGKILL then Some SIGKILL
  else if has_signal pending SIGTERM then Some SIGTERM
  else if has_signal pending SIGINT then Some SIGINT
  else if has_signal pending SIGQUIT then Some SIGQUIT
  else None.

(** What [dispatch_signals] does to the process it finds. *)
Definition deliver (p : Process) : Process :=
  if p_pending_signals p =? 0 then p
  else match terminating_sig (p_pending_signals p) with
       | Some sig => set_pending 0 (make_zombie (128 + sig) p)
       | None => set_pending 0 p
       end.

Section signal.
Context `{P : Platform}.

(** [kill]: the error is [Err("kill: ...")]. *)
Definition kill (pid sig : Z) : M (option unit) := fun k =>
  if sig >? 31 then Done None k
  else match find_proc pid (PROCESS_TABLE k) with
       | Some _ =>
         if negb (sig =? 0) then
           Done (Some tt)
             (set_table (update_proc pid
                (fun p => set_pending (Z.lor (p_pending_signals p) (as_u32 (Z.shiftl 1 sig))) p)
                (PROCESS_TABLE k)) k)
         else Done (Some tt) k
       | None => Done None k
       end.

Definition dispatch_signals (pid : Z) : M unit :=
  modify (fun k => set_table (update_proc pid deliver (PROCESS_TABLE k)) k).

End signal.

(** ** Lemmas on the table *)

Lemma find_proc_Some pid t p :
  find_proc pid t = Some p -> p ∈ t /\ p_pid p = pid.
Proof.
  intros [Hin Heq]%List.find_some. apply list_elem_of_In in Hin.
  apply Z.eqb_eq in Heq. done.
Qed.

Lemma find_proc_None pid t :
  find_proc pid t = None <-> pid ∉ p_pid <$> t.
Proof.
  induction t as [|p t IH]; simpl; [split; [intros; apply not_elem_of_nil|done]|].
  rewrite not_elem_of_cons. unfold find_proc in *. simpl.
  destruct (Z.eqb_spec (p_pid p) pid); [naive_solver|]. rewrite IH. naive_solver.
Qed.

Lemma length_update_proc pid f t : length (update_proc pid f t) = length t.
Proof. induction t; simpl; [done|]. case_match; simpl; auto. Qed.

Lemma update_proc_notin pid f t : pid ∉ p_pid <$> t -> update_proc pid f t = t.
Proof.
  induction t as [|p t IH]; simpl; [done|]. rewrite not_elem_of_cons.
  intros [Hne Hn]. destruct (Z.eqb_spec (p_pid p) pid); [naive_solver|]. by rewrite IH.
Qed.

(** An update that keeps a field keeps the list of its values. *)
Lemma update_proc_fmap {A} (g : Process -> A) pid f t :
  (forall p, g (f p) = g p) -> g <$> update_proc pid f t = g <$> t.
Proof.
  intros H. induction t as [|p t IH]; simpl; [done|].
  case_match; csimpl; [by rewrite H|]. by rewrite IH.
Qed.

Lemma find_update_eq pid f t :
  (forall p, p_pid (f p) = p_pid p) ->
  find_proc pid (update_proc pid f t) = f <$> find_proc pid t.
Proof.
  intros Hf. induction t as [|p t IH]; simpl; [done|]. unfold find_proc in *. simpl.
  destruct (p_pid p =? pid) eqn:E; simpl; [by rewrite Hf, E|]. by rewrite E.
Qed.

Lemma find_update_ne pid pid' f t :
  (forall p, p_pid (f p) = p_pid p) -> pid' <> pid ->
  find_proc pid' (update_proc pid f t) = find_proc pid' t.
Proof.
  intros Hf Hne. induction t as [|p t IH]; simpl; [done|]. unfold find_proc in *. simpl.
  destruct (Z.eqb_spec (p_pid p) pid) as [E|E]; simpl; [rewrite Hf|];
    destruct (Z.eqb_spec (p_pid p) pid'); congruence.
Qed.

(** With unique PIDs the first match is the only one. *)
Lemma update_proc_elem pid f t q :
  NoDup (p_pid <$> t) ->
  q ∈ update_proc pid f t <->
  exists p, p ∈ t /\ q = if p_pid p =? pid then f p else p.
Proof.
  induction t as [|p t IH]; simpl; intros Hnd.
  - split; [by intros ?%elem_of_nil|]. intros (p & ?%elem_of_nil & _). done.
  - apply NoDup_cons in Hnd as [Hn Hnd].
    setoid_rewrite elem_of_cons. destruct (Z.eqb_spec (p_pid p) pid) as [E|E].
    + rewrite elem_of_cons. split.
      * intros [->|Hq]; [exists p; rewrite (proj2 (Z.eqb_eq _ _) E); auto|].
        exists q. split; [auto|]. destruct (Z.eqb_spec (p_pid q) pid) as [E'|]; [|done].
        exfalso. apply Hn. rewrite E, <- E'. by apply list_elem_of_fmap_2.
      * intros (p' & [->|Hp'] & ->); [rewrite (proj2 (Z.eqb_eq _ _) E); auto|].
        right. destruct (Z.eqb_spec (p_pid p') pid) as [E'|]; [|done].
        exfalso. apply Hn. rewrite E, <- E'. by apply list_elem_of_fmap_2.
    + rewrite elem_of_cons, IH by done. split.
      * intros [->|(p' & ? & ?)]; [exists p|exists p'; auto].
        by rewrite (proj2 (Z.eqb_neq _ _) E); auto.
      * intros (p' & [->|Hp'] & ->); [rewrite (proj2 (Z.eqb_neq _ _) E); auto|].
        right. eauto.
Qed.

Lemma find_proc_elem pid t p :
  NoDup (p_pid <$> t) -> p ∈ t -> p_pid p = pid -> find_proc pid t = Some p.
Proof.
  intros Hnd Hp E. destruct (find_proc pid t) as [q|] eqn:Hq.
  - apply find_proc_Some in Hq as [Hq Eq]. f_equal.
    apply list_elem_of_lookup in Hp as [i Hi]. apply list_elem_of_lookup in Hq as [j Hj].
    assert (i = j) as ->; [|congruence].
    eapply (NoDup_lookup (p_pid <$> t)); [done|by rewrite list_lookup_fmap, Hi|].
    rewrite list_lookup_fmap, Hj. simpl. congruence.
  - apply find_proc_None in Hq. destruct Hq. rewrite <- E. by apply list_elem_of_fmap_2.
Qed.

Lemma deliver_pid p : p_pid (deliver p) = p_pid p.
Proof. unfold deliver. by repeat case_match. Qed.
Lemma deliver_parent p : p_parent_pid (deliver p) = p_parent_pid p.
Proof. unfold deliver. by repeat case_match. Qed.
#[export] Hint Resolve deliver_pid deliver_parent : kernel.

(** A mask bit test is a bit test. *)
Lemma has_signal_testbit mask sig :
  0 <= sig -> has_signal mask sig = Z.testbit mask sig.
Proof.
  intros. unfold has_signal. rewrite Z.shiftl_1_l.
  destruct (Z.eqb_spec (Z.land mask (2 ^ sig)) 0) as [E|E]; simpl.
  - symmetry. assert (Z.testbit (Z.land mask (2 ^ sig)) sig = false) as Hb by (by rewrite E, Z.bits_0).
    by rewrite Z.land_spec, Z.pow2_bits_true, andb_true_r in Hb.
  - destruct (Z.testbit mask sig) eqn:Hb; [done|]. destruct E.
    apply Z.bits_inj'. intros n Hn. rewrite Z.land_spec, Z.bits_0.
    destruct (decide (n = sig)) as [->|]; [by rewrite Hb|].
    by rewrite Z.pow2_bits_false, andb_false_r by done.
Qed.

(** ** What a signal does *)

(** The terminating signals, the one that wins first. *)
Definition by_strength : list Z := [SIGKILL; SIGTERM; SIGINT; SIGQUIT].

Lemma terminating_sig_spec pending :
  terminating_sig pending = List.find (Z.testbit pending) by_strength.
Proof.
  unfold terminating_sig, by_strength. cbn [List.find].
  by rewrite !has_signal_testbit by done.
Qed.

Lemma deliver_spec p :
  deliver p = match List.find (Z.testbit (p_pending_signals p)) by_strength with
              | Some sig => set_pending 0 (make_zombie (128 + sig) p)
              | None => set_pending 0 p
              end.
Proof.
  unfold deliver. rewrite terminating_sig_spec.
  destruct (Z.eqb_spec (p_pending_signals p) 0) as [E|]; [|done].
  rewrite E. simpl. destruct p; simpl in *. by subst.
Qed.

Lemma as_u32_bit sig : 0 <= sig <= 31 -> as_u32 (Z.shiftl 1 sig) = 2 ^ sig.
Proof.
  intros. rewrite Z.shiftl_1_l. apply wrap_id. split; [by apply Z.pow_nonneg|].
  apply Z.pow_lt_mono_r; lia.
Qed.

Section signal_props.
Context `{P : Platform}.

(** Sending a signal and taking the next timer tick's delivery to the target
    process: with a signal number up to 31 and a live target, [kill] succeeds
    and [dispatch_signals] clears the pending mask; the strongest of SIGKILL,
    SIGTERM, SIGINT, SIGQUIT among the signals already pending and the new one
    turns the process into a zombie with exit code 128 plus its number, and
    when there is none the process keeps its state and exit code.  No other
    process changes. *)
Theorem kill_then_dispatch (k : Kernel) (pid sig : Z) (p : Process) :
  0 <= sig <= 31 ->
  find_proc pid (PROCESS_TABLE k) = Some p ->
  0 <= p_pending_signals p ->
  let pending := if sig =? 0 then p_pending_signals p
                 else Z.lor (p_pending_signals p) (2 ^ sig) in
  exists k1 k2, kill pid sig k = Done (Some tt) k1 /\
    dispatch_signals pid k1 = Done tt k2 /\
    find_proc pid (PROCESS_TABLE k2) = Some
      match List.find (Z.testbit pending) by_strength with
      | Some s => set_pending 0 (make_zombie (128 + s) p)
      | None => set_pending 0 p
      end /\
    forall pid', pid' <> pid ->
      find_proc pid' (PROCESS_TABLE k2) = find_proc pid' (PROCESS_TABLE k).
Proof.
  intros Hsig Hp Hpos pending.
  assert (exists k1, kill pid sig k = Done (Some tt) k1 /\
    find_proc pid (PROCESS_TABLE k1) = Some (set_pending pending p) /\
    forall pid', pid' <> pid ->
      find_proc pid' (PROCESS_TABLE k1) = find_proc pid' (PROCESS_TABLE k))
    as (k1 & E1 & Hp1 & Ho1).
  { unfold kill. rewrite Z.gtb_ltb, (proj2 (Z.ltb_ge _ _)), Hp by lia.
    subst pending. destruct (Z.eqb_spec sig 0); simpl.
    - exists k. split_and!; [done| |done]. rewrite Hp. by destruct p.
    - eexists. split; [done|]. simpl. split.
      + rewrite find_update_eq, Hp by done. simpl. by rewrite as_u32_bit.
      + intros. by apply find_update_ne. }
  exists k1. eexists. split_and!; [done|done| |]; simpl.
  - rewrite find_update_eq, Hp1 by auto with kernel. simpl. f_equal.
    rewrite deliver_spec. simpl. case_match; by destruct p.
  - intros. rewrite find_update_ne by auto with kernel. by apply Ho1.
Qed.

(** The signals whose POSIX default action ends the process, apart from the
    four above, are dropped: the process lives on with no signal pending. *)
Lemma other_fatal_signals_dropped (p : Process) (sig : Z) :
  sig ∈ [SIGHUP; SIGILL; SIGTRAP; SIGABRT; SIGFPE; SIGSEGV; SIGPIPE; SIGALRM] ->
  deliver (set_pending (2 ^ sig) p) = set_pending 0 p.
Proof.
  intros H. repeat (apply elem_of_cons in H as [->|H]; [by destruct p|]).
  by apply not_elem_of_nil in H.
Qed.

(** [kill] changes nothing and reports an error for a signal number above 31
    and for a PID not in the table; signal 0 only probes. *)
Theorem kill_errors (k : Kernel) (pid sig : Z) :
  (sig > 31 -> kill pid sig k = Done None k) /\
  (sig <= 31 -> find_proc pid (PROCESS_TABLE k) = None -> kill pid sig k = Done None k) /\
  (find_proc pid (PROCESS_TABLE k) <> None -> kill pid 0 k = Done (Some tt) k).
Proof.
  unfold kill. split_and!.
  - intros H. by rewrite (proj2 (Z.gtb_lt _ _)) by lia.
  - intros ? ->. by case_match.
  - by destruct (find_proc pid (PROCESS_TABLE k)).
Qed.

End signal_props.

Lemma kill_then_dispatch_witness :
  let k := Demo.kernel [Demo.proc 1 0 Running 0; Demo.proc 2 1 Ready (2 ^ 2)] 1 0 ∅ [] in
  exists k1 k2, kill 2 15 k = Done (Some tt) k1 /\ dispatch_signals 2 k1 = Done tt k2 /\
    option_map p_exit_code (find_proc 2 (PROCESS_TABLE k2)) = Some (128 + SIGTERM).
Proof.
  edestruct (kill_then_dispatch
    (Demo.kernel [Demo.proc 1 0 Running 0; Demo.proc 2 1 Ready (2 ^ 2)] 1 0 ∅ []) 2 15)
    as (k1 & k2 & E1 & E2 & E3 & _); [lia|reflexivity|by vm_compute|].
  exists k1, k2. rewrite E3. split; [exact E1|]. split; [exact E2|reflexivity].
Defined.
