(* ===== verification/Scheduler.v ===== *)
(** * The round-robin scheduler ([process/scheduler.rs]) *)

From S2P Require Import Prelude RustStr Kernel Signal.

Definition TIMESLICE : Z := 10.

(** [iter().position(|p| p.pid == pid)]. *)
Fixpoint position (pid : Z) (t : list Process) : option nat :=
  match t with
  | [] => None
  | p :: t => if p_pid p =? pid then Some 0%nat else S <$> position pid t
  end.

Definition runnable (p : Process) : bool :=
  bool_decide (p_state p = Ready) || bool_decide (p_state p = Running).

(** The loop [for i in 1..=n]: the PID of the first runnable process at
    [(start + i) % n]; the index is in range, so the [Panic] of the indexing
    is never reached. *)
Fixpoint sched_loop (t : list Process) (start : nat) (ks : list nat) : outcome (option Z) :=
  match ks with
  | [] => Ret None
  | i :: ks =>
    match t !! ((start + i) mod length t)%nat with
    | None => Panic
    | Some p => if runnable p then Ret (Some (p_pid p)) else sched_loop t start ks
    end
  end.

Section scheduler.
Context `{Pl : Platform}.

Definition init : M unit := modify (fun k => set_current 0 (set_tick 0 k)).

Definition ticks : M Z := gets TICK.
Definition current_pid : M Z := gets CURRENT_PID.

Definition schedule : M unit :=
  t ← gets PROCESS_TABLE;
  current ← current_pid;
  if (length t =? 0)%nat then modify (set_current 0)
  else
    start ← match position current t with
            | Some idx => mret idx
            | None =>
              _ ← serial_println (lit "[SCHED] current PID " ++ fmt_dec current
                                  ++ lit " not found; restarting from slot 0");
              mret 0%nat
            end;
    next ← lift (sched_loop t start (seq 1 (length t)));
    match next with
    | Some pid => modify (set_current pid)
    | None => mret tt
    end.

Definition force_schedule : M unit := schedule.

(** [TICK.fetch_add(1) + 1]: [fetch_add] wraps; the [+ 1] on the value it
    returns is checked. *)
Definition count_tick `{Pr : Profile} : M Z :=
  old ← gets TICK;
  _ ← modify (set_tick (wrap 64 (old + 1)));
  lift (add_u 64 old 1).

Definition tick `{Pr : Profile} : M unit :=
  t ← count_tick;
  pid ← current_pid;
  _ ← dispatch_signals pid;
  if t `mod` TIMESLICE =? 0 then schedule else mret tt.

End scheduler.

(** ** The round-robin specification *)

(** The table from the slot after [start], cyclically. *)
Definition after (start : nat) (t : list Process) : list Process :=
  drop (S start) t ++ take (S start) t.

(** The PID that follows [cur]: the first runnable process in cyclic table
    order after it, [cur] itself last. *)
Definition rr_next (t : list Process) (cur : Z) : Z :=
  if (length t =? 0)%nat then 0
  else match List.find runnable (after (default 0%nat (position cur t)) t) with
       | Some p => p_pid p
       | None => cur
       end.

Lemma position_Some pid t i :
  position pid t = Some i -> exists p, t !! i = Some p /\ p_pid p = pid.
Proof.
  revert i. induction t as [|p t IH]; intros i; simpl; [done|].
  destruct (Z.eqb_spec (p_pid p) pid) as [E|E].
  - intros [= <-]. by exists p.
  - destruct (position pid t) eqn:Hp; simpl; [|done]. intros [= <-]. by apply IH.
Qed.

Lemma position_NoDup t i p :
  NoDup (p_pid <$> t) -> t !! i = Some p -> position (p_pid p) t = Some i.
Proof.
  revert i. induction t as [|q t IH]; intros i; simpl; [done|].
  intros [Hn Hnd]%NoDup_cons Hi. destruct i as [|i]; simpl in Hi.
  - injection Hi as ->. by rewrite Z.eqb_refl.
  - destruct (Z.eqb_spec (p_pid q) (p_pid p)) as [E|E].
    + destruct Hn. rewrite E. apply list_elem_of_fmap_2, list_elem_of_lookup. eauto.
    + by rewrite (IH i).
Qed.

Lemma position_elem p t : p ∈ t -> exists i, position (p_pid p) t = Some i.
Proof.
  induction t as [|q t IH]; [by intros ?%not_elem_of_nil|]. simpl.
  destruct (Z.eqb_spec (p_pid q) (p_pid p)); [by exists 0%nat|].
  intros [->|[i ->]%IH]%elem_of_cons; [done|]. by exists (S i).
Qed.

Lemma position_lt pid t i : position pid t = Some i -> (i < length t)%nat.
Proof. intros (p & Hi & _)%position_Some. by eapply lookup_lt_Some. Qed.

(** Slot [(start + 1 + j) mod n] of the table is entry [j] of the rotation. *)
Lemma after_lookup start t j :
  (start < length t)%nat -> (j < length t)%nat ->
  after start t !! j = t !! ((start + S j) mod length t)%nat.
Proof.
  intros Hs Hj. unfold after. rewrite lookup_app.
  destruct (decide (start + S j < length t)%nat) as [Hlt|Hge].
  - rewrite lookup_drop. replace (S start + j)%nat with (start + S j)%nat by lia.
    rewrite Nat.mod_small by done.
    destruct (t !! (start + S j)%nat) eqn:E; [done|].
    apply lookup_ge_None in E. lia.
  - rewrite lookup_ge_None_2 by (rewrite length_drop; lia).
    rewrite length_drop, lookup_take_lt by lia.
    rewrite <- (Nat.mod_unique (start + S j) (length t) 1 (start + S j - length t)) by lia.
    f_equal. lia.
Qed.

Lemma length_after start t : length (after start t) = length t.
Proof. unfold after. rewrite length_app, length_drop, length_take. lia. Qed.

Lemma sched_loop_find start t ps a :
  (forall j p, ps !! j = Some p -> t !! ((start + (a + j)) mod length t)%nat = Some p) ->
  sched_loop t start (seq a (length ps)) = Ret (p_pid <$> List.find runnable ps).
Proof.
  revert a. induction ps as [|p ps IH]; intros a H; simpl; [done|].
  rewrite <- (Nat.add_0_r a) at 1. rewrite (H 0%nat p) by done.
  destruct (runnable p); [done|]. apply IH. intros j q Hq.
  rewrite <- (H (S j) q) by done. do 2 f_equal. lia.
Qed.

Lemma sched_loop_spec start t :
  (start < length t)%nat ->
  sched_loop t start (seq 1 (length t)) = Ret (p_pid <$> List.find runnable (after start t)).
Proof.
  intros Hs. rewrite <- (length_after start t) at 1. apply sched_loop_find.
  intros j p Hp. rewrite <- Hp. symmetry.
  apply after_lookup; [done|]. apply lookup_lt_Some in Hp. by rewrite length_after in Hp.
Qed.

Lemma rr_next_runnable t cur :
  Exists (fun q => runnable q = true) t ->
  exists q, q ∈ t /\ runnable q = true /\ rr_next t cur = p_pid q.
Proof.
  intros Hex. unfold rr_next. destruct (Nat.eqb_spec (length t) 0) as [E|_].
  { apply nil_length_inv in E as ->. by apply Exists_nil in Hex. }
  set (s := default 0%nat (position cur t)). destruct (List.find _ _) as [q|] eqn:Hf.
  - exists q. apply List.find_some in Hf as [Hin Hr]. split_and!; [|done..].
    apply list_elem_of_In in Hin. unfold after in Hin.
    rewrite elem_of_app in Hin. rewrite <- (take_drop (S s) t), elem_of_app. tauto.
  - exfalso. apply Exists_exists in Hex as (q & Hq & Hr).
    rewrite <- (take_drop (S s) t), elem_of_app in Hq.
    enough (runnable q = false) by congruence. apply (List.find_none _ _ Hf).
    apply list_elem_of_In. unfold after. rewrite elem_of_app. tauto.
Qed.

Section scheduler_props.
Context `{Pl : Platform}.

(** Everything of the state but the current PID and the trace. *)
Definition same_but_current (k k' : Kernel) : Prop :=
  PROCESS_TABLE k' = PROCESS_TABLE k /\ NEXT_PID k' = NEXT_PID k /\ TICK k' = TICK k /\
  FD_TABLE k' = FD_TABLE k /\ KEY_BUFFER k' = KEY_BUFFER k /\ KEYBOARD k' = KEYBOARD k /\
  WRITER k' = WRITER k /\ memory k' = memory k /\ devices k' = devices k /\
  irqs k' = irqs k.

Lemma schedule_spec (k : Kernel) :
  exists k', schedule k = Done tt k' /\ same_but_current k k' /\
    CURRENT_PID k' = rr_next (PROCESS_TABLE k) (CURRENT_PID k).
Proof.
  unfold schedule, rr_next, mbind, M_bind, gets, current_pid, gets.
  destruct (Nat.eqb_spec (length (PROCESS_TABLE k)) 0) as [E|E]; [by eexists|].
  destruct (position (CURRENT_PID k) (PROCESS_TABLE k)) as [i|] eqn:Hp; simpl;
    rewrite sched_loop_spec by (lia || by eapply position_lt); simpl;
    destruct (List.find runnable _); by eexists.
Qed.

(** With the current process in the table nothing is logged. *)
Lemma schedule_exact (k : Kernel) p :
  p ∈ PROCESS_TABLE k -> p_pid p = CURRENT_PID k ->
  schedule k = Done tt (set_current (rr_next (PROCESS_TABLE k) (CURRENT_PID k)) k).
Proof.
  intros Hp Hc. unfold schedule, rr_next, mbind, M_bind, gets, current_pid, gets.
  destruct (position_elem _ _ Hp) as [i Hi]. rewrite Hc in Hi. rewrite Hi.
  destruct (Nat.eqb_spec (length (PROCESS_TABLE k)) 0) as [E|E];
    [by apply nil_length_inv in E; rewrite E in Hp; apply not_elem_of_nil in Hp|].
  simpl. rewrite sched_loop_spec by (lia || by eapply position_lt). simpl.
  destruct (List.find runnable _); [done|]. by destruct k.
Qed.

(** A tick, with the current process in the table. *)
Lemma tick_exact `{Pr : Profile} (k : Kernel) p :
  p ∈ PROCESS_TABLE k -> p_pid p = CURRENT_PID k -> 0 <= TICK k -> TICK k + 1 < 2 ^ 64 ->
  let t := update_proc (CURRENT_PID k) deliver (PROCESS_TABLE k) in
  let k1 := set_table t (set_tick (TICK k + 1) k) in
  tick k = Done tt (if (TICK k + 1) `mod` TIMESLICE =? 0
                    then set_current (rr_next t (CURRENT_PID k)) k1 else k1).
Proof.
  intros Hp Hc H0 H1 t k1. unfold tick, count_tick, mbind, M_bind, gets, modify, current_pid, gets, add_u.
  rewrite in_width_ok by (split; lia). simpl. rewrite wrap_id by (split; lia).
  change (set_table _ _) with k1. case_match; [|done].
  assert (CURRENT_PID k ∈ p_pid <$> t) as (q & Hq & Hin)%list_elem_of_fmap.
  { unfold t. rewrite update_proc_fmap by auto with kernel. rewrite <- Hc. by apply list_elem_of_fmap_2. }
  by rewrite (schedule_exact k1 q).
Qed.

(** [schedule] never panics: it makes current the first process in state
    [Ready] or [Running] that follows the current one in table order,
    wrapping around and trying the current one last; it keeps the current
    PID when no process is runnable, falls back to PID 0 on an empty table,
    and starts at slot 0 when the current PID is not in the table.  Nothing
    else of the state changes, and as soon as one process is runnable the
    new current PID is that of a runnable process. *)
Theorem schedule_round_robin (k : Kernel) :
  exists k', schedule k = Done tt k' /\ same_but_current k k' /\
    CURRENT_PID k' = rr_next (PROCESS_TABLE k) (CURRENT_PID k) /\
    (Exists (fun q => runnable q = true) (PROCESS_TABLE k) ->
     exists q, q ∈ PROCESS_TABLE k' /\ runnable q = true /\ CURRENT_PID k' = p_pid q).
Proof.
  destruct (schedule_spec k) as (k' & E & Hs & Hc). exists k'. split_and!; [done..|].
  rewrite Hc. destruct Hs as [-> _]. apply rr_next_runnable.
Qed.

(** ** Fairness *)

(** [n] timer ticks in a row. *)
Fixpoint run_ticks `{Pr : Profile} (n : nat) : M unit :=
  match n with
  | O => mret tt
  | S n => _ ← run_ticks n; tick
  end.

(** No process has a pending signal. *)
Definition quiet (k : Kernel) : Prop :=
  Forall (fun p => p_pending_signals p = 0) (PROCESS_TABLE k).

Lemma dispatch_quiet pid t :
  Forall (fun p => p_pending_signals p = 0) t -> update_proc pid deliver t = t.
Proof.
  induction 1 as [|p t Hp _ IH]; simpl; [done|]. case_match; [|by rewrite IH].
  unfold deliver. by rewrite Hp.
Qed.

Lemma tick_quiet `{Pr : Profile} k :
  quiet k -> 0 <= TICK k -> TICK k + 1 < 2 ^ 64 ->
  exists k', tick k = Done tt k' /\ TICK k' = TICK k + 1 /\
    PROCESS_TABLE k' = PROCESS_TABLE k /\
    CURRENT_PID k' = if (TICK k + 1) `mod` 10 =? 0
                     then rr_next (PROCESS_TABLE k) (CURRENT_PID k) else CURRENT_PID k.
Proof.
  intros Hq H0 H1. unfold tick, count_tick, mbind, M_bind, gets, modify, current_pid, gets.
  unfold add_u. rewrite in_width_ok by (split; lia). simpl.
  rewrite wrap_id by (split; lia). rewrite dispatch_quiet by done.
  unfold TIMESLICE. case_match; [|by eexists].
  edestruct schedule_spec as (k' & -> & (Ht & _ & Hk & _) & Hc).
  exists k'. split_and!; [done..|]. by rewrite Hc.
Qed.

Lemma run_ticks_quiet `{Pr : Profile} n k :
  quiet k -> 0 <= TICK k -> TICK k + Z.of_nat n < 2 ^ 64 ->
  exists k', run_ticks n k = Done tt k' /\ TICK k' = TICK k + Z.of_nat n /\
    PROCESS_TABLE k' = PROCESS_TABLE k /\
    CURRENT_PID k' = Nat.iter (Z.to_nat ((TICK k + Z.of_nat n) / 10 - TICK k / 10))
                       (rr_next (PROCESS_TABLE k)) (CURRENT_PID k).
Proof.
  intros Hq H0. induction n as [|n IH]; intros H1.
  - exists k. rewrite Z.add_0_r, Z.sub_diag. done.
  - destruct IH as (k1 & E1 & Ht1 & Hp1 & Hc1); [lia|].
    destruct (tick_quiet k1) as (k2 & E2 & Ht2 & Hp2 & Hc2);
      [unfold quiet; by rewrite Hp1|lia|lia|].
    exists k2. simpl. unfold mbind, M_bind. rewrite E1.
    split_and!; [done|lia|congruence|]. rewrite Hc2, Hp1, Hc1, Ht1.
    replace (TICK k + Z.of_nat n + 1) with (TICK k + Z.of_nat (S n)) by lia.
    pose proof (Z.div_mod (TICK k + Z.of_nat (S n)) 10 ltac:(lia)).
    pose proof (Z.div_mod (TICK k + Z.of_nat n) 10 ltac:(lia)).
    pose proof (Z.mod_pos_bound (TICK k + Z.of_nat (S n)) 10 ltac:(lia)).
    pose proof (Z.mod_pos_bound (TICK k + Z.of_nat n) 10 ltac:(lia)).
    pose proof (Z.div_le_mono (TICK k) (TICK k + Z.of_nat n) 10 ltac:(lia) ltac:(lia)).
    destruct (Z.eqb_spec ((TICK k + Z.of_nat (S n)) `mod` 10) 0).
    + replace ((TICK k + Z.of_nat (S n)) / 10) with ((TICK k + Z.of_nat n) / 10 + 1) by lia.
      by replace (Z.to_nat ((TICK k + Z.of_nat n) / 10 + 1 - TICK k / 10))
        with (S (Z.to_nat ((TICK k + Z.of_nat n) / 10 - TICK k / 10))) by lia.
    + by replace ((TICK k + Z.of_nat (S n)) / 10) with ((TICK k + Z.of_nat n) / 10) by lia.
Qed.

Lemma find_first {A} (f : A -> bool) l d x :
  l !! d = Some x -> f x = true ->
  exists j y, (j <= d)%nat /\ List.find f l = Some y /\ l !! j = Some y /\ f y = true.
Proof.
  revert d. induction l as [|a l IH]; intros d Hd Hx; [done|]. simpl.
  destruct (f a) eqn:Ha; [exists 0%nat, a; split_and!; done || lia|].
  destruct d as [|d]; [simpl in Hd; congruence|].
  destruct (IH d) as (j & y & ? & ? & ? & ?); [done..|].
  exists (S j), y. split_and!; done || lia.
Qed.

(** A runnable process [d + 1] slots ahead is reached in at most [d + 1]
    scheduling decisions. *)
Lemma rr_reaches t q d cur :
  NoDup (p_pid <$> t) -> (d < length t)%nat -> runnable q = true ->
  t !! ((default 0%nat (position cur t) + S d) mod length t)%nat = Some q ->
  exists j, (1 <= j <= S d)%nat /\ Nat.iter j (rr_next t) cur = p_pid q.
Proof.
  intros Hnd. revert cur. induction d as [d IH] using lt_wf_ind. intros cur Hd Hr Hq.
  set (i := default 0%nat (position cur t)) in *.
  assert (i < length t)%nat as Hi.
  { subst i. destruct (position cur t) eqn:E; simpl; [by eapply position_lt|lia]. }
  destruct (find_first runnable (after i t) d q) as (j & p & Hj & Hf & Hp & Hrp);
    [by rewrite after_lookup|done|].
  assert (rr_next t cur = p_pid p) as Hnext.
  { unfold rr_next. fold i. rewrite Hf. destruct (Nat.eqb_spec (length t) 0); [lia|done]. }
  rewrite after_lookup in Hp by lia.
  destruct (decide (j = d)) as [->|Hne].
  { exists 1%nat. split; [lia|]. simpl. rewrite Hnext. congruence. }
  destruct (IH (d - j - 1)%nat ltac:(lia) (p_pid p)) as (j' & Hj' & E'); [lia|done| |].
  - rewrite (position_NoDup t _ p Hnd Hp). simpl. rewrite <- Hq. f_equal.
    rewrite Nat.Div0.add_mod_idemp_l. f_equal. lia.
  - exists (S j'). split; [lia|]. rewrite Nat.iter_succ_r, Hnext. done.
Qed.

Lemma distance i iq n :
  (i < n)%nat -> (iq < n)%nat -> exists d, (d < n)%nat /\ ((i + S d) mod n = iq)%nat.
Proof.
  intros. destruct (decide (i < iq)%nat).
  - exists (iq - i - 1)%nat. split; [lia|]. rewrite Nat.mod_small; lia.
  - exists (iq + n - i - 1)%nat. split; [lia|].
    symmetry. apply (Nat.mod_unique _ _ 1); lia.
Qed.

(** Fairness of the timer: from any tick count, as long as no signal is
    pending, every runnable process becomes the current one within ten ticks
    (one time slice) per table entry. *)
Theorem timer_fairness `{Pr : Profile} (k : Kernel) (q : Process) :
  NoDup (p_pid <$> PROCESS_TABLE k) -> quiet k ->
  q ∈ PROCESS_TABLE k -> runnable q = true ->
  0 <= TICK k -> TICK k + 10 * zlen (PROCESS_TABLE k) < 2 ^ 64 ->
  exists (n : nat) k', (n <= 10 * length (PROCESS_TABLE k))%nat /\
    run_ticks n k = Done tt k' /\ CURRENT_PID k' = p_pid q.
Proof.
  intros Hnd Hq Hin Hr H0 H1.
  apply list_elem_of_lookup in Hin as [iq Hiq].
  pose proof (lookup_lt_Some _ _ _ Hiq) as Hlt.
  set (cur := CURRENT_PID k). set (t := PROCESS_TABLE k) in *.
  assert (default 0%nat (position cur t) < length t)%nat as Hi.
  { destruct (position cur t) eqn:E; simpl; [by eapply position_lt|lia]. }
  destruct (distance _ iq _ Hi Hlt) as (d & Hd & Ed).
  destruct (rr_reaches t q d cur) as (j & Hj & Ej); [done..|by rewrite Ed|].
  pose proof (Z.mod_pos_bound (TICK k) 10 ltac:(lia)).
  pose proof (Z.div_mod (TICK k) 10 ltac:(lia)).
  set (n := (10 * j - Z.to_nat (TICK k `mod` 10))%nat).
  assert (Z.of_nat n = 10 * Z.of_nat j - TICK k `mod` 10) as En by lia.
  unfold zlen in H1. destruct (run_ticks_quiet n k) as (k' & E & _ & _ & Hc); [done..|lia|].
  exists n, k'. split_and!; [lia|done|]. rewrite Hc. fold t cur.
  replace (TICK k + Z.of_nat n) with ((TICK k / 10 + Z.of_nat j) * 10) by lia.
  rewrite Z.div_mul by lia.
  by replace (Z.to_nat _) with j by lia.
Qed.

End scheduler_props.

Lemma timer_fairness_witness :
  let k := Demo.kernel [Demo.proc 0 0 Running 0; Demo.proc 1 0 Zombie 0;
                        Demo.proc 2 1 Ready 0] 0 7 ∅ [] in
  exists (n : nat) k', (n <= 30)%nat /\ run_ticks (Pr := dev) n k = Done tt k' /\
    CURRENT_PID k' = 2.
Proof.
  apply (timer_fairness (Pr := dev)
    (Demo.kernel [Demo.proc 0 0 Running 0; Demo.proc 1 0 Zombie 0; Demo.proc 2 1 Ready 0]
       0 7 ∅ []) (Demo.proc 2 1 Ready 0)).
  - by_decide.
  - repeat constructor.
  - do 2 right. left.
  - reflexivity.
  - by vm_compute.
  - by vm_compute.
Defined.
