(* ===== verification/Keyboard.v ===== *)
(** * The PS/2 keyboard driver ([drivers/keyboard.rs])

    The functions over the statics [KEY_BUFFER] and [KEYBOARD].  The decoder
    is [pc_keyboard]'s, a parameter ([Platform]). *)

From S2P Require Import Prelude RustStr KeyBuffer Kernel.

Definition KEYBOARD_DATA_PORT : Z := 0x60.
Definition KEYBOARD_STATUS_PORT : Z := 0x64.
Definition STATUS_OUTPUT_BUFFER_FULL : Z := 0x01.

Section keyboard.
Context `{P : Platform}.

Definition read_port (port : Z) : M Z := fun k =>
  let '(v, d) := port_read (devices k) port in
  Done v (set_input (KEY_BUFFER k) (KEYBOARD k) d k).

Definition set_keyboard (kb : Keyboard) : M unit :=
  modify (fun k => set_input (KEY_BUFFER k) kb (devices k) k).
Definition set_key_buffer (q : KeyBuffer) : M unit :=
  modify (fun k => set_input q (KEYBOARD k) (devices k) k).

Definition decode_scancode (scancode : Z) : M (option Z) :=
  kb ← gets KEYBOARD;
  let '(ev, kb1) := add_byte kb scancode in
  _ ← set_keyboard kb1;
  match ev with
  | Some (Some key_event) =>
    let '(key, kb2) := process_keyevent kb1 key_event in
    _ ← set_keyboard kb2;
    match key with
    | Some (Unicode character) =>
      _ ← serial_print (utf8_char character);
      mret (Some (as_u8 character))
    | Some (RawKey key) =>
      _ ← serial_print (KeyCode_debug key ++ lit " ");
      match key with
      | KeyBackspace => mret (Some 0x08)
      | KeyDelete => mret (Some 0x7F)
      | KeyOther _ => mret None
      end
    | None => mret None
    end
  | _ => mret None
  end.

(** [init]: flush one pending scancode. *)
Definition init : M unit := _ ← read_port KEYBOARD_DATA_PORT; mret tt.

Definition try_read_char : M (option Z) :=
  q ← gets KEY_BUFFER;
  r ← lift (KeyRing.pop q);
  _ ← set_key_buffer r.2;
  mret r.1.

Definition poll_char : M (option Z) :=
  status ← read_port KEYBOARD_STATUS_PORT;
  if Z.land status STATUS_OUTPUT_BUFFER_FULL =? 0 then mret None
  else
    scancode ← read_port KEYBOARD_DATA_PORT;
    decode_scancode scancode.

Definition handle_interrupt : M unit :=
  scancode ← read_port KEYBOARD_DATA_PORT;
  byte ← decode_scancode scancode;
  match byte with
  | Some byte =>
    q ← gets KEY_BUFFER;
    q' ← lift (KeyRing.push q byte);
    set_key_buffer q'
  | None => mret tt
  end.

(** [try_read_char().or_else(|| poll_char())]. *)
Definition next_char : M (option Z) :=
  c ← try_read_char;
  match c with Some _ => mret c | None => poll_char end.

End keyboard.
