(* ===== verification/Interrupts.v ===== *)
(** * Interrupts ([arch/x86_64/idt.rs], [arch/x86_64/interrupts.rs])

    The interrupt descriptor table as a map from vectors to handlers, the
    handlers, and [hlt], which waits for the next interrupt. *)

From S2P Require Import Prelude RustStr Kernel Signal Scheduler Keyboard.

Definition PIC_1_OFFSET : Z := 0x20.
Definition PIC_2_OFFSET : Z := PIC_1_OFFSET + 8.

Inductive InterruptIndex :=
| Timer | Key | Cascade | Com2 | Com1_ | Lpt2 | FloppyDisk | Lpt1
| RtcTimer | Legacy1 | Legacy2 | Legacy3 | Ps2Mouse | FpuCoprocessor
| PrimaryAta | SecondaryAta.

(** [self as u8]: consecutive discriminants from [PIC_1_OFFSET]. *)
Definition as_vector (i : InterruptIndex) : Z :=
  PIC_1_OFFSET +
  match i with
  | Timer => 0 | Key => 1 | Cascade => 2 | Com2 => 3 | Com1_ => 4 | Lpt2 => 5
  | FloppyDisk => 6 | Lpt1 => 7 | RtcTimer => 8 | Legacy1 => 9 | Legacy2 => 10
  | Legacy3 => 11 | Ps2Mouse => 12 | FpuCoprocessor => 13 | PrimaryAta => 14
  | SecondaryAta => 15
  end.

(** The handlers the table is filled with. *)
Inductive Handler :=
| divide_error_handler | debug_handler | nmi_handler | breakpoint_handler
| overflow_handler | bound_range_exceeded_handler | invalid_opcode_handler
| device_not_available_handler | double_fault_handler | invalid_tss_handler
| segment_not_present_handler | stack_segment_fault_handler
| general_protection_fault_handler | page_fault_handler
| x87_floating_point_handler | alignment_check_handler | machine_check_handler
| simd_floating_point_handler | virtualization_handler | security_exception_handler
| timer_interrupt_handler | keyboard_interrupt_handler | cascade_interrupt_handler
| com2_interrupt_handler | com1_interrupt_handler | lpt2_interrupt_handler
| floppy_interrupt_handler | lpt1_interrupt_handler | rtc_interrupt_handler
| legacy1_interrupt_handler | legacy2_interrupt_handler | legacy3_interrupt_handler
| mouse_interrupt_handler | fpu_interrupt_handler | primary_ata_handler
| secondary_ata_handler.

(** The assignments of [idt::init], in order; the exception fields of the
    table are the architecture's vectors. *)
Definition idt_entries : list (Z * Handler) :=
  [ (0, divide_error_handler); (1, debug_handler); (2, nmi_handler);
    (3, breakpoint_handler); (4, overflow_handler);
    (5, bound_range_exceeded_handler); (6, invalid_opcode_handler);
    (7, device_not_available_handler); (8, double_fault_handler);
    (10, invalid_tss_handler); (11, segment_not_present_handler);
    (12, stack_segment_fault_handler); (13, general_protection_fault_handler);
    (14, page_fault_handler); (16, x87_floating_point_handler);
    (17, alignment_check_handler); (18, machine_check_handler);
    (19, simd_floating_point_handler); (20, virtualization_handler);
    (30, security_exception_handler);
    (as_vector Timer, timer_interrupt_handler);
    (as_vector Key, keyboard_interrupt_handler);
    (as_vector Cascade, cascade_interrupt_handler);
    (as_vector Com2, com2_interrupt_handler);
    (as_vector Com1_, com1_interrupt_handler);
    (as_vector Lpt2, lpt2_interrupt_handler);
    (as_vector FloppyDisk, floppy_interrupt_handler);
    (as_vector Lpt1, lpt1_interrupt_handler);
    (as_vector RtcTimer, rtc_interrupt_handler);
    (as_vector Legacy1, legacy1_interrupt_handler);
    (as_vector Legacy2, legacy2_interrupt_handler);
    (as_vector Legacy3, legacy3_interrupt_handler);
    (as_vector Ps2Mouse, mouse_interrupt_handler);
    (as_vector FpuCoprocessor, fpu_interrupt_handler);
    (as_vector PrimaryAta, primary_ata_handler);
    (as_vector SecondaryAta, secondary_ata_handler) ].

Definition idt : gmap Z Handler := list_to_map idt_entries.

Section handlers.
Context `{P : Platform} `{Pr : Profile}.

(** [PICS.lock().notify_end_of_interrupt(i.as_u8())]. *)
Definition notify_end_of_interrupt (i : InterruptIndex) : M unit :=
  modify (add_io (Eoi (as_vector i))).

Definition panic {A} : M A := fun k => Panicked k.

(** [frame] is the [{:#?}] rendering of the [InterruptStackFrame]. *)
Definition run_handler (h : Handler) (frame : list Z) : M unit :=
  match h with
  | debug_handler => serial_println (lit "EXCEPTION: DEBUG" ++ 10 :: frame)
  | breakpoint_handler => serial_println (lit "EXCEPTION: BREAKPOINT" ++ 10 :: frame)
  | timer_interrupt_handler => _ ← tick; notify_end_of_interrupt Timer
  | keyboard_interrupt_handler => _ ← handle_interrupt; notify_end_of_interrupt Key
  | cascade_interrupt_handler => notify_end_of_interrupt Cascade
  | com2_interrupt_handler => notify_end_of_interrupt Com2
  | com1_interrupt_handler => notify_end_of_interrupt Com1_
  | lpt2_interrupt_handler => notify_end_of_interrupt Lpt2
  | floppy_interrupt_handler => notify_end_of_interrupt FloppyDisk
  | lpt1_interrupt_handler => notify_end_of_interrupt Lpt1
  | rtc_interrupt_handler => notify_end_of_interrupt RtcTimer
  | legacy1_interrupt_handler => notify_end_of_interrupt Legacy1
  | legacy2_interrupt_handler => notify_end_of_interrupt Legacy2
  | legacy3_interrupt_handler => notify_end_of_interrupt Legacy3
  | mouse_interrupt_handler => notify_end_of_interrupt Ps2Mouse
  | fpu_interrupt_handler => notify_end_of_interrupt FpuCoprocessor
  | primary_ata_handler => notify_end_of_interrupt PrimaryAta
  | secondary_ata_handler => notify_end_of_interrupt SecondaryAta
  | _ => panic
  end.

(** Delivery of a vector; a vector without an entry raises a fault, whose
    handler panics. *)
Definition interrupt (v : Z) (frame : list Z) : M unit :=
  match idt !! v with
  | Some h => run_handler h frame
  | None => panic
  end.

(** [hlt()]: sleep until the next interrupt, which is served before the
    instruction returns. *)
Definition hlt : M unit := fun k =>
  match irqs k with
  | [] => Waiting k
  | v :: l => interrupt v [] (set_irqs l k)
  end.

(** [loop { hlt(); }]: the caller never runs again; interrupts go on. *)
Definition halt_forever {A} : M A := fun k => Halted k.

(** [loop { if let Some(a) = body() { break a } hlt(); }].  Every turn uses
    up an interrupt of [irqs], so one more turn than there are interrupts is
    enough fuel ([wait_loop_fuel]). *)
Fixpoint wait_loop {A} (fuel : nat) (body : M (option A)) : M A :=
  match fuel with
  | O => fun k => Waiting k
  | S fuel =>
    r ← body;
    match r with
    | Some a => mret a
    | None => _ ← hlt; wait_loop fuel body
    end
  end.

Definition wait_until {A} (body : M (option A)) : M A := fun k =>
  wait_loop (S (length (irqs k))) body k.

End handlers.
