(* ===== verification/Process.v ===== *)
(** * Processes ([process/mod.rs])

    Creation, [fork], [execve], [exit] and [waitpid] over the global process
    table.  Errors ([Err("...")]) are [None]. *)

From S2P Require Import Prelude RustStr Kernel Signal Scheduler Interrupts.

(** [proc.parent_pid = 1] for the children of the exiting process. *)
Definition set_parent (pp : Z) (p : Process) : Process :=
  mkProcess (p_pid p) pp (p_name p) (p_state p) (p_priority p)
    (p_kernel_rsp p) (p_exit_code p) (p_pending_signals p).

Definition set_name (name : list Z) (p : Process) : Process :=
  mkProcess (p_pid p) (p_parent_pid p) name (p_state p) (p_priority p)
    (p_kernel_rsp p) (p_exit_code p) (p_pending_signals p).

Definition reparent (dead : Z) (p : Process) : Process :=
  if p_parent_pid p =? dead then set_parent 1 p else p.

(** [target.map_or(true, |wanted| p.pid == wanted)]. *)
Definition wanted (target : option Z) (p : Process) : bool :=
  match target with None => true | Some w => p_pid p =? w end.

Definition is_child (parent : Z) (target : option Z) (p : Process) : bool :=
  (p_parent_pid p =? parent) && wanted target p.

Definition is_dead_child (parent : Z) (target : option Z) (p : Process) : bool :=
  (p_parent_pid p =? parent) && bool_decide (p_state p = Zombie) && wanted target p.

(** [iter().enumerate().find(f)]. *)
Fixpoint find_index {A} (f : A -> bool) (l : list A) : option (nat * A) :=
  match l with
  | [] => None
  | x :: l => if f x then Some (0%nat, x) else prod_map S id <$> find_index f l
  end.

Section process.
Context `{Pl : Platform} `{Pr : Profile}.

(** [NEXT_PID.fetch_add(1, SeqCst)]: wraps at 2^32. *)
Definition alloc_pid : M Z := fun k =>
  Done (NEXT_PID k) (set_next_pid (wrap 32 (NEXT_PID k + 1)) k).

(** [Process::new]. *)
Definition Process_new (name : list Z) (parent_pid : Z) : M Process :=
  pid ← alloc_pid;
  mret (mkProcess pid parent_pid name Ready PNormal 0 0 0).

Definition push_process (p : Process) : M unit :=
  modify (fun k => set_table (PROCESS_TABLE k ++ [p]) k).

Definition idle_process : Process := mkProcess 0 0 (lit "idle") Running PIdle 0 0 0.

Definition process_init : M unit :=
  _ ← push_process idle_process;
  p ← Process_new (lit "init") 0;
  _ ← push_process p;
  Scheduler.init.

Definition fork : M (option Z) :=
  cur ← current_pid;
  t ← gets PROCESS_TABLE;
  match find_proc cur t with
  | None => mret None
  | Some parent =>
    pid ← alloc_pid;
    _ ← push_process (mkProcess pid (p_pid parent) (p_name parent) Ready
          (p_priority parent) (p_kernel_rsp parent) 0 0);
    mret (Some pid)
  end.

Definition execve (path : list Z) : M (option unit) :=
  cur ← current_pid;
  t ← gets PROCESS_TABLE;
  match find_proc cur t with
  | None => mret None
  | Some _ =>
    _ ← modify (set_table (update_proc cur
          (fun p => set_pending 0 (set_name (rsplit_next slash path) p)) t));
    mret (Some tt)
  end.

(** The closure of [exit]: the current process becomes a zombie and its
    children go to PID 1. *)
Definition exit_mark (code : Z) : M unit :=
  cur ← current_pid;
  modify (fun k => set_table
    (reparent cur <$> update_proc cur (make_zombie code) (PROCESS_TABLE k)) k).

Definition exit_message (code pid : Z) : list Z :=
  lit "[PROC] pid " ++ fmt_dec pid ++ lit " exiting with code " ++ fmt_int code.

(** The effects of [exit] before its final [loop { hlt() }]. *)
Definition exit_effects (code : Z) : M unit :=
  _ ← exit_mark code;
  pid ← current_pid;
  _ ← serial_println (exit_message code pid);
  force_schedule.

Definition exit {A} (code : Z) : M A :=
  _ ← exit_effects code; halt_forever.

Definition getpid : M Z := current_pid.

Definition current_is_zombie : M bool :=
  cur ← current_pid;
  t ← gets PROCESS_TABLE;
  mret match find_proc cur t with
       | Some p => bool_decide (p_state p = Zombie)
       | None => false
       end.

(** One turn of [waitpid]'s loop: [None] is [Err("waitpid: no child")],
    [Some None] is "not yet". *)
Definition waitpid_poll (target : option Z) : M (option (option (Z * Z))) :=
  t ← gets PROCESS_TABLE;
  cur ← current_pid;
  if existsb (is_child cur target) t then
    match find_index (is_dead_child cur target) t with
    | Some (idx, p) =>
      _ ← modify (set_table (delete idx t));
      mret (Some (Some (p_pid p, p_exit_code p)))
    | None => mret (Some None)
    end
  else mret None.

Definition waitpid (target : option Z) : M (option (Z * Z)) :=
  wait_until (
    r ← waitpid_poll target;
    mret match r with
         | None => Some None
         | Some (Some x) => Some (Some x)
         | Some None => None
         end).

End process.
