(* ===== verification/Syscall.v ===== *)
(** * The system call layer ([syscall/mod.rs])

    The dispatcher and every handler, over the kernel's statics and raw
    memory.  A pointer argument is an address; [core::slice::from_raw_parts]
    asks for [count] readable bytes, and touching an unmapped one is a page
    fault, which panics. *)

From S2P Require Import Prelude RustStr KeyBuffer Mem Vga Kernel Signal Scheduler Keyboard Interrupts Process.

(** ** Numbers *)

Definition SYS_READ : Z := 0.
Definition SYS_WRITE : Z := 1.
Definition SYS_OPEN : Z := 2.
Definition SYS_CLOSE : Z := 3.
Definition SYS_STAT : Z := 4.
Definition SYS_FSTAT : Z := 5.
Definition SYS_LSTAT : Z := 6.
Definition SYS_POLL : Z := 7.
Definition SYS_LSEEK : Z := 8.
Definition SYS_MMAP : Z := 9.
Definition SYS_MPROTECT : Z := 10.
Definition SYS_MUNMAP : Z := 11.
Definition SYS_BRK : Z := 12.
Definition SYS_RT_SIGACTION : Z := 13.
Definition SYS_RT_SIGPROCMASK : Z := 14.
Definition SYS_IOCTL : Z := 16.
Definition SYS_GETPID : Z := 39.
Definition SYS_FORK : Z := 57.
Definition SYS_VFORK : Z := 58.
Definition SYS_EXECVE : Z := 59.
Definition SYS_EXIT : Z := 60.
Definition SYS_WAIT4 : Z := 61.
Definition SYS_KILL : Z := 62.
Definition SYS_GETPPID : Z := 110.
Definition SYS_EXIT_GROUP : Z := 231.

Definition O_WRONLY : Z := 0x1.
Definition O_RDWR : Z := 0x2.
Definition O_ACCMODE : Z := 0x3.

Inductive Errno :=
| Success | Perm | NoEnt | Srch | Intr | EIo | BadF | NoMem | Acces | Fault
| Inval | NFile | MFile | NoSpc | NoSys.

(** [e as i64]. *)
Definition errno (e : Errno) : Z :=
  match e with
  | Success => 0 | Perm => -1 | NoEnt => -2 | Srch => -3 | Intr => -4 | EIo => -5
  | BadF => -9 | NoMem => -12 | Acces => -13 | Fault => -14 | Inval => -22
  | NFile => -23 | MFile => -24 | NoSpc => -28 | NoSys => -38
  end.

(** The registers at the [syscall] instruction. *)
Record SyscallFrame := mkFrame {
  num : Z; rdi : Z; rsi : Z; rdx : Z; r10 : Z; r8 : Z; r9 : Z;
}.

(** ** File contents *)

Definition version_text : list Z :=
  lit "ComputeKERNEL version 1.0.0 (Rust nightly)" ++ [10].
Definition meminfo_text : list Z :=
  lit "MemTotal:         102400 kB" ++ [10] ++ lit "MemFree:           51200 kB" ++ [10].
Definition hostname_text : list Z := lit "computekernel" ++ [10].

(** [format!("{}.00 {}.00\n", seconds, seconds)]. *)
Definition uptime_text (ticks : Z) : list Z :=
  fmt_dec (ticks / 100) ++ lit ".00 " ++ fmt_dec (ticks / 100) ++ lit ".00" ++ [10].

(** The node a path names. *)
Definition node_of_path (path : list Z) : option PseudoNode :=
  if decide (path = lit "/proc/version") then Some ProcVersion
  else if decide (path = lit "/proc/uptime") then Some ProcUptime
  else if decide (path = lit "/proc/meminfo") then Some ProcMeminfo
  else if decide (path = lit "/sys/kernel/hostname") then Some SysHostname
  else if decide (path = lit "/dev/null") then Some DevNull
  else if decide (path = lit "/dev/zero") then Some DevZero
  else if decide (path = lit "/dev/full") then Some DevFull
  else if decide (path = lit "/dev/ttyS0") then Some DevTtyS0
  else None.

(** The nodes [sys_open] refuses to open for writing. *)
Definition read_only (n : PseudoNode) : bool :=
  match n with
  | ProcVersion | ProcUptime | ProcMeminfo | SysHostname => true
  | _ => false
  end.

(** The bytes [read_static] copies: [content[start..]] cut to the buffer. *)
Definition static_bytes (count offset : Z) (content : list Z) : list Z :=
  if offset >=? zlen content then []
  else
    let available := drop (Z.to_nat offset) content in
    take (Z.to_nat (Z.min (zlen available) count)) available.

(** The first free slot: [iter_mut().enumerate()] with the test [is_none]. *)
Definition free_slot (t : list (option OpenFile)) : option nat :=
  fst <$> find_index (fun s => bool_decide (s = None)) t.

(** [read_user_cstr]'s loop; [None] is [Err(())]. *)
Fixpoint read_cstr (m : mem) (a : Z) (n : nat) (acc : list Z) : outcome (option (list Z)) :=
  match n with
  | O => Ret None
  | S n =>
    b ← load8 m a;
    if b =? 0 then Ret (from_utf8 acc) else read_cstr m (a + 1) n (acc ++ [b])
  end.

Definition read_user_cstr (m : mem) (ptr : Z) (max_len : nat) : outcome (option (list Z)) :=
  if ptr =? 0 then Ret None else read_cstr m ptr max_len [].

(** The four bytes of [*status = v]. *)
Definition le32 (v : Z) : list Z :=
  [v `mod` 256; (v / 256) `mod` 256; (v / 65536) `mod` 256; (v / 16777216) `mod` 256].

Section syscalls.
Context `{Pl : Platform} `{Pr : Profile}.

Definition mem_write (a : Z) (bs : list Z) : M unit := fun k =>
  match store_list (memory k) a bs with
  | Ret m => Done tt (set_screen (WRITER k) m k)
  | Panic => Panicked k
  end.

(** [*ptr = v] for [ptr : *mut i32]. *)
Definition store_i32 (ptr v : Z) : M unit :=
  if debug_assertions && negb (ptr `mod` 4 =? 0) then panic else mem_write ptr (le32 v).

Definition mem_read (a : Z) (n : nat) : M (list Z) := fun k =>
  match load_list (memory k) a n with
  | Ret bs => Done bs k
  | Panic => Panicked k
  end.

(** ** read *)

(** The second loop of the console read: at most [n] more bytes, up to a line
    end, as long as there is input. *)
Fixpoint read_more (n : nat) (buf read : Z) : M Z :=
  match n with
  | O => mret read
  | S n =>
    c ← next_char;
    match c with
    | None => mret read
    | Some ch =>
      _ ← mem_write (buf + read) [ch];
      if (ch =? 10) || (ch =? 13) then mret (read + 1)
      else read_more n buf (read + 1)
    end
  end.

(** The first loop: [None] is a return of [EINTR]. *)
Definition read_first : M (option Z) :=
  wait_until (
    zombie ← current_is_zombie;
    if (zombie : bool) then mret (Some None)
    else c ← next_char; mret (Some <$> c)).

Definition read_console (buf count : Z) : M Z :=
  c ← read_first;
  match c with
  | None => mret (errno Intr)
  | Some ch =>
    _ ← mem_write buf [ch];
    read ← read_more (Z.to_nat (count - 1)) buf 1;
    mret (as_i64 read)
  end.

(** [read_static(out, offset, content)]. *)
Definition read_static (buf count offset : Z) (content : list Z) : M Z :=
  let bs := static_bytes count offset content in
  _ ← mem_write buf bs; mret (zlen bs).

Definition read_node (node : PseudoNode) (buf count offset : Z) : M Z :=
  match node with
  | ProcVersion => read_static buf count offset version_text
  | ProcUptime => t ← ticks; read_static buf count offset (uptime_text t)
  | ProcMeminfo => read_static buf count offset meminfo_text
  | SysHostname => read_static buf count offset hostname_text
  | DevNull => mret 0
  | DevZero | DevFull => _ ← mem_write buf (replicate (Z.to_nat count) 0); mret count
  | DevTtyS0 => mret 0
  end.

(** [table.get_mut(fd as usize - 3)] and [slot.as_mut()]: the index and the
    open file. *)
Definition fd_lookup (fd : Z) : M (option (nat * OpenFile)) :=
  i ← lift (sub_u 64 (as_u64 fd) 3);
  t ← gets FD_TABLE;
  mret match zget t i with
       | Some (Some file) => Some (Z.to_nat i, file)
       | _ => None
       end.

Definition sys_read (fd buf count : Z) : M Z :=
  if count =? 0 then mret 0
  else if buf =? 0 then mret (errno Fault)
  else if fd =? 0 then read_console buf count
  else
    f ← fd_lookup fd;
    match f with
    | None => mret (errno BadF)
    | Some (i, file) =>
      n ← read_node (f_node file) buf count (f_offset file);
      _ ← modify (fun k => set_fds
            (<[i := Some (mkOpenFile (f_node file) (saturating_add 64 (f_offset file) n))]>
               (FD_TABLE k)) k);
      mret (as_i64 n)
    end.

(** ** write *)

(** [for &byte in slice { _serial_print(format_args!("{}", byte as char)) }]. *)
Fixpoint tty_write (n : nat) (a : Z) : M unit :=
  match n with
  | O => mret tt
  | S n =>
    b ← mem_read a 1;
    _ ← serial_print (b ≫= utf8_char);
    tty_write n (a + 1)
  end.

Definition sys_write (fd buf count : Z) : M Z :=
  if count =? 0 then mret 0
  else if buf =? 0 then mret (errno Fault)
  else if (fd =? 1) || (fd =? 2) then
    bs ← mem_read buf (Z.to_nat count);
    _ ← match from_utf8 bs with
        | Some s => _ ← serial_print s; kprint s
        | None => mret tt
        end;
    mret (as_i64 count)
  else
    f ← fd_lookup fd;
    match f with
    | None => mret (errno BadF)
    | Some (_, file) =>
      match f_node file with
      | DevNull | DevZero => mret (as_i64 count)
      | DevFull => mret (errno NoSpc)
      | DevTtyS0 => _ ← tty_write (Z.to_nat count) buf; mret (as_i64 count)
      | _ => mret (errno Perm)
      end
    end.

(** ** open, close *)

Definition user_cstr (ptr : Z) : M (option (list Z)) :=
  m ← gets memory; lift (read_user_cstr m ptr 256).

Definition sys_open (path flags : Z) : M Z :=
  if path =? 0 then mret (errno Fault)
  else
    p ← user_cstr path;
    match p with
    | None => mret (errno Fault)
    | Some p =>
      match node_of_path p with
      | None => mret (errno NoEnt)
      | Some node =>
        let access := Z.land flags O_ACCMODE in
        let write_requested := (access =? O_WRONLY) || (access =? O_RDWR) in
        if write_requested && read_only node then mret (errno Acces)
        else
          t ← gets FD_TABLE;
          let file := mkOpenFile node 0 in
          match free_slot t with
          | Some idx =>
            _ ← modify (set_fds (<[idx := Some file]> t)); mret (Z.of_nat idx + 3)
          | None =>
            _ ← modify (set_fds (t ++ [Some file])); mret (zlen t + 3)
          end
      end
    end.

Definition sys_close (fd : Z) : M Z :=
  if fd <? 3 then mret 0
  else
    f ← fd_lookup fd;
    match f with
    | None => mret (errno BadF)
    | Some (i, _) => _ ← modify (fun k => set_fds (<[i := None]> (FD_TABLE k)) k); mret 0
    end.

(** ** Processes *)

Definition sys_getpid : M Z := getpid.

Definition sys_getppid : M Z :=
  t ← gets PROCESS_TABLE;
  pid ← getpid;
  mret match find_proc pid t with Some p => p_parent_pid p | None => errno Srch end.

Definition sys_fork : M Z :=
  r ← fork; mret match r with Some pid => pid | None => errno NoSys end.

Definition sys_execve (path : Z) : M Z :=
  if path =? 0 then mret (errno Fault)
  else
    p ← user_cstr path;
    match p with
    | None => mret (errno Fault)
    | Some p => r ← execve p; mret match r with Some _ => 0 | None => errno NoEnt end
    end.

Definition sys_exit (code : Z) : M Z := exit code.

Definition sys_kill (pid sig : Z) : M Z :=
  r ← kill pid sig; mret match r with Some _ => 0 | None => errno Srch end.

Definition sys_wait4 (pid status : Z) : M Z :=
  let target := if pid <=? 0 then None else Some (as_u32 pid) in
  r ← waitpid target;
  match r with
  | Some (child_pid, code) =>
    _ ← (if status =? 0 then mret tt
         else store_i32 status (Z.shiftl (Z.land code 0xff) 8));
    mret child_pid
  | None => mret (errno Srch)
  end.

Definition sys_brk (addr : Z) : M Z := mret 0.

(** ** The dispatcher *)

Definition dispatch (f : SyscallFrame) : M Z :=
  if num f =? SYS_READ then sys_read (as_i32 (rdi f)) (rsi f) (rdx f)
  else if num f =? SYS_WRITE then sys_write (as_i32 (rdi f)) (rsi f) (rdx f)
  else if num f =? SYS_OPEN then sys_open (rdi f) (as_i32 (rsi f))
  else if num f =? SYS_CLOSE then sys_close (as_i32 (rdi f))
  else if num f =? SYS_GETPID then sys_getpid
  else if num f =? SYS_FORK then sys_fork
  else if num f =? SYS_EXECVE then sys_execve (rdi f)
  else if (num f =? SYS_EXIT) || (num f =? SYS_EXIT_GROUP) then sys_exit (as_i32 (rdi f))
  else if num f =? SYS_WAIT4 then sys_wait4 (as_i32 (rdi f)) (rsi f)
  else if num f =? SYS_KILL then sys_kill (as_u32 (rdi f)) (as_u8 (rsi f))
  else if num f =? SYS_GETPPID then sys_getppid
  else if num f =? SYS_BRK then sys_brk (rdi f)
  else mret (errno NoSys).

(** The numbers that are declared but have no handler. *)
Lemma unimplemented_calls (f : SyscallFrame) (k : Kernel) :
  num f ∈ [SYS_STAT; SYS_FSTAT; SYS_LSTAT; SYS_POLL; SYS_LSEEK; SYS_MMAP; SYS_MPROTECT; SYS_MUNMAP;
           SYS_RT_SIGACTION; SYS_RT_SIGPROCMASK; SYS_IOCTL; SYS_VFORK] ->
  dispatch f k = Done (errno NoSys) k.
Proof.
  intros H. unfold dispatch. repeat (apply elem_of_cons in H as [->|H]; [done|]).
  by apply not_elem_of_nil in H.
Qed.

End syscalls.
