(* ===== verification/Lifecycle.v ===== *)
(** * The life cycle of processes

    An abstract machine of the process table (creation, changes of live
    processes, death, reaping) and the proof that every operation on the table
    and every interrupt is a run of that machine.  Invariants of the table are
    proved once, on the machine. *)

From S2P Require Import Prelude RustStr KeyBuffer Mem Vga Kernel Signal Scheduler Keyboard Interrupts Process Syscall.

(** ** The abstract machine *)

(** A change to a process in place: the PID stays, the dead stay dead. *)
Definition benign (f : Process -> Process) : Prop :=
  forall p, p_pid (f p) = p_pid p /\ (p_state p = Zombie -> p_state (f p) = Zombie).

(** A table and the next PID. *)
Abbreviation Procs := (list Process * Z)%type.

(** Steps without a birth. *)
Inductive tstep : relation Procs :=
| t_update t n pid f : benign f -> tstep (t, n) (update_proc pid f t, n)
| t_map t n f : benign f -> tstep (t, n) (f <$> t, n)
| t_reap t n i p : t !! i = Some p -> p_state p = Zombie -> tstep (t, n) (delete i t, n).

(** Births: a [Ready] process with the next PID, at the end of the table. *)
Inductive tbirth : relation Procs :=
| t_fork t n p : p_pid p = n -> p_state p = Ready -> tbirth (t, n) (t ++ [p], wrap 32 (n + 1)).

(** PIDs are unique and below the next PID. *)
Definition unique_pids (s : Procs) : Prop :=
  NoDup (p_pid <$> s.1) /\ Forall (fun p => 0 <= p_pid p < s.2) s.1.

Lemma benign_fmap f (t : list Process) : benign f -> p_pid <$> (f <$> t) = p_pid <$> t.
Proof.
  intros Hf. rewrite <- list_fmap_compose. apply list_fmap_ext.
  intros i p _. apply Hf.
Qed.

Lemma unique_pids_alt t n :
  unique_pids (t, n) <-> NoDup (p_pid <$> t) /\ Forall (fun q => 0 <= q < n) (p_pid <$> t).
Proof. unfold unique_pids. by rewrite Forall_fmap. Qed.

Lemma tstep_unique s s' : tstep s s' -> unique_pids s -> unique_pids s'.
Proof.
  destruct 1 as [t n pid f Hf|t n f Hf|t n i p Hi _]; rewrite !unique_pids_alt.
  - by rewrite update_proc_fmap by apply Hf.
  - by rewrite benign_fmap.
  - intros [Hnd Hall]. split.
    + eapply sublist_NoDup; [done|]. by apply fmap_sublist, sublist_delete.
    + apply Forall_fmap. rewrite Forall_fmap in Hall. by apply Forall_delete.
Qed.

Lemma tsteps_unique s s' : rtc tstep s s' -> unique_pids s -> unique_pids s'.
Proof. induction 1; eauto using tstep_unique. Qed.

Lemma tstep_next s s' : tstep s s' -> s'.2 = s.2.
Proof. by destruct 1. Qed.

Lemma tsteps_next s s' : rtc tstep s s' -> s'.2 = s.2.
Proof. induction 1 as [|??? H%tstep_next]; congruence. Qed.

Lemma tbirth_next s s' : tbirth s s' -> s'.2 = wrap 32 (s.2 + 1).
Proof. by destruct 1. Qed.

Lemma tbirth_unique s s' :
  tbirth s s' -> 0 <= s.2 -> s.2 + 1 < 2 ^ 32 -> unique_pids s -> unique_pids s'.
Proof.
  destruct 1 as [t n p Hp _]. simpl. intros H0 H1 [Hnd Hall]. simpl in *.
  rewrite wrap_id by (split; lia). apply unique_pids_alt.
  rewrite fmap_app. simpl. split.
  - apply NoDup_app. split_and!; [done| |by apply NoDup_singleton].
    intros x Hx ->%list_elem_of_singleton.
    apply list_elem_of_fmap_1 in Hx as (q & E & Hq).
    rewrite Forall_forall in Hall. specialize (Hall q Hq). lia.
  - apply Forall_app. split; [|repeat constructor; simpl; lia].
    apply Forall_fmap. eapply Forall_impl; [done|]. simpl. lia.
Qed.

(** The dead stay dead: a zombie stays a zombie under the same PID until it is
    reaped. *)
Lemma tstep_zombie s s' pid p :
  tstep s s' -> unique_pids s -> find_proc pid s.1 = Some p -> p_state p = Zombie ->
  find_proc pid s'.1 = None \/
  exists p', find_proc pid s'.1 = Some p' /\ p_state p' = Zombie.
Proof.
  intros Hst [Hnd _] Hp Hz. destruct Hst as [t n pid' f Hf|t n f Hf|t n i q Hi _]; simpl in *.
  - right. destruct (decide (pid = pid')) as [<-|].
    + rewrite find_update_eq by apply Hf. rewrite Hp. eexists. split; [done|]. by apply Hf.
    + rewrite find_update_ne by (done || apply Hf). eauto.
  - right. apply find_proc_Some in Hp as [Hin Hpid]. exists (f p).
    split; [|by apply Hf]. apply find_proc_elem.
    + by rewrite benign_fmap.
    + by apply list_elem_of_fmap_2.
    + rewrite <- Hpid. apply Hf.
  - destruct (find_proc pid (delete i t)) as [p'|] eqn:Hp'; [right|by left].
    exists p'. split; [done|]. apply find_proc_Some in Hp' as [Hin Hpid].
    assert (p' ∈ t) as Hin'.
    { by eapply list_elem_of_delete_inv. }
    rewrite (find_proc_elem _ _ _ Hnd Hin' Hpid) in Hp. naive_solver.
Qed.

(** ** Lemmas on searches *)

Lemma find_index_Some {A} (f : A -> bool) l i x :
  find_index f l = Some (i, x) ->
  l !! i = Some x /\ f x = true /\ forall j y, (j < i)%nat -> l !! j = Some y -> f y = false.
Proof.
  revert i. induction l as [|a l IH]; intros i; simpl; [done|].
  destruct (f a) eqn:Ha.
  - intros [= <- <-]. split_and!; [done..|]. intros; lia.
  - destruct (find_index f l) as [[j y]|]; simpl; [|done]. intros [= <- <-].
    destruct (IH j eq_refl) as (H1 & H2 & H3). split_and!; [done..|].
    intros [|j'] z ? Hz; simpl in Hz; [congruence|]. by eapply (H3 j'); [lia|].
Qed.

Lemma find_index_None {A} (f : A -> bool) l x :
  find_index f l = None -> x ∈ l -> f x = false.
Proof.
  induction l as [|a l IH]; simpl; [by intros _ ?%elem_of_nil|].
  destruct (f a) eqn:Ha; [done|]. destruct (find_index f l); [done|].
  intros _ [->|]%elem_of_cons; auto.
Qed.

Lemma is_dead_child_spec parent target p :
  is_dead_child parent target p = true <->
  is_child parent target p = true /\ p_state p = Zombie.
Proof.
  unfold is_dead_child, is_child. rewrite !andb_true_iff, bool_decide_eq_true. tauto.
Qed.


(** ** The kernel runs the machine *)

Lemma benign_deliver : benign deliver.
Proof. intros p. unfold deliver. repeat case_match; done. Qed.
Lemma benign_pending g : benign (fun p => set_pending (g p) p).
Proof. done. Qed.
Lemma benign_zombie code : benign (make_zombie code).
Proof. done. Qed.
Lemma benign_exec name : benign (fun p => set_pending 0 (set_name name p)).
Proof. done. Qed.
Lemma benign_reparent dead : benign (reparent dead).
Proof. intros p. unfold reparent. by case_match. Qed.

Section ambient.
Context `{Pl : Platform}.

Definition procs (k : Kernel) : Procs := (PROCESS_TABLE k, NEXT_PID k).

(** A relation between kernel states that does not see input and output, the
    console, the current PID or the open files, and that allows the steps of
    the process machine. *)
Class Ambient (R : relation Kernel) : Prop := {
  ambient_preorder :: PreOrder R;
  ambient_io k e : R k (add_io e k);
  ambient_screen k w m : R k (set_screen w m k);
  ambient_input k q kb d : R k (set_input q kb d k);
  ambient_current k n : R k (set_current n k);
  ambient_fds k t : R k (set_fds t k);
  ambient_table k t : tstep (procs k) (t, NEXT_PID k) -> R k (set_table t k);
}.

(** One that does not see the clock either. *)
Class Clocked (R : relation Kernel) : Prop := {
  clocked_ambient :: Ambient R;
  clocked_tick k n : R k (set_tick n k);
}.

(** The process machine; the interrupts still to come; the clock, and no new
    interrupts. *)
Definition by_machine (k k' : Kernel) : Prop := rtc tstep (procs k) (procs k').
Definition same_irqs (k k' : Kernel) : Prop := irqs k' = irqs k.
Definition same_time (k k' : Kernel) : Prop :=
  TICK k' = TICK k /\ (length (irqs k') <= length (irqs k))%nat.

#[export] Instance by_machine_clocked : Clocked by_machine.
Proof.
  split; [split|]; unfold by_machine; intros; try done.
  - split; [by intros ?|]. intros ???. apply transitivity.
  - by apply rtc_once.
Qed.

#[export] Instance same_irqs_clocked : Clocked same_irqs.
Proof.
  split; [split|]; try done. split; unfold same_irqs; [by intros ?|]. intros ???. congruence.
Qed.

#[export] Instance same_time_ambient : Ambient same_time.
Proof.
  split; try done. split; unfold same_time; [by intros ?|]. intros ??? [] []. split; [congruence|lia].
Qed.

End ambient.

#[export] Hint Extern 1 (Ambient _) => typeclasses eauto : moves.
#[export] Hint Extern 1 (Clocked _) => typeclasses eauto : moves.
#[export] Hint Extern 2 => first [ apply ambient_io | apply ambient_screen | apply ambient_input
  | apply ambient_current | apply clocked_tick | apply ambient_fds ] : moves.

Section operations.
Context `{Pl : Platform} `{Pr : Profile} (R : relation Kernel) `{!Ambient R}.

Lemma moves_update pid f :
  benign f ->
  moves R (modify (fun k => set_table (update_proc pid f (PROCESS_TABLE k)) k)).
Proof. intros Hf. apply moves_modify. intros k. by apply ambient_table, t_update. Qed.

Lemma moves_kprint s : moves R (kprint s).
Proof. intros k. unfold kprint. by repeat case_match; simpl; auto with moves. Qed.
Lemma moves_mem_write a bs : moves R (mem_write a bs).
Proof. intros k. unfold mem_write. by case_match; simpl; auto with moves. Qed.
Lemma moves_store_i32 a v : moves R (store_i32 a v).
Proof. unfold store_i32. case_match; [apply moves_same; [apply _|done]|apply moves_mem_write]. Qed.
Lemma moves_mem_read a n : moves R (mem_read a n).
Proof. apply moves_same; [apply _|]. intros k. unfold mem_read. by case_match. Qed.
Lemma moves_read_port p : moves R (read_port p).
Proof. intros k. unfold read_port. case_match. simpl. auto with moves. Qed.
Lemma moves_serial_print bs : moves R (serial_print bs).
Proof. apply moves_modify. auto with moves. Qed.
Lemma moves_serial_println bs : moves R (serial_println bs).
Proof. apply moves_serial_print. Qed.
#[local] Hint Resolve moves_serial_print moves_serial_println moves_kprint
  moves_mem_write moves_mem_read moves_read_port : moves.

Lemma moves_decode b : moves R (decode_scancode b).
Proof. unfold decode_scancode, set_keyboard. walk. Qed.
#[local] Hint Resolve moves_decode : moves.
Lemma moves_next_char : moves R next_char.
Proof. unfold next_char, try_read_char, poll_char, set_key_buffer. walk. Qed.
Lemma moves_handle_interrupt : moves R handle_interrupt.
Proof. unfold handle_interrupt, set_key_buffer. walk. Qed.

Lemma moves_schedule : moves R schedule.
Proof. unfold schedule, current_pid. walk. Qed.
#[local] Hint Resolve moves_next_char moves_handle_interrupt moves_schedule : moves.

Lemma moves_dispatch_signals pid : moves R (dispatch_signals pid).
Proof. apply moves_update, benign_deliver. Qed.
#[local] Hint Resolve moves_dispatch_signals : moves.

Lemma moves_current_is_zombie : moves R current_is_zombie.
Proof. unfold current_is_zombie, current_pid. walk. Qed.

Lemma moves_waitpid_poll target : moves R (waitpid_poll target).
Proof.
  intros k. unfold waitpid_poll, mbind, M_bind, current_pid, gets. simpl.
  case_match; [|done].
  destruct (find_index _ _) as [[i p]|] eqn:Hf; [|done]. simpl.
  apply find_index_Some in Hf as (Hi & Hd & _). apply is_dead_child_spec in Hd as [_ Hz].
  by eapply ambient_table, t_reap.
Qed.

Lemma moves_kill pid sig : moves R (kill pid sig).
Proof.
  intros k. unfold kill. repeat case_match; try done.
  by apply ambient_table, t_update, benign_pending.
Qed.

Lemma moves_execve path : moves R (execve path).
Proof.
  intros k. unfold execve, mbind, M_bind, current_pid, gets. simpl.
  case_match; [|done]. by apply ambient_table, t_update, benign_exec.
Qed.

Lemma moves_exit_mark code : moves R (exit_mark code).
Proof.
  intros k. unfold exit_mark, mbind, M_bind, current_pid, gets, modify. simpl.
  etrans; [by eapply (ambient_table k), t_update, (benign_zombie code)|].
  refine (ambient_table (set_table _ k) _ _). by apply t_map, benign_reparent.
Qed.

Lemma moves_fd_lookup fd : moves R (fd_lookup fd).
Proof. unfold fd_lookup. walk. Qed.
Lemma moves_user_cstr p : moves R (user_cstr p).
Proof. unfold user_cstr. walk. Qed.

End operations.

Section clocked.
Context `{Pl : Platform} `{Pr : Profile} (R : relation Kernel) `{!Clocked R}.
#[local] Hint Resolve moves_serial_print moves_serial_println moves_handle_interrupt
  moves_schedule moves_dispatch_signals : moves.

Lemma moves_count_tick : moves R count_tick.
Proof. unfold count_tick. walk. Qed.
Lemma moves_tick : moves R tick.
Proof. unfold tick, count_tick, current_pid. walk. Qed.
#[local] Hint Resolve moves_tick : moves.

Lemma moves_interrupt v fr : moves R (interrupt v fr).
Proof.
  unfold interrupt. destruct (idt !! v) as [h|]; [|apply moves_same; [apply _|done]].
  destruct h; simpl; unfold notify_end_of_interrupt; walk;
    (apply moves_same; [apply _|done]).
Qed.

End clocked.

#[export] Hint Resolve moves_serial_print moves_serial_println moves_kprint
  moves_mem_write moves_store_i32 moves_mem_read moves_read_port moves_decode moves_next_char
  moves_handle_interrupt moves_schedule moves_dispatch_signals moves_tick moves_interrupt
  moves_current_is_zombie moves_waitpid_poll moves_kill moves_execve moves_exit_mark
  moves_fd_lookup moves_user_cstr : moves.

(** ** Enough fuel for the waiting loops *)

Section fuel.
Context `{Pl : Platform} `{Pr : Profile}.

Lemma hlt_irqs k k' : hlt k = Done tt k' -> S (length (irqs k')) = length (irqs k).
Proof.
  unfold hlt. destruct (irqs k) as [|v l] eqn:E; [done|]. intros Hk.
  pose proof (moves_interrupt same_irqs v [] (set_irqs l k)) as H. rewrite Hk in H.
  unfold same_irqs in H. simpl in *. by rewrite H.
Qed.

(** Any two amounts of fuel above the number of pending interrupts agree. *)
Lemma wait_loop_fuel {A} (body : M (option A)) n n' k :
  moves same_irqs body -> (length (irqs k) < n)%nat -> (length (irqs k) < n')%nat ->
  wait_loop n body k = wait_loop n' body k.
Proof.
  intros Hb. revert n' k. induction n as [|n IH]; intros [|n'] k Hn Hn'; try lia.
  simpl. unfold mbind, M_bind. specialize (Hb k).
  destruct (body k) as [[a|] k1| | |]; try done. unfold same_irqs in Hb. simpl in Hb.
  destruct (hlt k1) as [[] k2| | |] eqn:Hh; try done. apply hlt_irqs in Hh.
  rewrite Hb in Hh. apply IH; lia.
Qed.

(** The loop, one turn at a time. *)
Lemma wait_until_unfold {A} (body : M (option A)) k :
  moves same_irqs body ->
  wait_until body k =
  (r ← body; match r with Some a => mret a | None => _ ← hlt; wait_until body end) k.
Proof.
  intros Hb. unfold wait_until at 1. simpl. unfold mbind, M_bind. pose proof (Hb k) as Hk.
  destruct (body k) as [[a|] k1| | |]; try done. unfold same_irqs in Hk. simpl in Hk.
  destruct (hlt k1) as [[] k2| | |] eqn:Hh; try done. apply hlt_irqs in Hh.
  rewrite Hk in Hh. unfold wait_until. apply wait_loop_fuel; [done|lia|lia].
Qed.

End fuel.

(** ** Births *)

Section births.
Context `{Pl : Platform} `{Pr : Profile}.

(** [fork] is one birth, or an error that changes nothing. *)
Lemma fork_spec (k : Kernel) :
  match find_proc (CURRENT_PID k) (PROCESS_TABLE k) with
  | None => fork k = Done None k
  | Some parent =>
    let child := mkProcess (NEXT_PID k) (CURRENT_PID k) (p_name parent) Ready
                   (p_priority parent) (p_kernel_rsp parent) 0 0 in
    fork k = Done (Some (NEXT_PID k))
      (set_table (PROCESS_TABLE k ++ [child]) (set_next_pid (wrap 32 (NEXT_PID k + 1)) k))
  end.
Proof.
  unfold fork, mbind, M_bind, current_pid, gets. simpl.
  destruct (find_proc _ _) as [p|] eqn:Hp; [|done]. simpl.
  apply find_proc_Some in Hp as [_ <-]. done.
Qed.

End births.
