(* ===== verification/Preempt.v ===== *)
(** * Preemption: system calls as sequences of uninterruptible sections

    Interrupts are enabled while a system call runs; the code closes its
    critical sections with [without_interrupts].  A [task] is a call cut at
    those sections: between any two of them interrupts may be served and the
    devices may change.  Where the code takes the process table with interrupts
    enabled, the timer handler spins for ever if it arrives.  The tasks of the calls follow [syscall/mod.rs] section
    by section; run without a break they are the functions of [Syscall.v]. *)

From S2P Require Import Prelude RustStr KeyBuffer Mem Vga Kernel Signal Scheduler Keyboard Interrupts Process Syscall Lifecycle.

(** ** Equal computations

    Computations with the same result from every state. *)

Variant meq `{Pl : Platform} {A} (m m' : M A) : Prop :=
| same_results : (forall k, m k = m' k) -> meq m m'.
Infix "≐" := meq (at level 70, no associativity) : kernel_scope.

Lemma meq_at `{Pl : Platform} {A} (m m' : M A) k : m ≐ m' -> m k = m' k.
Proof. by intros [H]. Qed.

#[export] Instance meq_equivalence `{Pl : Platform} {A} : Equivalence (meq (A := A)).
Proof.
  split; [by split|by intros ?? [H]; split|].
  intros m1 m2 m3 [H1] [H2]. split. intros k. by rewrite H1.
Qed.

#[export] Instance mbind_proper `{Pl : Platform} {A B} :
  Proper (pointwise_relation A meq ==> meq ==> meq) (mbind (M := M) (A := A) (B := B)).
Proof.
  intros f g Hf m m' [Hm]. split. intros k. unfold mbind, M_bind. rewrite Hm.
  destruct (m' k); [by apply meq_at|done..].
Qed.

Lemma bind_ret_l `{Pl : Platform} {A B} (a : A) (f : A -> M B) : (mret a ≫= f) ≐ f a.
Proof. by split. Qed.
Lemma bind_ret_r `{Pl : Platform} {A} (m : M A) : (m ≫= mret) ≐ m.
Proof. split. intros k. unfold mbind, M_bind. by destruct (m k). Qed.
Lemma bind_assoc `{Pl : Platform} {A B C} (m : M A) (f : A -> M B) (g : B -> M C) :
  ((m ≫= f) ≫= g) ≐ (m ≫= fun a => f a ≫= g).
Proof. split. intros k. unfold mbind, M_bind. by destruct (m k). Qed.

#[export] Instance wait_until_proper `{Pl : Platform} `{Pr : Profile} {A} :
  Proper (meq ==> meq) (wait_until (A := A)).
Proof.
  intros m m' Hm. split. intros k. unfold wait_until. apply meq_at.
  induction (S (length (irqs k))) as [|n IH]; [done|]. simpl.
  apply mbind_proper; [|done]. intros [a|]; [done|].
  apply mbind_proper; [intros _; exact IH|done].
Qed.

(** ** Tasks *)

Section tasks.
Context `{Pl : Platform} `{Pr : Profile}.

(** [Atomic]: an uninterruptible section and what follows; [Locked]: a section
    with the lock of the process table held and interrupts enabled; [Sleep]: in
    [hlt]; [Loop]: [loop { if let Some(x) = body() { break x } hlt(); }];
    [Stop]: [loop { hlt(); }]; [Spin]: an interrupt handler spins on the lock
    the task holds. *)
Inductive task (A : Type) : Type :=
| Return (a : A)
| Stop
| Spin
| Atomic (X : Type) (m : M X) (next : X -> task A)
| Locked (X : Type) (m : M X) (next : X -> task A)
| Sleep (t : task A)
| Loop (X : Type) (body : task (option X)) (next : X -> task A).

End tasks.

Arguments Return {Pl A} a.
Arguments Stop {Pl A}.
Arguments Spin {Pl A}.
Arguments Atomic {Pl A X} m next.
Arguments Locked {Pl A X} m next.
Arguments Sleep {Pl A} t.
Arguments Loop {Pl A X} body next.

Notation "x <- m ;; t" := (Atomic m (fun x => t))
  (at level 100, m at next level, t at level 200, right associativity) : kernel_scope.
Notation "m ;; t" := (Atomic m (fun _ => t))
  (at level 100, t at level 200, right associativity) : kernel_scope.

Section run.
Context `{Pl : Platform} `{Pr : Profile}.

(** One task after another. *)
Fixpoint chain {A B} (t : task A) (f : A -> task B) : task B :=
  match t with
  | Return a => f a
  | Stop => Stop
  | Spin => Spin
  | Atomic m next => Atomic m (fun x => chain (next x) f)
  | Locked m next => Locked m (fun x => chain (next x) f)
  | Sleep t => Sleep (chain t f)
  | Loop body next => Loop body (fun x => chain (next x) f)
  end.

(** What happens next: the task runs on, an interrupt is served, or the
    devices change. *)
Inductive event := Run | Irq (v : Z) | World (d : Devices).

(** What happens from outside. *)
Definition interfere (e : event) : M unit :=
  match e with
  | Run => mret tt
  | Irq v => interrupt v []
  | World d => modify (fun k => set_input (KEY_BUFFER k) (KEYBOARD k) d k)
  end.

(** One turn of a loop. *)
Definition turn {A X} (body : task (option X)) (next : X -> task A) : task A :=
  chain body (fun r => match r with Some x => next x | None => Sleep (Loop body next) end).

(** An interrupt ends [hlt]. *)
Definition wake {A} (e : event) (t : task A) : task A :=
  match e, t with Irq _, Sleep t => t | _, _ => t end.

(** The machine: a task and the kernel's state, or a panic. *)
Definition machine A : Type := option (task A * Kernel).

Definition resume {A} (t : task A) (k : Kernel) : machine A :=
  match t with
  | Return _ | Stop | Spin | Sleep _ => Some (t, k)
  | Atomic m next | Locked m next =>
    match m k with
    | Done x k' => Some (next x, k')
    | Panicked _ => None
    | Halted k' | Waiting k' => Some (Stop, k')
    end
  | Loop body next => Some (turn body next, k)
  end.

(** An event from outside, served. *)
Definition served {A} (e : event) (t : task A) (k : Kernel) : machine A :=
  match interfere e k with
  | Done _ k' => Some (wake e t, k')
  | _ => None
  end.

(** The timer handler counts the tick and then needs the process table; where
    the task holds it, the handler spins, interrupts disabled, from then on. *)
Definition advance {A} (e : event) (t : task A) (k : Kernel) : machine A :=
  match e, t with
  | Run, _ => resume t k
  | Irq _, Spin => Some (Spin, k)
  | Irq v, Locked _ _ =>
    if v =? as_vector Timer
    then match count_tick k with Done _ k' => Some (Spin, k') | _ => None end
    else served e t k
  | _, _ => served e t k
  end.

Fixpoint run {A} (es : list event) (t : task A) (k : Kernel) : machine A :=
  match es with
  | [] => Some (t, k)
  | e :: es => match advance e t k with Some (t', k') => run es t' k' | None => None end
  end.

(** The task run without a break: interrupts are served in [hlt] only, those
    of [irqs]. *)
Fixpoint collapse {A} (t : task A) : M A :=
  match t with
  | Return a => mret a
  | Stop | Spin => halt_forever
  | Atomic m next | Locked m next => m ≫= fun x => collapse (next x)
  | Sleep t => hlt ≫= fun _ => collapse t
  | Loop body next => wait_until (collapse body) ≫= fun x => collapse (next x)
  end.

#[export] Instance run_decision (e : event) : Decision (e = Run).
Proof. destruct e; [left|right|right]; done. Defined.

(** What an event from outside does to a task: it is served, or a handler
    spins. *)
Lemma served_inv {A} e (t : task A) k t' k' :
  served e t k = Some (t', k') -> interfere e k = Done tt k' /\ t' = wake e t.
Proof. unfold served. destruct (interfere _ k) as [[] k1| | |]; intros [= <- <-]; done. Qed.

Lemma advance_outside {A} e (t : task A) k t' k' :
  e <> Run -> advance e t k = Some (t', k') ->
  (interfere e k = Done tt k' /\ t' = wake e t) \/
  (t' = Spin /\ (k' = k \/ exists n, count_tick k = Done n k')).
Proof.
  intros He. destruct e as [|v|d]; [done| |by intros ?%served_inv; left].
  destruct t as [a| | |X m next|X m next|t|X body next]; cbn [advance]; try (by intros ?%served_inv; left).
  - intros [= <- <-]. right. auto.
  - case_match; [|by intros ?%served_inv; left]. intros E.
    destruct (count_tick k) as [n k1| | |]; simplify_eq. right. eauto.
Qed.

(** Neither holding the table nor spinning. *)
Definition exposed {A} (t : task A) : bool :=
  match t with Locked _ _ | Spin => true | _ => false end.

Lemma advance_served {A} e (t : task A) k :
  e <> Run -> exposed t = false -> advance e t k = served e t k.
Proof. intros He Ht. destruct e; [done|..]; by destruct t. Qed.

(** A task that has ended stays ended. *)
Lemma run_ended {A} es k (t t' : task A) k' :
  (forall k, resume t k = Some (t, k)) -> (forall e, wake e t = t) -> exposed t = false ->
  run es t k = Some (t', k') -> t' = t.
Proof.
  intros Hr Hw He. revert k. induction es as [|e es IH]; intros k; cbn [run]; [by intros [= <- _]|].
  destruct (advance e t k) as [[t1 k1]|] eqn:E; [|done].
  destruct (decide (e = Run)) as [->|Hne].
  - assert (resume t k = Some (t1, k1)) as E' by (by destruct t). rewrite Hr in E'.
    injection E' as <- <-. apply IH.
  - rewrite advance_served in E by done. apply served_inv in E as [_ ->]. rewrite Hw. apply IH.
Qed.

Lemma run_stop {A} es k (t : task A) k' : run es Stop k = Some (t, k') -> t = Stop.
Proof. apply run_ended; [done|by intros []|done]. Qed.
Lemma run_return {A} es k (a : A) t k' : run es (Return a) k = Some (t, k') -> t = Return a.
Proof. apply run_ended; [done|by intros []|done]. Qed.
Lemma run_spin {A} es k (t : task A) k' : run es Spin k = Some (t, k') -> t = Spin.
Proof.
  revert k. induction es as [|e es IH]; intros k; cbn [run]; [by intros [= <- _]|].
  destruct e as [|v|d]; cbn; apply IH.
Qed.

Lemma collapse_chain {A B} (t : task A) (f : A -> task B) :
  collapse (chain t f) ≐ (collapse t ≫= fun a => collapse (f a)).
Proof.
  induction t as [A a|A|A|A X m next IH|A X m next IH|A t IH|A X body IHb next IH]; simpl.
  - by rewrite bind_ret_l.
  - done.
  - done.
  - rewrite bind_assoc. apply mbind_proper; [|done]. intros x. apply IH.
  - rewrite bind_assoc. apply mbind_proper; [|done]. intros x. apply IH.
  - rewrite bind_assoc. apply mbind_proper; [|done]. intros _. apply IH.
  - rewrite bind_assoc. apply mbind_proper; [|done]. intros x. apply IH.
Qed.

End run.

(** ** The system calls, section by section *)

Section calls.
Context `{Pl : Platform} `{Pr : Profile}.

(** The two closures of [try_read_char().or_else(|| poll_char())]. *)
Definition next_char_task : task (option Z) :=
  c <- try_read_char;;
  match c with
  | Some _ => Return c
  | None => c <- poll_char;; Return c
  end.

Definition read_first_task : task (option Z) :=
  Loop (zombie <- current_is_zombie;;
        if (zombie : bool) then Return (Some None)
        else chain next_char_task (fun c => Return (Some <$> c))) Return.

Fixpoint read_more_task (n : nat) (buf read : Z) : task Z :=
  match n with
  | O => Return read
  | S n =>
    chain next_char_task (fun c =>
      match c with
      | None => Return read
      | Some ch =>
        mem_write (buf + read) [ch];;
        if (ch =? 10) || (ch =? 13) then Return (read + 1)
        else read_more_task n buf (read + 1)
      end)
  end.

Definition read_console_task (buf count : Z) : task Z :=
  chain read_first_task (fun c =>
    match c with
    | None => Return (errno Intr)
    | Some ch =>
      mem_write buf [ch];;
      chain (read_more_task (Z.to_nat (count - 1)) buf 1) (fun read => Return (as_i64 read))
    end).

Definition read_node_task (node : PseudoNode) (buf count offset : Z) : task Z :=
  match node with
  | ProcVersion => n <- read_static buf count offset version_text;; Return n
  | ProcUptime => t <- ticks;; n <- read_static buf count offset (uptime_text t);; Return n
  | ProcMeminfo => n <- read_static buf count offset meminfo_text;; Return n
  | SysHostname => n <- read_static buf count offset hostname_text;; Return n
  | DevNull | DevTtyS0 => Return 0
  | DevZero | DevFull => mem_write buf (replicate (Z.to_nat count) 0);; Return count
  end.

Definition sys_read_task (fd buf count : Z) : task Z :=
  if count =? 0 then Return 0
  else if buf =? 0 then Return (errno Fault)
  else if fd =? 0 then read_console_task buf count
  else
    f <- fd_lookup fd;;
    match f with
    | None => Return (errno BadF)
    | Some (i, file) =>
      chain (read_node_task (f_node file) buf count (f_offset file)) (fun n =>
        modify (fun k => set_fds
          (<[i := Some (mkOpenFile (f_node file) (saturating_add 64 (f_offset file) n))]>
             (FD_TABLE k)) k);;
        Return (as_i64 n))
    end.

Fixpoint tty_write_task (n : nat) (a : Z) : task unit :=
  match n with
  | O => Return tt
  | S n =>
    b <- mem_read a 1;;
    serial_print (b ≫= utf8_char);;
    tty_write_task n (a + 1)
  end.

Definition sys_write_task (fd buf count : Z) : task Z :=
  if count =? 0 then Return 0
  else if buf =? 0 then Return (errno Fault)
  else if (fd =? 1) || (fd =? 2) then
    bs <- mem_read buf (Z.to_nat count);;
    match from_utf8 bs with
    | Some s => serial_print s;; kprint s;; Return (as_i64 count)
    | None => Return (as_i64 count)
    end
  else
    f <- fd_lookup fd;;
    match f with
    | None => Return (errno BadF)
    | Some (_, file) =>
      match f_node file with
      | DevNull | DevZero => Return (as_i64 count)
      | DevFull => Return (errno NoSpc)
      | DevTtyS0 => chain (tty_write_task (Z.to_nat count) buf) (fun _ => Return (as_i64 count))
      | _ => Return (errno Perm)
      end
    end.

(** The descriptor table changes in one piece: it is locked and no interrupt
    handler uses it. *)
Definition fd_install (file : OpenFile) : M Z :=
  t ← gets FD_TABLE;
  match free_slot t with
  | Some idx => _ ← modify (set_fds (<[idx := Some file]> t)); mret (Z.of_nat idx + 3)
  | None => _ ← modify (set_fds (t ++ [Some file])); mret (zlen t + 3)
  end.

Definition sys_open_task (path flags : Z) : task Z :=
  if path =? 0 then Return (errno Fault)
  else
    p <- user_cstr path;;
    match p with
    | None => Return (errno Fault)
    | Some p =>
      match node_of_path p with
      | None => Return (errno NoEnt)
      | Some node =>
        let access := Z.land flags O_ACCMODE in
        let write_requested := (access =? O_WRONLY) || (access =? O_RDWR) in
        if write_requested && read_only node then Return (errno Acces)
        else fd <- fd_install (mkOpenFile node 0);; Return fd
      end
    end.

Definition sys_close_task (fd : Z) : task Z :=
  if fd <? 3 then Return 0
  else
    f <- fd_lookup fd;;
    match f with
    | None => Return (errno BadF)
    | Some (i, _) => modify (fun k => set_fds (<[i := None]> (FD_TABLE k)) k);; Return 0
    end.

Definition sys_execve_task (path : Z) : task Z :=
  if path =? 0 then Return (errno Fault)
  else
    p <- user_cstr path;;
    match p with
    | None => Return (errno Fault)
    | Some p => r <- execve p;; Return match r with Some _ => 0 | None => errno NoEnt end
    end.

(** [PROCESS_TABLE.lock()] with interrupts enabled.  The lock is free at this
    moment: a handler has released it when it returns, and a task that holds it
    is in a [Locked] section; such sections follow. *)
Definition lock_table : M unit := mret tt.

(** [exit] schedules and prints with interrupts enabled. *)
Definition sys_exit_task (code : Z) : task Z :=
  exit_mark code;;
  pid <- getpid;;
  serial_println (exit_message code pid);;
  lock_table;;
  Locked force_schedule (fun _ => Stop).

Definition sys_getppid_task : task Z := lock_table;; Locked sys_getppid Return.

Definition waitpid_task (target : option Z) : task (option (Z * Z)) :=
  Loop (r <- waitpid_poll target;;
        Return match r with
               | None => Some None
               | Some (Some x) => Some (Some x)
               | Some None => None
               end) Return.

Definition sys_wait4_task (pid status : Z) : task Z :=
  let target := if pid <=? 0 then None else Some (as_u32 pid) in
  chain (waitpid_task target) (fun r =>
    match r with
    | Some (child_pid, code) =>
      if status =? 0 then Return child_pid
      else store_i32 status (Z.shiftl (Z.land code 0xff) 8);; Return child_pid
    | None => Return (errno Srch)
    end).

Definition one_section (m : M Z) : task Z := r <- m;; Return r.

Definition dispatch_task (f : SyscallFrame) : task Z :=
  if num f =? SYS_READ then sys_read_task (as_i32 (rdi f)) (rsi f) (rdx f)
  else if num f =? SYS_WRITE then sys_write_task (as_i32 (rdi f)) (rsi f) (rdx f)
  else if num f =? SYS_OPEN then sys_open_task (rdi f) (as_i32 (rsi f))
  else if num f =? SYS_CLOSE then sys_close_task (as_i32 (rdi f))
  else if num f =? SYS_GETPID then one_section sys_getpid
  else if num f =? SYS_FORK then one_section sys_fork
  else if num f =? SYS_EXECVE then sys_execve_task (rdi f)
  else if (num f =? SYS_EXIT) || (num f =? SYS_EXIT_GROUP) then sys_exit_task (as_i32 (rdi f))
  else if num f =? SYS_WAIT4 then sys_wait4_task (as_i32 (rdi f)) (rsi f)
  else if num f =? SYS_KILL then one_section (sys_kill (as_u32 (rdi f)) (as_u8 (rsi f)))
  else if num f =? SYS_GETPPID then sys_getppid_task
  else if num f =? SYS_BRK then Return 0
  else Return (errno NoSys).

End calls.

(** ** Without a break the tasks are the calls *)

Section equivalence.
Context `{Pl : Platform} `{Pr : Profile}.

Lemma collapse_next_char : collapse next_char_task ≐ next_char.
Proof.
  unfold next_char_task, next_char. simpl. apply mbind_proper; [|done].
  intros [c|]; simpl; [done|]. apply bind_ret_r.
Qed.

Lemma collapse_read_first : collapse read_first_task ≐ read_first.
Proof.
  unfold read_first_task, read_first. cbn [collapse]. rewrite bind_ret_r.
  apply wait_until_proper, mbind_proper; [|done]. intros [|]; [done|].
  cbv beta iota. rewrite collapse_chain, collapse_next_char. done.
Qed.

Lemma collapse_read_more n buf read :
  collapse (read_more_task n buf read) ≐ read_more n buf read.
Proof.
  revert read. induction n as [|n IH]; intros read; [done|].
  cbn [read_more_task read_more]. rewrite collapse_chain, collapse_next_char. apply mbind_proper; [|done].
  intros [ch|]; [|done]. simpl. apply mbind_proper; [|done]. intros _.
  destruct ((ch =? 10) || (ch =? 13)); [done|apply IH].
Qed.

Lemma collapse_read_console buf count :
  collapse (read_console_task buf count) ≐ read_console buf count.
Proof.
  unfold read_console_task, read_console. rewrite collapse_chain, collapse_read_first.
  apply mbind_proper; [|done]. intros [ch|]; [|done]. cbn [collapse].
  apply mbind_proper; [|done]. intros _. by rewrite collapse_chain, collapse_read_more.
Qed.

Lemma collapse_read_node node buf count offset :
  collapse (read_node_task node buf count offset) ≐ read_node node buf count offset.
Proof.
  destruct node; cbn [collapse read_node_task read_node]; try done; apply bind_ret_r.
Qed.

Lemma collapse_tty_write n a : collapse (tty_write_task n a) ≐ tty_write n a.
Proof.
  revert a. induction n as [|n IH]; intros a; [done|]. simpl.
  apply mbind_proper; [|done]. intros b. apply mbind_proper; [|done]. intros _. apply IH.
Qed.

Lemma collapse_sys_read fd buf count : collapse (sys_read_task fd buf count) ≐ sys_read fd buf count.
Proof.
  unfold sys_read_task, sys_read. do 2 (case_match; [done|]).
  case_match; [apply collapse_read_console|]. cbn [collapse].
  apply mbind_proper; [|done]. intros [[i file]|]; [|done].
  rewrite collapse_chain, collapse_read_node. done.
Qed.

Lemma collapse_sys_write fd buf count :
  collapse (sys_write_task fd buf count) ≐ sys_write fd buf count.
Proof.
  unfold sys_write_task, sys_write. do 2 (case_match; [done|]). case_match; cbn [collapse].
  - apply mbind_proper; [|done]. intros bs. destruct (from_utf8 bs); [|done].
    cbn [collapse]. by rewrite bind_assoc.
  - apply mbind_proper; [|done]. intros [[i file]|]; [|done].
    destruct (f_node file); try done. by rewrite collapse_chain, collapse_tty_write.
Qed.

Lemma collapse_sys_open path flags : collapse (sys_open_task path flags) ≐ sys_open path flags.
Proof.
  unfold sys_open_task, sys_open. case_match; [done|]. cbn [collapse].
  apply mbind_proper; [|done]. intros [p|]; [|done]. destruct (node_of_path p); [|done].
  case_match; [done|]. cbn [collapse]. rewrite bind_ret_r. done.
Qed.

Lemma collapse_waitpid target : collapse (waitpid_task target) ≐ waitpid target.
Proof. unfold waitpid_task, waitpid. cbn [collapse]. by rewrite bind_ret_r. Qed.

Lemma collapse_sys_wait4 pid status : collapse (sys_wait4_task pid status) ≐ sys_wait4 pid status.
Proof.
  unfold sys_wait4_task, sys_wait4. cbv zeta. rewrite collapse_chain, collapse_waitpid.
  apply mbind_proper; [|done]. intros [[c code]|]; [|done]. by destruct (status =? 0).
Qed.

Lemma collapse_sys_exit code : collapse (sys_exit_task code) ≐ sys_exit code.
Proof.
  unfold sys_exit, exit, exit_effects. rewrite !bind_assoc. split. intros k. reflexivity.
Qed.

Lemma collapse_dispatch f : collapse (dispatch_task f) ≐ dispatch f.
Proof.
  unfold dispatch_task, dispatch.
  repeat match goal with |- context [Z.eqb (num f) ?n] => destruct (num f =? n) end; cbn [orb];
    try done; try apply collapse_sys_exit; try apply bind_ret_r.
  - apply collapse_sys_read.
  - apply collapse_sys_write.
  - apply collapse_sys_open.
  - unfold sys_close_task, sys_close. case_match; [done|]. simpl.
    apply mbind_proper; [|done]. by intros [[i file]|].
  - unfold sys_execve_task, sys_execve. case_match; [done|]. simpl.
    apply mbind_proper; [|done]. by intros [p|].
  - apply collapse_sys_wait4.
Qed.

End equivalence.

(** ** What every section of a task respects *)

Section calm.
Context `{Pl : Platform} `{Pr : Profile} (R : relation Kernel).

Inductive calm : forall {A}, task A -> Prop :=
| calm_return A (a : A) : calm (Return a)
| calm_stop A : calm (Stop (A := A))
| calm_spin A : calm (Spin (A := A))
| calm_section A X (m : M X) (next : X -> task A) :
    moves R m -> (forall x, calm (next x)) -> calm (Atomic m next)
| calm_locked A X (m : M X) (next : X -> task A) :
    moves R m -> (forall x, calm (next x)) -> calm (Locked m next)
| calm_sleep A (t : task A) : calm t -> calm (Sleep t)
| calm_loop A X (body : task (option X)) (next : X -> task A) :
    calm body -> (forall x, calm (next x)) -> calm (Loop body next).

Lemma calm_chain {A B} (t : task A) (f : A -> task B) :
  calm t -> (forall a, calm (f a)) -> calm (chain t f).
Proof. induction 1; intros Hf; simpl; [apply Hf|constructor; auto..]. Qed.

Lemma calm_turn {A X} (body : task (option X)) (next : X -> task A) :
  calm body -> (forall x, calm (next x)) -> calm (turn body next).
Proof.
  intros Hb Hn. apply calm_chain; [done|]. intros [x|]; [done|]. by do 2 constructor.
Qed.

Context `{!PreOrder R}.

Lemma calm_resume {A} (t t' : task A) k k' :
  calm t -> resume t k = Some (t', k') -> R k k' /\ calm t'.
Proof.
  destruct 1 as [A a|A|A|A X m next Hm Hn|A X m next Hm Hn|A t Ht|A X body next Hb Hn]; cbn [resume];
    try (intros [= <- <-]; split; [done|by constructor]).
  - specialize (Hm k). destruct (m k); intros [= <- <-]; split; done || constructor.
  - specialize (Hm k). destruct (m k); intros [= <- <-]; split; done || constructor.
  - intros [= <- <-]. split; [done|]. by apply calm_turn.
Qed.

Lemma calm_wake {A} e (t : task A) : calm t -> calm (wake e t).
Proof. destruct 1; destruct e; simpl; by try constructor. Qed.

(** Between two moments of a preempted run. *)
Lemma calm_run {A} es (t t' : task A) k k' :
  (forall e, moves R (interfere e)) -> moves R count_tick -> calm t -> run es t k = Some (t', k') ->
  R k k' /\ calm t'.
Proof.
  intros Hi Hct. revert t k. induction es as [|e es IH]; intros t k Ht; cbn [run].
  { intros [= <- <-]. by split. }
  destruct (advance e t k) as [[t1 k1]|] eqn:E; [|done]. intros Hr.
  assert (R k k1 /\ calm t1) as [H1 H2].
  { destruct (decide (e = Run)) as [->|He]; [by eapply calm_resume|].
    apply advance_outside in E as [[E ->]|[-> Hk1]]; [| |done].
    - split; [specialize (Hi e k); by rewrite E in Hi|by apply calm_wake].
    - split; [|constructor]. destruct Hk1 as [->|[n E]]; [done|].
      specialize (Hct k). by rewrite E in Hct. }
  destruct (IH _ _ H2 Hr) as [H3 H4]. split; [by etrans|done].
Qed.

End calm.

Lemma moves_interfere `{Pl : Platform} `{Pr : Profile} (R : relation Kernel) `{!Clocked R} e :
  moves R (interfere e).
Proof. destruct e; simpl; [apply moves_ret, _|apply moves_interrupt, _|walk]. Qed.

#[export] Hint Constructors calm : moves.

(** Split a task into its sections. *)
Ltac calmly :=
  repeat first
    [ solve [auto with moves]
    | apply calm_chain; [|intros ?]
    | apply calm_section; [solve [walk]|intros ?]
    | apply calm_locked; [solve [walk]|intros ?]
    | apply calm_loop; [|intros ?]
    | progress case_match ].

Section calm_calls.
Context `{Pl : Platform} `{Pr : Profile} (R : relation Kernel) `{!Ambient R}.

Lemma calm_next_char : calm R next_char_task.
Proof.
  unfold next_char_task, try_read_char, poll_char, set_key_buffer. calmly.
Qed.
#[local] Hint Resolve calm_next_char : moves.

Lemma calm_read_more n buf read : calm R (read_more_task n buf read).
Proof. revert read. induction n as [|n IH]; intros read; simpl; calmly. Qed.

Lemma calm_tty_write n a : calm R (tty_write_task n a).
Proof. revert a. induction n as [|n IH]; intros a; simpl; calmly. Qed.
#[local] Hint Resolve calm_read_more calm_tty_write : moves.

Lemma calm_sys_read fd buf count : calm R (sys_read_task fd buf count).
Proof.
  unfold sys_read_task, read_console_task, read_first_task, read_node_task, read_static, ticks.
  calmly.
Qed.

Lemma calm_dispatch f : num f <> SYS_FORK -> calm R (dispatch_task f).
Proof.
  intros Hf. unfold dispatch_task. rewrite (proj2 (Z.eqb_neq (num f) SYS_FORK)) by done.
  pose proof calm_sys_read.
  unfold sys_write_task, sys_open_task, sys_close_task, fd_install, sys_execve_task,
    sys_exit_task, sys_wait4_task, waitpid_task, one_section, sys_getpid, sys_getppid_task, sys_getppid,
    lock_table, sys_kill, getpid, current_pid, force_schedule.
  calmly.
Qed.

End calm_calls.
