(* ===== verification/Runs.v ===== *)
(** * Runs of the kernel

    Sequences of system calls, each preempted in any way, interrupts and
    changes from outside; the process machine of [Lifecycle.v] simulates them,
    and the invariants of PIDs follow. *)

From S2P Require Import Prelude RustStr KeyBuffer Mem Vga Kernel Signal Scheduler Keyboard Interrupts Process Syscall Lifecycle Preempt.

Section runs.
Context `{Pl : Platform} `{Pr : Profile}.

(** One step: a system call, preempted between its sections in any way and
    run to any point; an interrupt or a change of the devices; user code
    writing memory.  A panic ends the run. *)
Inductive kstep : relation Kernel :=
| k_syscall f es t k k' : run es (dispatch_task f) k = Some (t, k') -> kstep k k'
| k_outside e k k' : interfere e k = Done tt k' -> kstep k k'
| k_memory m k : kstep k (set_screen (WRITER k) m k).

(** The state [process::init] leaves. *)
Definition booted (kb : Keyboard) (d : Devices) (m : mem) (l : list Z) : Kernel :=
  state_of (process_init (statics kb d m l)).

(** A fork, preempted: the table evolves, a process is born, it evolves
    again. *)
Lemma run_fork es t k k' :
  run es (one_section sys_fork) k = Some (t, k') ->
  exists s1 s2, rtc tstep (procs k) s1 /\ (s2 = s1 \/ tbirth s1 s2) /\ rtc tstep s2 (procs k').
Proof.
  pose proof (moves_interfere by_machine) as Hi. pose proof (moves_count_tick by_machine) as Hct.
  revert k. induction es as [|e es IH]; intros k; cbn [run].
  { intros [= <- <-]. exists (procs k), (procs k). by split_and!; [|left|]. }
  destruct (advance e (one_section sys_fork) k) as [[t1 k1]|] eqn:E; [|done]. intros Hr.
  destruct (decide (e = Run)) as [->|He].
  - cbn [advance resume one_section] in E. unfold sys_fork, mbind, M_bind in E.
    pose proof (fork_spec k) as Hf. exists (procs k).
    destruct (find_proc _ _); rewrite Hf in E; injection E as <- <-;
      (apply (calm_run by_machine _ _ _ _ _ Hi Hct) in Hr as [Hr _]; [|constructor]).
    + eexists. split; [done|]. split; [|exact Hr]. right. by constructor.
    + exists (procs k). split_and!; [done|by left|exact Hr].
  - rewrite advance_served in E by done. apply served_inv in E as [E ->].
    specialize (Hi e k). rewrite E in Hi.
    assert (wake e (one_section sys_fork) = one_section sys_fork) as Hw by by destruct e.
    rewrite Hw in Hr. destruct (IH _ Hr) as (s1 & s2 & H1 & H2 & H3).
    exists s1, s2. split_and!; [by etrans; [exact Hi|]|done..].
Qed.

(** The process machine simulates the kernel: a step of the kernel is a run
    of the machine with at most one birth. *)
Lemma kstep_simulated k k' :
  kstep k k' ->
  exists s1 s2, rtc tstep (procs k) s1 /\ (s2 = s1 \/ tbirth s1 s2) /\ rtc tstep s2 (procs k').
Proof.
  destruct 1 as [f es t k k' Hr|e k k' He|].
  - destruct (decide (num f = SYS_FORK)) as [Hf|Hf].
    + eapply run_fork. unfold dispatch_task in Hr. by rewrite Hf in Hr.
    + exists (procs k'), (procs k'). split_and!; [|by left|done].
      eapply (calm_run by_machine); [apply moves_interfere, _|apply moves_count_tick, _|by apply calm_dispatch; [apply _|]|done].
  - exists (procs k'), (procs k'). split_and!; [|by left|done].
    pose proof (moves_interfere by_machine e k) as Hi. by rewrite He in Hi.
  - by exists (procs k), (procs k); split_and!; [|left|].
Qed.

Lemma kstep_unique k k' :
  kstep k k' -> 0 <= NEXT_PID k -> NEXT_PID k + 1 < 2 ^ 32 -> unique_pids (procs k) ->
  unique_pids (procs k') /\ NEXT_PID k <= NEXT_PID k' <= NEXT_PID k + 1.
Proof.
  intros (s1 & s2 & Hs1 & Hb & Hs2)%kstep_simulated H0 H1 Hu.
  pose proof (tsteps_next _ _ Hs1) as N1. pose proof (tsteps_next _ _ Hs2) as N2. simpl in N1, N2.
  apply (tsteps_unique _ _ Hs1) in Hu. destruct Hb as [->|Hb].
  - split; [by eapply tsteps_unique|]. lia.
  - pose proof (tbirth_next _ _ Hb) as N. rewrite N1, wrap_id in N by (split; lia).
    split; [|lia]. eapply tsteps_unique; [done|]. eapply tbirth_unique; [done|lia..|done].
Qed.

Lemma ksteps_unique n k k' :
  nsteps kstep n k k' -> 0 <= NEXT_PID k -> NEXT_PID k + Z.of_nat n < 2 ^ 32 ->
  unique_pids (procs k) ->
  unique_pids (procs k') /\ 0 <= NEXT_PID k' /\ NEXT_PID k' <= NEXT_PID k + Z.of_nat n.
Proof.
  induction 1 as [|n k1 k2 k3 Hs Hn IH]; intros H0 H1 Hu; [split_and!; [done|done|lia]|].
  destruct (kstep_unique _ _ Hs) as [Hu2 [??]]; [lia|lia|done|].
  destruct IH as (?&?&?); [lia|lia|done|]. split_and!; [done|done|lia].
Qed.

Lemma booted_procs kb d m l :
  procs (booted kb d m l) =
  ([idle_process; mkProcess 1 0 (lit "init") Ready PNormal 0 0 0], 2).
Proof. reflexivity. Qed.

(** C4: PIDs are unique: after booting, through any sequence of fewer than
    2^32 - 2 system calls, interrupts and changes made from outside, with
    interrupts also arriving between any two sections of a call, no two
    entries of the process table have the same PID, and every PID is below
    the counter the next [fork] takes its PID from. *)
Theorem pids_unique kb d m l n k :
  nsteps kstep n (booted kb d m l) k -> Z.of_nat n < 2 ^ 32 - 2 ->
  NoDup (p_pid <$> PROCESS_TABLE k) /\
  forall p, p ∈ PROCESS_TABLE k -> 0 <= p_pid p < NEXT_PID k.
Proof.
  intros Hn Hlt. apply ksteps_unique in Hn as [[Hnd Hall] _].
  - split; [done|]. by rewrite Forall_forall in Hall.
  - done.
  - change (NEXT_PID (booted kb d m l)) with 2. lia.
  - rewrite booted_procs. split; [|repeat constructor; simpl; lia].
    simpl. apply NoDup_cons. split; [|apply NoDup_singleton].
    rewrite list_elem_of_singleton. done.
Qed.

(** [pid] is gone for good or a zombie. *)
Definition dead (pid : Z) (s : Procs) : Prop :=
  pid < s.2 /\
  (find_proc pid s.1 = None \/ exists p, find_proc pid s.1 = Some p /\ p_state p = Zombie).

Lemma tstep_absent s s' pid :
  tstep s s' -> find_proc pid s.1 = None -> find_proc pid s'.1 = None.
Proof.
  destruct 1 as [t n pid' f Hf|t n f Hf|t n i q Hi _]; simpl; rewrite !find_proc_None.
  - by rewrite update_proc_fmap by apply Hf.
  - by rewrite benign_fmap.
  - intros Hn Hin. apply Hn. eapply elem_of_sublist; [done|].
    by apply fmap_sublist, sublist_delete.
Qed.

Lemma tsteps_dead s s' pid :
  rtc tstep s s' -> unique_pids s -> dead pid s -> dead pid s'.
Proof.
  induction 1 as [|s1 s2 s3 Hs _ IH]; [done|]. intros Hu [Hlt Hd].
  apply IH; [by eapply tstep_unique|]. split; [by rewrite (tstep_next _ _ Hs)|].
  destruct Hd as [Hn|(p & Hp & Hz)]; [left; by eapply tstep_absent|].
  by eapply tstep_zombie.
Qed.

Lemma find_proc_app pid t p :
  find_proc pid (t ++ [p]) =
  match find_proc pid t with
  | Some q => Some q
  | None => if p_pid p =? pid then Some p else None
  end.
Proof.
  unfold find_proc. induction t as [|q t IH]; simpl; [done|].
  destruct (p_pid q =? pid); [done|exact IH].
Qed.

Lemma tbirth_dead s s' pid :
  tbirth s s' -> 0 <= s.2 -> s.2 + 1 < 2 ^ 32 -> dead pid s -> dead pid s'.
Proof.
  destruct 1 as [t n p Hp _]. simpl. intros H0 H1 [Hlt Hd]. simpl in *.
  split; simpl; [rewrite wrap_id by (split; lia); lia|]. rewrite find_proc_app.
  destruct Hd as [Hn|(q & Hq & Hz)]; [left|right].
  - rewrite Hn. by rewrite (proj2 (Z.eqb_neq _ _)) by lia.
  - rewrite Hq. eauto.
Qed.

(** C15: Death is final and PIDs are not reused: from a state with unique PIDs,
    through any sequence of steps that cannot exhaust the PID counter, calls
    preempted between any two of their sections included, a
    zombie stays a zombie under its PID until it is reaped, and once it has
    been reaped no process ever has that PID again. *)
Theorem death_is_final n k k' pid p :
  nsteps kstep n k k' -> unique_pids (procs k) ->
  0 <= NEXT_PID k -> NEXT_PID k + Z.of_nat n < 2 ^ 32 ->
  find_proc pid (PROCESS_TABLE k) = Some p -> p_state p = Zombie ->
  find_proc pid (PROCESS_TABLE k') = None \/
  exists p', find_proc pid (PROCESS_TABLE k') = Some p' /\ p_state p' = Zombie.
Proof.
  intros Hn Hu H0 H1 Hp Hz.
  assert (dead pid (procs k)) as Hd.
  { split; [|eauto]. apply find_proc_Some in Hp as [Hin <-].
    destruct Hu as [_ Hall]. rewrite Forall_forall in Hall. by apply Hall. }
  enough (dead pid (procs k')) as [_ ?]; [done|]. clear Hp Hz.
  induction Hn as [|n k1 k2 k3 Hs Hn IH]; [done|].
  destruct (kstep_unique _ _ Hs) as [Hu2 [??]]; [lia|lia|done|].
  apply IH; [done|lia|lia|].
  apply kstep_simulated in Hs as (s1 & s2 & Hs1 & Hb & Hs2).
  pose proof (tsteps_next _ _ Hs1) as N1. simpl in N1. pose proof (tsteps_unique _ _ Hs1 Hu) as Hu1.
  apply (tsteps_dead _ _ _ Hs1 Hu) in Hd. destruct Hb as [->|Hb]; [by eapply tsteps_dead|].
  eapply tsteps_dead; [done| |]; [eapply tbirth_unique|eapply tbirth_dead]; done || lia.
Qed.

(** The PID counter wraps: from a state in which it has reached 2^32 - 1, two
    forks later the new process gets PID 0, the PID of the idle process, so
    that PIDs are no longer unique. *)
Theorem pid_counter_wraps k p :
  NEXT_PID k = 2 ^ 32 - 1 ->
  find_proc (CURRENT_PID k) (PROCESS_TABLE k) = Some p ->
  0 ∈ p_pid <$> PROCESS_TABLE k ->
  exists k1 k2, fork k = Done (Some (2 ^ 32 - 1)) k1 /\ fork k1 = Done (Some 0) k2 /\
    ~ NoDup (p_pid <$> PROCESS_TABLE k2).
Proof.
  intros Hn Hp H0. pose proof (fork_spec k) as H1. rewrite Hp in H1. cbv zeta in H1.
  eexists. eexists. split; [rewrite H1, Hn; done|].
  match goal with |- fork ?k1 = _ /\ _ => pose proof (fork_spec k1) as H2 end.
  cbn [CURRENT_PID PROCESS_TABLE NEXT_PID set_table set_next_pid] in H2.
  rewrite find_proc_app, Hp in H2. cbv zeta in H2.
  split; [rewrite H2; done|]. simpl. rewrite !fmap_app. simpl.
  intros (_ & Hx & _)%NoDup_app. apply (Hx 0).
  - rewrite elem_of_app. by left.
  - by apply list_elem_of_singleton.
Qed.

End runs.

(** A fork after booting. *)
Definition demo_fork : SyscallFrame := mkFrame SYS_FORK 0 0 0 0 0 0.

(** The timer interrupts the call before and after its section. *)
Definition demo_events : list event := [Irq 0x20; Run; Irq 0x20].

Lemma pids_unique_witness :
  exists k, nsteps (kstep (Pr := dev)) 1 (booted (Pl := Demo.platform) tt [] ∅ []) k /\
    NoDup (p_pid <$> PROCESS_TABLE k) /\ p_pid <$> PROCESS_TABLE k = [0; 1; 2].
Proof.
  assert (exists t k, run (Pr := dev) demo_events (dispatch_task (Pr := dev) demo_fork)
            (booted (Pl := Demo.platform) tt [] ∅ []) = Some (t, k) /\
            p_pid <$> PROCESS_TABLE k = [0; 1; 2]) as (t & k & Hr & Hp)
    by (eexists; eexists; split; vm_compute; reflexivity).
  assert (nsteps (kstep (Pr := dev)) 1 (booted (Pl := Demo.platform) tt [] ∅ []) k) as Hs
    by (eapply nsteps_l; [by eapply k_syscall|constructor]).
  exists k. split_and!; [done| |done].
  apply (pids_unique (Pl := Demo.platform) (Pr := dev) tt [] ∅ [] 1 k Hs). lia.
Defined.

Definition demo_family : Kernel (P := Demo.platform) :=
  set_next_pid 3 (Demo.kernel [Demo.proc 1 0 Running 0; Demo.proc 2 1 Zombie 0] 1 0 ∅ []).

Lemma death_is_final_witness :
  exists k', nsteps (kstep (Pr := dev)) 1 demo_family k' /\
    (find_proc 2 (PROCESS_TABLE k') = None \/
     exists p', find_proc 2 (PROCESS_TABLE k') = Some p' /\ p_state p' = Zombie).
Proof.
  assert (exists t k, run (Pr := dev) demo_events (dispatch_task (Pr := dev) demo_fork) demo_family = Some (t, k))
    as (t & k & Hr) by (eexists; eexists; vm_compute; reflexivity).
  assert (nsteps (kstep (Pr := dev)) 1 demo_family k) as Hs
    by (eapply nsteps_l; [by eapply k_syscall|constructor]).
  exists k. split; [done|].
  apply (death_is_final (Pr := dev) 1 demo_family k 2 (Demo.proc 2 1 Zombie 0) Hs).
  - split; [by_decide|]. repeat constructor; simpl; lia.
  - simpl; lia.
  - simpl; lia.
  - reflexivity.
  - reflexivity.
Defined.

Lemma pid_counter_wraps_witness :
  let k := set_next_pid (2 ^ 32 - 1) (Demo.kernel [Demo.proc 0 0 Running 0] 0 0 ∅ []) in
  exists k1 k2, fork k = Done (Some (2 ^ 32 - 1)) k1 /\ fork k1 = Done (Some 0) k2 /\
    ~ NoDup (p_pid <$> PROCESS_TABLE k2).
Proof.
  apply (pid_counter_wraps
    (set_next_pid (2 ^ 32 - 1) (Demo.kernel [Demo.proc 0 0 Running 0] 0 0 ∅ []))
    (Demo.proc 0 0 Running 0)); [reflexivity|reflexivity|left].
Defined.
