(* ===== verification/Atomicity.v ===== *)
(** * Atomicity of system calls under preemption

    A call cut at its uninterruptible sections ([Preempt.v]) has at most one
    section that touches what interrupt handlers use; the others touch the
    descriptor table, the screen and memory only, and so can be moved past
    interrupts.  A preempted call is therefore a call that happens at one
    moment between the interrupts. *)

From S2P Require Import Prelude RustStr KeyBuffer Mem Vga Kernel Signal Scheduler Keyboard Interrupts Process Syscall Lifecycle Preempt.

(** ** The part of the state interrupt handlers do not use *)

Record Private := mkPrivate {
  v_fds : list (option OpenFile); v_writer : Writer; v_memory : mem }.

Section private.
Context `{Pl : Platform} `{Pr : Profile}.

Definition private_of (k : Kernel) : Private := mkPrivate (FD_TABLE k) (WRITER k) (memory k).
Definition put (l : Private) (k : Kernel) : Kernel :=
  set_fds (v_fds l) (set_screen (v_writer l) (v_memory l) k).

Lemma put_private k : put (private_of k) k = k.
Proof. by destruct k. Qed.
Lemma private_put l k : private_of (put l k) = l.
Proof. by destruct l. Qed.
Lemma put_put l l' k : put l (put l' k) = put l k.
Proof. done. Qed.

Definition rmap {A} (f : Kernel -> Kernel) (r : res A) : res A :=
  match r with
  | Done a k => Done a (f k)
  | Panicked k => Panicked (f k)
  | Halted k => Halted (f k)
  | Waiting k => Waiting (f k)
  end.

(** A computation that neither reads nor writes the private part. *)
Definition blind {A} (m : M A) : Prop := forall l k, m (put l k) = rmap (put l) (m k).

Lemma blind_same {A} (m : M A) k x k' : blind m -> m k = Done x k' -> private_of k' = private_of k.
Proof.
  intros Hm E. pose proof (Hm (private_of k) k) as H. rewrite put_private, E in H.
  simpl in H. injection H as H. by rewrite H, private_put.
Qed.

(** A computation that touches the private part only, its result a function of
    it. *)
Definition confined {A} (m : M A) : Prop := forall k x k', m k = Done x k' ->
  exists l, k' = put l k /\ forall k1, private_of k1 = private_of k -> m k1 = Done x (put l k1).

(** ** The two commute *)

Lemma confined_after {A} (m : M A) (b : M unit) k k0 x k2 :
  confined m -> blind b -> b k = Done tt k0 -> m k0 = Done x k2 ->
  exists k1, m k = Done x k1 /\ b k1 = Done tt k2.
Proof.
  intros Hm Hb Eb Em. destruct (Hm _ _ _ Em) as (l & -> & Hl).
  exists (put l k). split; [apply Hl; symmetry; by eapply blind_same|]. by rewrite Hb, Eb.
Qed.

Lemma confined_before {A} (m : M A) (b : M unit) k k0 x k2 :
  confined m -> blind b -> m k = Done x k0 -> b k0 = Done tt k2 ->
  exists k1, b k = Done tt k1 /\ m k1 = Done x k2.
Proof.
  intros Hm Hb Em Eb. destruct (Hm _ _ _ Em) as (l & -> & Hl). rewrite Hb in Eb.
  destruct (b k) as [[] k1| | |] eqn:E; simplify_eq/=. exists k1. split; [done|].
  apply Hl. by eapply blind_same.
Qed.

(** ** Blind computations *)

Lemma blind_bind {A B} (m : M A) (f : A -> M B) :
  blind m -> (forall a, blind (f a)) -> blind (m ≫= f).
Proof.
  intros Hm Hf l k. unfold mbind, M_bind. rewrite Hm. destruct (m k); simpl; [apply Hf|done..].
Qed.
Lemma blind_ret {A} (a : A) : blind (mret a).
Proof. done. Qed.
Lemma blind_gets {A} (f : Kernel -> A) : (forall l k, f (put l k) = f k) -> blind (gets f).
Proof. intros H l k. unfold gets. by rewrite H. Qed.
Lemma blind_modify f : (forall l k, f (put l k) = put l (f k)) -> blind (modify f).
Proof. intros H l k. unfold modify. simpl. by rewrite H. Qed.
Lemma blind_lift {A} (o : outcome A) : blind (lift o).
Proof. intros l k. by destruct o. Qed.
Lemma blind_panic {A} : blind (panic (A := A)).
Proof. done. Qed.
Lemma blind_read_port p : blind (read_port p).
Proof. intros l k. unfold read_port. simpl. by destruct (port_read _ _). Qed.

End private.

Create HintDb blind.
#[export] Hint Resolve blind_ret blind_lift blind_panic blind_read_port : blind.
#[export] Hint Extern 1 (blind (gets _)) => (by apply blind_gets) : blind.
#[export] Hint Extern 1 (blind (modify _)) => (by apply blind_modify) : blind.

Ltac unseeing :=
  repeat first
    [ solve [auto with blind]
    | apply blind_bind; [|intros ?]
    | progress case_match
    | match goal with |- blind (let '(_, _) := ?p in _) => destruct p end ].

Section interference.
Context `{Pl : Platform} `{Pr : Profile}.

Lemma blind_decode s : blind (decode_scancode s).
Proof. unfold decode_scancode, set_keyboard, serial_print. unseeing. Qed.
#[local] Hint Resolve blind_decode : blind.

Lemma blind_handle_interrupt : blind handle_interrupt.
Proof. unfold handle_interrupt, set_key_buffer. unseeing. Qed.

Lemma blind_tick : blind tick.
Proof.
  unfold tick, count_tick, dispatch_signals, schedule, current_pid, serial_println, serial_print. unseeing.
Qed.
#[local] Hint Resolve blind_handle_interrupt blind_tick : blind.

Lemma blind_interfere e : blind (interfere e).
Proof.
  destruct e as [|v|d]; [done| |by apply blind_modify]. simpl. unfold interrupt.
  destruct (idt !! v) as [h|]; [|done].
  destruct h; simpl; unfold notify_end_of_interrupt, serial_println, serial_print; unseeing.
Qed.

(** What happens from outside, in order; the moments the task runs leave no
    trace here. *)
Fixpoint interferes (es : list event) : M unit :=
  match es with
  | [] => mret tt
  | e :: es => _ ← interfere e; interferes es
  end.

Lemma blind_interferes es : blind (interferes es).
Proof. induction es; simpl; [done|]. apply blind_bind; [apply blind_interfere|done]. Qed.

End interference.

(** ** Confined computations *)

Section confined.
Context `{Pl : Platform} `{Pr : Profile}.

Lemma confined_bind {A B} (m : M A) (f : A -> M B) :
  confined m -> (forall a, confined (f a)) -> confined (m ≫= f).
Proof.
  intros Hm Hf k y k' E. unfold mbind, M_bind in *.
  destruct (m k) as [x k1| | |] eqn:Em; try done.
  destruct (Hm _ _ _ Em) as (l & -> & Hl). destruct (Hf _ _ _ _ E) as (l' & -> & Hl').
  exists l'. split; [done|]. intros k1 Hk. rewrite (Hl _ Hk).
  rewrite (Hl' (put l k1)); [done|]. by rewrite !private_put.
Qed.

(** A function of the private part, and a private part to leave. *)
Lemma confined_private {A} (m : M A) (g : Private -> option (A * Private)) :
  (forall k, m k = match g (private_of k) with
                   | Some (x, l) => Done x (put l k)
                   | None => Panicked k
                   end) -> confined m.
Proof.
  intros H k x k' E. rewrite H in E. destruct (g (private_of k)) as [[y l]|] eqn:Eg; [|done].
  simplify_eq. exists l. split; [done|]. intros k1 Hk. by rewrite H, Hk, Eg.
Qed.

Lemma confined_ret {A} (a : A) : confined (mret a).
Proof.
  apply (confined_private _ (fun l => Some (a, l))). intros k. by rewrite put_private.
Qed.

Lemma confined_lift {A} (o : outcome A) : confined (lift o).
Proof.
  apply (confined_private _ (fun l => match o with Ret a => Some (a, l) | Panic => None end)).
  intros k. destruct o; [|done]. by rewrite put_private.
Qed.

Lemma confined_gets {A} (f : Private -> A) (g : Kernel -> A) :
  (forall k, g k = f (private_of k)) -> confined (gets g).
Proof.
  intros Hg. apply (confined_private _ (fun l => Some (f l, l))). intros k. unfold gets.
  by rewrite put_private, Hg.
Qed.

Lemma confined_set_fds (f : list (option OpenFile) -> list (option OpenFile)) :
  confined (modify (fun k => set_fds (f (FD_TABLE k)) k)).
Proof.
  apply (confined_private _ (fun l => Some (tt, mkPrivate (f (v_fds l)) (v_writer l) (v_memory l)))).
  by intros [].
Qed.

Lemma confined_mem_write a bs : confined (mem_write a bs).
Proof.
  apply (confined_private _ (fun l =>
    match store_list (v_memory l) a bs with
    | Ret m => Some (tt, mkPrivate (v_fds l) (v_writer l) m)
    | Panic => None
    end)).
  intros []. unfold mem_write. simpl. by destruct (store_list _ _ _).
Qed.

Lemma confined_store_i32 a v : confined (store_i32 a v).
Proof. unfold store_i32. case_match; [by intros k x k'|apply confined_mem_write]. Qed.

Lemma confined_mem_read a n : confined (mem_read a n).
Proof.
  apply (confined_private _ (fun l =>
    match load_list (v_memory l) a n with Ret bs => Some (bs, l) | Panic => None end)).
  intros []. unfold mem_read. simpl. by destruct (load_list _ _ _).
Qed.

Lemma confined_kprint s : confined (kprint s).
Proof.
  apply (confined_private _ (fun l =>
    match Vga.write_string (v_writer l) (v_memory l) s with
    | Ret (w, m) => Some (tt, mkPrivate (v_fds l) w m)
    | Panic => None
    end)).
  intros []. unfold kprint. simpl. by destruct (Vga.write_string _ _ _) as [[]|].
Qed.

Lemma confined_fd_lookup fd : confined (fd_lookup fd).
Proof.
  unfold fd_lookup. apply confined_bind; [apply confined_lift|]. intros i.
  apply confined_bind; [by apply (confined_gets v_fds)|]. intros t. apply confined_ret.
Qed.

Lemma confined_user_cstr p : confined (user_cstr p).
Proof.
  unfold user_cstr. apply confined_bind; [by apply (confined_gets v_memory)|].
  intros m. apply confined_lift.
Qed.

Lemma confined_read_static buf count offset text : confined (read_static buf count offset text).
Proof. apply confined_bind; [apply confined_mem_write|]. intros _. apply confined_ret. Qed.

Lemma confined_fd_install file : confined (fd_install file).
Proof.
  apply (confined_private _ (fun l =>
    Some match free_slot (v_fds l) with
         | Some i => (Z.of_nat i + 3, mkPrivate (<[i := Some file]> (v_fds l)) (v_writer l) (v_memory l))
         | None => (zlen (v_fds l) + 3, mkPrivate (v_fds l ++ [Some file]) (v_writer l) (v_memory l))
         end)).
  intros []. unfold fd_install, mbind, M_bind, gets. simpl. by destruct (free_slot _).
Qed.

End confined.

Create HintDb confined.
#[export] Hint Resolve confined_ret confined_lift confined_set_fds confined_mem_write confined_store_i32
  confined_mem_read confined_kprint confined_fd_lookup confined_user_cstr
  confined_read_static confined_fd_install : confined.

(** ** Reduction *)

Section reduction.
Context `{Pl : Platform} `{Pr : Profile}.

(** A task with confined sections only. *)
Inductive settled {A} : task A -> Prop :=
| settled_return a : settled (Return a)
| settled_section X (m : M X) next :
    confined m -> (forall x, settled (next x)) -> settled (Atomic m next).

(** [reducible l t]: from a state whose private part is [l], [t] has confined
    sections up to a last one that may touch anything (the moment the call
    happens at), or to a loop over such a section that changes nothing until
    it succeeds; then confined sections only. *)
Definition patient {X R} (m : M R) (g : R -> option X) : Prop :=
  moves same_irqs m /\ forall k r k', m k = Done r k' -> g r = None -> k' = k.

Inductive reducible {A} : Private -> task A -> Prop :=
| red_settled l t : settled t -> reducible l t
| red_confined l X (m : M X) next :
    confined m ->
    (forall k x k', private_of k = l -> m k = Done x k' -> reducible (private_of k') (next x)) ->
    reducible l (Atomic m next)
| red_moment l X (m : M X) next :
    (forall x, settled (next x)) -> reducible l (Atomic m next)
| red_locked l X (m : M X) next :
    (forall x, settled (next x)) -> reducible l (Locked m next)
| red_loop l X R (m : M R) (g : R -> option X) next :
    patient m g -> (forall x, settled (next x)) ->
    reducible l (Loop (Atomic m (fun r => Return (g r))) next)
| red_turn l X R (m : M R) (g : R -> option X) next :
    patient m g -> (forall x, settled (next x)) ->
    reducible l (turn (Atomic m (fun r => Return (g r))) next).

Lemma settled_confined {A} (t : task A) : settled t -> confined (collapse t).
Proof.
  induction 1; simpl; [apply confined_ret|]. by apply confined_bind.
Qed.

Lemma awake {A} e l (t : task A) : reducible l t -> wake e t = t.
Proof. destruct 1 as [? ? []| | | | |]; by destruct e. Qed.

(** Outside events commute to the end of settled tasks. *)
Lemma settled_run {A} es (t : task A) k r k' :
  settled t -> run es t k = Some (Return r, k') ->
  exists k2, collapse t k = Done r k2 /\ interferes es k2 = Done tt k'.
Proof.
  revert t k. induction es as [|e es IH]; intros t k Ht; simpl.
  { intros [= -> ->]. by exists k'. }
  destruct (advance e t k) as [[t1 k1]|] eqn:E; [|done]. intros Hr.
  destruct (decide (e = Run)) as [->|He].
  - destruct Ht as [a|X m next Hm Hn]; simpl in E.
    + simplify_eq. by apply IH; [constructor|].
    + simpl. unfold mbind, M_bind. destruct (m k) as [x k2|k2|k2|k2]; simplify_eq;
        [by apply IH|by apply run_stop in Hr..].
  - rewrite advance_served in E by (done || by destruct Ht). apply served_inv in E as [E ->].
    rewrite (awake e (private_of k) t) in Hr by by constructor.
    destruct (IH _ _ Ht Hr) as (k2 & Ec & Ei).
    destruct (confined_after (collapse t) (interfere e) k k1 r k2) as (k3 & ? & ?);
      [by apply settled_confined|apply blind_interfere|done..|].
    exists k3. split; [done|]. unfold mbind, M_bind. by rewrite H0.
Qed.

(** A loop is its first turn. *)
Lemma collapse_turn {A X R} (m : M R) (g : R -> option X) (next : X -> task A) :
  moves same_irqs m ->
  collapse (turn (Atomic m (fun r => Return (g r))) next) ≐
  collapse (Loop (Atomic m (fun r => Return (g r))) next).
Proof.
  intros Hm. split. intros k. simpl. unfold mbind at 2, M_bind.
  rewrite wait_until_unfold by (apply moves_bind; [apply _|done|intros; apply moves_ret; apply _]).
  unfold mbind, M_bind. destruct (m k) as [r k1| | |]; try done. simpl.
  destruct (g r) as [x|]; [done|]. simpl. unfold mbind, M_bind. by destruct (hlt k1).
Qed.

Lemma private_blind es k k1 : interferes es k = Done tt k1 -> private_of k1 = private_of k.
Proof. apply blind_same, blind_interferes. Qed.

(** The call and the events up to its moment, and those after it. *)
Definition at_one_moment {A} (es : list event) (m : M A) (k : Kernel) (r : A) (k' : Kernel) : Prop :=
  exists es1 es2 k1 k2, es = es1 ++ es2 /\ interferes es1 k = Done tt k1 /\
    m k1 = Done r k2 /\ interferes es2 k2 = Done tt k'.

Lemma moment_later {A} e es (m : M A) k k1 r k' :
  interfere e k = Done tt k1 -> at_one_moment es m k1 r k' -> at_one_moment (e :: es) m k r k'.
Proof.
  intros E (es1 & es2 & k2 & k3 & -> & H1 & H2 & H3). exists (e :: es1), es2, k2, k3.
  split_and!; try done. simpl. unfold mbind, M_bind. by rewrite E.
Qed.

Lemma moment_now {A} e es (m : M A) k k1 r k' :
  m k = Done r k1 -> interferes (e :: es) k1 = Done tt k' -> at_one_moment (e :: es) m k r k'.
Proof. intros E Hi. by exists [], (e :: es), k, k1. Qed.

(** A confined section before the rest of the call joins it. *)
Lemma moment_join {A X} es (m : M X) (f : X -> M A) k x k1 r k' :
  confined m -> m k = Done x k1 -> at_one_moment es (f x) k1 r k' ->
  at_one_moment (Run :: es) (m ≫= f) k r k'.
Proof.
  intros Hm E (es1 & es2 & k2 & k3 & -> & H1 & H2 & H3).
  destruct (confined_before m (interferes es1) k k1 x k2) as (k4 & ? & Ek4);
    [done|apply blind_interferes|done..|].
  exists (Run :: es1), es2, k4, k3. split_and!; try done. unfold mbind, M_bind. by rewrite Ek4.
Qed.

Lemma moment_proper {A} es (m m' : M A) k r k' :
  m ≐ m' -> at_one_moment es m k r k' -> at_one_moment es m' k r k'.
Proof.
  intros [Hm] (es1 & es2 & k1 & k2 & ? & ? & ? & ?). exists es1, es2, k1, k2. by rewrite <- Hm.
Qed.

(** The moment of a section followed by confined ones. *)
Lemma moment_section {A X} es (next : X -> task A) t k x k1 r k' :
  (forall x, settled (next x)) -> collapse t k = collapse (next x) k1 ->
  run es (next x) k1 = Some (Return r, k') -> at_one_moment (Run :: es) (collapse t) k r k'.
Proof.
  intros Hn Et Hr. destruct (settled_run _ _ _ _ _ (Hn x) Hr) as (k2 & Ec & Ei).
  eapply moment_now; [by rewrite Et|]. done.
Qed.

Lemma reduction {A} es (t t0 : task A) k r k' :
  reducible (private_of k) t -> t0 = t \/ t0 = Sleep t ->
  run es t0 k = Some (Return r, k') -> at_one_moment es (collapse t) k r k'.
Proof.
  revert t t0 k. induction es as [|e es IH]; intros t t0 k Ht Ht0; cbn [run].
  { intros [= -> ->]. destruct Ht0 as [<-|?]; [|done]. by exists [], [], k', k'. }
  destruct (advance e t0 k) as [[t1 k1]|] eqn:E; [|done]. intros Hr.
  destruct (decide (e = Run)) as [->|He].
  2:{ apply advance_outside in E as [[E ->]|[-> _]]; [|by apply run_spin in Hr|done].
      eapply moment_later; [done|].
      eapply IH; [by rewrite (blind_same _ _ _ _ (blind_interfere e) E)| |done].
      destruct Ht0 as [->| ->]; [left; by eapply awake|destruct e; auto]. }
  destruct Ht0 as [->| ->].
  2:{ injection E as <- <-. eapply moment_later; [done|]. by eapply IH; [|right|]. }
  remember (private_of k) as l eqn:Hl.
  destruct Ht as [l t Hs|l X m next Hm Hn|l X m next Hn|l X m next Hn|l X R m g next Hp Hn|l X R m g next Hp Hn];
    subst l.
  - destruct (settled_run (Run :: es) t k r k') as (k2 & Ec & Ei); [done|by cbn [run]; rewrite E|].
    by eapply moment_now.
  - cbn [advance resume] in E. destruct (m k) as [x k2|k2|k2|k2] eqn:Em; simplify_eq;
      [|by apply run_stop in Hr..].
    eapply moment_join; [done..|]. eapply IH; [by eapply Hn|by left|done].
  - cbn [advance resume] in E. destruct (m k) as [x k2|k2|k2|k2] eqn:Em; simplify_eq;
      [|by apply run_stop in Hr..].
    eapply moment_section; [done| |done]. simpl. unfold mbind, M_bind. by rewrite Em.
  - cbn [advance resume] in E. destruct (m k) as [x k2|k2|k2|k2] eqn:Em; simplify_eq;
      [|by apply run_stop in Hr..].
    eapply moment_section; [done| |done]. simpl. unfold mbind, M_bind. by rewrite Em.
  - injection E as <- <-. eapply moment_later; [done|].
    eapply moment_proper; [apply collapse_turn, Hp|]. eapply IH; [by apply red_turn|by left|done].
  - cbn in E. destruct (m k) as [x k2|k2|k2|k2] eqn:Em; simplify_eq; [|by apply run_stop in Hr..].
    destruct (g x) as [y|] eqn:Hg.
    + eapply (moment_section _ next); [done| |done]. simpl. unfold mbind, M_bind.
      by rewrite Em, Hg.
    + rewrite <- ((proj2 Hp) _ _ _ Em Hg) in *. eapply moment_later; [done|].
      eapply moment_proper; [symmetry; apply collapse_turn, Hp|].
      eapply IH; [by apply red_loop|by right|done].
Qed.

End reduction.

(** ** The calls *)

#[export] Hint Constructors settled reducible : confined.
#[export] Hint Extern 1 (confined (modify (fun k => set_fds (@?f k) k))) =>
  (refine (confined_set_fds _)) : confined.
#[export] Hint Extern 1 (settled (match ?x with _ => _ end)) => destruct x : confined.
#[export] Hint Extern 1 (settled (if ?b then _ else _)) => destruct b : confined.

Section calls.
Context `{Pl : Platform} `{Pr : Profile}.

(** Every call but [exit], the console read and the write to a serial line:
    those have several sections that interrupts can see. *)
Definition one_moment (f : SyscallFrame) (k : Kernel) : Prop :=
  num f <> SYS_EXIT /\ num f <> SYS_EXIT_GROUP /\
  (num f = SYS_READ -> as_i32 (rdi f) <> 0) /\
  (num f = SYS_WRITE -> forall i file k',
     fd_lookup (as_i32 (rdi f)) k = Done (Some (i, file)) k' -> f_node file <> DevTtyS0).

Lemma reducible_read l fd buf count : fd <> 0 -> reducible l (sys_read_task fd buf count).
Proof.
  intros Hfd. unfold sys_read_task. do 2 (case_match; [auto with confined|]).
  rewrite (proj2 (Z.eqb_neq _ _) Hfd). apply red_confined; [auto with confined|].
  intros k1 [[i file]|] k2 _ _; [|auto with confined].
  destruct (f_node file); simpl; try (solve [apply red_settled; eauto 6 with confined]).
  apply red_moment. intros t. auto 6 with confined.
Qed.

Lemma reducible_write fd buf count k :
  (forall i file k', fd_lookup fd k = Done (Some (i, file)) k' -> f_node file <> DevTtyS0) ->
  reducible (private_of k) (sys_write_task fd buf count).
Proof.
  intros H. unfold sys_write_task. do 2 (case_match; [auto with confined|]). case_match.
  - apply red_confined; [auto with confined|]. intros k1 bs k2 _ _.
    destruct (from_utf8 bs); [|auto with confined]. apply red_moment. auto with confined.
  - apply red_confined; [auto with confined|].
    intros k1 [[i file]|] k2 Hk E; [|auto with confined].
    destruct (confined_fd_lookup _ _ _ _ E) as (l & _ & Hl). symmetry in Hk.
    specialize (H _ _ _ (Hl k Hk)). destruct (f_node file); done || auto with confined.
Qed.

Lemma reducible_open l path flags : reducible l (sys_open_task path flags).
Proof.
  unfold sys_open_task. case_match; [auto with confined|].
  apply red_confined; [auto with confined|]. intros k1 [p|] k2 _ _; [|auto with confined].
  destruct (node_of_path p); [|auto with confined]. case_match; auto with confined.
Qed.

Lemma reducible_wait4 l pid status : reducible l (sys_wait4_task pid status).
Proof.
  unfold sys_wait4_task, waitpid_task. simpl. apply red_loop.
  - split; [apply moves_waitpid_poll, _|]. intros k r k'.
    unfold waitpid_poll, mbind, M_bind, gets, current_pid. simpl.
    intros E Hg. unfold mret, M_ret in E. repeat case_match; by simplify_eq/=.
  - auto with confined.
Qed.

Lemma reducible_dispatch f k : one_moment f k -> reducible (private_of k) (dispatch_task f).
Proof.
  intros (H1 & H2 & H3 & H4). unfold dispatch_task.
  rewrite (proj2 (Z.eqb_neq (num f) SYS_EXIT)), (proj2 (Z.eqb_neq (num f) SYS_EXIT_GROUP)) by done.
  repeat match goal with |- context [Z.eqb (num f) ?n] => destruct (Z.eqb_spec (num f) n) end;
    cbn [orb]; unfold one_section; try (by auto with confined).
  - apply reducible_read, H3. done.
  - apply reducible_write, H4. done.
  - apply reducible_open.
  - unfold sys_close_task. case_match; [auto with confined|]. apply red_settled.
    auto with confined.
  - unfold sys_execve_task. case_match; [auto with confined|].
    apply red_confined; [auto with confined|]. intros k1 [p|] k2 _ _; auto with confined.
  - apply reducible_wait4.
  - apply red_confined; [apply confined_ret|]. intros. apply red_locked. auto with confined.
Qed.

Lemma atomic_call f k es r k' :
  one_moment f k -> run es (dispatch_task f) k = Some (Return r, k') ->
  at_one_moment es (dispatch f) k r k'.
Proof.
  intros Hf Hr. destruct (reduction es (dispatch_task f) (dispatch_task f) k r k')
    as (es1 & es2 & k1 & k2 & ? & ? & E & ?); [by apply reducible_dispatch|by left|done|].
  rewrite (meq_at _ _ _ (collapse_dispatch f)) in E. by exists es1, es2, k1, k2.
Qed.

End calls.

(** C5: System calls are atomic with respect to interrupts: however a call is
    preempted between its sections, by interrupts and by changes of the
    devices, when it returns, its result and the state are those of the whole
    call made at one moment between what happened outside: the events before
    that moment, then [dispatch] in one piece, then the events after it.  The
    console read, the write to a serial line and [exit] are excepted. *)
Theorem calls_are_atomic `{Pl : Platform} `{Pr : Profile} (f : SyscallFrame) (k : Kernel)
    (es : list event) (r : Z) (k' : Kernel) :
  one_moment f k -> run es (dispatch_task f) k = Some (Return r, k') ->
  exists es1 es2 k1 k2, es = es1 ++ es2 /\ interferes es1 k = Done tt k1 /\
    dispatch f k1 = Done r k2 /\ interferes es2 k2 = Done tt k'.
Proof. apply atomic_call. Qed.

(** ** A witness

    Process 1 waits for its child 2, whose death is known; the timer ticks
    before the call, between its turns and after it. *)

#[local] Existing Instance dev.

Definition demo_wait : SyscallFrame := mkFrame SYS_WAIT4 2 0 0 0 0 0.
Definition demo_waiting : Kernel (P := Demo.platform) :=
  Demo.kernel [Demo.proc 1 0 Running 0; Demo.proc 2 1 Zombie 0] 1 0 ∅ [].
Definition demo_script : list event :=
  [Irq 0x20; Run; World (Pl := Demo.platform) [30]; Irq 0x21; Run; Irq 0x20].

Lemma calls_are_atomic_witness :
  exists k', run demo_script (dispatch_task demo_wait) demo_waiting = Some (Return 2, k') /\
  exists es1 es2 k1 k2, demo_script = es1 ++ es2 /\ interferes es1 demo_waiting = Done tt k1 /\
    dispatch demo_wait k1 = Done 2 k2 /\ interferes es2 k2 = Done tt k'.
Proof.
  assert (exists k', run demo_script (dispatch_task demo_wait) demo_waiting = Some (Return 2, k'))
    as [k' Hr] by (eexists; vm_compute; reflexivity).
  exists k'. split; [exact Hr|].
  apply (calls_are_atomic demo_wait demo_waiting demo_script 2 k'); [|exact Hr].
  split_and!; done.
Defined.
