(* ===== verification/ExitWait.v ===== *)
(** * exit, wait4 and orphans

    What a process that ends hands to the one that waits for it, and where
    the table loses track of a child. *)

From S2P Require Import Prelude RustStr KeyBuffer Mem Vga Kernel Signal Scheduler Keyboard Interrupts Process Syscall Lifecycle.

(** ** Lemmas *)

Lemma update_proc_map pid f t :
  NoDup (p_pid <$> t) ->
  update_proc pid f t = (fun q => if p_pid q =? pid then f q else q) <$> t.
Proof.
  induction t as [|p t IH]; [done|]. rewrite fmap_cons. intros [Hn Hnd]%NoDup_cons. csimpl.
  destruct (Z.eqb_spec (p_pid p) pid) as [E|E]; f_equal; [|by apply IH].
  rewrite <- IH by done. rewrite update_proc_notin; [done|]. by rewrite <- E.
Qed.

Lemma find_index_unique {A} (f : A -> bool) l i x :
  l !! i = Some x -> f x = true ->
  (forall j y, j <> i -> l !! j = Some y -> f y = false) -> find_index f l = Some (i, x).
Proof.
  revert i. induction l as [|a l IH]; intros i Hi Hx Ho; [done|]. simpl.
  destruct i as [|i]; simpl in Hi; [injection Hi as ->; by rewrite Hx|].
  rewrite (Ho 0%nat a) by done. rewrite (IH i); [done..|].
  intros j y Hj Hy. by apply (Ho (S j)); [lia|].
Qed.

Lemma find_index_none {A} (f : A -> bool) l :
  (forall x, x ∈ l -> f x = false) -> find_index f l = None.
Proof.
  induction l as [|a l IH]; intros H; [done|]. simpl. rewrite H by (by left).
  rewrite IH; [done|]. intros. apply H. by right.
Qed.

Lemma find_proc_delete t i p :
  NoDup (p_pid <$> t) -> t !! i = Some p -> find_proc (p_pid p) (delete i t) = None.
Proof.
  intros Hnd Hi. apply find_proc_None. intros (q & E & Hq)%list_elem_of_fmap_1.
  apply list_elem_of_lookup in Hq as [j Hj].
  assert (exists j', j' <> i /\ t !! j' = Some q) as (j' & Hne & Hj').
  { destruct (decide (j < i)%nat); [exists j|exists (S j)]; split; try lia.
    - by rewrite list_lookup_delete_lt in Hj.
    - by rewrite list_lookup_delete_ge in Hj by lia. }
  apply Hne. eapply (NoDup_lookup (p_pid <$> t)); [done|by rewrite list_lookup_fmap, Hj'|].
  rewrite list_lookup_fmap, Hi. simpl. by rewrite E.
Qed.

Section exit_wait.
Context `{Pl : Platform} `{Pr : Profile}.

(** The table after [exit(code)] of process [cur]. *)
Definition after_exit (cur code : Z) (t : list Process) : list Process :=
  (fun q => reparent cur (if p_pid q =? cur then make_zombie code q else q)) <$> t.

Lemma exit_spec {A} k code :
  NoDup (p_pid <$> PROCESS_TABLE k) ->
  exists k', exit (A := A) code k = Halted k' /\
    PROCESS_TABLE k' = after_exit (CURRENT_PID k) code (PROCESS_TABLE k) /\
    CURRENT_PID k' = rr_next (PROCESS_TABLE k') (CURRENT_PID k) /\
    NEXT_PID k' = NEXT_PID k /\ memory k' = memory k /\ irqs k' = irqs k.
Proof.
  intros Hnd. unfold exit, exit_effects, force_schedule, mbind, M_bind, current_pid, gets,
    modify, serial_println, serial_print, modify. simpl.
  edestruct schedule_spec as (k' & -> & (Ht & Hn & _ & _ & _ & _ & _ & Hm & _ & Hi) & Hc).
  exists k'. split; [done|]. rewrite Ht, Hc, Hn, Hm, Hi. simpl.
  rewrite update_proc_map by done. unfold after_exit.
  rewrite <- list_fmap_compose. split_and!; done.
Qed.

(** [exit(code)] never returns; it marks the current process, and only it, a
    zombie with that exit code, hands each of its children to init (PID 1)
    and changes nothing else in the table; and when another process is
    runnable the CPU goes to a runnable process. *)
Theorem exit_effect {A} (k : Kernel) (code : Z) :
  NoDup (p_pid <$> PROCESS_TABLE k) ->
  exists k', exit (A := A) code k = Halted k' /\
    (forall pid q, find_proc pid (PROCESS_TABLE k) = Some q ->
       exists q', find_proc pid (PROCESS_TABLE k') = Some q' /\
         p_parent_pid q' = (if p_parent_pid q =? CURRENT_PID k then 1 else p_parent_pid q) /\
         p_state q' = (if pid =? CURRENT_PID k then Zombie else p_state q) /\
         p_exit_code q' = (if pid =? CURRENT_PID k then code else p_exit_code q) /\
         p_name q' = p_name q /\ p_pending_signals q' = p_pending_signals q) /\
    (Exists (fun q => p_pid q <> CURRENT_PID k /\ runnable q = true) (PROCESS_TABLE k) ->
       exists q', q' ∈ PROCESS_TABLE k' /\ runnable q' = true /\ CURRENT_PID k' = p_pid q').
Proof.
  intros Hnd. destruct (exit_spec (A := A) k code Hnd) as (k' & E & Ht & Hc & _).
  exists k'. split; [done|]. split.
  - intros pid q [Hin <-]%find_proc_Some. rewrite Ht. eexists. split.
    + apply find_proc_elem; [|by apply list_elem_of_fmap_2|].
      * unfold after_exit. rewrite benign_fmap; [done|]. intros p.
        unfold reparent. by repeat case_match.
      * unfold reparent. by repeat case_match.
    + unfold reparent. repeat case_match; simpl in *; split_and!; congruence.
  - intros (q & Hq & Hne & Hr)%Exists_exists. rewrite Hc. apply rr_next_runnable.
    apply Exists_exists. eexists. rewrite Ht. split; [by apply list_elem_of_fmap_2|].
    rewrite (proj2 (Z.eqb_neq _ _) Hne). unfold reparent. by case_match.
Qed.

(** ** waitpid *)

Definition waitpid_body (target : option Z) : M (option (option (Z * Z))) :=
  r ← waitpid_poll target;
  mret match r with
       | None => Some None
       | Some (Some x) => Some (Some x)
       | Some None => None
       end.

Lemma waitpid_unfold target k :
  waitpid target k =
  (r ← waitpid_body target;
   match r with Some a => mret a | None => _ ← hlt; waitpid target end) k.
Proof. apply wait_until_unfold. walk. Qed.

Lemma waitpid_no_child target k :
  (forall p, p ∈ PROCESS_TABLE k -> is_child (CURRENT_PID k) target p = false) ->
  waitpid target k = Done None k.
Proof.
  intros H. rewrite waitpid_unfold.
  unfold waitpid_body, waitpid_poll, mbind, M_bind, gets, current_pid, gets. simpl.
  destruct (existsb _ _) eqn:E; [|done].
  apply existsb_exists in E as (p & Hp%list_elem_of_In & Hc). rewrite H in Hc; done.
Qed.

Lemma waitpid_reaps target k i p :
  find_index (is_dead_child (CURRENT_PID k) target) (PROCESS_TABLE k) = Some (i, p) ->
  waitpid target k
  = Done (Some (p_pid p, p_exit_code p)) (set_table (delete i (PROCESS_TABLE k)) k).
Proof.
  intros H. pose proof (find_index_Some _ _ _ _ H) as (Hi & Hd & _).
  apply is_dead_child_spec in Hd as [Hch _]. rewrite waitpid_unfold.
  unfold waitpid_body, waitpid_poll, mbind, M_bind, gets, current_pid, gets. simpl.
  destruct (existsb _ _) eqn:E.
  - by rewrite H.
  - assert (existsb (is_child (CURRENT_PID k) target) (PROCESS_TABLE k) = true) as E'; [|congruence].
    apply existsb_exists. exists p. split; [|done]. apply list_elem_of_In.
    apply list_elem_of_lookup. eauto.
Qed.

(** While there is a live child and no dead one, [waitpid] sleeps and looks
    again after the next interrupt. *)
Lemma waitpid_sleeps target k p :
  p ∈ PROCESS_TABLE k -> is_child (CURRENT_PID k) target p = true ->
  (forall q, q ∈ PROCESS_TABLE k -> is_dead_child (CURRENT_PID k) target q = false) ->
  waitpid target k = (_ ← hlt; waitpid target) k.
Proof.
  intros Hp Hc Hd. rewrite waitpid_unfold.
  unfold waitpid_body, waitpid_poll, mbind, M_bind at 1 2 3 4 5, gets, current_pid, gets. simpl.
  assert (existsb (is_child (CURRENT_PID k) target) (PROCESS_TABLE k) = true) as ->.
  { apply existsb_exists. exists p. split; [|done]. by apply list_elem_of_In. }
  by rewrite find_index_none.
Qed.

(** [waitpid] on every branch: with no child that matches the request it
    reports an error at once and changes nothing; with matching zombies it
    returns the PID and exit code of the first one in the table and removes
    exactly that entry; with live matching children only, it waits for an
    interrupt. *)
Theorem waitpid_branches (k : Kernel) (target : option Z) :
  ((forall p, p ∈ PROCESS_TABLE k -> is_child (CURRENT_PID k) target p = false) ->
     waitpid target k = Done None k) /\
  (forall l1 p l2, PROCESS_TABLE k = l1 ++ p :: l2 ->
     (forall q, q ∈ l1 -> is_dead_child (CURRENT_PID k) target q = false) ->
     is_dead_child (CURRENT_PID k) target p = true ->
     waitpid target k = Done (Some (p_pid p, p_exit_code p)) (set_table (l1 ++ l2) k)) /\
  ((exists p, p ∈ PROCESS_TABLE k /\ is_child (CURRENT_PID k) target p = true) ->
   (forall q, q ∈ PROCESS_TABLE k -> is_dead_child (CURRENT_PID k) target q = false) ->
   irqs k = [] -> waitpid target k = Waiting k).
Proof.
  split_and!.
  - apply waitpid_no_child.
  - intros l1 p l2 Ht H1 Hp. rewrite (waitpid_reaps _ _ (length l1) p).
    + by rewrite Ht, delete_middle.
    + rewrite Ht. clear Ht. induction l1 as [|a l1 IH]; simpl; [by rewrite Hp|].
      rewrite H1 by (by left). rewrite IH; [done|]. intros. apply H1. by right.
  - intros (p & Hp & Hc) Hd Hi. rewrite (waitpid_sleeps _ _ p) by done.
    unfold mbind, M_bind, hlt. by rewrite Hi.
Qed.

(** ** From exit to wait4 *)

Lemma after_exit_pids cur code t : p_pid <$> after_exit cur code t = p_pid <$> t.
Proof.
  unfold after_exit. apply benign_fmap. intros p. unfold reparent. by repeat case_match.
Qed.

(** After [exit] the exiting process is the only dead child its parent has,
    if the parent and the process had none before. *)
Lemma after_exit_dead_child cur code t i c :
  NoDup (p_pid <$> t) -> t !! i = Some c -> p_pid c = cur ->
  p_parent_pid c <> cur ->
  (forall q, q ∈ t -> p_parent_pid q = p_parent_pid c \/ p_parent_pid q = cur ->
     p_state q <> Zombie) ->
  find_index (is_dead_child (p_parent_pid c) None) (after_exit cur code t)
  = Some (i, make_zombie code c).
Proof.
  intros Hnd Hi <- Hpp Hz. apply find_index_unique.
  - unfold after_exit. rewrite list_lookup_fmap, Hi. simpl. rewrite Z.eqb_refl.
    unfold reparent. simpl. by rewrite (proj2 (Z.eqb_neq _ _) Hpp).
  - apply is_dead_child_spec. unfold is_child. simpl. by rewrite Z.eqb_refl.
  - intros j y Hj Hy. unfold after_exit in Hy. rewrite list_lookup_fmap in Hy.
    destruct (t !! j) as [q|] eqn:Hq; [|done]. injection Hy as <-.
    assert (p_pid q <> p_pid c) as Hne.
    { intros E. apply Hj. eapply (NoDup_lookup (p_pid <$> t)); [done|..];
        rewrite list_lookup_fmap; [by rewrite Hq|]. rewrite Hi. simpl. by rewrite E. }
    rewrite (proj2 (Z.eqb_neq _ _) Hne).
    assert (q ∈ t) as Hin by (apply list_elem_of_lookup; eauto).
    destruct (is_dead_child _ _ _) eqn:E; [|done]. exfalso.
    apply is_dead_child_spec in E as [Hc Hzq]. unfold is_child in Hc. simpl in Hc.
    rewrite andb_true_r in Hc. apply Z.eqb_eq in Hc. unfold reparent in *.
    destruct (Z.eqb_spec (p_parent_pid q) (p_pid c)) as [E2|E2]; simpl in *;
      by apply (Hz q Hin); auto.
Qed.

Lemma store_i32_aligned ptr v : aligned 4 ptr -> store_i32 ptr v = mem_write ptr (le32 v).
Proof.
  unfold aligned, store_i32. intros Ha. destruct debug_assertions; [|done].
  by rewrite (proj2 (Z.eqb_eq _ _)) by auto.
Qed.

Lemma le32_status code :
  le32 (Z.shiftl (Z.land code 0xff) 8) = [0; code `mod` 256; 0; 0].
Proof.
  unfold le32. change 0xff with (Z.ones 8). rewrite Z.land_ones by lia.
  rewrite Z.shiftl_mul_pow2 by lia. change (2 ^ 8) with 256.
  pose proof (Z.mod_pos_bound code 256 ltac:(lia)).
  rewrite Z.mod_mul, Z.div_mul by lia. f_equal. f_equal; [by apply Z.mod_small|].
  assert (code `mod` 256 * 256 / 65536 = 0) as -> by (apply Z.div_small; lia).
  assert (code `mod` 256 * 256 / 16777216 = 0) as -> by (apply Z.div_small; lia). done.
Qed.

(** C16: The exit status reaches the parent: when process [c] calls
    [exit(code)] and its parent then calls [wait4(-1, status)], [wait4]
    returns the PID of [c], stores the wait status of a normal exit (low byte
    zero, the low eight bits of [code] in the second byte) and [c] is gone
    from the table.  (No other child of the parent, and no child of [c], was
    waiting to be reaped; the status pointer is mapped and, where that is
    checked, aligned.) *)
Theorem exit_status_roundtrip (k : Kernel) (c : Process) (code status : Z) :
  NoDup (p_pid <$> PROCESS_TABLE k) ->
  find_proc (CURRENT_PID k) (PROCESS_TABLE k) = Some c ->
  p_parent_pid c <> p_pid c ->
  (forall q, q ∈ PROCESS_TABLE k ->
     p_parent_pid q = p_parent_pid c \/ p_parent_pid q = p_pid c -> p_state q <> Zombie) ->
  status <> 0 -> mapped (memory k) status 4 -> aligned 4 status ->
  exists k1 k2, exit (A := Z) code k = Halted k1 /\
    sys_wait4 (-1) status (set_current (p_parent_pid c) k1) = Done (p_pid c) k2 /\
    load_list (memory k2) status 4 = Ret [0; code `mod` 256; 0; 0] /\
    find_proc (p_pid c) (PROCESS_TABLE k2) = None.
Proof.
  intros Hnd [Hin Hcur]%find_proc_Some Hpp Hz Hs Hm Ha.
  apply list_elem_of_lookup in Hin as [i Hi].
  destruct (exit_spec (A := Z) k code Hnd) as (k1 & E & Ht & _ & _ & Hmem & _).
  exists k1. pose proof (after_exit_dead_child (CURRENT_PID k) code _ i c Hnd Hi Hcur
    ltac:(congruence) ltac:(rewrite <- Hcur; exact Hz)) as Hf.
  unfold sys_wait4, mbind, M_bind. simpl.
  rewrite (waitpid_reaps None (set_current (p_parent_pid c) k1) i (make_zombie code c))
    by (simpl; by rewrite Ht).
  rewrite (proj2 (Z.eqb_neq _ _) Hs). cbn [p_exit_code make_zombie p_pid].
  rewrite (store_i32_aligned _ _ Ha), le32_status. unfold mem_write.
  destruct (store_list_spec (memory k1) status [0; code `mod` 256; 0; 0]) as (m' & Em & Hm');
    [by rewrite Hmem|].
  cbn [memory set_table set_current]. rewrite Em. eexists. split_and!; [done|done| |].
  - simpl memory. apply (load_list_spec m' status [0; code `mod` 256; 0; 0]).
    intros j b Hb. rewrite Hm'. apply lookup_lt_Some in Hb as Hlt. simpl in Hlt.
    rewrite decide_True by (unfold zlen; simpl; lia). rewrite <- Hb. f_equal. lia.
  - simpl. rewrite Ht. change (p_pid c) with (p_pid (make_zombie code c)).
    apply find_proc_delete; [by rewrite after_exit_pids|].
    by apply find_index_Some in Hf as [? _].
Qed.

(** ** Where the table loses a child *)

Lemma elem_of_delete_ne {A} (l : list A) i x y :
  l !! i = Some x -> y ∈ l -> y <> x -> y ∈ delete i l.
Proof.
  intros Hi [j Hj]%list_elem_of_lookup Hne. apply list_elem_of_lookup.
  destruct (decide (j < i)%nat); [exists j; by rewrite list_lookup_delete_lt|].
  assert (j <> i) by congruence.
  exists (j - 1)%nat. rewrite list_lookup_delete_ge by lia.
  by replace (S (j - 1)) with j by lia.
Qed.

(** C35: A process ended by a signal does not hand over its children: its death
    leaves the [parent_pid] of its child [c] as it was, and once the dead
    process has been reaped no process at all can wait for [c]: every
    [waitpid] for it reports "no child". *)
Theorem signal_death_orphans (k : Kernel) (p c : Process) :
  NoDup (p_pid <$> PROCESS_TABLE k) ->
  p ∈ PROCESS_TABLE k -> c ∈ PROCESS_TABLE k -> p_pid c <> p_pid p ->
  p_parent_pid c = p_pid p -> p_parent_pid p <> p_pid p ->
  0 <= p_pending_signals p -> Z.testbit (p_pending_signals p) SIGKILL = true ->
  CURRENT_PID k = p_parent_pid p ->
  exists k1 k2, dispatch_signals (p_pid p) k = Done tt k1 /\
    waitpid (Some (p_pid p)) k1 = Done (Some (p_pid p, 128 + SIGKILL)) k2 /\
    c ∈ PROCESS_TABLE k2 /\ find_proc (p_parent_pid c) (PROCESS_TABLE k2) = None /\
    forall cur, cur <> p_pid p ->
      waitpid (Some (p_pid c)) (set_current cur k2) = Done None (set_current cur k2).
Proof.
  intros Hnd Hp Hc Hne Hpc Hpp Hpos Hkill Hcur.
  set (t1 := update_proc (p_pid p) deliver (PROCESS_TABLE k)).
  exists (set_table t1 k). apply list_elem_of_lookup in Hp as [i Hi].
  assert (NoDup (p_pid <$> t1)) as Hnd1.
  { subst t1. by rewrite update_proc_fmap by apply deliver_pid. }
  assert (deliver p = set_pending 0 (make_zombie (128 + SIGKILL) p)) as Hdp.
  { rewrite deliver_spec. unfold by_strength. cbn [List.find]. by rewrite Hkill. }
  assert (t1 !! i = Some (deliver p)) as Hi1.
  { subst t1. rewrite update_proc_map, list_lookup_fmap, Hi by done. simpl.
    by rewrite Z.eqb_refl. }
  assert (c ∈ t1) as Hc1.
  { subst t1. apply update_proc_elem; [done|]. exists c. split; [done|].
    by rewrite (proj2 (Z.eqb_neq _ _) Hne). }
  assert (c ∈ delete i t1) as Hc2.
  { apply (elem_of_delete_ne _ _ (deliver p)); [done..|].
    intros ->. by rewrite deliver_pid in Hne. }
  exists (set_table (delete i t1) (set_table t1 k)). split_and!; [done| |done| |].
  - rewrite (waitpid_reaps _ _ i (deliver p)); [by rewrite Hdp|]. simpl. rewrite Hcur.
    apply find_index_unique; [done| |].
    + rewrite Hdp. apply is_dead_child_spec. unfold is_child. simpl. by rewrite !Z.eqb_refl.
    + intros j y Hj Hy. unfold is_dead_child. simpl.
      destruct (Z.eqb_spec (p_pid y) (p_pid p)) as [E|E]; [|by rewrite andb_false_r].
      exfalso. apply Hj. eapply (NoDup_lookup (p_pid <$> t1)); [done|..];
        rewrite list_lookup_fmap; [by rewrite Hy|]. rewrite Hi1. simpl.
      by rewrite deliver_pid, E.
  - simpl. rewrite Hpc, <- (deliver_pid p). by apply find_proc_delete.
  - intros cur Hcne. apply waitpid_no_child. simpl. intros q Hq.
    unfold is_child. simpl. destruct (Z.eqb_spec (p_pid q) (p_pid c)) as [E|E];
      [|by rewrite andb_false_r].
    assert (q = c) as ->.
    { apply list_elem_of_delete_inv in Hq.
      pose proof (find_proc_elem _ _ _ Hnd1 Hq E) as H1.
      rewrite (find_proc_elem _ _ _ Hnd1 Hc1 eq_refl) in H1. by injection H1 as ->. }
    rewrite Hpc, (proj2 (Z.eqb_neq _ _)); [done|congruence].
Qed.

(** C36: A wait is lost at the end of a time slice: when a process waits for a
    live child and the timer interrupt that ends its time slice arrives, the
    scheduler changes the current PID under the waiting call, which goes on
    as the next process; if that one has no matching child, [waitpid] reports
    "no child" although the child is alive. *)
Theorem wait_lost_on_reschedule (k : Kernel) (target : option Z) (l : list Z) (p : Process) :
  quiet k -> 0 <= TICK k -> TICK k + 1 < 2 ^ 64 -> TICK k `mod` 10 = 9 ->
  irqs k = as_vector Timer :: l ->
  p ∈ PROCESS_TABLE k -> is_child (CURRENT_PID k) target p = true -> 
  (forall q, q ∈ PROCESS_TABLE k -> p_state q <> Zombie) ->
  (forall q, q ∈ PROCESS_TABLE k ->
     is_child (rr_next (PROCESS_TABLE k) (CURRENT_PID k)) target q = false) ->
  exists k', waitpid target k = Done None k' /\ PROCESS_TABLE k' = PROCESS_TABLE k.
Proof.
  intros Hq H0 H1 Hmod Hi Hp Hc Hz Hno.
  assert (forall q, q ∈ PROCESS_TABLE k -> is_dead_child (CURRENT_PID k) target q = false) as Hd.
  { intros q Hq'. destruct (is_dead_child _ _ _) eqn:E; [|done].
    apply is_dead_child_spec in E as [_ E]. by destruct (Hz q Hq'). }
  rewrite (waitpid_sleeps target k p) by done.
  unfold mbind, M_bind, hlt. rewrite Hi.
  change (interrupt (as_vector Timer) []) with (_ ← tick; notify_end_of_interrupt Timer).
  unfold mbind, M_bind.
  destruct (tick_quiet (set_irqs l k)) as (k1 & -> & Ht & Hpt & Hcur); [done..|].
  simpl in *. rewrite (proj2 (Z.eqb_eq _ _)) in Hcur.
  2:{ pose proof (Z.div_mod (TICK k) 10 ltac:(lia)).
      replace (TICK k + 1) with ((TICK k / 10 + 1) * 10) by lia. by apply Z.mod_mul. }
  exists (add_io (Eoi (as_vector Timer)) k1). split; [|exact Hpt]. apply waitpid_no_child. simpl. rewrite Hpt, Hcur. exact Hno.
Qed.

End exit_wait.

(** ** Witnesses *)

#[local] Existing Instance dev.

(** Init (1), a shell (2) and a child of the shell (3). *)
Definition demo_family (cur tick pending : Z) (l : list Z) : Kernel :=
  Demo.kernel [Demo.proc 0 0 Running 0; Demo.proc 1 0 Ready 0; Demo.proc 2 1 Ready pending;
               Demo.proc 3 2 Ready 0] cur tick (region 4096 (replicate 16 0)) l.

Lemma exit_effect_witness :
  exists k', exit (A := Z) 7 (demo_family 2 0 0 []) = Halted k' /\
    exists q', find_proc 3 (PROCESS_TABLE k') = Some q' /\ p_parent_pid q' = 1.
Proof.
  destruct (exit_effect (A := Z) (demo_family 2 0 0 []) 7) as (k' & E & H & _);
    [by_decide|].
  exists k'. split; [exact E|].
  destruct (H 3 (Demo.proc 3 2 Ready 0) eq_refl) as (q' & Hq & Hp & _).
  exists q'. exact (conj Hq Hp).
Defined.

Lemma exit_status_roundtrip_witness :
  exists k1 k2, exit (A := Z) 258 (demo_family 3 0 0 []) = Halted k1 /\
    sys_wait4 (-1) 4096 (set_current 2 k1) = Done 3 k2 /\
    load_list (memory k2) 4096 4 = Ret [0; 2; 0; 0] /\
    find_proc 3 (PROCESS_TABLE k2) = None.
Proof.
  apply (exit_status_roundtrip (demo_family 3 0 0 []) (Demo.proc 3 2 Ready 0) 258 4096).
  - by_decide.
  - reflexivity.
  - done.
  - each_entry; intros _; done.
  - lia.
  - by apply mapped_region.
  - done.
Defined.

Lemma signal_death_orphans_witness :
  exists k1 k2, dispatch_signals 2 (demo_family 1 0 (2 ^ 9) []) = Done tt k1 /\
    waitpid (Some 2) k1 = Done (Some (2, 137)) k2 /\
    forall cur, cur <> 2 ->
      waitpid (Some 3) (set_current cur k2) = Done None (set_current cur k2).
Proof.
  destruct (signal_death_orphans (demo_family 1 0 (2 ^ 9) []) (Demo.proc 2 1 Ready (2 ^ 9))
    (Demo.proc 3 2 Ready 0)) as (k1 & k2 & E1 & E2 & _ & _ & H).
  - by_decide.
  - do 2 right. left.
  - do 3 right. left.
  - done.
  - reflexivity.
  - done.
  - by vm_compute.
  - reflexivity.
  - reflexivity.
  - exists k1, k2. exact (conj E1 (conj E2 H)).
Defined.

Lemma wait_lost_on_reschedule_witness :
  exists k', waitpid (Some 3) (demo_family 2 9 0 [0x20]) = Done None k' /\
    find_proc 3 (PROCESS_TABLE k') = Some (Demo.proc 3 2 Ready 0).
Proof.
  destruct (wait_lost_on_reschedule (demo_family 2 9 0 [0x20]) (Some 3) []
    (Demo.proc 3 2 Ready 0)) as (k' & E & Ht).
  - repeat constructor.
  - by vm_compute.
  - by vm_compute.
  - reflexivity.
  - reflexivity.
  - do 3 right. left.
  - reflexivity.
  - each_entry; done.
  - each_entry; reflexivity.
  - exists k'. split; [exact E|]. rewrite Ht. reflexivity.
Defined.
