(* ===== verification/Files.v ===== *)
(** * Files: what the descriptor calls of [syscall/mod.rs] promise

    The descriptor table as a finite partial map from descriptors to open
    files, and the behaviour of [open], [close], [read] and [write] over it. *)

From S2P Require Import Prelude RustStr Mem Kernel Scheduler Interrupts Process Syscall Lifecycle.

(** The open file behind a descriptor. *)
Definition fds `{Pl : Platform} (k : Kernel) (fd : Z) : option OpenFile :=
  if fd <? 3 then None else mjoin (FD_TABLE k !! Z.to_nat (fd - 3)).

(** A NUL-terminated string in memory. *)
Definition cstr_at (m : mem) (a : Z) (s : list Z) : Prop :=
  0 ∉ s /\ load_list m a (S (length s)) = Ret (s ++ [0]).

(** What [read] sees of a node: its text, when it has one. *)
Definition content (tick : Z) (n : PseudoNode) : option (list Z) :=
  match n with
  | ProcVersion => Some version_text
  | ProcUptime => Some (uptime_text tick)
  | ProcMeminfo => Some meminfo_text
  | SysHostname => Some hostname_text
  | DevNull | DevTtyS0 => Some []
  | DevZero | DevFull => None
  end.

(** ** Strings and slots *)

Lemma load_list_cons m a n bs :
  load_list m a (S n) = Ret bs ->
  exists b bs', bs = b :: bs' /\ load8 m a = Ret b /\ load_list m (a + 1) n = Ret bs'.
Proof.
  simpl. destruct (load8 m a) as [b|]; [|done]. simpl.
  destruct (load_list m (a + 1) n) as [bs'|]; [|done]. intros [= <-]. eauto.
Qed.

Lemma read_cstr_spec m a s acc n :
  cstr_at m a s -> (length s < n)%nat -> read_cstr m a n acc = Ret (from_utf8 (acc ++ s)).
Proof.
  intros [Hz Hl]. revert a acc n Hl. induction s as [|b s IH]; intros a acc [|n] Hl Hn;
    simpl in Hn; try lia.
  - apply load_list_cons in Hl as (b & bs & E & Hb & _). injection E as <- <-.
    simpl. rewrite Hb. simpl. by rewrite app_nil_r.
  - apply load_list_cons in Hl as (b' & bs & E & Hb & Hl). injection E as <- <-.
    apply not_elem_of_cons in Hz as [Hb0 Hz]. simpl. rewrite Hb. simpl.
    rewrite (proj2 (Z.eqb_neq b 0)) by done. rewrite IH by (done || lia).
    by rewrite <- app_assoc.
Qed.

Lemma read_cstr_unterminated m a s acc :
  0 ∉ s -> load_list m a (length s) = Ret s -> read_cstr m a (length s) acc = Ret None.
Proof.
  revert a acc. induction s as [|b s IH]; intros a acc Hz Hl; [done|].
  apply load_list_cons in Hl as (b' & bs & E & Hb & Hl). injection E as <- <-.
  apply not_elem_of_cons in Hz as [Hb0 Hz]. simpl. rewrite Hb. simpl.
  rewrite (proj2 (Z.eqb_neq b 0)) by done. by apply IH.
Qed.

Lemma free_slot_Some t i :
  free_slot t = Some i -> t !! i = Some None /\ forall j, (j < i)%nat -> mjoin (t !! j) <> None.
Proof.
  unfold free_slot. destruct (find_index _ t) as [[j x]|] eqn:E; simpl; [|done].
  intros [= <-]. apply find_index_Some in E as (Hi & Hx & Hlt).
  apply bool_decide_eq_true in Hx as ->. split; [done|]. intros j' Hj.
  destruct (lookup_lt_is_Some_2 t j') as [y Hy]; [apply lookup_lt_Some in Hi; lia|].
  rewrite Hy. specialize (Hlt _ _ Hj Hy). by apply bool_decide_eq_false in Hlt.
Qed.

Lemma free_slot_None t j : free_slot t = None -> (j < length t)%nat -> mjoin (t !! j) <> None.
Proof.
  unfold free_slot. destruct (find_index _ t) eqn:E; [done|]. intros _ Hj.
  destruct (lookup_lt_is_Some_2 t j Hj) as [y Hy]. rewrite Hy.
  eapply find_index_None in E; [|apply list_elem_of_lookup; eauto].
  by apply bool_decide_eq_false in E.
Qed.

Section files.
Context `{Pl : Platform} `{Pr : Profile}.

Lemma fds_insert k fd i f :
  3 <= fd -> i = Z.to_nat (fd - 3) -> (i < length (FD_TABLE k))%nat ->
  forall fd', fds (set_fds (<[i := f]> (FD_TABLE k)) k) fd'
              = if decide (fd' = fd) then f else fds k fd'.
Proof.
  intros H3 -> Hi fd'. unfold fds. simpl. case_decide as E.
  - subst fd'. rewrite (proj2 (Z.ltb_ge _ _)) by done. by rewrite list_lookup_insert_eq.
  - destruct (Z.ltb_spec fd' 3); [done|]. rewrite list_lookup_insert_ne by lia. done.
Qed.

Lemma fds_snoc k f fd' :
  fds (set_fds (FD_TABLE k ++ [Some f]) k) fd'
  = if decide (fd' = zlen (FD_TABLE k) + 3) then Some f else fds k fd'.
Proof.
  unfold fds, zlen. simpl. case_decide as E.
  - subst fd'. rewrite (proj2 (Z.ltb_ge _ _)) by lia.
    rewrite list_lookup_middle by lia. done.
  - destruct (Z.ltb_spec fd' 3); [done|].
    destruct (decide (Z.to_nat (fd' - 3) < length (FD_TABLE k))%nat).
    + by rewrite lookup_app_l.
    + rewrite !lookup_ge_None_2; [done|lia|]. rewrite length_app. simpl. lia.
Qed.

(** [fd as usize - 3] is the slot of [fd], for the descriptors of the table. *)
Lemma fd_lookup_spec k fd :
  3 <= fd < 2 ^ 31 ->
  fd_lookup fd k = Done ((fun f => (Z.to_nat (fd - 3), f)) <$> fds k fd) k.
Proof.
  intros H. unfold fd_lookup, mbind, M_bind, lift, gets, sub_u.
  rewrite wrap_id by (split; lia). rewrite in_width_ok by (split; lia).
  unfold mret, M_ret, fds. rewrite (proj2 (Z.ltb_ge _ _)) by lia. f_equal.
  unfold zget. case_decide as E; [by destruct (_ !! _) as [[]|]|].
  rewrite lookup_ge_None_2; [done|]. unfold zlen in E. lia.
Qed.

(** A negative descriptor is a huge index. *)
Lemma fd_lookup_negative k fd :
  - 2 ^ 31 <= fd < 0 -> zlen (FD_TABLE k) < 2 ^ 63 -> fd_lookup fd k = Done None k.
Proof.
  intros H Hl. unfold fd_lookup, mbind, M_bind, lift, gets, sub_u, wrap.
  rewrite <- (Z.mod_add fd 1), Z.mul_1_l, Z.mod_small by lia.
  rewrite in_width_ok by (split; lia). unfold mret, M_ret. f_equal.
  rewrite (proj2 (zget_None _ _)) by lia. done.
Qed.

(** ** open *)

Definition writes (flags : Z) : bool :=
  (Z.land flags O_ACCMODE =? O_WRONLY) || (Z.land flags O_ACCMODE =? O_RDWR).

Lemma user_cstr_spec k path p :
  path <> 0 -> cstr_at (memory k) path p -> (length p < 256)%nat ->
  user_cstr path k = Done (from_utf8 p) k.
Proof.
  intros H0 Hc Hl. unfold user_cstr, mbind, M_bind, gets, lift, read_user_cstr.
  rewrite (proj2 (Z.eqb_neq _ _) H0). by rewrite (read_cstr_spec _ _ p).
Qed.

Lemma node_of_path_ascii p node :
  node_of_path p = Some node -> (length p < 256)%nat /\ from_utf8 p = Some p.
Proof.
  unfold node_of_path. intros H.
  repeat (case_decide; [subst p; split; [cbn; lia|by vm_compute]|]). done.
Qed.

(** The slot a new file gets: its descriptor and the table with it. *)
Definition new_slot (t : list (option OpenFile)) (file : OpenFile) : Z * list (option OpenFile) :=
  match free_slot t with
  | Some i => (Z.of_nat i + 3, <[i := Some file]> t)
  | None => (zlen t + 3, t ++ [Some file])
  end.

Lemma new_slot_spec (k : Kernel) (file : OpenFile) :
  let '(fd, t) := new_slot (FD_TABLE k) file in
  3 <= fd /\ fds k fd = None /\ (forall fd', 3 <= fd' < fd -> fds k fd' <> None) /\
  forall fd', fds (set_fds t k) fd' = if decide (fd' = fd) then Some file else fds k fd'.
Proof.
  unfold new_slot. destruct (free_slot (FD_TABLE k)) as [i|] eqn:Hf.
  - apply free_slot_Some in Hf as [Hi Hlt]. apply lookup_lt_Some in Hi as Hil. split_and!; [lia| | |].
    + unfold fds. rewrite (proj2 (Z.ltb_ge _ _)), Z.add_simpl_r, Nat2Z.id, Hi by lia. done.
    + intros fd' Hfd. unfold fds. rewrite (proj2 (Z.ltb_ge _ _)) by lia. apply Hlt. lia.
    + apply fds_insert; lia.
  - unfold zlen. split_and!; [lia| | |].
    + unfold fds. rewrite (proj2 (Z.ltb_ge _ _)) by lia.
      by rewrite lookup_ge_None_2 by lia.
    + intros fd' Hfd. unfold fds. rewrite (proj2 (Z.ltb_ge _ _)) by lia.
      apply free_slot_None; [done|lia].
    + apply fds_snoc.
Qed.

(** [open] once the path is known. *)
Lemma sys_open_path (k : Kernel) (path flags : Z) (r : option (list Z)) :
  path <> 0 -> user_cstr path k = Done r k ->
  sys_open path flags k =
  match r ≫= (fun p => Some (node_of_path p)) with
  | None => Done (errno Fault) k
  | Some None => Done (errno NoEnt) k
  | Some (Some node) =>
    if writes flags && read_only node then Done (errno Acces) k
    else let '(fd, t) := new_slot (FD_TABLE k) (mkOpenFile node 0) in Done fd (set_fds t k)
  end.
Proof.
  intros H0 E. unfold sys_open, mbind, M_bind. rewrite (proj2 (Z.eqb_neq _ _) H0), E.
  destruct r as [p|]; [|done]. simpl. destruct (node_of_path p) as [node|]; [|done].
  fold (writes flags). destruct (writes flags && read_only node); [done|].
  unfold gets, new_slot. by destruct (free_slot _).
Qed.

(** [open] of a known path gives the lowest free descriptor from 3 up, bound
    to the node of that path at offset 0; every other descriptor and the rest
    of the state stay as they were. *)
Theorem open_lowest_fd (k : Kernel) (path flags : Z) (p : list Z) (node : PseudoNode) :
  path <> 0 -> cstr_at (memory k) path p -> node_of_path p = Some node ->
  writes flags && read_only node = false ->
  exists fd t, sys_open path flags k = Done fd (set_fds t k) /\
    3 <= fd /\ fds k fd = None /\ (forall fd', 3 <= fd' < fd -> fds k fd' <> None) /\
    forall fd', fds (set_fds t k) fd'
                = if decide (fd' = fd) then Some (mkOpenFile node 0) else fds k fd'.
Proof.
  intros H0 Hc Hn Hw. destruct (node_of_path_ascii _ _ Hn) as [Hl Hu].
  rewrite (sys_open_path k path flags (Some p)) by (done || by rewrite (user_cstr_spec k path p), Hu).
  simpl. rewrite Hn, Hw.
  pose proof (new_slot_spec k (mkOpenFile node 0)) as Hs. destruct (new_slot _ _) as [fd t].
  by exists fd, t.
Qed.

(** [open] on its error branches changes nothing: EFAULT for a null
    pointer, for 256 bytes without a NUL and for a path that is not UTF-8;
    ENOENT for a path that names no node; EACCES for opening one of the
    read-only nodes for writing. *)
Theorem open_errors (k : Kernel) (flags path : Z) (p : list Z) :
  sys_open 0 flags k = Done (errno Fault) k /\
  (path <> 0 -> length p = 256%nat -> 0 ∉ p -> load_list (memory k) path 256 = Ret p ->
     sys_open path flags k = Done (errno Fault) k) /\
  (path <> 0 -> cstr_at (memory k) path p -> (length p < 256)%nat ->
     (from_utf8 p = None -> sys_open path flags k = Done (errno Fault) k) /\
     (from_utf8 p = Some p -> node_of_path p = None ->
        sys_open path flags k = Done (errno NoEnt) k) /\
     (forall node, node_of_path p = Some node -> read_only node = true ->
        writes flags = true -> sys_open path flags k = Done (errno Acces) k)).
Proof.
  split_and!; [done| |].
  - intros H0 Hl Hz Hm. unfold sys_open, user_cstr, mbind, M_bind, gets, lift, read_user_cstr.
    rewrite (proj2 (Z.eqb_neq _ _) H0), <- Hl, read_cstr_unterminated; rewrite ?Hl; done.
  - intros H0 Hc Hl. unfold sys_open, mbind, M_bind. rewrite (proj2 (Z.eqb_neq _ _) H0).
    rewrite (user_cstr_spec k path p) by done. fold (writes flags). split_and!.
    + by intros ->.
    + by intros -> ->.
    + intros node Hn Hr Hw. destruct (node_of_path_ascii _ _ Hn) as [_ ->].
      by rewrite Hn, Hr, Hw.
Qed.

(** ** close *)

Lemma bad_fd k fd :
  3 <= fd < 2 ^ 31 -> fds k fd = None ->
  sys_close fd k = Done (errno BadF) k /\
  forall buf count, count <> 0 -> buf <> 0 ->
    sys_read fd buf count k = Done (errno BadF) k /\
    sys_write fd buf count k = Done (errno BadF) k.
Proof.
  intros H Hn. pose proof (fd_lookup_spec k fd H) as E. rewrite Hn in E. simpl in E. split.
  - unfold sys_close, mbind, M_bind. rewrite (proj2 (Z.ltb_ge fd 3)) by lia. by rewrite E.
  - intros buf count Hc Hb. unfold sys_read, sys_write, mbind, M_bind.
    rewrite (proj2 (Z.eqb_neq _ _) Hc), (proj2 (Z.eqb_neq _ _) Hb).
    rewrite (proj2 (Z.eqb_neq fd 0)), (proj2 (Z.eqb_neq fd 1)), (proj2 (Z.eqb_neq fd 2)) by lia.
    simpl. by rewrite E.
Qed.

(** [close] of an open descriptor succeeds and frees exactly that
    descriptor; from then on closing it again, reading it and writing it all
    fail with EBADF and change nothing. *)
Theorem close_releases (k : Kernel) (fd : Z) (f : OpenFile) :
  3 <= fd < 2 ^ 31 -> fds k fd = Some f ->
  exists k1, sys_close fd k = Done 0 k1 /\
    (forall fd', fds k1 fd' = if decide (fd' = fd) then None else fds k fd') /\
    sys_close fd k1 = Done (errno BadF) k1 /\
    forall buf count, count <> 0 -> buf <> 0 ->
      sys_read fd buf count k1 = Done (errno BadF) k1 /\
      sys_write fd buf count k1 = Done (errno BadF) k1.
Proof.
  intros H Hf. eexists. split.
  { unfold sys_close, mbind, M_bind. rewrite (proj2 (Z.ltb_ge fd 3)) by lia.
    rewrite (fd_lookup_spec k fd), Hf by done. done. }
  assert (Z.to_nat (fd - 3) < length (FD_TABLE k))%nat as Hi.
  { unfold fds in Hf. rewrite (proj2 (Z.ltb_ge fd 3)) in Hf by lia.
    destruct (_ !! _) eqn:E; [|done]. by apply lookup_lt_Some in E. }
  pose proof (fds_insert k fd _ None ltac:(lia) eq_refl Hi) as Hk.
  split; [exact Hk|]. apply bad_fd; [done|]. rewrite Hk. by rewrite decide_True.
Qed.

(** ** read *)

Lemma static_bytes_spec count offset text :
  0 <= offset -> 0 <= count ->
  static_bytes count offset text = take (Z.to_nat count) (drop (Z.to_nat offset) text).
Proof.
  intros Ho Hc. unfold static_bytes. destruct (Z.geb_spec offset (zlen text)) as [H|H].
  - rewrite drop_ge by (unfold zlen in H; lia). by rewrite take_nil.
  - unfold zlen in *. destruct (Z.min_spec (Z.of_nat (length (drop (Z.to_nat offset) text))) count)
      as [[? ->]|[? ->]]; [|done].
    rewrite !take_ge by lia. done.
Qed.

Lemma mem_write_spec k a bs :
  mapped (memory k) a (zlen bs) ->
  exists m', mem_write a bs k = Done tt (set_screen (WRITER k) m' k) /\
    load_list m' a (length bs) = Ret bs /\ dom m' = dom (memory k) /\
    forall b, ~ a <= b < a + zlen bs -> m' !! b = memory k !! b.
Proof.
  intros Hm. destruct (store_list_spec _ _ _ Hm) as (m' & E & Hl). exists m'.
  unfold mem_write. rewrite E. split_and!; [done| | |].
  - apply load_list_spec. intros i b Hb. rewrite Hl. apply lookup_lt_Some in Hb as Hi.
    rewrite decide_True by (unfold zlen; lia). rewrite <- Hb. f_equal. lia.
  - apply set_eq. intros b. rewrite !elem_of_dom, Hl. case_decide as Hb; [|done].
    split; intros _; [|apply lookup_lt_is_Some; unfold zlen in Hb; lia].
    replace b with (a + (b - a)) by lia. apply Hm. lia.
  - intros b Hb. rewrite Hl. by rewrite decide_False.
Qed.

(** A node with a text, read at an offset. *)
Lemma read_node_spec k node buf count offset text :
  content (TICK k) node = Some text -> 0 <= offset -> 0 <= count ->
  mapped (memory k) buf count ->
  let bs := take (Z.to_nat count) (drop (Z.to_nat offset) text) in
  exists m', read_node node buf count offset k = Done (zlen bs) (set_screen (WRITER k) m' k) /\
    load_list m' buf (length bs) = Ret bs /\ dom m' = dom (memory k).
Proof.
  intros Hc Ho Hn Hm bs.
  assert (zlen bs <= count) as Hle.
  { subst bs. unfold zlen. rewrite length_take. lia. }
  destruct (mem_write_spec k buf bs) as (m' & E & Hl & Hd & _); [by eapply mapped_le|].
  assert (read_static buf count offset text k = Done (zlen bs) (set_screen (WRITER k) m' k)) as Hs.
  { unfold read_static, mbind, M_bind. rewrite static_bytes_spec by done. fold bs. by rewrite E. }
  destruct node; simpl in Hc; simplify_eq; try (by exists m').
  - exists (memory k). subst bs. rewrite drop_nil, take_nil. by destruct k.
  - exists (memory k). subst bs. rewrite drop_nil, take_nil. by destruct k.
Qed.

Lemma sys_read_spec k fd f buf count text :
  3 <= fd < 2 ^ 31 -> fds k fd = Some f -> content (TICK k) (f_node f) = Some text ->
  0 <= f_offset f < 2 ^ 64 -> zlen text < 2 ^ 63 -> buf <> 0 -> 0 < count ->
  mapped (memory k) buf count ->
  let bs := take (Z.to_nat count) (drop (Z.to_nat (f_offset f)) text) in
  exists k', sys_read fd buf count k = Done (zlen bs) k' /\
    load_list (memory k') buf (length bs) = Ret bs /\ dom (memory k') = dom (memory k) /\
    TICK k' = TICK k /\
    forall fd', fds k' fd' = if decide (fd' = fd)
                             then Some (mkOpenFile (f_node f) (f_offset f + zlen bs))
                             else fds k fd'.
Proof.
  intros Hfd Hf Hc Ho Hlen Hb Hn Hm bs.
  assert (zlen bs <= zlen text /\ f_offset f + zlen bs < 2 ^ 64) as [Hz1 Hz2].
  { subst bs. unfold zlen in *. rewrite length_take, length_drop. lia. }
  assert (Z.to_nat (fd - 3) < length (FD_TABLE k))%nat as Hi.
  { unfold fds in Hf. rewrite (proj2 (Z.ltb_ge fd 3)) in Hf by lia.
    destruct (_ !! _) eqn:E; [|done]. by apply lookup_lt_Some in E. }
  destruct (read_node_spec k (f_node f) buf count (f_offset f) text) as (m' & E & Hl & Hd);
    [done|lia..|done|]. fold bs in E, Hl.
  eexists. split.
  { unfold sys_read, mbind, M_bind.
    rewrite (proj2 (Z.eqb_neq count 0)), (proj2 (Z.eqb_neq buf 0)), (proj2 (Z.eqb_neq fd 0)) by lia.
    rewrite (fd_lookup_spec k fd), Hf by done. simpl. rewrite E.
    unfold modify, mret, M_ret, as_signed. rewrite wrap_id by (split; unfold zlen in *; lia).
    rewrite (proj2 (Z.ltb_lt _ _)) by lia. done. }
  unfold saturating_add. rewrite Z.min_l by lia. split_and!; [done..|].
  apply (fds_insert (set_screen (WRITER k) m' k) fd); [lia|done..].
Qed.

(** Reads of the given sizes, one after the other, and the bytes they deliver. *)
Fixpoint read_all (fd buf : Z) (counts : list Z) : M (list Z) :=
  match counts with
  | [] => mret []
  | c :: counts =>
    n ← sys_read fd buf c;
    bs ← mem_read buf (Z.to_nat n);
    rest ← read_all fd buf counts;
    mret (bs ++ rest)
  end.

Definition total (counts : list Z) : Z := foldr Z.add 0 counts.

Lemma take_step (l : list Z) c n :
  0 <= c -> 0 <= n ->
  take (Z.to_nat (c + n)) l
  = take (Z.to_nat c) l ++ take (Z.to_nat n) (drop (length (take (Z.to_nat c) l)) l).
Proof.
  intros Hc Hn. rewrite Z2Nat.inj_add, <- take_take_drop by done. f_equal.
  rewrite length_take. destruct (Nat.min_spec (Z.to_nat c) (length l)) as [[? ->]|[? ->]]; [done|].
  by rewrite !drop_ge by lia.
Qed.

(** Reading a file in pieces: with a text node open at some offset, reads of any
    positive sizes deliver, put together, the next bytes of the text, as many
    as asked for in total or as there are; afterwards the offset has advanced
    by what was delivered, and other descriptors are untouched. *)
Theorem read_stream (k : Kernel) (fd buf cap : Z) (f : OpenFile) (text counts : list Z) :
  3 <= fd < 2 ^ 31 -> fds k fd = Some f -> content (TICK k) (f_node f) = Some text ->
  0 <= f_offset f < 2 ^ 64 -> zlen text < 2 ^ 63 -> buf <> 0 ->
  Forall (fun c => 0 < c <= cap) counts -> mapped (memory k) buf cap ->
  let bs := take (Z.to_nat (total counts)) (drop (Z.to_nat (f_offset f)) text) in
  exists k', read_all fd buf counts k = Done bs k' /\
    forall fd', fds k' fd' = if decide (fd' = fd)
                             then Some (mkOpenFile (f_node f) (f_offset f + zlen bs))
                             else fds k fd'.
Proof.
  intros Hfd Hf Hc Ho Hlen Hb Hall. revert k f Hf Hc Ho.
  induction Hall as [|c counts [Hc0 Hcap] Hall IH]; intros k f Hf Hc Ho Hm bs.
  - exists k. split; [done|]. intros fd'. subst bs. simpl. rewrite take_0, Z.add_0_r.
    case_decide; [|done]. subst fd'. rewrite Hf. by destruct f.
  - destruct (sys_read_spec k fd f buf c text) as (k1 & E1 & Hl1 & Hd1 & Ht1 & Hf1);
      [done..|by eapply mapped_le|].
    set (b1 := take (Z.to_nat c) (drop (Z.to_nat (f_offset f)) text)) in *.
    assert (0 <= total counts) as Hnn.
    { clear -Hall. induction Hall; simpl; lia. }
    assert (zlen b1 <= zlen text /\ f_offset f + zlen b1 < 2 ^ 64) as [Hz1 Hz2].
    { subst b1. unfold zlen in *. rewrite length_take, length_drop. lia. }
    destruct (IH k1 (mkOpenFile (f_node f) (f_offset f + zlen b1))) as (k2 & E2 & Hf2).
    { rewrite Hf1. by rewrite decide_True. }
    { simpl. by rewrite Ht1. }
    { simpl. unfold zlen in *. lia. }
    { intros i Hi. apply elem_of_dom. rewrite Hd1. apply elem_of_dom. by apply Hm. }
    simpl in E2, Hf2.
    assert (bs = b1 ++ take (Z.to_nat (total counts))
                         (drop (Z.to_nat (f_offset f + zlen b1)) text)) as Hbs.
    { subst bs b1. change (total (c :: counts)) with (c + total counts).
      rewrite take_step, drop_drop by lia. do 3 f_equal. unfold zlen. lia. }
    exists k2. split.
    + simpl. unfold mbind, M_bind. rewrite E1. unfold mem_read.
      replace (Z.to_nat (zlen b1)) with (length b1) by (unfold zlen; lia).
      rewrite Hl1, E2. by rewrite Hbs.
    + intros fd'. rewrite Hf2, Hf1, Hbs, zlen_app, Z.add_assoc. by case_decide.
Qed.

(** ** Descriptors below 3 *)

(** C40: Reading from descriptor 1 or 2, or writing to descriptor 0, underflows the
    index [fd as usize - 3]: a build with overflow checks panics, a release
    build wraps to an index outside any table and answers EBADF. *)
Theorem std_fd_underflow (k : Kernel) (fd buf count : Z) :
  count <> 0 -> buf <> 0 -> zlen (FD_TABLE k) < 2 ^ 63 ->
  (fd = 1 \/ fd = 2 ->
     sys_read fd buf count k
     = if overflow_checks then Panicked k else Done (errno BadF) k) /\
  sys_write 0 buf count k = if overflow_checks then Panicked k else Done (errno BadF) k.
Proof.
  intros Hc Hb Hl.
  assert (forall fd, 0 <= fd < 3 -> fd_lookup fd k =
            if overflow_checks then Panicked k else Done None k) as E.
  { intros fd' H. unfold fd_lookup, mbind, M_bind, lift, gets, sub_u, in_width.
    rewrite (wrap_id 64 fd') by (split; lia). rewrite decide_False by (intros [? ?]; lia).
    destruct overflow_checks; [done|]. unfold mret, M_ret, wrap. f_equal.
    rewrite <- (Z.mod_add (fd' - 3) 1), Z.mod_small by lia.
    rewrite (proj2 (zget_None _ _)) by lia. done. }
  unfold sys_read, sys_write, mbind, M_bind.
  rewrite (proj2 (Z.eqb_neq _ _) Hc), (proj2 (Z.eqb_neq _ _) Hb). split.
  - intros Hfd. rewrite (proj2 (Z.eqb_neq fd 0)) by lia. rewrite E by lia.
    by destruct overflow_checks.
  - simpl. rewrite E by lia. by destruct overflow_checks.
Qed.

End files.

(** ** Witnesses *)

#[local] Existing Instance dev.

(** A process table of one, the string ["/proc/version"] at 4096, a buffer at
    8192, descriptor 3 closed and 4 bound to [/sys/kernel/hostname] at offset 3. *)
Definition demo_files : Kernel :=
  set_fds [None; Some (mkOpenFile SysHostname 3)]
    (Demo.kernel [Demo.proc 0 0 Running 0] 0 0
       (region 4096 (lit "/proc/version" ++ [0]) ∪ region 8192 (replicate 8 0)) []).

Lemma open_lowest_fd_witness :
  exists fd t, sys_open 4096 0 demo_files = Done fd (set_fds t demo_files) /\
    fds (set_fds t demo_files) 3 = Some (mkOpenFile ProcVersion 0).
Proof.
  destruct (open_lowest_fd demo_files 4096 0 (lit "/proc/version") ProcVersion)
    as (fd & t & E & H3 & _ & Hlow & Hf).
  - lia.
  - split; [by_decide|by vm_compute].
  - by vm_compute.
  - by vm_compute.
  - exists fd, t. split; [exact E|]. rewrite Hf. case_decide as Hd; [done|].
    destruct (Hlow 3); [lia|by vm_compute].
Defined.

Lemma close_releases_witness :
  exists k1, sys_close 4 demo_files = Done 0 k1 /\ sys_close 4 k1 = Done (errno BadF) k1.
Proof.
  destruct (close_releases demo_files 4 (mkOpenFile SysHostname 3)) as (k1 & E & _ & E2 & _).
  - lia.
  - reflexivity.
  - exists k1. exact (conj E E2).
Defined.

Lemma read_stream_witness :
  exists k', read_all 4 8192 [2; 8; 5] demo_files = Done (lit "putekernel" ++ [10]) k' /\
    fds k' 4 = Some (mkOpenFile SysHostname 14).
Proof.
  destruct (read_stream demo_files 4 8192 8 (mkOpenFile SysHostname 3) hostname_text [2; 8; 5])
    as (k' & E & Hf).
  - lia.
  - reflexivity.
  - reflexivity.
  - simpl; lia.
  - by vm_compute.
  - lia.
  - repeat constructor; lia.
  - intros i Hi. simpl. rewrite lookup_union_r.
    + apply (mapped_region 8192 (replicate 8 0) 8); [by vm_compute|lia].
    + apply lookup_map_seqZ_None. right. cbn. lia.
  - exists k'. split; [exact E|]. rewrite Hf. by vm_compute.
Defined.

Lemma std_fd_underflow_witness :
  sys_read (Pr := dev) 1 8192 1 demo_files = Panicked demo_files /\
  sys_read (Pr := release) 1 8192 1 demo_files = Done (errno BadF) demo_files.
Proof.
  split.
  - refine (proj1 (std_fd_underflow (Pr := dev) demo_files 1 8192 1 _ _ _) _);
      [lia|lia|by vm_compute|by left].
  - refine (proj1 (std_fd_underflow (Pr := release) demo_files 1 8192 1 _ _ _) _);
      [lia|lia|by vm_compute|by left].
Defined.
