(* ===== verification/FileSpec.v ===== *)
(** * The descriptor calls as an abstract file machine

    What user code sees of [open], [close], [read] and [write]: a finite map
    from descriptors to open files, the memory, and what was sent to the
    serial line.  The system calls of [syscall/mod.rs] implement it, over the
    table of slots, the loops over raw memory and the log of the devices. *)

From S2P Require Import Prelude RustStr Mem Kernel Scheduler Interrupts Process Syscall Lifecycle Files.

(** ** The machine *)

Inductive FileCall :=
| Open (path flags : Z)
| Close (fd : Z)
| Read (fd buf count : Z)
| Write (fd buf count : Z).

Record FileState := mkFileState {
  fs_files : gmap Z OpenFile; fs_memory : mem; fs_serial : list Z }.

(** The lowest descriptor from [fd] up that is not in use, looking at [n] of
    them. *)
Fixpoint lowest_from (n : nat) (fd : Z) (m : gmap Z OpenFile) : Z :=
  match n with
  | O => fd
  | S n => match m !! fd with None => fd | Some _ => lowest_from n (fd + 1) m end
  end.
Definition lowest (m : gmap Z OpenFile) : Z := lowest_from (size m) 3 m.

(** The bytes at an address, and the part of a string before its NUL. *)
Definition peek (m : mem) (a : Z) (n : nat) : list Z :=
  (fun i => default 0 (m !! (a + Z.of_nat i))) <$> seq 0 n.
Fixpoint before_nul (bs : list Z) : option (list Z) :=
  match bs with
  | [] => None
  | b :: bs => if b =? 0 then Some [] else cons b <$> before_nul bs
  end.

(** What a read of [count] bytes delivers: of a text the part from the offset
    on, of the endless devices zeros. *)
Definition delivered (tick : Z) (f : OpenFile) (count : Z) : list Z :=
  match content tick (f_node f) with
  | Some text => take (Z.to_nat count) (drop (Z.to_nat (f_offset f)) text)
  | None => replicate (Z.to_nat count) 0
  end.

Definition written (n : PseudoNode) (count : Z) : Z :=
  match n with
  | DevNull | DevZero | DevTtyS0 => count
  | DevFull => errno NoSpc
  | _ => errno Perm
  end.

Definition file_step (tick : Z) (c : FileCall) (s : FileState) : Z * FileState :=
  let '(mkFileState files m out) := s in
  match c with
  | Open path flags =>
    if path =? 0 then (errno Fault, s) else
    match before_nul (peek m path 256) ≫= from_utf8 with
    | None => (errno Fault, s)
    | Some p =>
      match node_of_path p with
      | None => (errno NoEnt, s)
      | Some node =>
        if writes flags && read_only node then (errno Acces, s)
        else (lowest files, mkFileState (<[lowest files := mkOpenFile node 0]> files) m out)
      end
    end
  | Close fd =>
    if fd <? 3 then (0, s) else
    match files !! fd with
    | None => (errno BadF, s)
    | Some _ => (0, mkFileState (delete fd files) m out)
    end
  | Read fd buf count =>
    if count =? 0 then (0, s) else if buf =? 0 then (errno Fault, s) else
    match files !! fd with
    | None => (errno BadF, s)
    | Some f =>
      let bs := delivered tick f count in
      (zlen bs, mkFileState (<[fd := mkOpenFile (f_node f) (saturating_add 64 (f_offset f) (zlen bs))]> files)
                  (region buf bs ∪ m) out)
    end
  | Write fd buf count =>
    if count =? 0 then (0, s) else if buf =? 0 then (errno Fault, s) else
    match files !! fd with
    | None => (errno BadF, s)
    | Some f =>
      (written (f_node f) count,
       if decide (f_node f = DevTtyS0)
       then mkFileState files m (out ++ (peek m buf (Z.to_nat count) ≫= utf8_char)) else s)
    end
  end.

(** Calls in order, with their results. *)
Fixpoint file_run (tick : Z) (cs : list FileCall) (s : FileState) : list Z * FileState :=
  match cs with
  | [] => ([], s)
  | c :: cs =>
    let '(r, s1) := file_step tick c s in
    let '(rs, s2) := file_run tick cs s1 in
    (r :: rs, s2)
  end.

(** ** The kernel *)

Definition frame_of (c : FileCall) : SyscallFrame :=
  match c with
  | Open path flags => mkFrame SYS_OPEN path flags 0 0 0 0
  | Close fd => mkFrame SYS_CLOSE fd 0 0 0 0 0
  | Read fd buf count => mkFrame SYS_READ fd buf count 0 0 0
  | Write fd buf count => mkFrame SYS_WRITE fd buf count 0 0 0
  end.

Section kernel.
Context `{Pl : Platform} `{Pr : Profile}.

Fixpoint call_all (cs : list FileCall) : M (list Z) :=
  match cs with
  | [] => mret []
  | c :: cs => r ← dispatch (frame_of c); rs ← call_all cs; mret (r :: rs)
  end.

(** The open files by descriptor, and the bytes sent to the serial line. *)
Definition files_of (k : Kernel) : gmap Z OpenFile := omap id (map_seqZ 3 (FD_TABLE k)).
Definition serial_of (k : Kernel) : list Z :=
  mjoin (omap (fun e => match e with Com1 bs => Some bs | _ => None end) (trace k)).
Definition view (k : Kernel) : FileState := mkFileState (files_of k) (memory k) (serial_of k).

(** Everything else. *)
Definition rest_of (k : Kernel) :=
  (PROCESS_TABLE k, NEXT_PID k, TICK k, CURRENT_PID k, KEY_BUFFER k, KEYBOARD k, WRITER k,
   devices k, irqs k).

(** Offsets are [u64]s. *)
Definition offsets_ok (k : Kernel) : Prop :=
  Forall (fun s => from_option (fun f => is_u64 (f_offset f)) True s) (FD_TABLE k).

(** A call with arguments in range whose buffers are in memory; descriptors
    of the table for [read] and [write]. *)
Definition call_ok (D : gset Z) (c : FileCall) : Prop :=
  match c with
  | Open path flags => - 2 ^ 31 <= flags < 2 ^ 31 /\ (path <> 0 -> forall i, 0 <= i < 256 -> path + i ∈ D)
  | Close fd => - 2 ^ 31 <= fd < 2 ^ 31
  | Read fd buf count | Write fd buf count =>
    3 <= fd < 2 ^ 31 /\ 0 <= count < 2 ^ 63 /\ (buf <> 0 -> forall i, 0 <= i < count -> buf + i ∈ D)
  end.

(** One call: the machine's result and state, all else untouched. *)
Definition implements (D : gset Z) (c : FileCall) (k : Kernel) : Prop :=
  exists k', dispatch (frame_of c) k = Done (file_step (TICK k) c (view k)).1 k' /\
    view k' = (file_step (TICK k) c (view k)).2 /\ rest_of k' = rest_of k /\
    offsets_ok k' /\ dom (memory k') = D.

Lemma files_of_lookup k fd : files_of k !! fd = fds k fd.
Proof.
  unfold files_of, fds. rewrite lookup_omap, lookup_map_seqZ.
  destruct (Z.ltb_spec fd 3); case_guard; try lia; simpl; [done|].
  by destruct (FD_TABLE k !! _).
Qed.

Lemma files_of_eq k k' : (forall fd, fds k' fd = fds k fd) -> files_of k' = files_of k.
Proof. intros H. apply map_eq. intros fd. by rewrite !files_of_lookup. Qed.

(** ** The lowest descriptor *)

Lemma lowest_from_spec n fd a m :
  a <= fd -> m !! fd = None -> (forall i, a <= i < fd -> is_Some (m !! i)) ->
  (Z.to_nat (fd - a) <= n)%nat -> lowest_from n a m = fd.
Proof.
  revert a. induction n as [|n IH]; intros a Ha Hf Hl Hn; simpl; [lia|].
  destruct (decide (a = fd)) as [->|]; [by rewrite Hf|].
  destruct (Hl a) as [f ->]; [lia|]. apply IH; [lia|done| |lia]. intros. apply Hl. lia.
Qed.

Lemma lowest_spec m fd :
  3 <= fd -> m !! fd = None -> (forall i, 3 <= i < fd -> is_Some (m !! i)) -> lowest m = fd.
Proof.
  intros H3 Hf Hl. unfold lowest. apply lowest_from_spec; [done..|].
  assert (list_to_set (seqZ 3 (fd - 3)) ⊆ dom m) as Hs%subseteq_size.
  { intros i Hi. apply elem_of_list_to_set, elem_of_seqZ in Hi. apply elem_of_dom, Hl. lia. }
  rewrite size_list_to_set, length_seqZ, size_dom in Hs by apply NoDup_seqZ. lia.
Qed.

(** ** Memory *)

Lemma peek_cons m a n : peek m a (S n) = default 0 (m !! a) :: peek m (a + 1) n.
Proof.
  unfold peek. simpl. rewrite Z.add_0_r. f_equal. rewrite <- fmap_S_seq, <- list_fmap_compose.
  apply list_fmap_ext. intros i x _. simpl. do 2 f_equal. lia.
Qed.

Lemma mapped_cons m a n :
  mapped m a (Z.of_nat (S n)) -> exists b, m !! a = Some b /\ mapped m (a + 1) (Z.of_nat n).
Proof.
  intros H. destruct (H 0) as [b Hb]; [lia|]. rewrite Z.add_0_r in Hb. exists b. split; [done|].
  intros i Hi. replace (a + 1 + i) with (a + (1 + i)) by lia. apply H. lia.
Qed.

Lemma read_cstr_peek m a n acc :
  mapped m a (Z.of_nat n) ->
  read_cstr m a n acc = Ret (before_nul (peek m a n) ≫= fun s => from_utf8 (acc ++ s)).
Proof.
  revert a acc. induction n as [|n IH]; intros a acc Hm; [done|].
  apply mapped_cons in Hm as (b & Hb & Hm). rewrite peek_cons, Hb. simpl.
  rewrite (load8_ret _ _ _ Hb). simpl. destruct (b =? 0); simpl; [by rewrite app_nil_r|].
  rewrite IH by done. destruct (before_nul _); simpl; [|done]. by rewrite <- app_assoc.
Qed.

Lemma user_cstr_peek k path :
  path <> 0 -> mapped (memory k) path 256 ->
  user_cstr path k = Done (before_nul (peek (memory k) path 256) ≫= from_utf8) k.
Proof.
  intros H0 Hm. unfold user_cstr, mbind, M_bind, gets, lift, read_user_cstr.
  rewrite (proj2 (Z.eqb_neq _ _) H0). by rewrite read_cstr_peek.
Qed.

Lemma mem_write_exact k a bs :
  mapped (memory k) a (zlen bs) ->
  mem_write a bs k = Done tt (set_screen (WRITER k) (region a bs ∪ memory k) k) /\
  dom (region a bs ∪ memory k) = dom (memory k).
Proof.
  intros Hm. destruct (store_list_spec _ _ _ Hm) as (m' & E & Hl). unfold mem_write. rewrite E.
  assert (m' = region a bs ∪ memory k) as ->.
  { apply map_eq. intros b. rewrite Hl. unfold region. case_decide as Hb.
    - destruct (lookup_lt_is_Some_2 bs (Z.to_nat (b - a))) as [x Hx]; [unfold zlen in Hb; lia|].
      rewrite Hx. symmetry. apply lookup_union_Some_l, lookup_map_seqZ_Some. split; [lia|done].
    - rewrite lookup_union_r; [done|]. apply lookup_map_seqZ_None. unfold zlen in Hb. lia. }
  split; [done|]. rewrite dom_union_L. apply set_eq. intros b. rewrite elem_of_union.
  split; [|auto]. intros [Hb|Hb]; [|done]. apply elem_of_dom in Hb as [x Hx].
  unfold region in Hx. apply lookup_map_seqZ_Some in Hx as [? Hx]. apply lookup_lt_Some in Hx.
  apply elem_of_dom. replace b with (a + (b - a)) by lia. apply Hm. unfold zlen. lia.
Qed.

Lemma mem_read_one k a b : memory k !! a = Some b -> mem_read a 1 k = Done [b] k.
Proof. intros H. unfold mem_read. simpl. by rewrite (load8_ret _ _ _ H). Qed.

Lemma serial_of_print k bs : serial_of (add_io (Com1 bs) k) = serial_of k ++ bs.
Proof. unfold serial_of. simpl. rewrite omap_app, join_app. simpl. by rewrite app_nil_r. Qed.

Lemma tty_write_spec k a n :
  mapped (memory k) a (Z.of_nat n) ->
  exists k', tty_write n a k = Done tt k' /\ FD_TABLE k' = FD_TABLE k /\ memory k' = memory k /\
    serial_of k' = serial_of k ++ (peek (memory k) a n ≫= utf8_char) /\ rest_of k' = rest_of k.
Proof.
  revert k a. induction n as [|n IH]; intros k a Hm; cbn [tty_write].
  { exists k. by rewrite app_nil_r. }
  apply mapped_cons in Hm as (b & Hb & Hm). unfold mbind, M_bind.
  rewrite (mem_read_one _ _ _ Hb). cbn [list_bind]. rewrite app_nil_r.
  destruct (IH (add_io (Com1 (utf8_char b)) k) (a + 1) Hm) as (k' & E & H1 & H2 & H3 & H4).
  exists k'. split; [exact E|]. split_and!; [done..| |done].
  rewrite H3, serial_of_print, peek_cons, Hb. simpl. by rewrite <- app_assoc.
Qed.

(** ** The calls *)

Lemma as_i32_id z : - 2 ^ 31 <= z < 2 ^ 31 -> as_i32 z = z.
Proof.
  intros H. unfold as_signed, wrap. destruct (decide (z < 0)).
  - rewrite <- (Z.mod_add z 1), Z.mod_small by lia.
    rewrite (proj2 (Z.ltb_ge _ _)) by lia. lia.
  - rewrite Z.mod_small by lia. by rewrite (proj2 (Z.ltb_lt _ _)) by lia.
Qed.

Lemma as_i64_id z : 0 <= z < 2 ^ 63 -> as_i64 z = z.
Proof.
  intros H. unfold as_signed. rewrite wrap_id by (split; lia).
  by rewrite (proj2 (Z.ltb_lt _ _)) by lia.
Qed.

Lemma mapped_dom k D a n :
  dom (memory k) = D -> (forall i, 0 <= i < n -> a + i ∈ D) -> mapped (memory k) a n.
Proof. intros <- H i Hi. by apply elem_of_dom, H. Qed.

(** A call that changes nothing. *)
Lemma implements_same D c k r :
  dispatch (frame_of c) k = Done r k -> file_step (TICK k) c (view k) = (r, view k) ->
  offsets_ok k -> dom (memory k) = D -> implements D c k.
Proof. intros E Es Ho Hd. exists k. by rewrite Es. Qed.

Lemma offsets_insert k i s :
  offsets_ok k -> from_option (fun f => is_u64 (f_offset f)) True s ->
  offsets_ok (set_fds (<[i := s]> (FD_TABLE k)) k).
Proof. intros Ho Hs. by apply Forall_insert. Qed.

Lemma fds_slot k fd f :
  3 <= fd -> fds k fd = Some f -> FD_TABLE k !! Z.to_nat (fd - 3) = Some (Some f).
Proof.
  intros H Hf. unfold fds in Hf. rewrite (proj2 (Z.ltb_ge fd 3)) in Hf by lia.
  destruct (FD_TABLE k !! _); simplify_eq/=; done.
Qed.

Lemma files_of_insert k fd s :
  3 <= fd -> (Z.to_nat (fd - 3) < length (FD_TABLE k))%nat ->
  files_of (set_fds (<[Z.to_nat (fd - 3) := s]> (FD_TABLE k)) k) = partial_alter (fun _ => s) fd (files_of k).
Proof.
  intros H Hi. apply map_eq. intros fd'.
  rewrite files_of_lookup, (fds_insert k fd) by done. case_decide as E.
  - subst fd'. by rewrite lookup_partial_alter_eq.
  - by rewrite lookup_partial_alter_ne, files_of_lookup.
Qed.

Lemma implements_open D k path flags :
  call_ok D (Open path flags) -> offsets_ok k -> dom (memory k) = D -> implements D (Open path flags) k.
Proof.
  intros [Hfl Hp] Ho Hd.
  assert (dispatch (frame_of (Open path flags)) k = sys_open path flags k) as Ed
    by (unfold dispatch; simpl; by rewrite as_i32_id).
  destruct (Z.eqb_spec path 0) as [->|H0]; [by eapply implements_same; [rewrite Ed|..]|].
  rewrite (sys_open_path k path flags _ H0 (user_cstr_peek k path H0 ltac:(by eapply mapped_dom; [|apply Hp]))) in Ed.
  assert (file_step (TICK k) (Open path flags) (view k) =
    match before_nul (peek (memory k) path 256) ≫= from_utf8 with
    | None => (errno Fault, view k)
    | Some p =>
      match node_of_path p with
      | None => (errno NoEnt, view k)
      | Some node =>
        if writes flags && read_only node then (errno Acces, view k)
        else let fd := lowest (files_of k) in
             (fd, mkFileState (<[fd := mkOpenFile node 0]> (files_of k)) (memory k) (serial_of k))
      end
    end) as Es by (simpl; by rewrite (proj2 (Z.eqb_neq _ _) H0)).
  destruct (before_nul _ ≫= from_utf8) as [p|];
    cbn [mbind option_bind] in Ed; [|by eapply implements_same].
  destruct (node_of_path p) as [node|]; [|by eapply implements_same].
  destruct (writes flags && read_only node); [by eapply implements_same|].
  pose proof (new_slot_spec k (mkOpenFile node 0)) as Hs.
  destruct (new_slot _ _) as [fd t] eqn:Ht. destruct Hs as (H3 & Hn & Hl & Hf).
  assert (lowest (files_of k) = fd) as Hlow.
  { apply lowest_spec; [done|by rewrite files_of_lookup|]. intros i Hi. rewrite files_of_lookup.
    apply not_eq_None_Some, Hl. lia. }
  rewrite Hlow in Es. unfold implements. rewrite Es, Ed. eexists. split; [done|]. split_and!; try done.
  - unfold view. cbn [snd memory set_fds]. f_equal. apply map_eq. intros fd'. rewrite files_of_lookup, Hf, lookup_insert.
    rewrite files_of_lookup. repeat case_decide; congruence.
  - unfold new_slot in Ht. destruct (free_slot _); simplify_eq.
    + by apply offsets_insert.
    + apply Forall_app. by repeat constructor.
Qed.

Lemma implements_close D k fd :
  call_ok D (Close fd) -> offsets_ok k -> dom (memory k) = D -> implements D (Close fd) k.
Proof.
  intros Hfd Ho Hd.
  assert (dispatch (frame_of (Close fd)) k = sys_close fd k) as Ed
    by (unfold dispatch; simpl; by rewrite as_i32_id).
  unfold sys_close in Ed. destruct (Z.ltb_spec fd 3) as [H3|H3].
  { eapply implements_same; [done| |done..]. simpl. by rewrite (proj2 (Z.ltb_lt _ _) H3). }
  unfold mbind, M_bind in Ed. rewrite fd_lookup_spec in Ed by (cbn in Hfd; lia).
  pose proof (files_of_lookup k fd) as Hf. destruct (fds k fd) as [f|] eqn:Ef; simpl in Ed.
  - unfold implements. simpl. rewrite (proj2 (Z.ltb_ge _ _) H3), Hf, Ed. eexists. split; [done|].
    apply fds_slot in Ef; [|done]. apply lookup_lt_Some in Ef.
    split_and!; try done; [|by apply offsets_insert].
    unfold view. f_equal. by rewrite files_of_insert.
  - eapply implements_same; [done| |done..]. simpl. by rewrite (proj2 (Z.ltb_ge _ _) H3), Hf.
Qed.

(** A descriptor call up to the table. *)
Lemma dispatch_read k fd buf count :
  3 <= fd < 2 ^ 31 ->
  dispatch (frame_of (Read fd buf count)) k = sys_read fd buf count k /\
  dispatch (frame_of (Write fd buf count)) k = sys_write fd buf count k.
Proof. intros H. unfold dispatch. simpl. by rewrite as_i32_id by lia. Qed.

Lemma read_node_delivers k f buf count :
  0 <= count -> 0 <= f_offset f -> mapped (memory k) buf count ->
  let bs := delivered (TICK k) f count in
  zlen bs <= count /\
  exists m, read_node (f_node f) buf count (f_offset f) k = Done (zlen bs) (set_screen (WRITER k) m k) /\
    m = region buf bs ∪ memory k /\ dom m = dom (memory k).
Proof.
  intros Hc Ho Hm bs.
  assert (zlen bs <= count) as Hle.
  { subst bs. unfold delivered, zlen. destruct (content _ _); rewrite ?length_take, ?length_replicate; lia. }
  split; [done|]. destruct (mem_write_exact k buf bs) as [E Hd]; [by eapply mapped_le|].
  exists (region buf bs ∪ memory k). split; [|done].
  assert (forall text, content (TICK k) (f_node f) = Some text ->
    read_static buf count (f_offset f) text k = Done (zlen bs) (set_screen (WRITER k) (region buf bs ∪ memory k) k)) as Hs.
  { intros text Ht. unfold read_static, mbind, M_bind. rewrite static_bytes_spec by done.
    subst bs. unfold delivered in *. rewrite Ht in *. by rewrite E. }
  assert (content (TICK k) (f_node f) = None -> bs = replicate (Z.to_nat count) 0 /\ zlen bs = count) as Hz.
  { intros Hn. subst bs. unfold delivered, zlen. rewrite Hn, length_replicate. split; [done|lia]. }
  destruct (f_node f) eqn:En; try (by apply Hs); cbn [read_node].
  - subst bs. unfold delivered. rewrite En. simpl. rewrite drop_nil, take_nil.
    unfold region. simpl. rewrite (left_id_L ∅ (∪)). by destruct k.
  - destruct (Hz eq_refl) as [Hb ->]. unfold mbind, M_bind. by rewrite <- Hb, E.
  - destruct (Hz eq_refl) as [Hb ->]. unfold mbind, M_bind. by rewrite <- Hb, E.
  - subst bs. unfold delivered. rewrite En. simpl. rewrite drop_nil, take_nil.
    unfold region. simpl. rewrite (left_id_L ∅ (∪)). by destruct k.
Qed.

Lemma fds_offset k fd f : offsets_ok k -> 3 <= fd -> fds k fd = Some f -> is_u64 (f_offset f).
Proof.
  intros Ho H3 Hf. apply fds_slot in Hf; [|done].
  exact (Forall_lookup_1 _ _ _ _ Ho Hf).
Qed.

Lemma implements_read D k fd buf count :
  call_ok D (Read fd buf count) -> offsets_ok k -> dom (memory k) = D ->
  implements D (Read fd buf count) k.
Proof.
  intros (Hfd & Hc & Hb) Ho Hd. destruct (dispatch_read k fd buf count Hfd) as [Ed _].
  destruct (Z.eqb_spec count 0) as [->|Hc0]; [by eapply implements_same; [rewrite Ed|..]|].
  assert (count =? 0 = false) as Ec by lia.
  destruct (Z.eqb_spec buf 0) as [->|Hb0].
  { eapply implements_same; [rewrite Ed; unfold sys_read; by rewrite Ec| |done..]. simpl. by rewrite Ec. }
  assert (buf =? 0 = false) as Eb by lia. specialize (Hb Hb0).
  unfold sys_read, mbind, M_bind in Ed.
  rewrite Ec, Eb, (proj2 (Z.eqb_neq fd 0)), fd_lookup_spec in Ed by lia.
  pose proof (files_of_lookup k fd) as Hf. destruct (fds k fd) as [f|] eqn:Ef; simpl in Ed.
  2:{ eapply implements_same; [done| |done..]. simpl. by rewrite Ec, Eb, Hf. }
  pose proof (fds_offset k fd f Ho ltac:(lia) Ef) as Hoff.
  destruct (read_node_delivers k f buf count) as (Hle & m & E & Hm & Hdm); [lia|apply Hoff|by eapply mapped_dom|].
  rewrite E in Ed. pose proof (zlen_nonneg (delivered (TICK k) f count)) as Hnn.
  unfold modify, mret, M_ret in Ed. rewrite as_i64_id in Ed by lia.
  unfold implements. simpl. rewrite Ec, Eb, Hf, Ed. eexists. split; [done|].
  apply fds_slot in Ef; [|lia]. apply lookup_lt_Some in Ef. split_and!; try done.
  - unfold view. cbn [snd memory set_fds set_screen]. f_equal; [|done].
    apply (files_of_insert (set_screen (WRITER k) m k)); [lia|done].
  - apply (offsets_insert (set_screen (WRITER k) m k)); [done|]. simpl. unfold saturating_add, is_u in *. lia.
  - simpl. congruence.
Qed.

Lemma implements_write D k fd buf count :
  call_ok D (Write fd buf count) -> offsets_ok k -> dom (memory k) = D ->
  implements D (Write fd buf count) k.
Proof.
  intros (Hfd & Hc & Hb) Ho Hd. destruct (dispatch_read k fd buf count Hfd) as [_ Ed].
  destruct (Z.eqb_spec count 0) as [->|Hc0]; [by eapply implements_same; [rewrite Ed|..]|].
  assert (count =? 0 = false) as Ec by lia.
  destruct (Z.eqb_spec buf 0) as [->|Hb0].
  { eapply implements_same; [rewrite Ed; unfold sys_write; by rewrite Ec| |done..]. simpl. by rewrite Ec. }
  assert (buf =? 0 = false) as Eb by lia. specialize (Hb Hb0).
  unfold sys_write, mbind, M_bind in Ed.
  rewrite Ec, Eb, (proj2 (Z.eqb_neq fd 1)), (proj2 (Z.eqb_neq fd 2)) in Ed by lia.
  cbn [orb] in Ed. rewrite fd_lookup_spec in Ed by lia.
  pose proof (files_of_lookup k fd) as Hf. destruct (fds k fd) as [f|] eqn:Ef; simpl in Ed.
  2:{ eapply implements_same; [done| |done..]. simpl. by rewrite Ec, Eb, Hf. }
  unfold mret, M_ret in Ed. rewrite as_i64_id in Ed by lia.
  destruct (decide (f_node f = DevTtyS0)) as [En|En].
  - rewrite En in Ed. destruct (tty_write_spec k buf (Z.to_nat count)) as (k' & E & H1 & H2 & H3 & H4).
    { rewrite Z2Nat.id by lia. by eapply mapped_dom. }
    rewrite E in Ed. unfold implements. simpl. rewrite Ec, Eb, Hf, En, Ed. simpl.
    exists k'. split; [done|]. split_and!; [|done| |by rewrite H2].
    + unfold view, files_of. by rewrite H1, H2, H3.
    + unfold offsets_ok. by rewrite H1.
  - eapply implements_same; [|simpl; rewrite Ec, Eb, Hf, decide_False by done; done|done..].
    etrans; [exact Ed|]. by destruct (f_node f).
Qed.

Lemma call_implements D c k :
  call_ok D c -> offsets_ok k -> dom (memory k) = D -> implements D c k.
Proof.
  destruct c; [apply implements_open|apply implements_close|apply implements_read|apply implements_write].
Qed.

End kernel.

(** C8: The descriptor calls implement the abstract file machine: every sequence of
    [open], [close], [read] and [write] returns the results of the machine,
    errors included, and leaves the open files, the memory and the serial
    output of the machine; the rest of the kernel is untouched.  The calls are
    those that stay off the console and in memory: [read] and [write] name a
    descriptor from 3 up, open or not, and a count below [2^63]; every address
    of a buffer that is not null is mapped, and so are the 256 bytes at a path
    that is not null; descriptors and flags are [i32]s. *)
Theorem files_refine `{Pl : Platform} `{Pr : Profile} (D : gset Z) (k : Kernel) (cs : list FileCall) :
  offsets_ok k -> dom (memory k) = D -> Forall (call_ok D) cs ->
  exists k', call_all cs k = Done (file_run (TICK k) cs (view k)).1 k' /\
    view k' = (file_run (TICK k) cs (view k)).2 /\ rest_of k' = rest_of k.
Proof.
  intros Ho Hd Hcs. revert k Ho Hd. induction Hcs as [|c cs Hc Hcs IH]; intros k Ho Hd;
    cbn [call_all file_run].
  { by exists k. }
  destruct (call_implements D c k Hc Ho Hd) as (k1 & E & Hv & Hr & Ho1 & Hd1).
  destruct (IH k1 Ho1 Hd1) as (k2 & E2 & Hv2 & Hr2).
  assert (TICK k1 = TICK k) as Ht by (unfold rest_of in Hr; congruence).
  rewrite Ht, Hv in *. destruct (file_step (TICK k) c (view k)) as [r s1].
  cbn [fst snd] in *. exists k2. unfold mbind, M_bind. rewrite E, E2.
  destruct (file_run (TICK k) cs s1) as [rs s2]. split_and!; [done..|]. by rewrite Hr2.
Qed.

(** ** A witness *)

#[local] Existing Instance dev.

(** The path ["/proc/version"] at 4096 and the memory after it as a buffer. *)
Definition demo_page : list Z := lit "/proc/version" ++ replicate 400 0.
Definition demo_calls : list FileCall :=
  [Open 4096 0; Read 3 4200 7; Open 4096 1; Read 3 4200 100; Write 3 4200 1; Close 3; Close 3; Read 3 4200 1].
Definition demo_open : Kernel := Demo.kernel [Demo.proc 0 0 Running 0] 0 0 (region 4096 demo_page) [].

Lemma demo_page_mapped a : 4096 <= a < 4500 -> a ∈ dom (region 4096 demo_page).
Proof.
  intros H. apply elem_of_dom. replace a with (4096 + (a - 4096)) by lia.
  apply (mapped_region 4096 demo_page 413); [by vm_compute|lia].
Qed.

Lemma demo_calls_ok D : (forall a, 4096 <= a < 4500 -> a ∈ D) -> Forall (call_ok D) demo_calls.
Proof.
  intros H. unfold demo_calls.
  repeat (apply Forall_cons; split; [cbn; split_and?; try lia; intros; apply H; lia|]). constructor.
Qed.

Lemma files_refine_witness :
  exists k', call_all demo_calls demo_open
    = Done [3; 7; errno Acces; 36; errno Perm; 0; errno BadF; errno BadF] k' /\ files_of k' = ∅.
Proof.
  destruct (files_refine (dom (region 4096 demo_page)) demo_open demo_calls) as (k' & E & Hv & _).
  - constructor.
  - reflexivity.
  - apply demo_calls_ok, demo_page_mapped.
  - exists k'. split.
    + rewrite E. vm_compute. reflexivity.
    + change (files_of k') with (fs_files (view k')). rewrite Hv. vm_compute. reflexivity.
Defined.
