(* ===== verification/Safety.v ===== *)
(** * Safety: system calls and interrupts do not panic

    [ok D k]: the invariant of a running kernel whose mapped memory is [D];
    [safe D m Q]: from such a state [m] never panics, leaves such a state and
    returns values in [Q].  Every system call is safe when the memory its
    pointers name is mapped. *)

From S2P Require Import Prelude RustStr KeyBuffer Mem Vga Kernel Signal Scheduler Keyboard Interrupts Process Syscall Lifecycle Preempt ExitWait Files.

(** The vectors of the two interrupt controllers. *)
Definition irq_vector (v : Z) : Prop := 0x20 <= v < 0x30.

Record ok `{Pl : Platform} (D : gset Z) (k : Kernel) : Prop := {
  ok_writer : Vga.inv (WRITER k);
  ok_bytes : mem_ok (memory k);
  ok_dom : dom (memory k) = D;
  ok_vga : forall i, 0 <= i < 4000 -> VGA_BUFFER_ADDR + i ∈ D;
  ok_ring : KeyRing.inv (KEY_BUFFER k);
  ok_keys : bytes_ok (KeyRing.contents (KEY_BUFFER k));
  ok_irqs : Forall irq_vector (irqs k);
  ok_tick : 0 <= TICK k /\ TICK k + zlen (irqs k) < 2 ^ 64;
}.

(** [n] mapped bytes at [a]. *)
Definition in_dom (D : gset Z) (a n : Z) : Prop := forall i, 0 <= i < n -> a + i ∈ D.

Section safe.
Context `{Pl : Platform} `{Pr : Profile} (D : gset Z).

Definition safe {A} (m : M A) (Q : A -> Prop) : Prop := forall k, ok D k ->
  match m k with
  | Done a k' => ok D k' /\ Q a
  | Panicked _ => False
  | Halted k' | Waiting k' => ok D k'
  end.

Lemma safe_ret {A} (a : A) (Q : A -> Prop) : Q a -> safe (mret a) Q.
Proof. intros Ha k Hk. by split. Qed.

Lemma safe_bind {A B} (m : M A) (f : A -> M B) (P : A -> Prop) (Q : B -> Prop) :
  safe m P -> (forall a, P a -> safe (f a) Q) -> safe (m ≫= f) Q.
Proof.
  intros Hm Hf k Hk. specialize (Hm k Hk). unfold mbind, M_bind.
  destruct (m k); try done. destruct Hm as [Hk' Ha]. by apply Hf.
Qed.

Lemma safe_weaken {A} (m : M A) (P Q : A -> Prop) :
  safe m P -> (forall a, P a -> Q a) -> safe m Q.
Proof.
  intros Hm HPQ k Hk. specialize (Hm k Hk). destruct (m k); naive_solver.
Qed.

Lemma safe_gets {A} (f : Kernel -> A) (Q : A -> Prop) :
  (forall k, ok D k -> Q (f k)) -> safe (gets f) Q.
Proof. intros H k Hk. split; auto. Qed.

Lemma safe_modify (f : Kernel -> Kernel) :
  (forall k, ok D k -> ok D (f k)) -> safe (modify f) (fun _ => True).
Proof. intros H k Hk. split; auto. Qed.

Lemma safe_lift {A} (o : outcome A) (Q : A -> Prop) :
  (exists a, o = Ret a /\ Q a) -> safe (lift o) Q.
Proof. intros (a & -> & Ha) k Hk. by split. Qed.

(** Changes the invariant does not look at. *)
Lemma ok_set_table k t : ok D k -> ok D (set_table t k).
Proof. by intros []; split. Qed.
Lemma ok_set_next_pid k n : ok D k -> ok D (set_next_pid n k).
Proof. by intros []; split. Qed.
Lemma ok_set_current k n : ok D k -> ok D (set_current n k).
Proof. by intros []; split. Qed.
Lemma ok_set_fds k t : ok D k -> ok D (set_fds t k).
Proof. by intros []; split. Qed.
Lemma ok_add_io k e : ok D k -> ok D (add_io e k).
Proof. by intros []; split. Qed.

Lemma ok_set_input k q kb d :
  ok D k -> KeyRing.inv q -> bytes_ok (KeyRing.contents q) -> ok D (set_input q kb d k).
Proof. by intros []; split. Qed.

Lemma ok_set_memory k m :
  ok D k -> mem_ok m -> dom m = D -> ok D (set_screen (WRITER k) m k).
Proof. by intros []; split. Qed.

Lemma ok_mapped k a n : ok D k -> in_dom D a n -> mapped (memory k) a n.
Proof. intros Hk H i Hi. apply elem_of_dom. rewrite (ok_dom _ _ Hk). by apply H. Qed.

End safe.

Create HintDb safe.
#[export] Hint Resolve ok_set_table ok_set_next_pid ok_set_current ok_set_fds ok_add_io : safe.

#[export] Hint Extern 1 (safe _ (modify _) _) => (apply safe_modify; by auto with safe) : safe.

(** One step: a known operation, a bind, or a case split. *)
Ltac safe_step :=
  lazymatch goal with
  | |- forall _, _ => intros ?
  | |- safe _ (mret _) _ => apply safe_ret
  | |- True => exact I
  | |- safe _ (_ ≫= _) _ => eapply safe_bind; [solve [eauto with safe]|simpl]
  | |- safe _ (match ?x with _ => _ end) _ => destruct x eqn:?
  | |- _ => solve [eauto with safe]
  end.

Section ops.
Context `{Pl : Platform} `{Pr : Profile} (D : gset Z).

Lemma safe_gets_any {A} (f : Kernel -> A) : safe D (gets f) (fun _ => True).
Proof. by apply safe_gets. Qed.

Lemma safe_serial_print bs : safe D (serial_print bs) (fun _ => True).
Proof. apply safe_modify. auto with safe. Qed.

Lemma safe_serial_println bs : safe D (serial_println bs) (fun _ => True).
Proof. apply safe_serial_print. Qed.

Lemma safe_read_port p : safe D (read_port p) (fun _ => True).
Proof.
  intros k Hk. unfold read_port. destruct (port_read _ _) as [v d]. split; [|done].
  destruct Hk. by apply ok_set_input.
Qed.

Lemma safe_set_keyboard kb : safe D (set_keyboard kb) (fun _ => True).
Proof. apply safe_modify. intros k Hk. apply ok_set_input; [done|apply Hk..]. Qed.

Definition is_byte (c : option Z) : Prop := from_option is_u8 True c.

Lemma safe_decode s : safe D (decode_scancode s) is_byte.
Proof.
  unfold decode_scancode. eapply safe_bind; [apply safe_gets_any|]. intros kb _.
  destruct (add_byte kb s) as [ev kb1].
  eapply safe_bind; [apply safe_set_keyboard|]. intros _ _.
  destruct ev as [[e|]|]; [|by apply safe_ret..].
  destruct (process_keyevent kb1 e) as [key kb2].
  eapply safe_bind; [apply safe_set_keyboard|]. intros _ _.
  destruct key as [[c|kc]|]; [| |by apply safe_ret];
    (eapply safe_bind; [apply safe_serial_print|]); intros _ _.
  - apply safe_ret. by apply wrap_range.
  - destruct kc; apply safe_ret; by vm_compute.
Qed.

Lemma safe_try_read : safe D try_read_char is_byte.
Proof.
  intros k Hk. unfold try_read_char, mbind, M_bind, gets, lift.
  destruct (KeyRing.pop_spec (KEY_BUFFER k)) as (q' & -> & Hi & Hc); [by apply Hk|].
  pose proof (ok_keys _ _ Hk) as Hb. simpl. split.
  - apply ok_set_input; [done..|]. rewrite Hc. by destruct Hb.
  - by destruct Hb.
Qed.

Lemma safe_poll : safe D poll_char is_byte.
Proof.
  unfold poll_char. eapply safe_bind; [apply safe_read_port|]. intros s _.
  case_match; [by apply safe_ret|].
  eapply safe_bind; [apply safe_read_port|]. intros c _. apply safe_decode.
Qed.

Lemma safe_next_char : safe D next_char is_byte.
Proof.
  unfold next_char. eapply safe_bind; [apply safe_try_read|]. intros [c|] Hc.
  - by apply safe_ret.
  - apply safe_poll.
Qed.

Lemma safe_handle_interrupt : safe D handle_interrupt (fun _ => True).
Proof.
  unfold handle_interrupt. eapply safe_bind; [apply safe_read_port|]. intros s _.
  eapply safe_bind; [apply safe_decode|]. intros [b|] Hb; [|by apply safe_ret].
  intros k Hk. unfold mbind, M_bind, gets, lift.
  destruct (KeyRing.push_spec (KEY_BUFFER k) b) as (q' & -> & Hi & Hc); [by apply Hk|].
  split; [|done]. apply ok_set_input; [done..|]. rewrite Hc.
  pose proof (ok_keys _ _ Hk). case_match; [|done].
  apply Forall_app. split; [done|by constructor].
Qed.

(** ** Interrupts *)

(** A timer tick, with room for it in the tick counter. *)
Lemma tick_ok k :
  ok D k -> TICK k + zlen (irqs k) + 1 < 2 ^ 64 ->
  exists k', tick k = Done tt k' /\ ok D k' /\ TICK k' = TICK k + 1 /\ irqs k' = irqs k.
Proof.
  intros Hk Hb. pose proof (ok_tick _ _ Hk) as [H0 _]. pose proof (zlen_nonneg (irqs k)).
  unfold tick, count_tick, mbind, M_bind, gets, modify, current_pid, gets, add_u.
  rewrite in_width_ok by (split; lia). simpl. rewrite wrap_id by (split; lia).
  unfold dispatch_signals, modify. set (k1 := set_table _ _).
  assert (ok D k1) as Hk1.
  { destruct Hk as [? ? ? ? ? ? ? Ht]. split; try done. simpl. lia. }
  assert (TICK k1 = TICK k + 1 /\ irqs k1 = irqs k) as [Ht1 Hi1] by done.
  case_match; [|by exists k1].
  destruct (schedule_spec k1) as (k2 & -> & Hs & _).
  destruct Hs as (? & ? & Ht & ? & Hq & ? & Hw & Hm & ? & Hi).
  exists k2. split_and!; [done| |congruence..].
  destruct Hk1. split; by rewrite ?Hw, ?Hm, ?Hq, ?Hi, ?Ht.
Qed.

Lemma irq_vector_handler v :
  irq_vector v -> exists i, v = as_vector i /\ forall fr,
    interrupt v fr = match i with
                     | Timer => _ ← tick; notify_end_of_interrupt Timer
                     | Key => _ ← handle_interrupt; notify_end_of_interrupt Key
                     | _ => notify_end_of_interrupt i
                     end.
Proof.
  intros H.
  assert (exists i, v = as_vector i) as [i ->].
  { unfold irq_vector in H. assert (v ∈ seqZ 0x20 16) as Hv by (apply elem_of_seqZ; lia).
    cbv in Hv. repeat (apply elem_of_cons in Hv as [->|Hv];
      [eapply (ex_intro _ _ eq_refl) || idtac|]); [..|by apply not_elem_of_nil in Hv].
    all: first [by exists Timer|by exists Key|by exists Cascade|by exists Com2|by exists Com1_
      |by exists Lpt2|by exists FloppyDisk|by exists Lpt1|by exists RtcTimer|by exists Legacy1
      |by exists Legacy2|by exists Legacy3|by exists Ps2Mouse|by exists FpuCoprocessor
      |by exists PrimaryAta|by exists SecondaryAta]. }
  exists i. split; [done|]. intros fr. by destruct i.
Qed.

Lemma interrupt_ok k v fr :
  ok D k -> irq_vector v -> TICK k + zlen (irqs k) + 1 < 2 ^ 64 ->
  match interrupt v fr k with
  | Done _ k' | Halted k' | Waiting k' => ok D k'
  | Panicked _ => False
  end.
Proof.
  intros Hk Hv Hb. destruct (irq_vector_handler v Hv) as (i & -> & Hi). rewrite Hi.
  destruct i; try (by apply ok_add_io).
  - destruct (tick_ok k) as (k1 & E & Hk1 & _ & Hi1); [done..|].
    unfold mbind, M_bind. rewrite E. by apply ok_add_io.
  - pose proof (safe_handle_interrupt k Hk) as Hh. unfold mbind, M_bind.
    destruct (handle_interrupt k) as [[] k1|k1|k1|k1]; try done. by apply ok_add_io, Hh.
Qed.

Lemma safe_hlt : safe D hlt (fun _ => True).
Proof.
  intros k Hk. unfold hlt. destruct (irqs k) as [|v l] eqn:E; [done|].
  pose proof (ok_irqs _ _ Hk) as Hv. pose proof (ok_tick _ _ Hk) as [H0 Ht].
  rewrite E in Hv, Ht. inversion Hv; subst. rewrite zlen_cons in Ht.
  assert (ok D (set_irqs l k)) as Hk1.
  { destruct Hk. split; try done. simpl. lia. }
  pose proof (interrupt_ok _ v [] Hk1 ltac:(done) ltac:(simpl; lia)) as Hi.
  by destruct (interrupt v [] (set_irqs l k)).
Qed.

Lemma safe_wait_until {A} (body : M (option A)) (Q : A -> Prop) :
  safe D body (fun r => from_option Q True r) -> safe D (wait_until body) Q.
Proof.
  intros Hb k Hk. unfold wait_until. generalize (S (length (irqs k))) as n. intros n.
  revert k Hk. change (safe D (wait_loop n body) Q). induction n as [|n IH]; [by intros k Hk|].
  simpl. eapply safe_bind; [exact Hb|]. intros [a|] Ha; [by apply safe_ret|].
  eapply safe_bind; [apply safe_hlt|]. done.
Qed.

(** ** Memory and the screen *)

Lemma safe_mem_write a bs :
  in_dom D a (zlen bs) -> bytes_ok bs -> safe D (mem_write a bs) (fun _ => True).
Proof.
  intros Ha Hb k Hk. destruct (mem_write_spec k a bs) as (m' & E & _ & Hd & _);
    [by eapply ok_mapped|]. rewrite E. split; [|done]. apply ok_set_memory; [done| |].
  - unfold mem_write in E. destruct (store_list _ _ _) eqn:Es; [|done].
    simplify_eq. eapply store_list_ok; [apply Hk|done|exact Es].
  - rewrite Hd. apply Hk.
Qed.

Lemma load_list_total m a n :
  mapped m a (Z.of_nat n) -> mem_ok m -> exists bs, load_list m a n = Ret bs /\ bytes_ok bs.
Proof.
  revert a. induction n as [|n IH]; intros a Hm Ho; [by exists []|].
  destruct (Hm 0) as [b Hb]; [lia|]. rewrite Z.add_0_r in Hb.
  destruct (IH (a + 1)) as (bs & E & Hbs); [|done|].
  { intros i Hi. replace (a + 1 + i) with (a + (1 + i)) by lia. apply Hm. lia. }
  exists (b :: bs). simpl. rewrite (load8_ret _ _ _ Hb). simpl. rewrite E.
  split; [done|]. constructor; [by eapply Ho|done].
Qed.

Lemma safe_mem_read a n : in_dom D a (Z.of_nat n) -> safe D (mem_read a n) bytes_ok.
Proof.
  intros Ha k Hk. destruct (load_list_total (memory k) a n) as (bs & E & Hb);
    [by eapply ok_mapped|by apply Hk|]. unfold mem_read. by rewrite E.
Qed.

Lemma ok_ready k : ok D k -> Vga.ready (memory k).
Proof.
  intros Hk. split; [|by apply Hk]. eapply ok_mapped; [done|]. exact (ok_vga _ _ Hk).
Qed.

(** A new screen in place of the old one. *)
Lemma ok_set_screen k w m :
  ok D k -> Vga.inv w -> Vga.ready m -> Vga.frame (memory k) m -> ok D (set_screen w m k).
Proof.
  intros [? ? Hd Hv] Hw Hm Hf. split; try done; simpl; [by apply Hm|].
  rewrite <- Hd. apply set_eq. intros a. rewrite !elem_of_dom.
  destruct (decide (VGA_BUFFER_ADDR <= a < VGA_BUFFER_ADDR + 4000)) as [Ha|Ha];
    [|by rewrite (Hf a)]. replace a with (VGA_BUFFER_ADDR + (a - VGA_BUFFER_ADDR)) by lia.
  split; intros _; [|by apply Hm; lia]. apply elem_of_dom. rewrite Hd. apply Hv. lia.
Qed.

Lemma safe_kprint s : safe D (kprint s) (fun _ => True).
Proof.
  intros k Hk. unfold kprint.
  destruct (Vga.write_string_spec (WRITER k) (memory k) s) as (w & m & E & Hw & Hm & Hf & _);
    [by apply Hk|by apply ok_ready|].
  rewrite E. split; [|done]. by apply ok_set_screen.
Qed.

#[local] Hint Resolve safe_gets_any safe_serial_print safe_serial_println safe_read_port
  safe_next_char safe_hlt safe_kprint : safe.

Lemma in_dom_le a n n' : in_dom D a n -> n' <= n -> in_dom D a n'.
Proof. intros H ? i ?. apply H. lia. Qed.

Lemma in_dom_shift a b n n' : in_dom D a n -> 0 <= b -> b + n' <= n -> in_dom D (a + b) n'.
Proof. intros H ? ? i ?. rewrite <- Z.add_assoc. apply H. lia. Qed.

(** ** The sections of the calls *)

Lemma safe_current_is_zombie : safe D current_is_zombie (fun _ => True).
Proof. unfold current_is_zombie, current_pid. repeat safe_step. Qed.

Lemma fmt_dec_bytes n : bytes_ok (fmt_dec n).
Proof.
  unfold fmt_dec. assert (bytes_ok []) as H by constructor. revert H.
  generalize ([] : list Z) (S (Z.to_nat (Z.log2 n))). intros acc fuel. revert n acc.
  induction fuel as [|fuel IH]; intros n acc H; simpl; [done|].
  assert (bytes_ok (48 + n `mod` 10 :: acc)).
  { constructor; [|done]. pose proof (Z.mod_pos_bound n 10 ltac:(lia)). split; lia. }
  case_match; auto.
Qed.

Lemma content_bytes t n text : content t n = Some text -> bytes_ok text.
Proof.
  destruct n; intros [= <-]; try (by repeat constructor).
  unfold uptime_text. rewrite !Forall_app. repeat split; try apply fmt_dec_bytes;
    try apply lit_bytes. by repeat constructor.
Qed.

Lemma safe_read_static buf count offset text :
  0 <= count -> in_dom D buf count -> bytes_ok text ->
  safe D (read_static buf count offset text) (fun _ => True).
Proof.
  intros Hc Hd Ht. unfold read_static.
  eapply safe_bind; [apply safe_mem_write|by intros; apply safe_ret].
  - eapply in_dom_le; [exact Hd|]. unfold static_bytes. case_match; [done|].
    unfold zlen. rewrite length_take. lia.
  - unfold static_bytes. case_match; [constructor|]. by apply Forall_take, Forall_drop.
Qed.

(** A descriptor whose table index does not underflow. *)
Lemma safe_fd_lookup fd :
  - 2 ^ 31 <= fd < 2 ^ 31 -> ~ 0 <= fd < 3 -> safe D (fd_lookup fd) (fun _ => True).
Proof.
  intros H1 H2. unfold fd_lookup. eapply (safe_bind _ _ _ (fun _ => True)).
  - apply safe_lift. exists (as_u64 fd - 3). split; [|exact I]. unfold sub_u.
    apply in_width_ok. pose proof (wrap_range 64 fd ltac:(lia)) as [? ?].
    split; [|lia]. unfold wrap in *. destruct (decide (fd < 0)).
    + rewrite <- (Z.mod_add fd 1), Z.mod_small by lia. lia.
    + rewrite Z.mod_small by lia. lia.
  - intros i _. eapply safe_bind; [apply safe_gets_any|]. intros. by apply safe_ret.
Qed.

Lemma safe_user_cstr path :
  path <> 0 -> in_dom D path 256 -> safe D (user_cstr path) (fun _ => True).
Proof.
  intros H0 Hd k Hk. unfold user_cstr, mbind, M_bind, gets, lift, read_user_cstr.
  rewrite (proj2 (Z.eqb_neq _ _) H0). apply (ok_mapped D k) in Hd; [|done].
  assert (exists r, read_cstr (memory k) path 256 [] = Ret r) as [r ->]; [|by split].
  change 256 with (Z.of_nat 256) in Hd. revert Hd. generalize ([] : list Z) 256%nat.
  clear H0. intros acc n. revert path acc.
  induction n as [|n IH]; intros a acc Hd; simpl; [by eexists|].
  destruct (Hd 0) as [b Hb]; [lia|]. rewrite Z.add_0_r in Hb.
  rewrite (load8_ret _ _ _ Hb). simpl. case_match; [by eexists|]. apply IH.
  intros i Hi. rewrite <- Z.add_assoc. apply Hd. lia.
Qed.

Lemma safe_fd_install file : safe D (fd_install file) (fun _ => True).
Proof. unfold fd_install. repeat safe_step. Qed.

Lemma safe_fork : safe D sys_fork (fun _ => True).
Proof.
  intros k Hk. unfold sys_fork, mbind, M_bind. pose proof (fork_spec k) as E.
  destruct (find_proc _ _); rewrite E; split; auto with safe.
Qed.

Lemma safe_execve path : safe D (execve path) (fun _ => True).
Proof. unfold execve, current_pid. repeat safe_step. Qed.

Lemma safe_schedule : safe D schedule (fun _ => True).
Proof.
  intros k Hk. destruct (schedule_spec k) as (k' & -> & Hs & _).
  destruct Hs as (? & ? & Ht & ? & Hq & ? & Hw & Hm & ? & Hi). split; [|done].
  destruct Hk. split; by rewrite ?Hw, ?Hm, ?Hq, ?Hi, ?Ht.
Qed.

Lemma safe_exit_mark code : safe D (exit_mark code) (fun _ => True).
Proof. unfold exit_mark, current_pid. repeat safe_step. Qed.

Lemma safe_waitpid_poll target : safe D (waitpid_poll target) (fun _ => True).
Proof. unfold waitpid_poll, current_pid. repeat safe_step. Qed.

Lemma le32_bytes v : bytes_ok (le32 v).
Proof. repeat constructor; apply Z.mod_pos_bound; lia. Qed.

Lemma safe_sys_kill pid sig : safe D (sys_kill pid sig) (fun _ => True).
Proof.
  unfold sys_kill. eapply (safe_bind _ _ _ (fun _ => True)); [|by intros; apply safe_ret].
  intros k Hk. unfold kill.
  destruct (sig >? 31), (find_proc pid (PROCESS_TABLE k)), (sig =? 0); simpl; auto with safe.
Qed.

Lemma as_i32_range z : - 2 ^ 31 <= as_i32 z < 2 ^ 31.
Proof.
  unfold as_signed. pose proof (wrap_range 32 z ltac:(lia)) as [? ?].
  destruct (Z.ltb_spec (wrap 32 z) (2 ^ (32 - 1))); lia.
Qed.

(** The memory a system call's pointers name is mapped, a pointer to a status
    is aligned where that is checked, and the call does not read descriptor 1
    or 2 or write descriptor 0. *)
Definition frame_ok (f : SyscallFrame) : Prop :=
  is_u64 (rdx f) /\
  (num f = SYS_READ -> rdx f <> 0 -> rsi f <> 0 ->
     as_i32 (rdi f) <> 1 /\ as_i32 (rdi f) <> 2 /\ in_dom D (rsi f) (rdx f)) /\
  (num f = SYS_WRITE -> rdx f <> 0 -> rsi f <> 0 ->
     as_i32 (rdi f) <> 0 /\ in_dom D (rsi f) (rdx f)) /\
  (num f = SYS_OPEN \/ num f = SYS_EXECVE -> rdi f <> 0 -> in_dom D (rdi f) 256) /\
  (num f = SYS_WAIT4 -> rsi f <> 0 -> in_dom D (rsi f) 4 /\ aligned 4 (rsi f)).

End ops.

#[export] Hint Resolve safe_gets_any safe_serial_print safe_serial_println safe_try_read
  safe_poll safe_kprint safe_current_is_zombie safe_fd_install safe_fork safe_execve
  safe_schedule safe_exit_mark safe_waitpid_poll safe_sys_kill : safe.

(** ** Interrupts are served and acknowledged *)

Section eoi.
Context `{Pl : Platform} `{Pr : Profile}.

(** The end-of-interrupt commands sent so far. *)
Definition eois (k : Kernel) : list Z :=
  omap (fun e => match e with Eoi v => Some v | _ => None end) (trace k).

Definition same_eois (k k' : Kernel) : Prop := eois k' = eois k.

#[local] Instance same_eois_preorder : PreOrder same_eois.
Proof. split; unfold same_eois; [by intros ?|]. intros ???. congruence. Qed.

#[local] Hint Extern 1 (same_eois _ _) => reflexivity : moves.

Lemma eois_com1 bs : moves same_eois (serial_print bs).
Proof. intros k. unfold same_eois, eois. simpl. by rewrite omap_app, app_nil_r. Qed.
Lemma eois_println bs : moves same_eois (serial_println bs).
Proof. apply eois_com1. Qed.
Lemma eois_read_port p : moves same_eois (read_port p).
Proof. intros k. unfold read_port. by case_match. Qed.
Lemma eois_gets {A} (f : Kernel -> A) : moves same_eois (gets f).
Proof. by apply moves_same; [apply _|]. Qed.
Lemma eois_lift {A} (o : outcome A) : moves same_eois (lift o).
Proof. apply moves_same; [apply _|]. intros k. by destruct o. Qed.
Lemma eois_ret {A} (a : A) : moves same_eois (mret a).
Proof. by apply moves_same; [apply _|]. Qed.
#[local] Hint Resolve eois_com1 eois_println eois_read_port eois_gets eois_lift eois_ret : moves.

Lemma eois_handle_interrupt : moves same_eois handle_interrupt.
Proof. unfold handle_interrupt, decode_scancode, set_key_buffer, set_keyboard. walk. Qed.

Lemma eois_tick : moves same_eois tick.
Proof. unfold tick, count_tick, dispatch_signals, schedule, current_pid. walk. Qed.

(** A computation that does not stop or wait. *)
Definition prompt {A} (m : M A) : Prop := forall k,
  match m k with Done _ _ | Panicked _ => True | _ => False end.

Lemma prompt_bind {A B} (m : M A) (f : A -> M B) :
  prompt m -> (forall a, prompt (f a)) -> prompt (m ≫= f).
Proof.
  intros Hm Hf k. unfold mbind, M_bind. specialize (Hm k). destruct (m k); try done. apply Hf.
Qed.

Lemma prompt_handle_interrupt : prompt handle_interrupt.
Proof.
  unfold handle_interrupt, decode_scancode, set_keyboard.
  apply prompt_bind; [intros k; unfold read_port; by destruct (port_read (devices k) _)|].
  intros s. apply prompt_bind.
  - apply prompt_bind; [done|]. intros kb. destruct (add_byte kb s) as [ev kb1].
    apply prompt_bind; [done|]. intros _. destruct ev as [[e|]|]; [|done..].
    destruct (process_keyevent kb1 e) as [key kb2]. apply prompt_bind; [done|]. intros _.
    destruct key as [[c|kc]|]; [| |done]; (apply prompt_bind; [done|]); intros _; [done|].
    by destruct kc.
  - intros [b|]; [|done]. apply prompt_bind; [done|]. intros q.
    apply prompt_bind; [intros k; unfold lift; by destruct (KeyRing.push q b)|]. done.
Qed.

(** An interrupt is served to its end and takes at most one tick. *)
Lemma interrupt_served (D : gset Z) (k : Kernel) (v : Z) (fr : list Z) :
  ok D k -> irq_vector v -> TICK k + zlen (irqs k) + 1 < 2 ^ 64 ->
  exists k', interrupt v fr k = Done tt k' /\ ok D k' /\ eois k' = eois k ++ [v] /\
    TICK k <= TICK k' <= TICK k + 1 /\ irqs k' = irqs k.
Proof.
  intros Hk Hv Hb. pose proof (interrupt_ok D k v fr Hk Hv Hb) as Hok.
  destruct (irq_vector_handler v Hv) as (i & -> & Hi). rewrite Hi in *.
  assert (forall k1 i, eois (add_io (Eoi (as_vector i)) k1) = eois k1 ++ [as_vector i]) as He.
  { intros k1 j. unfold eois. simpl. by rewrite omap_app. }
  destruct i; try (eexists; split_and!; [done|exact Hok|apply He|simpl; lia..|done]).
  - destruct (tick_ok D k) as (k1 & E & _ & Ht & Hirq); [done..|].
    pose proof (eois_tick k) as Hq. unfold mbind, M_bind, same_eois in *. rewrite E in *.
    eexists. split_and!; [done|exact Hok| |simpl; lia..|done]. simpl in Hq. by rewrite He, Hq.
  - pose proof (eois_handle_interrupt k) as Hq. pose proof (prompt_handle_interrupt k) as Hp.
    pose proof (moves_handle_interrupt same_time k) as Ht.
    pose proof (moves_handle_interrupt same_irqs k) as Hirq.
    unfold mbind, M_bind, same_eois, same_time, same_irqs in *.
    destruct (handle_interrupt k) as [[] k1|k1|k1|k1]; try done. destruct Ht as [Ht _].
    eexists. split_and!; [done|exact Hok| |simpl in *; lia..|done]. simpl in Hq. by rewrite He, Hq.
Qed.

(** C25: Every interrupt of the two controllers (vectors 0x20 to 0x2F) is served
    without a panic, keeps the kernel's invariant, and is acknowledged exactly
    once, with its own vector. *)
Theorem irq_acknowledged (D : gset Z) (k : Kernel) (v : Z) (fr : list Z) :
  ok D k -> irq_vector v -> TICK k + zlen (irqs k) + 1 < 2 ^ 64 ->
  exists k', interrupt v fr k = Done tt k' /\ ok D k' /\ eois k' = eois k ++ [v].
Proof.
  intros Hk Hv Hb. destruct (interrupt_served D k v fr) as (k' & ? & ? & ? & _); [done..|].
  by exists k'.
Qed.

(** CPU exceptions (vectors 0 to 31): debug and breakpoint are logged on the
    serial line and the interrupted code goes on; every other one, the
    vectors without a handler included, stops the kernel with a panic. *)
Theorem exceptions_stop (k : Kernel) (v : Z) (fr : list Z) :
  0 <= v < 32 ->
  interrupt v fr k =
    if v =? 1 then Done tt (add_io (Com1 (lit "EXCEPTION: DEBUG" ++ [10] ++ fr ++ [10])) k)
    else if v =? 3 then Done tt (add_io (Com1 (lit "EXCEPTION: BREAKPOINT" ++ [10] ++ fr ++ [10])) k)
    else Panicked k.
Proof.
  intros H. assert (v ∈ seqZ 0 32) as Hv by (apply elem_of_seqZ; lia). clear H.
  cbv in Hv. repeat (apply elem_of_cons in Hv as [->|Hv]; [done|]).
  by apply not_elem_of_nil in Hv.
Qed.

End eoi.

(** ** Witnesses *)

#[local] Existing Instance dev.

(** The text buffer, a string at 8192 and two pending interrupts. *)
Definition demo_memory : mem :=
  region VGA_BUFFER_ADDR (replicate 4000 0) ∪ region 8192 (lit "hello").

Definition demo_running : Kernel :=
  Demo.kernel [Demo.proc 0 0 Running 0] 0 9 demo_memory [0x20; 0x21].

Lemma demo_mapped a bs i :
  0 <= i < zlen bs -> (a = VGA_BUFFER_ADDR /\ bs = replicate 4000 0) \/ (a = 8192 /\ bs = lit "hello") ->
  a + i ∈ dom demo_memory.
Proof.
  intros Hi Ha. unfold demo_memory. rewrite dom_union. apply elem_of_union.
  destruct Ha as [[-> ->]|[-> ->]]; [left|right]; apply elem_of_dom;
    apply (mapped_region _ _ _ (Z.le_refl _)); done.
Qed.

#[local] Opaque demo_memory.

Lemma demo_running_ok : ok (dom demo_memory) demo_running.
Proof.
  split; [apply Vga.initial_inv| |done| |by split|constructor|repeat constructor; done|by vm_compute].
  - intros a v. simpl. with_strategy transparent [demo_memory] unfold demo_memory.
    intros Hv. apply lookup_union_Some_raw in Hv as [Hv|[_ Hv]].
    + refine (mem_ok_region VGA_BUFFER_ADDR (replicate 4000 0) _ a v Hv).
      clear. by apply Forall_replicate.
    + exact (mem_ok_region 8192 (lit "hello") (lit_bytes _) a v Hv).
  - intros i Hi. apply (demo_mapped _ (replicate 4000 0)); [|by left].
    by unfold zlen; rewrite length_replicate.
Qed.

Lemma irq_acknowledged_witness :
  exists k', interrupt 0x20 [] demo_running = Done tt k' /\ eois k' = [0x20].
Proof.
  destruct (irq_acknowledged (dom demo_memory) demo_running 0x20 []) as (k' & E & _ & He).
  - apply demo_running_ok.
  - done.
  - by vm_compute.
  - exists k'. exact (conj E He).
Defined.

Lemma exceptions_stop_witness : interrupt 14 [] demo_running = Panicked demo_running.
Proof. apply (exceptions_stop demo_running 14 []). lia. Defined.
