(* ===== verification/SafeCalls.v ===== *)
(** * System calls do not panic, however they are preempted

    A task is guarded when each of its sections is safe ([Safety.v]) for the
    values the sections before it can return; what a section learnt of the
    state is never relied on later.  Interrupts and changes of the devices
    keep the invariant, so that a guarded task never panics. *)

From S2P Require Import Prelude RustStr KeyBuffer Mem Vga Kernel Signal Scheduler Keyboard Interrupts Process Syscall Lifecycle Preempt ExitWait Files Safety.

Section guarded.
Context `{Pl : Platform} `{Pr : Profile} (D : gset Z).

Inductive guarded : forall A, (A -> Prop) -> task A -> Prop :=
| g_return A (Q : A -> Prop) a : Q a -> guarded A Q (Return a)
| g_stop A (Q : A -> Prop) : guarded A Q Stop
| g_spin A (Q : A -> Prop) : guarded A Q Spin
| g_section A (Q : A -> Prop) X (P : X -> Prop) (m : M X) next :
    safe D m P -> (forall x, P x -> guarded A Q (next x)) -> guarded A Q (Atomic m next)
| g_locked A (Q : A -> Prop) X (P : X -> Prop) (m : M X) next :
    safe D m P -> (forall x, P x -> guarded A Q (next x)) -> guarded A Q (Locked m next)
| g_sleep A (Q : A -> Prop) t : guarded A Q t -> guarded A Q (Sleep t)
| g_loop A (Q : A -> Prop) X (P : X -> Prop) body next :
    guarded (option X) (from_option P True) body -> (forall x, P x -> guarded A Q (next x)) ->
    guarded A Q (Loop body next).

Lemma guarded_chain {A B} (P : A -> Prop) (Q : B -> Prop) (t : task A) (f : A -> task B) :
  guarded A P t -> (forall a, P a -> guarded B Q (f a)) -> guarded B Q (chain t f).
Proof.
  induction 1 as [| | |A P X R m next Hm Hn IH|A P X R m next Hm Hn IH| |A P X R body next Hb _ Hn IH];
    intros Hf; simpl; auto using g_stop, g_spin, g_sleep.
  - eapply g_section; [done|auto].
  - eapply g_locked; [done|auto].
  - eapply g_loop; [done|auto].
Qed.

(** A section after which anything may follow. *)
Lemma g_any {A X} (Q : A -> Prop) (m : M X) next :
  safe D m (fun _ => True) -> (forall x, guarded A Q (next x)) -> guarded A Q (Atomic m next).
Proof. intros Hm Hn. eapply g_section; [exact Hm|auto]. Qed.

Lemma g_held {A X} (Q : A -> Prop) (m : M X) next :
  safe D m (fun _ => True) -> (forall x, guarded A Q (next x)) -> guarded A Q (Locked m next).
Proof. intros Hm Hn. eapply g_locked; [exact Hm|auto]. Qed.

(** ** Guarded tasks do not panic *)

(** A section, held or not. *)
Lemma guarded_section {A X} (Q : A -> Prop) (P : X -> Prop) (m : M X) next k :
  safe D m P -> (forall x, P x -> guarded A Q (next x)) -> ok D k ->
  exists t' k', resume (Atomic m next) k = Some (t', k') /\ ok D k' /\ guarded A Q t'.
Proof.
  intros Hm Hn Hk. specialize (Hm k Hk). cbn [resume]. destruct (m k) as [x k'|k'|k'|k']; [|done|..].
  - destruct Hm. eexists _, _. split_and!; auto.
  - eexists _, _. by split_and!; eauto using g_stop.
  - eexists _, _. by split_and!; eauto using g_stop.
Qed.

Lemma guarded_resume {A} (Q : A -> Prop) t k :
  guarded A Q t -> ok D k -> exists t' k', resume t k = Some (t', k') /\ ok D k' /\ guarded A Q t'.
Proof.
  destruct 1 as [A Q a Ha|A Q|A Q|A Q X P m next Hm Hn|A Q X P m next Hm Hn|A Q t Ht|A Q X P body next Hb Hn];
    intros Hk; try (by eapply guarded_section);
    cbn [resume]; try (eexists _, _; by split_and!; eauto using g_return, g_stop, g_spin, g_sleep).
  - eexists _, _. split_and!; [done..|]. eapply guarded_chain; [exact Hb|].
    intros [x|] Hx; [by apply Hn|]. apply g_sleep. by eapply g_loop.
Qed.

Lemma guarded_wake {A} (Q : A -> Prop) e t : guarded A Q t -> guarded A Q (wake e t).
Proof. destruct 1; destruct e; simpl; done || by econstructor. Qed.

(** The interrupts of the two controllers. *)
Definition event_ok (e : event) : Prop := match e with Irq v => irq_vector v | _ => True end.

Lemma interfere_ok e k :
  event_ok e -> ok D k -> TICK k + zlen (irqs k) + 1 < 2 ^ 64 ->
  exists k', interfere e k = Done tt k' /\ ok D k' /\ TICK k' <= TICK k + 1 /\ irqs k' = irqs k.
Proof.
  intros He Hk Hb. destruct e as [|v|d]; simpl.
  - exists k. split_and!; done || lia.
  - destruct (interrupt_served D k v []) as (k' & ? & ? & _ & ? & ?); [done..|].
    exists k'. split_and!; done || lia.
  - eexists. split_and!; [done| |simpl; lia|done]. destruct Hk. by apply ok_set_input.
Qed.

(** The timer handler up to the lock. *)
Lemma count_tick_ok k :
  ok D k -> TICK k + zlen (irqs k) + 1 < 2 ^ 64 ->
  exists n k', count_tick k = Done n k' /\ ok D k' /\ TICK k' = TICK k + 1 /\ irqs k' = irqs k.
Proof.
  intros Hk Hb. pose proof (zlen_nonneg (irqs k)). pose proof (ok_tick _ _ Hk).
  unfold count_tick, mbind, M_bind, gets, modify, add_u. rewrite in_width_ok by (split; lia).
  rewrite wrap_id by (split; lia). do 2 eexists. split; [done|]. split_and!; [|done|done].
  destruct Hk. split; try done. simpl. lia.
Qed.

(** An event from outside keeps a guarded task going. *)
Lemma guarded_outside {A} (Q : A -> Prop) e t k :
  guarded A Q t -> calm same_time t -> e <> Run -> event_ok e -> ok D k ->
  TICK k + zlen (irqs k) + 1 < 2 ^ 64 ->
  exists t' k', advance e t k = Some (t', k') /\ ok D k' /\ TICK k' <= TICK k + 1 /\
    irqs k' = irqs k /\ guarded A Q t' /\ calm same_time t'.
Proof.
  intros Ht Hc Hne He Hk Hb.
  destruct (interfere_ok e k He Hk Hb) as (k1 & E & Hk1 & Hti & Hir).
  assert (served e t k = Some (wake e t, k1)) as Es by (unfold served; by rewrite E).
  pose proof (guarded_wake Q e t Ht). pose proof (calm_wake same_time e t Hc).
  destruct (exposed t) eqn:Hx; [|rewrite advance_served by done; eauto 10].
  destruct (count_tick_ok k Hk Hb) as (n & k2 & Ec & Hk2 & Hti2 & Hir2).
  destruct e as [|v|d]; [done| |cbn [advance]; rewrite Es; eauto 10].
  destruct t; try done; cbn [advance].
  - exists Spin, k. split_and!; try done; [lia|constructor..].
  - case_match; [|rewrite Es; eauto 10]. rewrite Ec. exists Spin, k2.
    split_and!; try done; [lia|constructor..].
Qed.

Lemma guarded_run {A} (Q : A -> Prop) es t k :
  guarded A Q t -> calm same_time t -> ok D k -> Forall event_ok es ->
  TICK k + zlen (irqs k) + zlen es < 2 ^ 64 ->
  exists t' k', run es t k = Some (t', k') /\ ok D k' /\ guarded A Q t'.
Proof.
  revert t k. induction es as [|e es IH]; intros t k Ht Hc Hk He Hb; cbn [run].
  { eexists _, _. by split_and!. }
  inversion He as [|? ? He1 He2]; subst. rewrite zlen_cons in Hb.
  destruct (decide (e = Run)) as [->|Hne].
  - destruct (guarded_resume Q t k) as (t1 & k1 & E & Hk1 & Ht1); [done..|].
    cbn [advance]. rewrite E. destruct (calm_resume same_time t t1 k k1) as [[Hti Hir] Hc1]; [done..|].
    apply IH; try done. unfold zlen in *. lia.
  - destruct (guarded_outside Q e t k) as (t1 & k1 & -> & Hk1 & Hti & Hir & Ht1 & Hc1); [done..| |].
    { pose proof (zlen_nonneg es). lia. }
    apply IH; try done. rewrite Hir. lia.
Qed.

(** Run without a break, a guarded task is safe. *)
Lemma guarded_collapse {A} (Q : A -> Prop) t : guarded A Q t -> safe D (collapse t) Q.
Proof.
  induction 1 as [| | |A Q X P m next Hm Hn IH|A Q X P m next Hm Hn IH|A Q t Ht IH|A Q X P body next Hb IHb Hn IH];
    simpl.
  - by apply safe_ret.
  - by intros k Hk.
  - by intros k Hk.
  - eapply safe_bind; [exact Hm|done].
  - eapply safe_bind; [exact Hm|done].
  - eapply safe_bind; [apply safe_hlt|done].
  - eapply safe_bind; [apply safe_wait_until, IHb|done].
Qed.

End guarded.

Arguments guarded {Pl} D {A}.
Create HintDb guarded.
#[export] Hint Resolve g_return g_stop : guarded.

(** Sections that are safe whatever came before, returns and case splits. *)
Ltac watch :=
  repeat first
    [ solve [eauto with guarded]
    | apply g_any; [solve [eauto with safe]|intros ?]
    | apply g_held; [solve [eauto with safe]|intros ?]
    | progress case_match ].

Section calls.
Context `{Pl : Platform} `{Pr : Profile} (D : gset Z).
#[local] Notation any := (fun _ => True).

Lemma g_write {A} (Q : A -> Prop) a bs next :
  in_dom D a (zlen bs) -> bytes_ok bs -> guarded D Q (next tt) ->
  guarded D Q (Atomic (mem_write a bs) next).
Proof. intros Ha Hb Hn. apply g_any; [by apply safe_mem_write|]. by intros []. Qed.

Lemma safe_lock_table : safe D lock_table any.
Proof. by apply safe_ret. Qed.
#[local] Hint Resolve safe_lock_table : safe.

Lemma guarded_next_char : guarded D is_byte next_char_task.
Proof.
  unfold next_char_task. eapply g_section; [apply safe_try_read|]. intros [c|] Hc.
  - by apply g_return.
  - eapply g_section; [apply safe_poll|]. intros c' Hc'. by apply g_return.
Qed.

Lemma guarded_read_more n buf read :
  0 <= read -> in_dom D buf (read + Z.of_nat n) -> guarded D any (read_more_task n buf read).
Proof.
  revert read. induction n as [|n IH]; intros read Hr Hd; cbn [read_more_task]; [by apply g_return|].
  eapply guarded_chain; [apply guarded_next_char|]. intros [ch|] Hch; [|by apply g_return].
  apply g_write; [|by constructor|].
  - eapply in_dom_shift; [exact Hd|done|]. unfold zlen. simpl. lia.
  - case_match; [by apply g_return|]. apply IH; [lia|]. eapply in_dom_le; [exact Hd|lia].
Qed.

Lemma guarded_read_console buf count :
  0 < count -> in_dom D buf count -> guarded D any (read_console_task buf count).
Proof.
  intros Hc Hd. unfold read_console_task. eapply (guarded_chain D is_byte).
  - eapply (g_loop D _ _ _ is_byte); [|by intros; apply g_return].
    apply g_any; [apply safe_current_is_zombie|]. intros [|]; [by apply g_return|].
    eapply guarded_chain; [apply guarded_next_char|]. intros [c|] Hch; by apply g_return.
  - intros [ch|] Hch; [|by apply g_return]. apply g_write; [|by constructor|].
    + eapply in_dom_le; [exact Hd|]. unfold zlen. simpl. lia.
    + eapply guarded_chain; [apply guarded_read_more; [lia|]|by intros; apply g_return].
      eapply in_dom_le; [exact Hd|lia].
Qed.

Lemma guarded_read_node node buf count offset :
  0 <= count -> in_dom D buf count -> guarded D any (read_node_task node buf count offset).
Proof.
  intros Hc Hd.
  assert (forall text, bytes_ok text -> safe D (read_static buf count offset text) any) as Hs
    by (intros; by apply safe_read_static).
  assert (in_dom D buf (zlen (replicate (Z.to_nat count) 0))) as Hz
    by (unfold zlen; by rewrite length_replicate, Z2Nat.id).
  destruct node; simpl; try (by apply g_return);
    try (apply g_any; [apply Hs; by repeat constructor|by intros; apply g_return]);
    try (apply g_write; [done|by apply Forall_replicate|by apply g_return]).
  apply g_any; [apply safe_gets_any|]. intros t.
  apply g_any; [by apply Hs, (content_bytes t ProcUptime)|by intros; apply g_return].
Qed.

Lemma guarded_sys_read fd buf count :
  0 <= count -> - 2 ^ 31 <= fd < 2 ^ 31 ->
  (count <> 0 -> buf <> 0 -> fd <> 1 /\ fd <> 2 /\ in_dom D buf count) ->
  guarded D any (sys_read_task fd buf count).
Proof.
  intros Hc Hfd H. unfold sys_read_task.
  destruct (Z.eqb_spec count 0); [by apply g_return|].
  destruct (Z.eqb_spec buf 0); [by apply g_return|].
  destruct H as (? & ? & Hd); [done..|].
  destruct (Z.eqb_spec fd 0); [apply guarded_read_console; [lia|done]|].
  apply g_any; [apply safe_fd_lookup; lia|]. intros [[i file]|]; [|by apply g_return].
  eapply guarded_chain; [by apply guarded_read_node|]. intros n' _. watch.
Qed.

Lemma guarded_tty_write n a : in_dom D a (Z.of_nat n) -> guarded D any (tty_write_task n a).
Proof.
  revert a. induction n as [|n IH]; intros a Hd; simpl; [by apply g_return|].
  eapply g_section; [apply safe_mem_read; eapply in_dom_le; [exact Hd|lia]|]. intros bs _.
  apply g_any; [apply safe_serial_print|]. intros _. apply IH.
  eapply in_dom_shift; [exact Hd|lia..].
Qed.

Lemma guarded_sys_write fd buf count :
  0 <= count -> - 2 ^ 31 <= fd < 2 ^ 31 ->
  (count <> 0 -> buf <> 0 -> fd <> 0 /\ in_dom D buf count) ->
  guarded D any (sys_write_task fd buf count).
Proof.
  intros Hc Hfd H. unfold sys_write_task.
  destruct (Z.eqb_spec count 0); [by apply g_return|].
  destruct (Z.eqb_spec buf 0); [by apply g_return|].
  destruct H as (? & Hd); [done..|]. rewrite <- (Z2Nat.id count Hc) in Hd.
  destruct ((fd =? 1) || (fd =? 2)) eqn:E.
  - eapply g_section; [by apply safe_mem_read|]. intros bs _. watch.
  - apply orb_false_iff in E as [?%Z.eqb_neq ?%Z.eqb_neq].
    apply g_any; [apply safe_fd_lookup; lia|]. intros [[i file]|]; [|by apply g_return].
    destruct (f_node file); try (by apply g_return).
    eapply guarded_chain; [by apply guarded_tty_write|]. intros. by apply g_return.
Qed.

Lemma guarded_sys_open path flags :
  (path <> 0 -> in_dom D path 256) -> guarded D any (sys_open_task path flags).
Proof.
  intros H. unfold sys_open_task. destruct (Z.eqb_spec path 0); [by apply g_return|].
  apply g_any; [apply safe_user_cstr; auto|]. intros [p|]; watch.
Qed.

Lemma guarded_sys_close fd : - 2 ^ 31 <= fd < 2 ^ 31 -> guarded D any (sys_close_task fd).
Proof.
  intros H. unfold sys_close_task. destruct (Z.ltb_spec fd 3); [by apply g_return|].
  apply g_any; [apply safe_fd_lookup; lia|]. intros [[i f]|]; watch.
Qed.

Lemma guarded_sys_execve path :
  (path <> 0 -> in_dom D path 256) -> guarded D any (sys_execve_task path).
Proof.
  intros H. unfold sys_execve_task. destruct (Z.eqb_spec path 0); [by apply g_return|].
  apply g_any; [apply safe_user_cstr; auto|]. intros [p|]; watch.
Qed.

Lemma guarded_sys_exit code : guarded D any (sys_exit_task code).
Proof.
  unfold sys_exit_task, getpid, current_pid, force_schedule. watch.
Qed.

Lemma guarded_sys_wait4 pid status :
  (status <> 0 -> in_dom D status 4 /\ aligned 4 status) -> guarded D any (sys_wait4_task pid status).
Proof.
  intros H. unfold sys_wait4_task. eapply (guarded_chain D any).
  - eapply (g_loop D _ _ _ any); [|by intros; apply g_return].
    apply g_any; [apply safe_waitpid_poll|]. intros [[x|]|]; by apply g_return.
  - intros [[c code]|] _; [|by apply g_return].
    destruct (Z.eqb_spec status 0); [by apply g_return|].
    destruct H as [Hd Ha]; [done|]. rewrite store_i32_aligned by done.
    apply g_write; [done|apply le32_bytes|by apply g_return].
Qed.

Lemma guarded_dispatch f : frame_ok D f -> guarded D any (dispatch_task f).
Proof.
  intros ([Hc _] & Hr & Hw & Hp & Hs). pose proof (as_i32_range (rdi f)) as Hfd.
  unfold dispatch_task, one_section, sys_getpid, sys_getppid, getpid, current_pid.
  repeat match goal with |- context [Z.eqb (num f) ?n] => destruct (Z.eqb_spec (num f) n) end;
    simpl; try (by apply g_return); try apply guarded_sys_exit.
  - apply guarded_sys_read; auto.
  - apply guarded_sys_write; auto.
  - apply guarded_sys_open; auto.
  - by apply guarded_sys_close.
  - watch.
  - watch.
  - apply guarded_sys_execve; auto.
  - apply guarded_sys_wait4; auto.
  - watch.
  - apply g_any; [apply safe_lock_table|intros _].
    apply g_held; [|by intros; apply g_return]. unfold sys_getppid, getpid, current_pid. repeat safe_step.
Qed.

Lemma same_time_dispatch f : calm same_time (dispatch_task f).
Proof.
  destruct (decide (num f = SYS_FORK)) as [Hf|Hf]; [|by apply calm_dispatch; [apply _|]].
  unfold dispatch_task. rewrite Hf. simpl. constructor; [|by constructor].
  intros k. unfold sys_fork, mbind, M_bind. pose proof (fork_spec k) as E.
  by destruct (find_proc _ _); rewrite E.
Qed.

End calls.

(** C1: System calls do not panic, however they are preempted: in a running
    kernel (screen, keyboard ring and memory well formed, only controller
    interrupts pending, the tick counter not about to overflow), a system call
    with any number and arguments, interrupted between any two of its sections
    by any interrupts of the controllers and any changes of the devices, never
    panics, and at every moment the kernel is in such a state again.  This is
    under five conditions: the memory a pointer of the call names is mapped
    (256 bytes for a path), the status pointer of [wait4] is aligned where the
    build checks it, [read] is not of descriptor 1 or 2, [write] is not to
    descriptor 0, and no allocation of the call fails. *)
Theorem preempted_calls_safe `{Pl : Platform} `{Pr : Profile} (D : gset Z) (k : Kernel)
    (f : SyscallFrame) (es : list event) :
  ok D k -> frame_ok D f -> Forall event_ok es -> TICK k + zlen (irqs k) + zlen es < 2 ^ 64 ->
  exists t k', run es (dispatch_task f) k = Some (t, k') /\ ok D k'.
Proof.
  intros Hk Hf He Hb.
  destruct (guarded_run D (fun _ => True) es (dispatch_task f) k) as (t & k' & ? & ? & _);
    [by apply guarded_dispatch|apply same_time_dispatch|done..|].
  by exists t, k'.
Qed.

(** The same for calls made in one piece, interrupts being served while they
    wait: the call returns, stops its process or waits. *)
Lemma dispatch_safe `{Pl : Platform} `{Pr : Profile} (D : gset Z) (k : Kernel)
    (f : SyscallFrame) :
  ok D k -> frame_ok D f ->
  panics (dispatch f k) = false /\ ok D (state_of (dispatch f k)).
Proof.
  intros Hk Hf. pose proof (guarded_collapse D _ _ (guarded_dispatch D f Hf) k Hk) as H.
  rewrite (meq_at _ _ _ (collapse_dispatch f)) in H.
  destruct (dispatch f k); simpl; try done. by destruct H.
Qed.

(** ** Calls return *)

Section returns.
Context `{Pl : Platform} `{Pr : Profile}.

(** At most [n] sections, none of which waits. *)
Inductive within {A} : nat -> task A -> Prop :=
| w_return n a : within n (Return a)
| w_section n X (m : M X) next :
    prompt m -> (forall x, within n (next x)) -> within (S n) (Atomic m next).

Lemma within_weaken {A} n n' (t : task A) : within n t -> (n <= n')%nat -> within n' t.
Proof.
  intros H. revert n'. induction H as [n a|n X m next Hm Hn IH]; intros n' Hle; [constructor|].
  destruct n' as [|n']; [lia|]. constructor; [done|]. intros x. apply IH. lia.
Qed.

Lemma within_chain {A B} n n' (t : task A) (f : A -> task B) :
  within n t -> (forall a, within n' (f a)) -> within (n + n') (chain t f).
Proof.
  induction 1 as [n a|n X m next Hm Hn IH]; intros Hf; simpl.
  - eapply within_weaken; [apply Hf|lia].
  - constructor; [done|auto].
Qed.

(** The moments the task runs. *)
Definition turns (es : list event) : nat := length (filter (fun e => e = Run) es).

Lemma within_run {A} es n (t t' : task A) k k' :
  within n t -> (n <= turns es)%nat -> run es t k = Some (t', k') -> exists r, t' = Return r.
Proof.
  revert n t k. induction es as [|e es IH]; intros n t k Ht Hn; cbn [run].
  { intros [= <- <-]. destruct Ht; [by eexists|]. unfold turns in Hn. simpl in Hn. lia. }
  destruct (advance e t k) as [[t1 k1]|] eqn:E; [|done].
  unfold turns in Hn. rewrite filter_cons in Hn. destruct (decide (e = Run)) as [->|He].
  - destruct Ht as [n a|n X m next Hm Hnx]; cbn [advance resume] in E.
    + injection E as <- <-. intros Hr. by eapply (IH 0%nat); [constructor|lia|].
    + specialize (Hm k). destruct (m k); try done. injection E as <- <-.
      apply (IH n); [done|]. simpl in Hn. unfold turns. lia.
  - rewrite advance_served in E by (done || by destruct Ht). apply served_inv in E as [_ ->].
    assert (wake e t = t) as -> by (destruct Ht; by destruct e). by apply (IH n).
Qed.

(** ** Sections that do not wait *)

Lemma prompt_gets {A} (f : Kernel -> A) : prompt (gets f).
Proof. done. Qed.
Lemma prompt_modify f : prompt (modify f).
Proof. done. Qed.
Lemma prompt_ret {A} (a : A) : prompt (mret a).
Proof. done. Qed.
Lemma prompt_lift {A} (o : outcome A) : prompt (lift o).
Proof. intros k. by destruct o. Qed.
Lemma prompt_mem_write a bs : prompt (mem_write a bs).
Proof. intros k. unfold mem_write. by destruct (store_list _ _ _). Qed.
Lemma prompt_mem_read a n : prompt (mem_read a n).
Proof. intros k. unfold mem_read. by destruct (load_list _ _ _). Qed.
Lemma prompt_kprint s : prompt (kprint s).
Proof. intros k. unfold kprint. by destruct (Vga.write_string _ _ _) as [[]|]. Qed.
Lemma prompt_alloc_pid : prompt alloc_pid.
Proof. done. Qed.
Lemma prompt_kill pid sig : prompt (kill pid sig).
Proof. intros k. unfold kill. by repeat case_match. Qed.

End returns.

Create HintDb prompt.
#[export] Hint Resolve prompt_gets prompt_modify prompt_ret prompt_lift prompt_mem_write
  prompt_mem_read prompt_kprint prompt_alloc_pid prompt_kill : prompt.
#[export] Hint Extern 1 (within _ (Return _)) => apply w_return : prompt.

Ltac count_sections :=
  repeat first
    [ solve [auto with prompt]
    | apply w_section; [|intros ?]
    | apply prompt_bind; [|intros ?]
    | progress case_match ].

Section calls_return.
Context `{Pl : Platform} `{Pr : Profile}.

Lemma within_tty_write n a : within (2 * n) (tty_write_task n a).
Proof.
  revert a. induction n as [|n IH]; intros a; [constructor|].
  replace (2 * S n)%nat with (S (S (2 * n))) by lia. cbn [tty_write_task]. unfold serial_print.
  count_sections.
Qed.

(** The console read, [wait4] and [exit] can wait, and [getppid] can be caught
    with the process table locked. *)
Definition no_wait (f : SyscallFrame) : Prop :=
  num f <> SYS_GETPPID /\ num f <> SYS_EXIT /\ num f <> SYS_EXIT_GROUP /\ num f <> SYS_WAIT4 /\
  (num f = SYS_READ -> as_i32 (rdi f) <> 0).

Definition most_sections (f : SyscallFrame) : nat := 4 + 2 * Z.to_nat (rdx f).

Lemma within_read fd buf count : fd <> 0 -> within 4 (sys_read_task fd buf count).
Proof.
  intros H. unfold sys_read_task. rewrite (proj2 (Z.eqb_neq _ _) H). do 2 (case_match; [constructor|]).
  apply w_section; [unfold fd_lookup; count_sections|]. intros [[i file]|]; [|constructor].
  apply (within_chain 2 1); [|intros; count_sections].
  unfold read_node_task, read_static, ticks. count_sections.
Qed.

Lemma within_write fd buf count : within (4 + 2 * Z.to_nat count) (sys_write_task fd buf count).
Proof.
  unfold sys_write_task, serial_print. do 2 (case_match; [constructor|]). case_match.
  - eapply (within_weaken 3); [count_sections|lia].
  - apply w_section; [unfold fd_lookup; count_sections|]. intros [[i file]|]; [|constructor].
    destruct (f_node file); try constructor.
    eapply within_weaken; [apply (within_chain (2 * Z.to_nat count) 0); [apply within_tty_write|]|lia].
    intros. constructor.
Qed.

Lemma within_dispatch f : no_wait f -> within (most_sections f) (dispatch_task f).
Proof.
  intros (H0 & H1 & H2 & H3 & H4). unfold dispatch_task, most_sections, sys_open_task, sys_close_task,
    sys_execve_task, one_section.
  rewrite (proj2 (Z.eqb_neq (num f) SYS_EXIT)), (proj2 (Z.eqb_neq (num f) SYS_EXIT_GROUP)),
    (proj2 (Z.eqb_neq (num f) SYS_WAIT4)), (proj2 (Z.eqb_neq (num f) SYS_GETPPID)) by done. cbn [orb].
  destruct (Z.eqb_spec (num f) SYS_READ) as [Hr|_];
    [by eapply within_weaken; [apply within_read, H4|lia]|].
  destruct (num f =? SYS_WRITE); [apply within_write|].
  apply (within_weaken 2); [|lia].
  unfold fd_install, fd_lookup, user_cstr, sys_fork, fork, push_process, execve, sys_kill,
    sys_getpid, sys_getppid, getpid, current_pid.
  count_sections.
Qed.

End calls_return.


(** ** Witnesses *)

#[local] Existing Instance dev.

#[local] Opaque demo_memory.

Definition demo_write : SyscallFrame := mkFrame SYS_WRITE 1 8192 5 0 0 0.

Lemma demo_write_ok : frame_ok (dom demo_memory) demo_write.
Proof.
  split_and!; try done; simpl.
  - intros _ _ _. split; [done|]. intros i Hi. apply (demo_mapped _ (lit "hello")); [done|by right].
  - intros [?|?]; done.
Qed.

(** A timer tick after each of fourteen turns. *)
Definition demo_ticks : list event := concat (replicate 14 [Run; Irq 0x20]).

Lemma demo_ticks_ok : Forall event_ok demo_ticks.
Proof. repeat constructor; done. Qed.

Lemma preempted_calls_safe_witness :
  exists t k', run demo_ticks (dispatch_task demo_write) demo_running = Some (t, k') /\
    ok (dom demo_memory) k'.
Proof.
  apply (preempted_calls_safe (dom demo_memory) demo_running demo_write demo_ticks).
  - apply demo_running_ok.
  - apply demo_write_ok.
  - apply demo_ticks_ok.
  - by vm_compute.
Defined.

