(* ===== verification/ProcSpec.v ===== *)
(** * The process calls as an abstract process machine

    What user code and the timer see of [process/]: a finite map from PIDs to
    processes that live or are dead with an exit code, and sets of pending
    signals.  Children are reaped by lowest PID and the CPU goes round in the
    order of PIDs; the table of [process/mod.rs], a vector searched from its
    start, with bit masks for signals, implements the machine. *)

From stdpp Require Import sorting.
From S2P Require Import Prelude RustStr KeyBuffer Mem Vga Kernel Signal Scheduler Keyboard Interrupts Process Syscall Lifecycle Preempt Runs ExitWait Files FileSpec Safety SafeCalls.

(** ** The machine *)

Module ProcMachine.

Record Proc := mkProc {
  parent : Z;
  name : list Z;
  pending : gset Z;
  fate : option Z;
}.

Record State := mkState {
  procs : gmap Z Proc;
  current : Z;
  next : Z;
  clock : Z;
  mem_of : mem;
  coming : list Z;
}.

Inductive Call :=
| Getpid | Getppid | Fork
| Execve (path : Z)
| Kill (pid sig : Z)
| Wait (pid status : Z)
| Exit (code : Z)
| Interrupt (v : Z).

(** A call returns, never returns, or sleeps until an interrupt comes; an
    interrupt is served. *)
Inductive Answer := Returned (r : Z) | Gone | Asleep | Served.

Definition with_procs (m : gmap Z Proc) (s : State) : State :=
  mkState m (current s) (next s) (clock s) (mem_of s) (coming s).
Definition with_current (pid : Z) (s : State) : State :=
  mkState (procs s) pid (next s) (clock s) (mem_of s) (coming s).
Definition with_coming (l : list Z) (s : State) : State :=
  mkState (procs s) (current s) (next s) (clock s) (mem_of s) l.
Definition with_mem (m : mem) (s : State) : State :=
  mkState (procs s) (current s) (next s) (clock s) m (coming s).

Definition alive (p : Proc) : bool := if fate p is None then true else false.

(** The lowest PID among the processes with a property. *)
Definition least (P : Z -> Proc -> bool) (m : gmap Z Proc) : option Z :=
  map_fold (fun pid p found => if P pid p then Some (from_option (Z.min pid) pid found) else found)
    None m.

(** The next living process in the cyclic order of PIDs, the current one
    last; a current PID that is gone counts as the lowest. *)
Definition successor (s : State) : Z :=
  match least (fun _ _ => true) (procs s) with
  | None => 0
  | Some lowest =>
    let start := if procs s !! current s is Some _ then current s else lowest in
    match least (fun pid p => alive p && (start <? pid)) (procs s) with
    | Some pid => pid
    | None => default (current s) (least (fun _ p => alive p) (procs s))
    end
  end.
Definition yield (s : State) : State := with_current (successor s) s.

(** The strongest fatal signal kills, the others vanish. *)
Definition take_signals (p : Proc) : Proc :=
  mkProc (parent p) (name p) ∅
    (match List.find (fun sig => bool_decide (sig ∈ pending p)) by_strength with
     | Some sig => Some (128 + sig)
     | None => fate p
     end).

Definition timer (s : State) : State :=
  let s1 := mkState (alter take_signals (current s) (procs s)) (current s) (next s)
              (clock s + 1) (mem_of s) (coming s) in
  if (clock s + 1) `mod` 10 =? 0 then yield s1 else s1.

Definition interrupted (v : Z) (s : State) : State := if v =? 0x20 then timer s else s.

Definition child_of (cur : Z) (target : option Z) (pid : Z) (p : Proc) : bool :=
  (parent p =? cur) && from_option (Z.eqb pid) true target.

(** Wait for a child: an error without one, the dead child with the lowest
    PID, or sleep and look again after the next of the interrupts to come. *)
Fixpoint wait_child (target : option Z) (l : list Z) (s : State) : option (option (Z * Z)) * State :=
  match least (child_of (current s) target) (procs s) with
  | None => (Some None, s)
  | Some _ =>
    match least (fun pid p => child_of (current s) target pid p && negb (alive p)) (procs s) with
    | Some pid =>
      (Some ((fun p => (pid, default 0 (fate p))) <$> procs s !! pid),
       with_procs (delete pid (procs s)) s)
    | None =>
      match l with
      | [] => (None, s)
      | v :: l => wait_child target l (interrupted v (with_coming l s))
      end
    end
  end.

(** The wait status of a normal exit: the low byte of the code, shifted. *)
Definition status_bytes (code : Z) : list Z := [0; code `mod` 256; 0; 0].

Definition die (code : Z) (s : State) : State :=
  let dead p := mkProc (parent p) (name p) (pending p) (Some code) in
  let orphan p := mkProc (if parent p =? current s then 1 else parent p) (name p) (pending p) (fate p) in
  yield (with_procs (orphan <$> alter dead (current s) (procs s)) s).

Definition step (c : Call) (s : State) : Answer * State :=
  match c with
  | Getpid => (Returned (current s), s)
  | Getppid => (Returned (from_option parent (errno Srch) (procs s !! current s)), s)
  | Fork =>
    match procs s !! current s with
    | None => (Returned (errno NoSys), s)
    | Some p =>
      (Returned (next s),
       mkState (<[next s := mkProc (current s) (name p) ∅ None]> (procs s)) (current s)
         (next s + 1) (clock s) (mem_of s) (coming s))
    end
  | Execve path =>
    if path =? 0 then (Returned (errno Fault), s) else
    match before_nul (peek (mem_of s) path 256) ≫= from_utf8 with
    | None => (Returned (errno Fault), s)
    | Some file =>
      match procs s !! current s with
      | None => (Returned (errno NoEnt), s)
      | Some _ =>
        let image p := mkProc (parent p) (rsplit_next slash file) ∅ (fate p) in
        (Returned 0, with_procs (alter image (current s) (procs s)) s)
      end
    end
  | Kill pid sig =>
    if 31 <? sig then (Returned (errno Srch), s) else
    match procs s !! pid with
    | None => (Returned (errno Srch), s)
    | Some _ =>
      let signalled p := mkProc (parent p) (name p) ({[sig]} ∪ pending p) (fate p) in
      (Returned 0, if sig =? 0 then s else with_procs (alter signalled pid (procs s)) s)
    end
  | Wait pid status =>
    let target := if pid <=? 0 then None else Some pid in
    match wait_child target (coming s) s with
    | (None, s) => (Asleep, s)
    | (Some None, s) => (Returned (errno Srch), s)
    | (Some (Some (child, code)), s) =>
      (Returned child,
       if status =? 0 then s else with_mem (region status (status_bytes code) ∪ mem_of s) s)
    end
  | Exit code => (Gone, die code s)
  | Interrupt v => (Served, interrupted v s)
  end.

(** Calls in order, with their answers. *)
Fixpoint steps (cs : list Call) (s : State) : list Answer * State :=
  match cs with
  | [] => ([], s)
  | c :: cs =>
    let '(a, s1) := step c s in
    let '(rest, s2) := steps cs s1 in
    (a :: rest, s2)
  end.

End ProcMachine.

Import ProcMachine.

(** ** The table as a map *)

(** The signals of a mask. *)
Definition signals (mask : Z) : gset Z :=
  list_to_set (filter (fun sig => Z.testbit mask sig) (seqZ 0 32)).

Definition proc_of (p : Process) : Proc :=
  mkProc (p_parent_pid p) (p_name p) (signals (p_pending_signals p))
    (if bool_decide (p_state p = Zombie) then Some (p_exit_code p) else None).

Definition procs_of (t : list Process) : gmap Z Proc :=
  list_to_map ((fun p => (p_pid p, proc_of p)) <$> t).

Lemma elem_of_signals mask sig :
  sig ∈ signals mask <-> 0 <= sig < 32 /\ Z.testbit mask sig = true.
Proof.
  unfold signals. rewrite elem_of_list_to_set, list_elem_of_filter, elem_of_seqZ.
  rewrite Is_true_true. naive_solver lia.
Qed.

Lemma signals_none : signals 0 = ∅.
Proof. reflexivity. Qed.

Lemma signals_add mask sig :
  0 <= sig <= 31 -> signals (Z.lor mask (as_u32 (Z.shiftl 1 sig))) = {[sig]} ∪ signals mask.
Proof.
  intros H. rewrite as_u32_bit by done. apply set_eq. intros i.
  rewrite elem_of_union, elem_of_singleton, !elem_of_signals, Z.lor_spec, orb_true_iff.
  destruct (decide (i = sig)) as [->|Hne]; [rewrite Z.pow2_bits_true by lia; naive_solver lia|].
  rewrite Z.pow2_bits_false by done. naive_solver.
Qed.

Lemma signals_strongest mask :
  List.find (Z.testbit mask) by_strength
  = List.find (fun sig => bool_decide (sig ∈ signals mask)) by_strength.
Proof.
  assert (forall sig, 0 <= sig < 32 -> bool_decide (sig ∈ signals mask) = Z.testbit mask sig) as H.
  { intros sig Hs. apply eq_true_iff_eq. rewrite bool_decide_eq_true, elem_of_signals. naive_solver. }
  unfold by_strength. cbn [List.find]. by rewrite !H.
Qed.

Lemma proc_of_deliver p : proc_of (deliver p) = take_signals (proc_of p).
Proof.
  rewrite deliver_spec. unfold take_signals. cbn [pending proc_of]. rewrite <- signals_strongest.
  by destruct (List.find _ _).
Qed.

Lemma procs_of_lookup t pid : procs_of t !! pid = proc_of <$> find_proc pid t.
Proof.
  induction t as [|p t IH]; [done|]. unfold procs_of, find_proc in *. csimpl.
  destruct (Z.eqb_spec (p_pid p) pid) as [->|Hne].
  - by rewrite lookup_insert_eq.
  - by rewrite lookup_insert_ne.
Qed.

Lemma procs_of_update t pid f g :
  (forall p, p_pid (f p) = p_pid p) -> (forall p, proc_of (f p) = g (proc_of p)) ->
  procs_of (update_proc pid f t) = alter g pid (procs_of t).
Proof.
  intros Hf Hg. apply map_eq. intros i. rewrite procs_of_lookup.
  destruct (decide (i = pid)) as [->|Hne].
  - rewrite find_update_eq, lookup_alter_eq, procs_of_lookup by done.
    destruct (find_proc pid t); simpl; [by rewrite Hg|done].
  - by rewrite find_update_ne, lookup_alter_ne, procs_of_lookup.
Qed.

Lemma procs_of_fmap t f g :
  (forall p, p_pid (f p) = p_pid p) -> (forall p, proc_of (f p) = g (proc_of p)) ->
  procs_of (f <$> t) = g <$> procs_of t.
Proof.
  intros Hf Hg. unfold procs_of. rewrite <- list_to_map_fmap, <- !list_fmap_compose.
  f_equal. apply list_fmap_ext. intros i p _. simpl. by rewrite Hf, Hg.
Qed.

Lemma find_app {A} (f : A -> bool) l1 l2 :
  List.find f (l1 ++ l2) = match List.find f l1 with Some x => Some x | None => List.find f l2 end.
Proof. induction l1 as [|x l1 IH]; simpl; [done|]. by destruct (f x). Qed.

Lemma procs_of_snoc t p :
  find_proc (p_pid p) t = None -> procs_of (t ++ [p]) = <[p_pid p := proc_of p]> (procs_of t).
Proof.
  intros Hn. apply map_eq. intros i. rewrite procs_of_lookup.
  unfold find_proc in *. rewrite find_app. simpl.
  destruct (Z.eqb_spec (p_pid p) i) as [<-|Hne].
  - by rewrite Hn, lookup_insert_eq.
  - rewrite lookup_insert_ne, procs_of_lookup by done. unfold find_proc. by destruct (List.find (fun q => p_pid q =? i) t).
Qed.

Lemma procs_of_delete t i p :
  NoDup (p_pid <$> t) -> t !! i = Some p -> procs_of (delete i t) = delete (p_pid p) (procs_of t).
Proof.
  intros Hnd Hi. apply map_eq. intros j. rewrite procs_of_lookup.
  destruct (decide (j = p_pid p)) as [->|Hne].
  - by rewrite find_proc_delete, lookup_delete_eq.
  - rewrite lookup_delete_ne, procs_of_lookup by done. f_equal.
    rewrite delete_take_drop. rewrite <- (take_drop_middle t i p Hi) at 3.
    unfold find_proc. rewrite !find_app. simpl. by rewrite (proj2 (Z.eqb_neq _ _)) by done.
Qed.

(** ** Searches in a sorted table *)

Lemma least_spec P m :
  match least P m with
  | Some i => (exists p, m !! i = Some p /\ P i p = true) /\
              forall j q, m !! j = Some q -> P j q = true -> i <= j
  | None => forall j q, m !! j = Some q -> P j q = false
  end.
Proof.
  unfold least. apply (map_fold_weak_ind (fun r m => match r with
    | Some i => (exists p, m !! i = Some p /\ P i p = true) /\
                forall j q, m !! j = Some q -> P j q = true -> i <= j
    | None => forall j q, m !! j = Some q -> P j q = false end)); [done|].
  intros i p m' r Hi Hr.
  destruct (P i p) eqn:Hp; destruct r as [i'|]; simpl; setoid_rewrite lookup_insert_Some.
  - destruct Hr as [(p' & Hp' & HP) Hl]. split.
    + destruct (Z.min_spec i i') as [[_ ->]|[_ ->]]; [by exists p; auto|].
      exists p'. split; [|done]. right. split; [congruence|done].
    + intros j q [[<- <-]|[_ Hq]] HPq; [lia|]. specialize (Hl j q Hq HPq). lia.
  - split; [by exists p; auto|]. intros j q [[<- <-]|[_ Hq]] HPq; [lia|].
    rewrite (Hr j q Hq) in HPq. done.
  - destruct Hr as [(p' & Hp' & HP) Hl]. split.
    + exists p'. split; [|done]. right. split; [congruence|done].
    + intros j q [[<- <-]|[_ Hq]] HPq; [congruence|]. by apply (Hl j q).
  - intros j q [[<- <-]|[_ Hq]]; [done|]. by apply (Hr j q).
Qed.

(** A table in the order of PIDs: the first entry with a property has the
    lowest PID. *)
Definition in_order (t : list Process) : Prop := StronglySorted Z.lt (p_pid <$> t).

Lemma in_order_app t1 t2 p q :
  in_order (t1 ++ t2) -> p ∈ t1 -> q ∈ t2 -> p_pid p < p_pid q.
Proof.
  unfold in_order. rewrite fmap_app. intros H Hp Hq.
  by eapply (StronglySorted_app_1_elem_of Z.lt); [exact H|apply list_elem_of_fmap_2..].
Qed.

Lemma in_order_NoDup t : in_order t -> NoDup (p_pid <$> t).
Proof.
  unfold in_order. generalize (p_pid <$> t). intros l.
  induction 1 as [|i l _ IH Hl]; constructor; [|done]. rewrite Forall_forall in Hl.
  intros Hi. specialize (Hl i Hi). lia.
Qed.

Lemma find_lowest f t p :
  in_order t -> List.find f t = Some p ->
  p ∈ t /\ f p = true /\ forall q, q ∈ t -> f q = true -> p_pid p <= p_pid q.
Proof.
  intros Ho Hf. pose proof (List.find_some _ _ Hf) as [Hin%list_elem_of_In Hp]. split_and!; [done..|].
  unfold in_order in Ho. induction t as [|a t IH]; [done|]. simpl in Hf.
  rewrite fmap_cons in Ho. apply StronglySorted_inv in Ho as [Ho Ha]. rewrite Forall_fmap, Forall_forall in Ha.
  intros q [->|Hq]%elem_of_cons Hfq.
  - rewrite Hfq in Hf. injection Hf as ->. lia.
  - destruct (f a) eqn:E; [injection Hf as ->; specialize (Ha q Hq); simpl in Ha; lia|].
    apply IH; try done. by apply List.find_some in Hf as [?%list_elem_of_In _].
Qed.

Lemma procs_of_Some t pid p :
  procs_of t !! pid = Some p -> exists q, q ∈ t /\ p_pid q = pid /\ proc_of q = p.
Proof.
  rewrite procs_of_lookup. destruct (find_proc pid t) as [q|] eqn:E; [|done]. intros [= <-].
  apply find_proc_Some in E as [??]. by exists q.
Qed.

Lemma procs_of_elem t p : in_order t -> p ∈ t -> procs_of t !! p_pid p = Some (proc_of p).
Proof.
  intros Ho Hp. rewrite procs_of_lookup.
  by rewrite (find_proc_elem (p_pid p) t p) by auto using in_order_NoDup.
Qed.

Lemma least_find P f t :
  in_order t -> (forall p, p ∈ t -> P (p_pid p) (proc_of p) = f p) ->
  least P (procs_of t) = p_pid <$> List.find f t.
Proof.
  intros Ho HP. pose proof (least_spec P (procs_of t)) as Hl.
  destruct (List.find f t) as [p|] eqn:Hf; simpl.
  - apply find_lowest in Hf as (Hp & Hfp & Hmin); [|done]. destruct (least P _) as [i|].
    + destruct Hl as [(x & (q & Hq & <- & <-)%procs_of_Some & Hx) Hl]. f_equal.
      rewrite HP in Hx by done. specialize (Hmin q Hq Hx).
      specialize (Hl (p_pid p) (proc_of p)). rewrite procs_of_elem, HP in Hl by done.
      specialize (Hl eq_refl Hfp). lia.
    + specialize (Hl (p_pid p) (proc_of p)). rewrite procs_of_elem, HP in Hl by done.
      rewrite Hl in Hfp by done. done.
  - destruct (least P _) as [i|]; [|done].
    destruct Hl as [(x & (q & Hq & <- & <-)%procs_of_Some & Hx) _]. rewrite HP in Hx by done.
    rewrite (List.find_none _ _ Hf q) in Hx; [done|]. by apply list_elem_of_In.
Qed.

Lemma find_ext {A} (f g : A -> bool) l : (forall x, x ∈ l -> f x = g x) -> List.find f l = List.find g l.
Proof.
  induction l as [|a l IH]; intros H; simpl; [done|]. rewrite H by (by left).
  rewrite IH; [done|]. intros. apply H. by right.
Qed.

Lemma find_false {A} (f : A -> bool) l : (forall x, x ∈ l -> f x = false) -> List.find f l = None.
Proof.
  intros H. rewrite (find_ext f (fun _ => false)) by done. clear H. by induction l.
Qed.

Lemma position_find pid t i : position pid t = Some i -> is_Some (find_proc pid t).
Proof.
  intros (p & Hi & <-)%position_Some. destruct (find_proc (p_pid p) t) eqn:E; [done|].
  apply find_proc_None in E. destruct E. apply list_elem_of_fmap_2, list_elem_of_lookup. eauto.
Qed.

Lemma position_None pid t : position pid t = None -> find_proc pid t = None.
Proof.
  induction t as [|p t IH]; [done|]. unfold find_proc in *. simpl. case_match; [done|].
  destruct (position pid t); [done|]. auto.
Qed.

(** Where the search starts, and the PID there. *)
Lemma search_start t cur :
  t <> [] -> exists i p, default 0%nat (position cur t) = i /\ t !! i = Some p /\
    p_pid p = match find_proc cur t with
              | Some _ => cur
              | None => default 0 (p_pid <$> head t)
              end.
Proof.
  intros Hne. destruct (position cur t) as [i|] eqn:Hp; simpl.
  - destruct (position_find _ _ _ Hp) as [q ->]. apply position_Some in Hp as (p & Hi & Hp).
    by exists i, p.
  - rewrite (position_None _ _ Hp). destruct t as [|p t]; [done|]. by exists 0%nat, p.
Qed.

(** The search of the scheduler, split at its start. *)
Lemma find_after f t i p :
  in_order t -> t !! i = Some p ->
  List.find f (after i t)
  = match List.find (fun q => f q && (p_pid p <? p_pid q)) t with
    | Some q => Some q
    | None => List.find f t
    end.
Proof.
  intros Ho Hi. unfold after. rewrite find_app.
  assert (t = take (S i) t ++ drop (S i) t) as Ht by by rewrite take_drop.
  assert (forall q, q ∈ take (S i) t -> p_pid q <= p_pid p) as Hlow.
  { rewrite (take_S_r _ _ p) by done. intros q [Hq| ->%list_elem_of_singleton]%elem_of_app; [|lia].
    rewrite <- (take_drop_middle t i p Hi) in Ho.
    pose proof (in_order_app _ _ q p Ho Hq ltac:(by left)). lia. }
  assert (forall q, q ∈ drop (S i) t -> p_pid p < p_pid q) as Hhigh.
  { intros q Hq. rewrite Ht in Ho. eapply in_order_app; [exact Ho| |done].
    rewrite (take_S_r _ _ p) by done. apply elem_of_app. right. by left. }
  clear Ho Hi. revert Ht Hlow Hhigh. generalize (take (S i) t) as l1, (drop (S i) t) as l2.
  intros l1 l2 -> Hlow Hhigh. rewrite !find_app.
  rewrite (find_false (fun q => f q && _) l1).
  2: { intros q Hq. apply andb_false_iff. right. apply Z.ltb_ge. by apply Hlow. }
  rewrite (find_ext (fun q => f q && _) f l2).
  2: { intros q Hq. rewrite (proj2 (Z.ltb_lt _ _)) by (by apply Hhigh). apply andb_true_r. }
  destruct (List.find f l2); [done|]. by destruct (List.find f l1).
Qed.

Lemma alive_runnable p : p_state p <> Blocked -> alive (proc_of p) = runnable p.
Proof. unfold alive, runnable. simpl. by destruct (p_state p). Qed.

Lemma rr_next_successor t s :
  in_order t -> Forall (fun p => p_state p <> Blocked) t -> procs s = procs_of t ->
  rr_next t (current s) = successor s.
Proof.
  intros Ho Hb Hs. rewrite Forall_forall in Hb. unfold rr_next, successor. rewrite Hs.
  rewrite (least_find _ (fun _ => true)) by done. destruct (decide (t = [])) as [->|Hne]; [done|].
  rewrite (proj2 (Nat.eqb_neq _ _)) by (by destruct t).
  assert (exists p0, head t = Some p0) as [p0 Et] by (destruct t; by eauto).
  assert (p_pid <$> List.find (fun _ => true) t = Some (p_pid p0)) as ->
    by (destruct t; by simplify_eq/=).
  destruct (search_start t (current s) Hne) as (i & p & -> & Hi & Hp).
  rewrite (find_after _ _ _ _ Ho Hi), procs_of_lookup.
  assert ((if proc_of <$> find_proc (current s) t is Some _ then current s else p_pid p0) = p_pid p) as ->.
  { rewrite Hp. destruct (find_proc _ _); [done|]. by rewrite Et. }
  rewrite (least_find _ (fun q => runnable q && (p_pid p <? p_pid q))).
  2: done.
  2: { intros q Hq. by rewrite alive_runnable by auto. }
  rewrite (least_find _ runnable) by (done || intros q Hq; by rewrite alive_runnable by auto).
  destruct (List.find _ t) as [q|]; [done|]. by destruct (List.find runnable t).
Qed.

(** ** The kernel *)

Section kernel.
Context `{Pl : Platform} `{Pr : Profile}.

Definition state_view (k : Kernel) : State :=
  mkState (procs_of (PROCESS_TABLE k)) (CURRENT_PID k) (NEXT_PID k) (TICK k) (memory k) (irqs k).

(** The table is in the order of PIDs, the counter above them, and no process
    is [Blocked]. *)
Record table_ok (k : Kernel) : Prop := {
  table_order : in_order (PROCESS_TABLE k);
  table_below : Forall (fun p => 0 <= p_pid p < NEXT_PID k) (PROCESS_TABLE k);
  table_states : Forall (fun p => p_state p <> Blocked) (PROCESS_TABLE k);
}.

(** What the process calls have nothing to do with. *)
Definition others (k : Kernel) := (FD_TABLE k, WRITER k).

Definition call_frame (c : Call) : SyscallFrame :=
  match c with
  | Getpid | Interrupt _ => mkFrame SYS_GETPID 0 0 0 0 0 0
  | Getppid => mkFrame SYS_GETPPID 0 0 0 0 0 0
  | Fork => mkFrame SYS_FORK 0 0 0 0 0 0
  | Execve path => mkFrame SYS_EXECVE path 0 0 0 0 0
  | Kill pid sig => mkFrame SYS_KILL pid sig 0 0 0 0
  | Wait pid status => mkFrame SYS_WAIT4 pid status 0 0 0 0
  | Exit code => mkFrame SYS_EXIT code 0 0 0 0 0
  end.

Definition serve (c : Call) : M Z :=
  match c with
  | Interrupt v => _ ← interrupt v []; mret 0
  | _ => dispatch (call_frame c)
  end.

Definition answer (c : Call) (r : res Z) : option (Answer * Kernel) :=
  match r with
  | Done r k => Some (if c is Interrupt _ then Served else Returned r, k)
  | Halted k => Some (Gone, k)
  | Waiting k => Some (Asleep, k)
  | Panicked _ => None
  end.

(** Calls in order, each by the process that is current then. *)
Fixpoint serve_all (cs : list Call) (k : Kernel) : option (list Answer * Kernel) :=
  match cs with
  | [] => Some ([], k)
  | c :: cs => '(a, k1) ← answer c (serve c k); '(rest, k2) ← serve_all cs k1; Some (a :: rest, k2)
  end.

Definition pcall_ok (D : gset Z) (c : Call) : Prop :=
  match c with
  | Execve path => path <> 0 -> in_dom D path 256
  | Kill pid sig => 0 <= pid < 2 ^ 32 /\ 0 <= sig < 256
  | Wait pid status => - 2 ^ 31 <= pid < 2 ^ 31 /\ (status <> 0 -> in_dom D status 4 /\ aligned 4 status)
  | Exit code => - 2 ^ 31 <= code < 2 ^ 31
  | Interrupt v => irq_vector v
  | _ => True
  end.

(** A table with the PIDs of another one. *)
Lemma table_ok_pids k k' :
  table_ok k -> p_pid <$> PROCESS_TABLE k' = p_pid <$> PROCESS_TABLE k -> NEXT_PID k' = NEXT_PID k ->
  Forall (fun p => p_state p <> Blocked) (PROCESS_TABLE k') -> table_ok k'.
Proof.
  intros [Ho Hb _] Hp Hn Hs. split; [|rewrite Hn|done].
  - unfold in_order. by rewrite Hp.
  - apply (Forall_fmap p_pid (fun i => 0 <= i < NEXT_PID k)). rewrite Hp. by apply Forall_fmap.
Qed.

Lemma states_update pid f t :
  (forall p, p_state p <> Blocked -> p_state (f p) <> Blocked) ->
  Forall (fun p => p_state p <> Blocked) t -> Forall (fun p => p_state p <> Blocked) (update_proc pid f t).
Proof.
  intros Hf. induction 1 as [|p t Hp Ht IH]; simpl; [constructor|]. case_match; constructor; auto.
Qed.

Lemma table_ok_update k pid f :
  table_ok k -> (forall p, p_pid (f p) = p_pid p) ->
  (forall p, p_state p <> Blocked -> p_state (f p) <> Blocked) ->
  table_ok (set_table (update_proc pid f (PROCESS_TABLE k)) k).
Proof.
  intros Hk Hf Hs. eapply table_ok_pids; [done| |done|].
  - simpl. by rewrite update_proc_fmap.
  - apply states_update; [done|]. by apply table_states.
Qed.

Lemma schedule_view k :
  table_ok k -> exists k', schedule k = Done tt k' /\ state_view k' = yield (state_view k) /\
    table_ok k' /\ others k' = others k.
Proof.
  intros Hk. destruct (schedule_spec k) as (k' & E & Hs & Hc).
  destruct Hs as (Ht & Hn & Htick & Hf & _ & _ & Hw & Hm & _ & Hi).
  exists k'. split_and!; [done| |by destruct Hk; split; rewrite ?Ht, ?Hn|].
  - unfold state_view, yield, with_current. simpl.
    rewrite Ht, Hn, Htick, Hm, Hi, Hc. f_equal.
    destruct Hk. by apply (rr_next_successor _ (state_view k)).
  - unfold others. by rewrite Hf, Hw.
Qed.

Lemma tick_view k :
  table_ok k -> 0 <= TICK k -> TICK k + 1 < 2 ^ 64 ->
  exists k', tick k = Done tt k' /\ state_view k' = timer (state_view k) /\
    table_ok k' /\ others k' = others k.
Proof.
  intros Hk H0 H1. unfold tick, count_tick, mbind, M_bind, gets, modify, current_pid, gets, add_u.
  rewrite in_width_ok by (split; lia). simpl. rewrite wrap_id by (split; lia).
  set (k1 := set_table _ _).
  assert (table_ok k1) as Hk1.
  { apply (table_ok_update (set_tick (TICK k + 1) k)); [by destruct Hk|apply deliver_pid|].
    intros p Hp. unfold deliver. by repeat case_match. }
  assert (state_view k1 = mkState (alter take_signals (CURRENT_PID k) (procs_of (PROCESS_TABLE k)))
    (CURRENT_PID k) (NEXT_PID k) (TICK k + 1) (memory k) (irqs k)) as Hv.
  { unfold state_view. simpl. f_equal. apply procs_of_update; [apply deliver_pid|apply proc_of_deliver]. }
  unfold timer. simpl. rewrite <- Hv. unfold TIMESLICE. case_match; [|by exists k1].
  destruct (schedule_view k1 Hk1) as (k2 & E & ? & ? & ?). by exists k2.
Qed.

(** The keyboard leaves all this alone. *)
Definition same_data (k k' : Kernel) : Prop :=
  PROCESS_TABLE k' = PROCESS_TABLE k /\ state_view k' = state_view k /\ others k' = others k.

#[local] Instance same_data_preorder : PreOrder same_data.
Proof. split; unfold same_data; [by intros ?|]. intros ???. intuition congruence. Qed.

#[local] Hint Extern 1 (same_data _ _) => by split_and! : moves.

Lemma same_data_keyboard : moves same_data handle_interrupt.
Proof.
  unfold handle_interrupt, decode_scancode, set_key_buffer, set_keyboard, serial_print, read_port.
  walk. intros k. by destruct (port_read _ _).
Qed.

Lemma interrupt_view D k v :
  ok D k -> table_ok k -> irq_vector v -> TICK k + zlen (irqs k) + 1 < 2 ^ 64 ->
  exists k', interrupt v [] k = Done tt k' /\ state_view k' = interrupted v (state_view k) /\
    ok D k' /\ table_ok k' /\ others k' = others k.
Proof.
  intros Hk Ht Hv Hb. destruct (interrupt_served D k v []) as (k' & E & Hk' & _); [done..|].
  exists k'. split; [done|]. enough (state_view k' = interrupted v (state_view k) /\
    table_ok k' /\ others k' = others k) as (?&?&?) by (by split_and!). clear Hk'. revert E.
  destruct (irq_vector_handler v Hv) as (i & -> & Hi). rewrite Hi. clear Hi.
  destruct i; try (intros [= <-]; by destruct Ht; split_and!).
  - pose proof (zlen_nonneg (irqs k)). destruct (ok_tick _ _ Hk).
    destruct (tick_view k) as (k1 & E1 & Hv1 & Ht1 & Ho1); [done|lia..|].
    unfold mbind, M_bind. rewrite E1. intros [= <-]. destruct Ht1. by split_and!.
  - pose proof (same_data_keyboard k) as Hs. unfold mbind, M_bind.
    destruct (handle_interrupt k) as [[] k1|k1|k1|k1]; try done. intros [= <-].
    destruct Hs as (Hs1 & Hs2 & Hs3). simpl in *. split_and!; [exact Hs2| |exact Hs3].
    assert (NEXT_PID k1 = NEXT_PID k) as Hn by (by injection Hs2).
    destruct Ht. split; simpl; by rewrite ?Hs1, ?Hn.
Qed.

(** One call: the machine's answer and state, all else untouched. *)
Definition serves (D : gset Z) (c : Call) (k : Kernel) : Prop :=
  exists k', answer c (serve c k) = Some ((step c (state_view k)).1, k') /\
    state_view k' = (step c (state_view k)).2 /\ table_ok k' /\ others k' = others k.

(** A call that only looks, or only changes the table. *)
Lemma serves_same D c k r :
  serve c k = Done r k -> step c (state_view k) = (Returned r, state_view k) ->
  table_ok k -> serves D c k.
Proof. intros E Es Hk. exists k. rewrite E, Es. destruct c; by split_and!. Qed.

Lemma serves_update D c k r pid f g :
  serve c k = Done r (set_table (update_proc pid f (PROCESS_TABLE k)) k) ->
  step c (state_view k)
  = (Returned r, with_procs (alter g pid (procs_of (PROCESS_TABLE k))) (state_view k)) ->
  (forall p, p_pid (f p) = p_pid p) -> (forall p, proc_of (f p) = g (proc_of p)) ->
  (forall p, p_state p <> Blocked -> p_state (f p) <> Blocked) ->
  table_ok k -> serves D c k.
Proof.
  intros E Es Hf Hg Hs Hk. eexists. rewrite E, Es. split_and!; [by destruct c| |by apply table_ok_update|done].
  unfold state_view, with_procs. simpl. f_equal. by apply procs_of_update.
Qed.

Lemma serves_getppid D k : table_ok k -> serves D Getppid k.
Proof.
  apply (serves_same _ _ _ (from_option parent (errno Srch) (procs_of (PROCESS_TABLE k) !! CURRENT_PID k))).
  - rewrite procs_of_lookup. simpl. unfold dispatch. simpl.
    unfold sys_getppid, mbind, M_bind, gets, getpid, current_pid, gets, mret, M_ret.
    by destruct (find_proc _ _).
  - done.
Qed.

Lemma serves_fork D k : table_ok k -> NEXT_PID k + 1 < 2 ^ 32 -> serves D Fork k.
Proof.
  intros Hk Hn. pose proof (fork_spec k) as Hf. unfold serves, step.
  change (serve Fork k) with (sys_fork k). unfold sys_fork, mbind, M_bind. cbn [procs current state_view].
  rewrite procs_of_lookup. destruct (find_proc _ _) as [p|] eqn:Hp; rewrite Hf; simpl; [|by exists k].
  assert (0 <= NEXT_PID k) as H0.
  { apply find_proc_Some in Hp as [Hp _]. destruct Hk as [_ Hb _]. rewrite Forall_forall in Hb.
    specialize (Hb p Hp). lia. }
  assert (find_proc (NEXT_PID k) (PROCESS_TABLE k) = None) as Hfresh.
  { destruct (find_proc (NEXT_PID k) _) as [q|] eqn:Hq; [|done]. apply find_proc_Some in Hq as [Hq E].
    destruct Hk as [_ Hb _]. rewrite Forall_forall in Hb. specialize (Hb q Hq). lia. }
  rewrite wrap_id by (split; lia). eexists. split_and!; [done| | |done].
  - unfold state_view. simpl. f_equal. rewrite procs_of_snoc by done. done.
  - destruct Hk as [Ho Hb Hs]. split; simpl.
    + unfold in_order. rewrite fmap_app. apply StronglySorted_app_2; [|done|repeat constructor].
      intros i j (q & -> & Hq)%list_elem_of_fmap_1 ->%list_elem_of_singleton. simpl.
      rewrite Forall_forall in Hb. specialize (Hb q Hq). lia.
    + apply Forall_app. split; [|repeat constructor; simpl; lia].
      eapply Forall_impl; [exact Hb|]. simpl. lia.
    + apply Forall_app. split; [done|]. by repeat constructor.
Qed.

Lemma sys_execve_run k path :
  path <> 0 -> mapped (memory k) path 256 ->
  sys_execve path k
  = match before_nul (peek (memory k) path 256) ≫= from_utf8 with
    | None => Done (errno Fault) k
    | Some file =>
      match find_proc (CURRENT_PID k) (PROCESS_TABLE k) with
      | None => Done (errno NoEnt) k
      | Some _ =>
        Done 0 (set_table (update_proc (CURRENT_PID k)
          (fun p => set_pending 0 (set_name (rsplit_next slash file) p)) (PROCESS_TABLE k)) k)
      end
    end.
Proof.
  intros Hp Hm. pose proof (user_cstr_peek _ _ Hp Hm) as E. revert E.
  generalize (before_nul (peek (memory k) path 256) ≫= from_utf8). intros file E.
  unfold sys_execve, mbind, M_bind. rewrite (proj2 (Z.eqb_neq _ _) Hp), E. destruct file; [|done].
  unfold execve, mbind, M_bind, current_pid, gets. by destruct (find_proc _ _).
Qed.

Lemma serves_execve D k path :
  (path <> 0 -> mapped (memory k) path 256) -> table_ok k -> serves D (Execve path) k.
Proof.
  intros Hm Hk. destruct (decide (path = 0)) as [->|Hp]; [by apply (serves_same _ _ _ (errno Fault))|].
  assert (serve (Execve path) k = sys_execve path k) as E by done.
  rewrite (sys_execve_run k path Hp (Hm Hp)) in E.
  assert (step (Execve path) (state_view k) = step (Execve path) (state_view k)) as Es by done.
  unfold step in Es at 2. cbn [mem_of state_view procs current] in Es.
  rewrite (proj2 (Z.eqb_neq _ _) Hp), procs_of_lookup in Es.
  destruct (before_nul _ ≫= _) as [file|]; [|by eapply serves_same].
  destruct (find_proc _ _); cbn [fmap option_fmap option_map] in Es; [|by eapply serves_same].
  by eapply (serves_update _ _ _ _ _ _ _ E Es).
Qed.

Lemma sys_kill_run k pid sig :
  sys_kill pid sig k
  = if 31 <? sig then Done (errno Srch) k else
    match find_proc pid (PROCESS_TABLE k) with
    | None => Done (errno Srch) k
    | Some _ =>
      Done 0 (if sig =? 0 then k else set_table (update_proc pid
        (fun p => set_pending (Z.lor (p_pending_signals p) (as_u32 (Z.shiftl 1 sig))) p)
        (PROCESS_TABLE k)) k)
    end.
Proof.
  unfold sys_kill, kill, mbind, M_bind. rewrite Z.gtb_ltb. destruct (31 <? sig); [done|].
  destruct (find_proc _ _); [|done]. by destruct (sig =? 0).
Qed.

Lemma serves_kill D k pid sig :
  0 <= pid < 2 ^ 32 -> 0 <= sig < 256 -> table_ok k -> serves D (Kill pid sig) k.
Proof.
  intros Hp Hs Hk.
  assert (serve (Kill pid sig) k = sys_kill pid sig k) as E.
  { change (serve (Kill pid sig) k) with (sys_kill (as_u32 pid) (as_u8 sig) k).
    by rewrite !wrap_id. }
  rewrite sys_kill_run in E.
  assert (step (Kill pid sig) (state_view k) = step (Kill pid sig) (state_view k)) as Es by done.
  unfold step in Es at 2. cbn [mem_of state_view procs current] in Es. rewrite procs_of_lookup in Es.
  destruct (Z.ltb_spec 31 sig); [by eapply serves_same|].
  destruct (find_proc _ _); cbn [fmap option_fmap option_map] in Es; [|by eapply serves_same].
  destruct (Z.eqb_spec sig 0); [by eapply serves_same|].
  eapply (serves_update _ _ _ _ _ _ _ E Es); [done| |done..].
  intros q. unfold proc_of. simpl. by rewrite signals_add by lia.
Qed.

Lemma serves_exit D k code : - 2 ^ 31 <= code < 2 ^ 31 -> table_ok k -> serves D (Exit code) k.
Proof.
  intros Hc Hk. set (k1 := add_io (Com1 (exit_message code (CURRENT_PID k) ++ [10]))
    (set_table (reparent (CURRENT_PID k) <$> update_proc (CURRENT_PID k) (make_zombie code) (PROCESS_TABLE k)) k)).
  assert (serve (Exit code) k = (_ ← schedule; halt_forever) k1) as E.
  { change (serve (Exit code) k) with (exit (A := Z) (as_i32 code) k). by rewrite as_i32_id. }
  assert (table_ok k1) as Hk1.
  { pose proof (table_ok_update k (CURRENT_PID k) (make_zombie code) Hk) as H.
    eapply table_ok_pids; [by apply H| |done|]; simpl.
    - apply benign_fmap, benign_reparent.
    - apply Forall_fmap. eapply Forall_impl; [apply states_update; [done|apply Hk]|].
      intros p Hp. simpl. unfold reparent. by case_match. }
  destruct (schedule_view k1 Hk1) as (k2 & E2 & Hv & Ht & Ho). exists k2.
  rewrite E. unfold mbind, M_bind. rewrite E2. split_and!; [done| |done..].
  rewrite Hv. simpl. unfold die. f_equal. unfold state_view, with_procs. simpl. f_equal.
  rewrite <- procs_of_update with (f := make_zombie code) by done.
  apply procs_of_fmap; intros p; unfold reparent;
    by destruct (p_parent_pid p =? CURRENT_PID k) eqn:Hp; simpl; rewrite ?Hp.
Qed.

(** ** Waiting *)

Lemma child_of_proc cur target p :
  child_of cur target (p_pid p) (proc_of p) = is_child cur target p.
Proof. unfold child_of, is_child, wanted. by destruct target. Qed.

Lemma dead_child_of_proc cur target p :
  child_of cur target (p_pid p) (proc_of p) && negb (alive (proc_of p)) = is_dead_child cur target p.
Proof.
  rewrite child_of_proc. unfold is_child, is_dead_child, alive. simpl.
  case_bool_decide; simpl; by rewrite ?andb_true_r, ?andb_false_r.
Qed.

Lemma find_index_find {A} (f : A -> bool) l : snd <$> find_index f l = List.find f l.
Proof.
  induction l as [|x l IH]; simpl; [done|]. destruct (f x); [done|]. rewrite <- IH.
  by destruct (find_index f l).
Qed.

Lemma reap_view k i p :
  table_ok k -> PROCESS_TABLE k !! i = Some p ->
  let k' := set_table (delete i (PROCESS_TABLE k)) k in
  state_view k' = with_procs (delete (p_pid p) (procs_of (PROCESS_TABLE k))) (state_view k) /\
  table_ok k' /\ others k' = others k.
Proof.
  intros [Ho Hb Hs] Hi. split_and!; [| |done].
  - unfold state_view, with_procs. simpl. f_equal. by apply procs_of_delete; [apply in_order_NoDup|].
  - split; simpl; [|by apply Forall_delete..]. unfold in_order in *.
    rewrite <- (take_drop_middle _ _ _ Hi), fmap_app in Ho. rewrite delete_take_drop, fmap_app.
    apply StronglySorted_app in Ho as (Hx & H1 & H2). apply StronglySorted_app_2; [|done|].
    + intros a b Ha Hb'. apply Hx; [done|]. by right.
    + by apply StronglySorted_inv in H2 as [? _].
Qed.

(** One look at the children: none, a dead one, or only living ones. *)
Inductive look (target : option Z) (k : Kernel) (children dead : option Z) : Prop :=
| look_none : children = None -> waitpid target k = Done None k -> look target k children dead
| look_dead pid i p : children = Some pid -> dead = Some (p_pid p) -> PROCESS_TABLE k !! i = Some p ->
    p_state p = Zombie ->
    waitpid target k = Done (Some (p_pid p, p_exit_code p)) (set_table (delete i (PROCESS_TABLE k)) k) ->
    look target k children dead
| look_living pid : children = Some pid -> dead = None ->
    waitpid target k = (_ ← hlt; waitpid target) k -> look target k children dead.

Lemma waitpid_look target k :
  table_ok k ->
  let children := child_of (CURRENT_PID k) target in
  look target k (least children (procs_of (PROCESS_TABLE k)))
    (least (fun pid p => children pid p && negb (alive p)) (procs_of (PROCESS_TABLE k))).
Proof.
  intros [Ho _ _] children. subst children.
  rewrite (least_find _ (is_child (CURRENT_PID k) target)) by (done || intros; apply child_of_proc).
  rewrite (least_find _ (is_dead_child (CURRENT_PID k) target)) by (done || intros; apply dead_child_of_proc).
  destruct (List.find (is_child _ _) _) as [c|] eqn:Hc.
  2: { apply look_none; [done|]. apply waitpid_no_child. intros p Hp.
       apply (List.find_none _ _ Hc). by apply list_elem_of_In. }
  pose proof (find_index_find (is_dead_child (CURRENT_PID k) target) (PROCESS_TABLE k)) as Hi.
  destruct (List.find (is_dead_child _ _) _) as [p|] eqn:Hd.
  - destruct (find_index _ _) as [[i q]|] eqn:Hf; [|done]. injection Hi as ->.
    pose proof (find_index_Some _ _ _ _ Hf) as (Hi & Hz & _).
    apply (look_dead _ _ _ _ (p_pid c) i p); [done..| |by apply waitpid_reaps].
    by apply is_dead_child_spec in Hz as [_ ?].
  - apply (look_living _ _ _ _ (p_pid c)); [done..|].
    apply List.find_some in Hc as [Hc%list_elem_of_In ?]. apply (waitpid_sleeps _ _ c); [done..|].
    intros q Hq. apply (List.find_none _ _ Hd). by apply list_elem_of_In.
Qed.

Lemma waitpid_view D target k :
  ok D k -> table_ok k ->
  let s' := wait_child target (irqs k) (state_view k) in
  match waitpid target k with
  | Done r k' => s' = (Some r, state_view k') /\ table_ok k' /\ others k' = others k
  | Waiting k' => s' = (None, state_view k') /\ table_ok k' /\ others k' = others k
  | _ => False
  end.
Proof.
  remember (irqs k) as l eqn:Hl. revert k Hl.
  induction l as [|v l IH]; intros k Hl Hk Ht; cbn [wait_child]; cbn [procs current state_view];
    (destruct (waitpid_look target k Ht) as [-> ->|pid i p -> -> Hi Hz ->|pid -> -> ->]; [done| |]).
  all: try (destruct (reap_view k i p Ht Hi) as (-> & ? & ?); rewrite procs_of_elem;
    [|by apply Ht|by apply list_elem_of_lookup; eauto]; simpl; by rewrite (bool_decide_true _ Hz)).
  all: unfold mbind, M_bind, hlt; rewrite <- Hl.
  { done. }
  destruct (ok_tick _ _ Hk) as [H0 Hb]. pose proof (ok_irqs _ _ Hk) as Hv.
  rewrite <- Hl in Hb, Hv. rewrite zlen_cons in Hb. inversion Hv; subst.
  assert (ok D (set_irqs l k)) as Hk1 by (destruct Hk; split; try done; simpl; lia).
  assert (table_ok (set_irqs l k)) as Ht1 by (by destruct Ht).
  destruct (interrupt_view D _ v Hk1 Ht1) as (k2 & -> & Hv2 & Hk2 & Ht2 & Ho2); [done|simpl; lia|].
  assert (irqs k2 = l) as Hi2.
  { change (coming (state_view k2) = l). rewrite Hv2. unfold interrupted, timer. by repeat case_match. }
  specialize (IH k2 (eq_sym Hi2) Hk2 Ht2). rewrite Hv2 in IH. simpl in IH. rewrite Ho2 in IH. exact IH.
Qed.

Lemma serves_wait D k pid status :
  ok D k -> - 2 ^ 31 <= pid < 2 ^ 31 -> (status <> 0 -> in_dom D status 4 /\ aligned 4 status) ->
  table_ok k -> serves D (Wait pid status) k.
Proof.
  intros Hk Hp Hst Ht. set (target := if pid <=? 0 then None else Some pid).
  assert (serve (Wait pid status) k = sys_wait4 pid status k) as E.
  { change (serve (Wait pid status) k) with (sys_wait4 (as_i32 pid) status k). by rewrite as_i32_id. }
  assert ((if pid <=? 0 then None else Some (as_u32 pid)) = target) as Htg.
  { subst target. destruct (Z.leb_spec pid 0); [done|]. by rewrite wrap_id by (split; lia). }
  pose proof (waitpid_view D target k Hk Ht) as Hw.
  assert (safe D (waitpid target) (fun _ => True)) as Hsafe.
  { apply safe_wait_until. eapply safe_bind; [apply safe_waitpid_poll|]. intros r _. apply safe_ret.
    by destruct r as [[|]|]. }
  specialize (Hsafe k Hk). unfold serves, step. fold target. cbn [coming state_view].
  change (mkState _ _ _ _ _ _) with (state_view k). rewrite E.
  unfold sys_wait4, mbind, M_bind. rewrite Htg.
  destruct (waitpid target k) as [[[child code]|] k1|k1|k1|k1]; try done;
    destruct Hw as (-> & Ht1 & Ho1); [|by exists k1..].
  destruct (Z.eqb_spec status 0) as [->|Hne]; [by exists k1|]. destruct Hsafe as [Hk1 _].
  destruct (Hst Hne) as [Hd Ha]. rewrite (store_i32_aligned _ _ Ha), le32_status.
  fold (status_bytes code). destruct (mem_write_exact k1 status (status_bytes code)) as [-> _].
  { by apply (ok_mapped D). }
  eexists. split_and!; [done|done|by destruct Ht1|]. unfold others. simpl. exact Ho1.
Qed.

(** The machine advances its counters by at most one. *)
Lemma interrupted_bounds v s :
  next (interrupted v s) = next s /\ coming (interrupted v s) = coming s /\
  clock s <= clock (interrupted v s) <= clock s + 1.
Proof. unfold interrupted, timer. repeat case_match; simpl; split_and!; done || lia. Qed.

Lemma wait_child_bounds target l s :
  coming s = l ->
  next (wait_child target l s).2 = next s /\
  clock (wait_child target l s).2 + zlen (coming (wait_child target l s).2) <= clock s + zlen l.
Proof.
  revert s. induction l as [|v l IH]; intros s Hl; simpl; (case_match; [case_match|]);
    simpl; rewrite ?Hl; try lia.
  destruct (interrupted_bounds v (with_coming l s)) as (Hn & Hc & Hclock).
  destruct (IH (interrupted v (with_coming l s)) Hc). rewrite zlen_cons. simpl in *. lia.
Qed.

Lemma step_bounds c s :
  next (step c s).2 <= next s + 1 /\
  clock (step c s).2 + zlen (coming (step c s).2) <= clock s + zlen (coming s) + 1.
Proof.
  destruct c; cbn [step]; try (repeat case_match; cbn [fst snd next clock coming with_procs die yield with_current]; lia).
  - set (target := if pid <=? 0 then None else Some pid).
    pose proof (wait_child_bounds target (coming s) s eq_refl) as Hw.
    destruct (wait_child _ _ _) as [[[[]|]|] s']; simpl in *; try case_match; simpl; lia.
  - pose proof (interrupted_bounds v s) as (? & Hc & ?). cbn [snd]. rewrite Hc. lia.
Qed.

Lemma serves_call D c k :
  ok D k -> table_ok k -> pcall_ok D c -> NEXT_PID k + 1 < 2 ^ 32 ->
  TICK k + zlen (irqs k) + 1 < 2 ^ 64 -> serves D c k.
Proof.
  intros Hk Ht Hc Hn Hb. destruct c; simpl in Hc.
  - by apply (serves_same _ _ _ (CURRENT_PID k)).
  - by apply serves_getppid.
  - by apply serves_fork.
  - apply serves_execve; [|done]. intros Hp. apply (ok_mapped D); [done|]. by apply Hc.
  - destruct Hc. by apply serves_kill.
  - destruct Hc. by apply serves_wait.
  - by apply serves_exit.
  - destruct (interrupt_view D k v) as (k' & E & ? & ? & ? & ?); [done..|]. exists k'.
    unfold serve, mbind, M_bind. rewrite E. by split_and!.
Qed.

Lemma call_frame_ok D c : pcall_ok D c -> frame_ok D (call_frame c).
Proof.
  unfold frame_ok. destruct c; cbn -[in_dom is_u]; intros Hc; split_and!; try done; try naive_solver.
Qed.

(** The invariant of the running kernel is kept as well. *)
Lemma serve_ok D c k a k' :
  ok D k -> pcall_ok D c -> TICK k + zlen (irqs k) + 1 < 2 ^ 64 ->
  answer c (serve c k) = Some (a, k') -> ok D k'.
Proof.
  intros Hk Hc Hb Ha. assert (k' = state_of (serve c k)) as ->.
  { by destruct (serve c k); simplify_eq/=. }
  pose proof (proj2 (dispatch_safe D k (call_frame c) Hk (call_frame_ok D c Hc))) as Hs.
  destruct c; try done. destruct (interrupt_served D k v []) as (k1 & E & ? & _); [done..|].
  unfold serve, mbind, M_bind in *. by rewrite E.
Qed.

End kernel.

(** C7: The process calls implement the abstract process machine: from a
    running kernel whose table is in the order of PIDs, every sequence of
    [getpid], [getppid], [fork], [execve], [kill], [wait4] and [exit] by
    whichever process is current, and of interrupts, as long as the counters do
    not overflow, gives the answers of the machine, errors, waits and calls
    that never return included, and leaves the processes, the current PID, the
    clock, the memory and the interrupts to come of the machine; open files
    and the cursor are untouched.  (Paths and status pointers that are not null
    name mapped memory, a status is aligned where the build checks it.) *)
Theorem processes_refine `{Pl : Platform} `{Pr : Profile} (D : gset Z) (k : Kernel) (cs : list Call) :
  ok D k -> table_ok k -> Forall (pcall_ok D) cs -> NEXT_PID k + zlen cs < 2 ^ 32 ->
  TICK k + zlen (irqs k) + zlen cs < 2 ^ 64 ->
  exists k', serve_all cs k = Some ((steps cs (state_view k)).1, k') /\
    state_view k' = (steps cs (state_view k)).2 /\ ok D k' /\ table_ok k' /\ others k' = others k.
Proof.
  intros Hk Ht Hcs. revert k Hk Ht. induction Hcs as [|c cs Hc Hcs IH]; intros k Hk Ht Hn Hb.
  { by exists k. }
  rewrite zlen_cons in Hn, Hb. pose proof (zlen_nonneg cs).
  destruct (serves_call D c k) as (k1 & E & Hv & Ht1 & Ho); [done..|lia|lia|].
  assert (ok D k1) as Hk1 by (eapply serve_ok; [done|done|lia|done]).
  destruct (step_bounds c (state_view k)) as [Hn1 Hb1]. rewrite <- Hv in Hn1, Hb1.
  cbn [next clock coming state_view] in Hn1, Hb1.
  destruct (IH k1) as (k2 & E2 & Hv2 & Hk2 & Ht2 & Ho2); [done..|lia|lia|].
  exists k2. cbn [serve_all steps]. rewrite E. cbn [mbind option_bind]. rewrite E2, Hv in *.
  destruct (step c (state_view k)) as [a s1]. cbn [fst snd] in *.
  destruct (steps cs s1) as [rest s2]. split_and!; [done..|]. by rewrite Ho2.
Qed.

(** The kernel starts with such a table. *)
Lemma booted_table_ok `{Pl : Platform} kb d m l : table_ok (booted kb d m l).
Proof. split; repeat constructor; simpl; lia || done. Qed.

Lemma booted_ok `{Pl : Platform} D kb d m :
  mem_ok m -> dom m = D -> in_dom D VGA_BUFFER_ADDR 4000 -> ok D (booted kb d m []).
Proof. intros. split; [apply Vga.initial_inv|done..|by split|constructor|constructor|by vm_compute]. Qed.

(** The idle process is entered as its own child: while it is current and
    lives, with no other child, [wait4] does not report that there is none. *)
Lemma idle_waits_for_itself `{Pl : Platform} `{Pr : Profile} kb d m :
  let k := booted kb d m [] in
  let alone := set_table [idle_process] k in
  waitpid None alone = Waiting alone.
Proof. done. Qed.

(** ** A witness *)

#[local] Existing Instance dev.
#[local] Opaque demo_memory.

Definition demo_ten : list Call := replicate 10 (Interrupt 0x20).

(** A family: the idle process forks, init exits, the child is killed, and the
    idle process reaps both. *)
Definition demo_family : list Call :=
  [Fork] ++ demo_ten ++ [Getpid; Exit 7; Getpid; Getppid; Kill 2 15; Kill 9 15] ++ demo_ten ++
  [Getpid; Wait 9 0; Wait (-1) 8192; Wait 2 0; Wait 2 0].

Definition demo_booted : Kernel := booted (Pl := Demo.platform) tt [] demo_memory [].

Lemma demo_booted_ok : ok (dom demo_memory) demo_booted.
Proof. apply booted_ok; [exact (ok_bytes _ _ demo_running_ok)|done|exact (ok_vga _ _ demo_running_ok)]. Qed.

Lemma demo_family_ok : Forall (pcall_ok (dom demo_memory)) demo_family.
Proof.
  repeat (apply Forall_cons; split; [|]); try done; simpl; split; try lia.
  intros _. split; [|done]. intros i Hi. apply (demo_mapped _ (lit "hello")); [|by right]. unfold zlen. simpl. lia.
Qed.

Lemma processes_refine_witness :
  exists k', serve_all demo_family demo_booted
    = Some (([Returned 2] ++ replicate 10 Served ++
        [Returned 1; Gone; Returned 2; Returned 0; Returned 0; Returned (errno Srch)] ++
        replicate 10 Served ++
        [Returned 0; Returned (errno Srch); Returned 1; Returned 2; Returned (errno Srch)]), k') /\
    table_ok k'.
Proof.
  destruct (processes_refine (dom demo_memory) demo_booted demo_family) as (k' & E & _ & _ & Ht & _).
  - apply demo_booted_ok.
  - apply booted_table_ok.
  - apply demo_family_ok.
  - by vm_compute.
  - by vm_compute.
  - exists k'. split; [|exact Ht]. rewrite E. vm_compute. reflexivity.
Defined.
