(* ===== verification/Delivery.v ===== *)
(** * Signals are delivered

    Round robin visits every living process, and a timer tick delivers the
    signals of the process it finds current: a process with a fatal signal
    pending dies within ten ticks for each process of the table, whatever
    happens to the others.  Proved on the machine of [ProcSpec.v]. *)

From S2P Require Import Prelude RustStr KeyBuffer Mem Vga Kernel Signal Scheduler Keyboard Interrupts Process Syscall Lifecycle Preempt Runs ExitWait Files FileSpec Safety SafeCalls ProcSpec.

Import ProcMachine.

(** ** On the machine *)

(** The PIDs strictly between two others, going up and round. *)
Definition between (a b i : Z) : bool :=
  if a <? b then (a <? i) && (i <? b) else (a <? i) || (i <? b).

(** The living processes the CPU visits before [pid]. *)
Definition ahead (pid : Z) (s : State) : gset Z :=
  dom (filter (fun q => Is_true (alive q.2 && between (current s) pid q.1)) (procs s)).

(** Ticks until [pid] is current, at most. *)
Definition ticks_left (pid : Z) (s : State) : nat :=
  (10 * size (ahead pid s) + Z.to_nat (10 - clock s `mod` 10))%nat.

Lemma elem_of_ahead pid s i :
  i ∈ ahead pid s <-> exists p, procs s !! i = Some p /\ alive p = true /\ between (current s) pid i = true.
Proof.
  unfold ahead. rewrite elem_of_dom. split.
  - intros [p [Hp Hb]%map_lookup_filter_Some]. exists p. simpl in Hb.
    by apply Is_true_true, andb_true_iff in Hb as [??].
  - intros (p & Hp & Ha & Hb). exists p. apply map_lookup_filter_Some. split; [done|]. simpl.
    by rewrite Ha, Hb.
Qed.

(** The process waits for its turn: it lives and is not current, the current
    process is in the table. *)
Record waits (pid : Z) (p : Proc) (s : State) : Prop := {
  waits_proc : procs s !! pid = Some p;
  waits_alive : alive p = true;
  waits_current : is_Some (procs s !! current s);
  waits_turn : current s <> pid;
}.

(** A change to the current process that does not revive it takes nobody's
    turn. *)
Lemma ahead_alter pid s g :
  (forall p, alive (g p) = true -> alive p = true) ->
  ahead pid (with_procs (alter g (current s) (procs s)) s) ⊆ ahead pid s.
Proof.
  intros Hg i. rewrite !elem_of_ahead. simpl. intros (p & Hp & Ha & Hb).
  destruct (decide (i = current s)) as [->|Hne]; [|rewrite lookup_alter_ne in Hp by done; by exists p].
  unfold between in Hb. destruct (Z.ltb_spec (current s) pid); lia.
Qed.

(** The next process is [pid], or one of those before it, which are then
    fewer. *)
Lemma successor_ahead pid p s :
  waits pid p s ->
  successor s = pid \/
  (waits pid p (yield s) /\ (size (ahead pid (yield s)) < size (ahead pid s))%nat).
Proof.
  intros [Hp Ha [c Hc] Hne]. set (n := successor s).
  assert ((exists q, procs s !! n = Some q /\ alive q = true) /\
    (n = pid \/ between (current s) pid n = true)) as [(q & Hq & Haq) Hn].
  { subst n. unfold successor. pose proof (least_spec (fun _ _ => true) (procs s)) as H0.
    destruct (least (fun _ _ => true) (procs s)) as [low|]; [|by specialize (H0 pid p Hp)].
    rewrite Hc. pose proof (least_spec (fun i q => alive q && (current s <? i)) (procs s)) as H1.
    destruct (least (fun i q => alive q && _) _) as [i|].
    - destruct H1 as [(q & Hq & [Haq Hi]%andb_true_iff) Hl]. split; [by exists q|].
      specialize (Hl pid p Hp). rewrite Ha in Hl. cbn [andb] in Hl. unfold between.
      destruct (Z.ltb_spec (current s) pid); [specialize (Hl eq_refl)|]; lia.
    - pose proof (least_spec (fun _ q => alive q) (procs s)) as H2.
      destruct (least (fun _ q => alive q) _) as [i|]; [|by rewrite (H2 pid p Hp) in Ha].
      destruct H2 as [(q & Hq & Haq) Hl]. simpl. split; [by exists q|].
      specialize (Hl pid p Hp Ha). specialize (H1 pid p Hp). rewrite Ha in H1. cbn [andb] in H1.
      unfold between. rewrite H1. apply Z.ltb_ge in H1. lia. }
  destruct Hn as [Hn|Hn]; [by left|]. right.
  assert (n <> pid) as Hnp by (unfold between in Hn; destruct (Z.ltb_spec (current s) pid); lia).
  split; [split; simpl; fold n; eauto|].
  apply subset_size. split.
  - intros i. rewrite !elem_of_ahead. simpl. fold n. intros (r & Hr & Har & Hb). exists r.
    split_and!; [done..|]. unfold between in *. repeat case_match; lia.
  - intros Hsub. assert (n ∈ ahead pid (yield s)) as Hin.
    { apply Hsub, elem_of_ahead. by exists q. }
    apply elem_of_ahead in Hin as (r & _ & _ & Hb). simpl in Hb. fold n in Hb.
    unfold between in Hb. repeat case_match; lia.
Qed.

Lemma take_signals_alive p : alive (take_signals p) = true -> alive p = true.
Proof. unfold take_signals, alive. cbn [fate]. by repeat case_match; simplify_eq. Qed.

(** A tick brings the turn nearer. *)
Lemma tick_nearer pid p s :
  waits pid p s ->
  (waits pid p (timer s) /\ (ticks_left pid (timer s) < ticks_left pid s)%nat) \/
  (current (timer s) = pid /\ procs (timer s) !! pid = Some p).
Proof.
  intros Hw. set (s1 := mkState (alter take_signals (current s) (procs s)) (current s) (next s)
    (clock s + 1) (mem_of s) (coming s)).
  assert (waits pid p s1) as Hw1.
  { destruct Hw as [Hp Ha [c Hc] Hne]. split; simpl; [by rewrite lookup_alter_ne|done| |done].
    rewrite lookup_alter_eq, Hc. by eexists. }
  assert (ahead pid s1 ⊆ ahead pid s) as Hsub by exact (ahead_alter pid s take_signals take_signals_alive).
  apply subseteq_size in Hsub. unfold ticks_left, timer. fold s1.
  pose proof (Z.mod_pos_bound (clock s) 10 ltac:(lia)).
  pose proof (Z.div_mod (clock s) 10 ltac:(lia)). pose proof (Z.div_mod (clock s + 1) 10 ltac:(lia)).
  pose proof (Z.mod_pos_bound (clock s + 1) 10 ltac:(lia)).
  destruct (Z.eqb_spec ((clock s + 1) `mod` 10) 0) as [E|E].
  - destruct (successor_ahead pid p s1 Hw1) as [Hn|[Hy Hlt]].
    + right. split; [exact Hn|]. by apply Hw1.
    + left. split; [done|]. change (clock (yield s1)) with (clock s + 1). rewrite E. lia.
  - left. split; [done|]. change (clock s1) with (clock s + 1).
    assert ((clock s + 1) `mod` 10 = clock s `mod` 10 + 1) as -> by lia. lia.
Qed.

Lemma tick_takes pid p s :
  current s = pid -> procs s !! pid = Some p -> procs (timer s) !! pid = Some (take_signals p).
Proof.
  intros <- Hp. unfold timer. case_match; simpl; by rewrite lookup_alter_eq, Hp.
Qed.

(** Who has no signals is left alone by the timer. *)
Lemma ticks_keep n pid p s :
  procs s !! pid = Some p -> pending p = ∅ -> procs (Nat.iter n timer s) !! pid = Some p.
Proof.
  intros Hp He. induction n as [|n IH]; [done|]. simpl. revert IH. generalize (Nat.iter n timer s).
  intros s1 H1. assert (alter take_signals (current s1) (procs s1) !! pid = Some p) as H2.
  { destruct (decide (pid = current s1)) as [->|Hne]; [|by rewrite lookup_alter_ne].
    rewrite lookup_alter_eq, H1. simpl. unfold take_signals. rewrite He. by destruct p; simplify_eq/=. }
  unfold timer. by case_match.
Qed.

Lemma ticks_deliver n pid p s :
  waits pid p s -> (ticks_left pid s < n)%nat ->
  procs (Nat.iter n timer s) !! pid = Some (take_signals p).
Proof.
  revert s. induction n as [|n IH]; intros s Hw Hn; [lia|]. rewrite Nat.iter_succ_r.
  destruct (tick_nearer pid p s Hw) as [[Hw1 Hlt]|[Hc Hp]]; [apply IH; [done|lia]|].
  destruct n as [|n]; [unfold ticks_left in Hn; pose proof (Z.mod_pos_bound (clock s) 10 ltac:(lia)); lia|].
  rewrite Nat.iter_succ_r. apply ticks_keep; [by apply tick_takes|done].
Qed.

Lemma ahead_size pid p s : waits pid p s -> (size (ahead pid s) + 2 <= size (procs s))%nat.
Proof.
  intros [Hp Ha [c Hc] Hne]. rewrite <- size_dom.
  assert (({[pid]} ∪ {[current s]}) ∪ ahead pid s ⊆ dom (procs s)) as Hsub.
  { intros i. rewrite !elem_of_union, !elem_of_singleton, elem_of_ahead, elem_of_dom.
    intros [[->| ->]|(q & -> & _)]; eauto. }
  apply subseteq_size in Hsub. rewrite !size_union, !size_singleton in Hsub; [lia|set_solver|].
  intros i. rewrite elem_of_union, !elem_of_singleton, elem_of_ahead. unfold between.
  intros [->| ->] (q & _ & _ & Hb); case_match; lia.
Qed.

Lemma clock_ticks n s : clock (Nat.iter n timer s) = clock s + Z.of_nat n.
Proof.
  assert (forall s, clock (timer s) = clock s + 1) as H by (intros; unfold timer; by case_match).
  induction n as [|n IH]; [simpl; lia|]. rewrite Nat.iter_succ, H. lia.
Qed.

(** Ten ticks for each process are enough. *)
Lemma machine_delivers n pid p s :
  procs s !! pid = Some p -> alive p = true -> is_Some (procs s !! current s) ->
  (10 * size (procs s) <= n)%nat -> procs (Nat.iter n timer s) !! pid = Some (take_signals p).
Proof.
  intros Hp Ha Hc Hn. destruct (decide (current s = pid)) as [E|E].
  - assert (size (procs s) <> 0%nat) as H0.
    { intros H0%map_size_empty_iff. by rewrite H0 in Hp. }
    destruct n as [|n]; [lia|]. rewrite Nat.iter_succ_r.
    apply ticks_keep; [by apply tick_takes|done].
  - assert (waits pid p s) as Hw by done. apply ticks_deliver; [done|].
    pose proof (ahead_size pid p s Hw). unfold ticks_left.
    pose proof (Z.mod_pos_bound (clock s) 10 ltac:(lia)). lia.
Qed.

(** ** In the kernel *)

Lemma size_procs_of t : (size (procs_of t) <= length t)%nat.
Proof.
  unfold procs_of. induction t as [|p t IH]; csimpl; [by rewrite map_size_empty|].
  rewrite map_size_insert. case_match; simpl; lia.
Qed.

Lemma took_signals p q sig :
  proc_of q = take_signals (proc_of p) ->
  List.find (Z.testbit (p_pending_signals p)) by_strength = Some sig ->
  p_state q = Zombie /\ p_exit_code q = 128 + sig /\ signals (p_pending_signals q) = ∅.
Proof.
  intros Hq Hs. pose proof (f_equal fate Hq) as Hf. pose proof (f_equal pending Hq) as Hp.
  unfold take_signals in Hf, Hp. cbn [fate pending proc_of] in Hf, Hp.
  rewrite <- signals_strongest, Hs in Hf. case_bool_decide; by simplify_eq.
Qed.

Lemma fatal_number sig : sig ∈ by_strength -> 0 < sig <= 31.
Proof. revert sig. apply Forall_forall. unfold by_strength. by repeat constructor. Qed.

(** With a fatal signal posted, there is a strongest one. *)
Lemma posted_strongest mask sig :
  sig ∈ by_strength ->
  exists s, List.find (Z.testbit (Z.lor mask (2 ^ sig))) by_strength = Some s.
Proof.
  intros Hs. destruct (List.find _ by_strength) as [s|] eqn:E; [by exists s|].
  pose proof (find_none _ _ E sig (proj1 (list_elem_of_In _ _) Hs)) as Hb. cbn beta in Hb.
  pose proof (fatal_number sig Hs).
  by rewrite Z.lor_spec, Z.pow2_bits_true, orb_true_r in Hb by lia.
Qed.

Section kernel.
Context `{Pl : Platform} `{Pr : Profile}.
#[local] Existing Instance Pl.
#[local] Existing Instance Pr.

Lemma ticks_view n k :
  table_ok k -> 0 <= TICK k -> TICK k + Z.of_nat n < 2 ^ 64 ->
  exists k', run_ticks n k = Done tt k' /\ state_view k' = Nat.iter n timer (state_view k) /\
    table_ok k' /\ others k' = others k.
Proof.
  intros Hk H0. induction n as [|n IH]; intros H1; [by exists k|].
  destruct IH as (k1 & E1 & Hv1 & Ht1 & Ho1); [lia|].
  assert (TICK k1 = TICK k + Z.of_nat n) as Hc.
  { change (clock (state_view k1) = clock (state_view k) + Z.of_nat n). by rewrite Hv1, clock_ticks. }
  destruct (tick_view k1 Ht1) as (k2 & E2 & Hv2 & Ht2 & Ho2); [lia..|].
  exists k2. split_and!; [|simpl; by rewrite Hv2, Hv1|done|by rewrite Ho2].
  cbn [run_ticks]. unfold mbind, M_bind. by rewrite E1.
Qed.

(** C21: A killed process dies, whoever is running.  When [kill] posts
    one of SIGKILL, SIGTERM, SIGINT and SIGQUIT to a living process, it
    succeeds, and after ten timer ticks for each process of the table, or
    more, the target is a zombie with no signal left; its exit code is 128
    plus the strongest of the fatal signals that were pending. *)
Theorem killed_dies (k : Kernel) (pid sig : Z) (p : Process) (n : nat) :
  table_ok k -> find_proc (CURRENT_PID k) (PROCESS_TABLE k) <> None ->
  find_proc pid (PROCESS_TABLE k) = Some p -> p_state p <> Zombie -> sig ∈ by_strength ->
  0 <= TICK k -> TICK k + Z.of_nat n < 2 ^ 64 -> (10 * length (PROCESS_TABLE k) <= n)%nat ->
  exists k1 k2 q strongest, kill pid sig k = Done (Some tt) k1 /\ run_ticks n k1 = Done tt k2 /\
    find_proc pid (PROCESS_TABLE k2) = Some q /\ p_state q = Zombie /\
    List.find (Z.testbit (Z.lor (p_pending_signals p) (2 ^ sig))) by_strength = Some strongest /\
    p_exit_code q = 128 + strongest /\ signals (p_pending_signals q) = ∅.
Proof.
  intros Hk Hcur Hp Halive Hsig H0 H1 Hn.
  pose proof (fatal_number sig Hsig) as Hs.
  set (post := fun p => set_pending (Z.lor (p_pending_signals p) (as_u32 (Z.shiftl 1 sig))) p).
  set (k1 := set_table (update_proc pid post (PROCESS_TABLE k)) k).
  assert (table_ok k1) as Hk1 by by apply table_ok_update.
  destruct (ticks_view n k1 Hk1) as (k2 & E2 & Hv & _); [done..|].
  assert (find_proc pid (PROCESS_TABLE k1) = Some (post p)) as Hp1.
  { simpl. by rewrite find_update_eq, Hp. }
  assert (procs (state_view k2) !! pid = Some (take_signals (proc_of (post p)))) as Hq.
  { rewrite Hv. apply machine_delivers; cbn [procs current state_view].
    - by rewrite procs_of_lookup, Hp1.
    - unfold alive, proc_of. simpl. by rewrite bool_decide_eq_false_2.
    - rewrite procs_of_lookup. simpl. apply fmap_is_Some.
      destruct (decide (CURRENT_PID k = pid)) as [->|Hne];
        [by rewrite find_update_eq, Hp|rewrite find_update_ne by done].
      by apply not_eq_None_Some.
    - etrans; [|exact Hn]. pose proof (size_procs_of (PROCESS_TABLE k1)) as Hl. simpl in Hl.
      rewrite length_update_proc in Hl. simpl. lia. }
  cbn [procs state_view] in Hq. rewrite procs_of_lookup in Hq.
  destruct (find_proc pid (PROCESS_TABLE k2)) as [q|] eqn:Eq; [|done]. apply (inj Some) in Hq.
  destruct (posted_strongest (p_pending_signals p) sig Hsig) as [strongest Hst].
  destruct (took_signals (post p) q strongest Hq) as (Hz & Hcode & Hnone).
  { unfold post. cbn [p_pending_signals set_pending]. by rewrite as_u32_bit by lia. }
  exists k1, k2, q, strongest. split_and!; try done.
  unfold kill. rewrite Hp, Z.gtb_ltb, (proj2 (Z.ltb_ge _ _)), (proj2 (Z.eqb_neq _ _)) by lia. done.
Qed.

End kernel.

Definition demo_family_of_four : Kernel :=
  set_next_pid 4 (Demo.kernel [Demo.proc 0 0 Ready 0; Demo.proc 1 0 Ready (2 ^ 2);
    Demo.proc 2 1 Running 0; Demo.proc 3 1 Zombie 0] 2 0 ∅ []).

(** Killing the process that just had its turn: SIGINT is pending already,
    SIGTERM is the stronger one. *)
Lemma killed_dies_witness :
  let k := demo_family_of_four in
  exists k1 k2 q, kill 1 SIGTERM k = Done (Some tt) k1 /\ run_ticks (Pr := dev) 40 k1 = Done tt k2 /\
    find_proc 1 (PROCESS_TABLE k2) = Some q /\ p_state q = Zombie /\ p_exit_code q = 143.
Proof.
  cbv zeta.
  destruct (killed_dies (Pr := dev) demo_family_of_four 1 SIGTERM (Demo.proc 1 0 Ready (2 ^ 2)) 40)
    as (k1 & k2 & q & s & E1 & E2 & Eq & Hz & Hs & Hc & _).
  - split; repeat constructor; simpl; lia || done.
  - done.
  - reflexivity.
  - done.
  - unfold by_strength. by do 2 constructor.
  - done.
  - done.
  - simpl. lia.
  - exists k1, k2, q. split_and!; try done. rewrite Hc. by injection Hs as <-.
Defined.
