(* ===== verification/Abi.v ===== *)
(** * The system call interface, preempted

    The file machine ([FileSpec.v]) and the process machine ([ProcSpec.v])
    side by side over one memory and one clock: an abstract machine for
    [syscall/mod.rs] without the console descriptors.  Calls made one after the other, with
    interrupts between them and between their sections, are runs of it. *)

From S2P Require Import Prelude RustStr KeyBuffer Mem Vga Kernel Signal Scheduler Keyboard Interrupts Process Syscall Lifecycle Preempt Runs Atomicity ExitWait Files FileSpec Safety SafeCalls ProcSpec.

(** ** The machine *)

Module AbiMachine.

Record State := mkAbi { files : gmap Z OpenFile; core : ProcMachine.State }.

Inductive Call :=
| OnFile (c : FileCall)
| OnProcess (c : ProcMachine.Call)
| Other (n : Z).

Definition step (c : Call) (s : State) : ProcMachine.Answer * State :=
  match c with
  | OnFile c =>
    let '(r, f) := file_step (ProcMachine.clock (core s)) c
                     (mkFileState (files s) (ProcMachine.mem_of (core s)) []) in
    (ProcMachine.Returned r, mkAbi (fs_files f) (ProcMachine.with_mem (fs_memory f) (core s)))
  | OnProcess c =>
    let '(a, p) := ProcMachine.step c (core s) in (a, mkAbi (files s) p)
  | Other n => (ProcMachine.Returned (if n =? SYS_BRK then 0 else errno NoSys), s)
  end.

Fixpoint steps (cs : list Call) (s : State) : list ProcMachine.Answer * State :=
  match cs with
  | [] => ([], s)
  | c :: cs =>
    let '(a, s1) := step c s in
    let '(rest, s2) := steps cs s1 in
    (a :: rest, s2)
  end.

Lemma steps_app cs1 cs2 s :
  steps (cs1 ++ cs2) s
  = ((steps cs1 s).1 ++ (steps cs2 (steps cs1 s).2).1, (steps cs2 (steps cs1 s).2).2).
Proof.
  revert s. induction cs1 as [|c cs1 IH]; intros s; simpl; [by destruct (steps cs2 s)|].
  destruct (step c s) as [a s1]. rewrite IH. by destruct (steps cs1 s1).
Qed.

End AbiMachine.

Import ProcMachine AbiMachine.

(** What a call sent to the serial line before does not matter. *)
Lemma file_step_serial tick c files m out :
  let r := file_step tick c (mkFileState files m out) in
  let r0 := file_step tick c (mkFileState files m []) in
  r.1 = r0.1 /\ fs_files r.2 = fs_files r0.2 /\ fs_memory r.2 = fs_memory r0.2.
Proof.
  destruct c; cbn -[peek before_nul from_utf8 node_of_path]; repeat case_match; done.
Qed.

Section kernel.
Context `{Pl : Platform} `{Pr : Profile}.

Definition abi_view (k : Kernel) : AbiMachine.State := mkAbi (files_of k) (state_view k).

Definition abi_frame (c : AbiMachine.Call) : SyscallFrame :=
  match c with
  | OnFile c => frame_of c
  | OnProcess c => call_frame c
  | Other n => mkFrame n 0 0 0 0 0 0
  end.

Definition abi_serve (c : AbiMachine.Call) (k : Kernel) : option (Answer * Kernel) :=
  match c with
  | OnProcess c => answer c (serve c k)
  | _ => answer Getpid (dispatch (abi_frame c) k)
  end.

Fixpoint abi_serve_all (cs : list AbiMachine.Call) (k : Kernel) : option (list Answer * Kernel) :=
  match cs with
  | [] => Some ([], k)
  | c :: cs => '(a, k1) ← abi_serve c k; '(rest, k2) ← abi_serve_all cs k1; Some (a :: rest, k2)
  end.

(** The numbers with a handler. *)
Definition handled : list Z :=
  [SYS_READ; SYS_WRITE; SYS_OPEN; SYS_CLOSE; SYS_GETPID; SYS_FORK; SYS_EXECVE; SYS_EXIT; SYS_WAIT4;
   SYS_KILL; SYS_GETPPID; SYS_EXIT_GROUP].

Definition abi_ok (D : gset Z) (c : AbiMachine.Call) : Prop :=
  match c with
  | OnFile c => call_ok D c
  | OnProcess c => pcall_ok D c
  | Other n => n ∉ handled
  end.

(** The invariant of both machines. *)
Definition running (D : gset Z) (k : Kernel) : Prop := ok D k /\ table_ok k /\ offsets_ok k.

Lemma frame_of_ok D c : call_ok D c -> frame_ok D (frame_of c).
Proof.
  unfold frame_ok. destruct c; cbn -[in_dom is_u]; intros Hc; split_and!; try done.
  all: try (intros [H|H]; by inversion H).
  - intros _ Hp i Hi. destruct Hc as [_ Hc]. by apply Hc.
  - destruct Hc as (_ & ? & _). split; lia.
  - intros _ H0 H1. destruct Hc as (? & _ & Hb). rewrite as_i32_id by lia.
    split_and!; [lia..|intros i Hi; by apply Hb].
  - destruct Hc as (_ & ? & _). split; lia.
  - intros _ H0 H1. destruct Hc as (? & _ & Hb). rewrite as_i32_id by lia.
    split_and!; [lia|intros i Hi; by apply Hb].
Qed.

(** The three kinds of calls, each by the lemmas of its machine. *)
Definition abi_serves (D : gset Z) (c : AbiMachine.Call) (k : Kernel) : Prop :=
  exists k', abi_serve c k = Some ((step c (abi_view k)).1, k') /\
    abi_view k' = (step c (abi_view k)).2 /\ running D k'.

Lemma abi_file D c k : running D k -> call_ok D c -> abi_serves D (OnFile c) k.
Proof.
  intros (Hk & [Ho Hb Hs] & Hf) Hc. destruct (call_implements D c k Hc Hf (ok_dom _ _ Hk))
    as (k' & E & Hv & Hr & Hf' & Hd). exists k'.
  pose proof (proj2 (dispatch_safe D k (frame_of c) Hk (frame_of_ok D c Hc))) as Hk'.
  unfold abi_serve, abi_frame, step. rewrite E in Hk' |- *. simpl in Hk'.
  destruct (file_step_serial (TICK k) c (files_of k) (memory k) (serial_of k)) as (H1 & H2 & H3).
  unfold view in *. cbn [files core abi_view clock mem_of state_view].
  destruct (file_step (TICK k) c (mkFileState (files_of k) (memory k) [])) as [r0 f0].
  destruct (file_step (TICK k) c (mkFileState (files_of k) (memory k) (serial_of k))) as [r f].
  cbn [fst snd] in *. subst r f. cbn [fs_files fs_memory] in *.
  unfold rest_of in Hr. injection Hr as R1 R2 R3 R4 R5 R6 R7 R8 R9.
  split_and!; [done| |].
  - unfold abi_view, state_view, with_mem. cbn. by rewrite R1, R2, R3, R4, R9, H2, H3.
  - split_and!; [done| |done]. split; by rewrite ?R1, ?R2.
Qed.

Lemma abi_process D c k :
  running D k -> pcall_ok D c -> NEXT_PID k + 1 < 2 ^ 32 -> TICK k + zlen (irqs k) + 1 < 2 ^ 64 ->
  abi_serves D (OnProcess c) k.
Proof.
  intros (Hk & Ht & Hf) Hc Hn Hb. destruct (serves_call D c k) as (k' & E & Hv & Ht' & Ho); [done..|].
  exists k'. unfold abi_serve, step. cbn [core abi_view].
  destruct (ProcMachine.step c (state_view k)) as [a p]. cbn [fst snd] in *.
  unfold others in Ho. injection Ho as Hfd Hw. split_and!; [done| |].
  - unfold abi_view. rewrite Hv. f_equal. unfold files_of. by rewrite Hfd.
  - split_and!; [by eapply serve_ok|done|]. unfold offsets_ok. by rewrite Hfd.
Qed.

Lemma abi_other D n k : running D k -> n ∉ handled -> abi_serves D (Other n) k.
Proof.
  intros Hk Hn. exists k. split_and!; [|done|done..].
  unfold handled in Hn. repeat (apply not_elem_of_cons in Hn as [? Hn]).
  unfold abi_serve, abi_frame, dispatch. cbn [num rdi].
  repeat match goal with H : n <> ?c |- context [n =? ?c] => rewrite (proj2 (Z.eqb_neq n c) H) end.
  cbn [orb]. unfold step. by destruct (n =? SYS_BRK).
Qed.

Lemma abi_call D c k :
  running D k -> abi_ok D c -> NEXT_PID k + 1 < 2 ^ 32 -> TICK k + zlen (irqs k) + 1 < 2 ^ 64 ->
  abi_serves D c k.
Proof.
  intros. destruct c; [by apply abi_file|by apply abi_process|by apply abi_other].
Qed.

(** The counters of the machine advance by at most one. *)
Lemma abi_bounds c s :
  next (core (step c s).2) <= next (core s) + 1 /\
  clock (core (step c s).2) + zlen (coming (core (step c s).2)) <= clock (core s) + zlen (coming (core s)) + 1.
Proof.
  destruct c as [c|c|n]; unfold step.
  - destruct (file_step _ _ _). simpl. lia.
  - pose proof (step_bounds c (core s)). by destruct (ProcMachine.step c (core s)).
  - simpl. lia.
Qed.

(** ** Interrupts between the sections *)

(** The interrupts among the events, as calls of the machine. *)
Definition vectors (es : list event) : list AbiMachine.Call :=
  omap (fun e => match e with Irq v => Some (OnProcess (Interrupt v)) | _ => None end) es.

Definition results (l : list Answer) : list Z :=
  omap (fun a => match a with Returned r => Some r | _ => None end) l.

Lemma results_app l1 l2 : results (l1 ++ l2) = results l1 ++ results l2.
Proof. apply omap_app. Qed.

(** What is left of the counters after [n] more steps. *)
Definition room (n : Z) (k : Kernel) : Prop :=
  NEXT_PID k + n < 2 ^ 32 /\ TICK k + zlen (irqs k) + n < 2 ^ 64.

Lemma room_step c k k' n :
  0 <= n -> room (n + 1) k -> abi_view k' = (step c (abi_view k)).2 -> room n k'.
Proof.
  intros H0 [Hn Ht] Hv. destruct (abi_bounds c (abi_view k)) as [Hn1 Hb1].
  rewrite <- Hv in Hn1, Hb1. cbn [core abi_view next clock coming state_view] in Hn1, Hb1. split; lia.
Qed.

Lemma room_call D c k n :
  0 <= n -> running D k -> abi_ok D c -> room (n + 1) k ->
  exists k', abi_serve c k = Some ((step c (abi_view k)).1, k') /\
    abi_view k' = (step c (abi_view k)).2 /\ running D k' /\ room n k'.
Proof.
  intros H0 Hk Hc Hr. destruct (abi_call D c k) as (k' & ? & ? & ?); [done..|destruct Hr; lia|destruct Hr; lia|].
  exists k'. split_and!; [done..|]. by eapply room_step.
Qed.

Lemma interferes_view D es k k' n :
  0 <= n -> running D k -> Forall event_ok es -> room (zlen es + n) k -> interferes es k = Done tt k' ->
  results (steps (vectors es) (abi_view k)).1 = [] /\
  (steps (vectors es) (abi_view k)).2 = abi_view k' /\ running D k' /\ room n k'.
Proof.
  intros H0 Hk He. revert k Hk. induction He as [|e es He Hes IH]; intros k Hk Hr E.
  { injection E as <-. by rewrite Z.add_0_l in Hr. }
  rewrite zlen_cons in Hr. pose proof (zlen_nonneg es).
  assert (room (zlen es + n) k) as Hr0 by (destruct Hr; split; lia).
  cbn [interferes] in E. unfold mbind, M_bind in E. destruct e as [|v|d]; cbn [interfere] in E.
  - by apply IH.
  - destruct (room_call D (OnProcess (Interrupt v)) k (zlen es + n)) as (k1 & E1 & Hv & Hk1 & Hr1);
      [lia|done|done|destruct Hr; split; lia|].
    cbn [vectors omap list_omap]. fold (vectors es). cbn [steps].
    unfold abi_serve, serve, mbind, M_bind in E1.
    destruct (interrupt v [] k) as [[] k2|k2|k2|k2]; try done. injection E1 as ->.
    rewrite (surjective_pairing (step _ (abi_view k))), <- Hv.
    destruct (IH k1 Hk1 Hr1 E) as (? & ? & ? & ?). by destruct (steps (vectors es) (abi_view k1)).
  - apply (IH (set_input (KEY_BUFFER k) (KEYBOARD k) d k)); [|done|done]. destruct Hk as ([] & [] & ?). by split_and!; [split|split|].
Qed.

(** One call, preempted: the machine takes the interrupts of the events, with
    the call at one moment between them. *)
Definition is_call (c : AbiMachine.Call) : Prop :=
  match c with OnProcess (Interrupt _) => False | _ => True end.

Lemma preempted_call D c es k r k' n :
  0 <= n -> running D k -> abi_ok D c -> is_call c -> Forall event_ok es -> room (zlen es + 1 + n) k ->
  one_moment (abi_frame c) k -> run es (dispatch_task (abi_frame c)) k = Some (Return r, k') ->
  exists es1 es2, es = es1 ++ es2 /\
    let ms := vectors es1 ++ c :: vectors es2 in
    results (steps ms (abi_view k)).1 = [r] /\
    (steps ms (abi_view k)).2 = abi_view k' /\ running D k' /\ room n k'.
Proof.
  intros H0 Hk Hc Hi He Hr Hm Hrun.
  destruct (atomic_call (abi_frame c) k es r k' Hm Hrun) as (es1 & es2 & k1 & k2 & -> & E1 & Ec & E2).
  apply Forall_app in He as [He1 He2]. rewrite zlen_app in Hr.
  pose proof (zlen_nonneg es1). pose proof (zlen_nonneg es2).
  destruct (interferes_view D es1 k k1 (zlen es2 + 1 + n)) as (Ha1 & Hs1 & Hk1 & Hr1);
    [lia|done..|destruct Hr; split; lia|done|].
  destruct (room_call D c k1 (zlen es2 + n)) as (k2' & Es & Hv & Hk2 & Hr2);
    [lia|done..|destruct Hr1; split; lia|].
  assert (Some (Returned r, k2) = Some ((step c (abi_view k1)).1, k2')) as [= Ea <-].
  { rewrite <- Es. destruct c as [c|[]|m]; try done;
      unfold abi_serve, serve; cbn [abi_frame] in *; by rewrite Ec. }
  destruct (interferes_view D es2 k2 k' n) as (Ha2 & Hs2 & Hk' & Hr'); [done..|].
  exists es1, es2. split; [done|]. cbv zeta. rewrite steps_app, Hs1. cbn [steps].
  rewrite (surjective_pairing (step c (abi_view k1))), <- Hv, <- Ea.
  destruct (steps (vectors es2) (abi_view k2)) as [l2 s2]. cbn [fst snd] in *.
  rewrite results_app, Ha1. change (results (Returned r :: l2)) with (r :: results l2). by rewrite Ha2.
Qed.

(** Calls one after the other, each preempted by its own events. *)
Inductive preempted : list (AbiMachine.Call * list event) -> Kernel -> list Z -> Kernel -> Prop :=
| preempted_nil k : preempted [] k [] k
| preempted_cons c es cs k r k1 rs k2 :
    one_moment (abi_frame c) k -> run es (dispatch_task (abi_frame c)) k = Some (Return r, k1) ->
    preempted cs k1 rs k2 -> preempted ((c, es) :: cs) k (r :: rs) k2.

(** The calls in order, the interrupts around each of them in order. *)
Inductive interleaved : list (AbiMachine.Call * list event) -> list AbiMachine.Call -> Prop :=
| interleaved_nil : interleaved [] []
| interleaved_cons c es1 es2 cs ms :
    interleaved cs ms -> interleaved ((c, es1 ++ es2) :: cs) ((vectors es1 ++ c :: vectors es2) ++ ms).

Definition total_events (cs : list (AbiMachine.Call * list event)) : Z :=
  foldr (fun c n => zlen c.2 + 1 + n) 0 cs.

End kernel.

(** The system calls implement the machine: from a running kernel, every
    sequence of file calls, process calls, unknown numbers and interrupts, with
    arguments in range and buffers in memory, gives the machine's answers and
    leaves its open files, processes, clock and memory. *)
Lemma abi_refines `{Pl : Platform} `{Pr : Profile} (D : gset Z) (k : Kernel) (cs : list AbiMachine.Call) :
  running D k -> Forall (abi_ok D) cs -> room (zlen cs) k ->
  exists k', abi_serve_all cs k = Some ((AbiMachine.steps cs (abi_view k)).1, k') /\
    abi_view k' = (AbiMachine.steps cs (abi_view k)).2 /\ running D k'.
Proof.
  intros Hk Hcs. revert k Hk. induction Hcs as [|c cs Hc Hcs IH]; intros k Hk Hr.
  { by exists k. }
  rewrite zlen_cons in Hr. pose proof (zlen_nonneg cs).
  destruct (room_call D c k (zlen cs)) as (k1 & E & Hv & Hk1 & Hr1); [done..|destruct Hr; split; lia|].
  destruct (IH k1) as (k2 & E2 & Hv2 & Hk2); [done..|].
  exists k2. cbn [abi_serve_all AbiMachine.steps]. rewrite E. cbn [mbind option_bind]. rewrite E2, Hv in *.
  destruct (AbiMachine.step c (abi_view k)) as [a s1]. cbn [fst snd] in *. by destruct (AbiMachine.steps cs s1).
Qed.

(** C6: The same under preemption: when system calls run one after the
    other, interrupts and changes of the devices falling between any two
    sections of each, and return, then there is a moment for each call among
    its interrupts such that the machine, taking calls and interrupts in that
    order, returns the same results and ends in the state of the kernel.  The
    calls name memory that is mapped (256 bytes for a path) and, for a status,
    aligned; [read] and [write] name a descriptor from 3 up, which leaves out
    the console; calls without such a moment, [exit] and the write to a serial
    line, are excepted. *)
Theorem preempted_abi_refines `{Pl : Platform} `{Pr : Profile} (D : gset Z) (k k' : Kernel)
    (cs : list (AbiMachine.Call * list event)) (rs : list Z) :
  running D k -> Forall (fun c => abi_ok D c.1 /\ is_call c.1 /\ Forall event_ok c.2) cs ->
  room (total_events cs) k -> preempted cs k rs k' ->
  exists ms, interleaved cs ms /\ results (AbiMachine.steps ms (abi_view k)).1 = rs /\
    (AbiMachine.steps ms (abi_view k)).2 = abi_view k' /\ running D k'.
Proof.
  intros Hk Hcs Hr Hp. revert Hk Hcs Hr. induction Hp as [k|c es cs k r k1 rs k2 Hm Hrun Hp IH]; intros Hk Hcs Hr.
  { exists []. by split_and!; [constructor|..]. }
  inversion Hcs as [|? ? (Hc & Hi & He) Hcs']; subst. cbn [total_events foldr fst snd] in *.
  assert (0 <= total_events cs) as H0.
  { clear. unfold total_events. induction cs as [|c cs IH]; simpl; [done|]. pose proof (zlen_nonneg c.2). lia. }
  destruct (preempted_call D c es k r k1 (total_events cs)) as (es1 & es2 & -> & Hres & Hs & Hk1 & Hr1); [done..|].
  destruct (IH Hk1 Hcs' Hr1) as (ms & Hms & Hrs & Hs' & Hk2).
  exists ((vectors es1 ++ c :: vectors es2) ++ ms). split; [by constructor|].
  rewrite steps_app. cbn [fst snd]. rewrite Hs, results_app, Hres, Hrs. by split_and!.
Qed.

(** ** A witness

    A fork, a close and a wait, with ticks and a key in between. *)

#[local] Existing Instance dev.
#[local] Opaque demo_memory.

Definition demo_calls : list (AbiMachine.Call * list (event (Pl := Demo.platform))) :=
  [(OnProcess Fork, [Irq 0x20; Run; Irq 0x20]);
   (OnFile (Close 3), [Run; Irq 0x21; World (Pl := Demo.platform) [30]; Run]);
   (OnProcess (Wait 5 0), [Irq 0x20; Run; Run; Irq 0x20; Run; Run])].

Lemma demo_preempted m :
  exists k', preempted demo_calls (booted (Pl := Demo.platform) tt [] m []) [2; errno BadF; errno Srch] k'.
Proof.
  eexists. repeat (eapply preempted_cons; [by split_and!|vm_compute; reflexivity|]). constructor.
Qed.

Lemma preempted_abi_refines_witness :
  exists ms k', interleaved demo_calls ms /\
    results (AbiMachine.steps ms (abi_view demo_booted)).1 = [2; errno BadF; errno Srch] /\
    (AbiMachine.steps ms (abi_view demo_booted)).2 = abi_view k' /\ running (dom demo_memory) k'.
Proof.
  destruct (demo_preempted demo_memory) as [k' Hp].
  destruct (preempted_abi_refines (dom demo_memory) demo_booted k' demo_calls [2; errno BadF; errno Srch])
    as [ms H].
  - split_and!; [apply demo_booted_ok|apply booted_table_ok|constructor].
  - repeat (apply Forall_cons; split; [by split_and!; [..|repeat constructor]|]). constructor.
  - by split; vm_compute.
  - exact Hp.
  - by exists ms, k'.
Defined.
