(* ===== verification/UserMemory.v ===== *)
(** * User memory: console output and pointers

    What [write] on descriptors 1 and 2 shows on the terminal of [Vga.v] and
    sends to the serial line, and what the calls of [syscall/mod.rs] do with a
    pointer to memory that is not mapped. *)

From S2P Require Import Prelude RustStr KeyBuffer Mem Vga Kernel Signal Scheduler Keyboard Interrupts Process Syscall Lifecycle Preempt ExitWait Files FileSpec Safety.

(** ** Output *)

(** A write: descriptor, address and count. *)
Definition Output : Type := Z * Z * Z.

(** The text a write prints: its bytes when they are UTF-8, else nothing. *)
Definition shown (m : mem) (w : Output) : list Z :=
  let '(_, buf, count) := w in default [] (from_utf8 (peek m buf (Z.to_nat count))).

Section output.
Context `{Pl : Platform} `{Pr : Profile}.

(** Descriptor 1 or 2, and a buffer in memory outside the text buffer. *)
Definition output_ok (D : gset Z) (w : Output) : Prop :=
  let '(fd, buf, count) := w in
  (fd = 1 \/ fd = 2) /\ buf <> 0 /\ 0 <= count < 2 ^ 63 /\ in_dom D buf count /\
  (buf + count <= VGA_BUFFER_ADDR \/ VGA_BUFFER_ADDR + 4000 <= buf).

Definition write_frame (w : Output) : SyscallFrame :=
  let '(fd, buf, count) := w in mkFrame SYS_WRITE fd buf count 0 0 0.

Fixpoint write_all (ws : list Output) : M (list Z) :=
  match ws with
  | [] => mret []
  | w :: ws => r ← dispatch (write_frame w); rs ← write_all ws; mret (r :: rs)
  end.

(** Everything but screen, memory and trace. *)
Definition behind (k : Kernel) :=
  (PROCESS_TABLE k, NEXT_PID k, TICK k, CURRENT_PID k, FD_TABLE k, KEY_BUFFER k, KEYBOARD k,
   devices k, irqs k).

Lemma load_list_peek m a n : mapped m a (Z.of_nat n) -> load_list m a n = Ret (peek m a n).
Proof.
  revert a. induction n as [|n IH]; intros a Hm; [done|].
  apply mapped_cons in Hm as (b & Hb & Hm). simpl. rewrite (load8_ret _ _ _ Hb). simpl.
  rewrite IH by done. by rewrite peek_cons, Hb.
Qed.

Lemma mem_read_peek k a n : mapped (memory k) a (Z.of_nat n) -> mem_read a n k = Done (peek (memory k) a n) k.
Proof. intros Hm. unfold mem_read. by rewrite load_list_peek. Qed.

Lemma peek_frame m m' buf count :
  Vga.frame m m' -> (buf + count <= VGA_BUFFER_ADDR \/ VGA_BUFFER_ADDR + 4000 <= buf) ->
  peek m' buf (Z.to_nat count) = peek m buf (Z.to_nat count).
Proof.
  intros Hf Hd. unfold peek. apply list_fmap_ext. intros i j Hj. apply lookup_seq in Hj as [-> Hj].
  rewrite Hf; [done|]. lia.
Qed.

(** One write. *)
Lemma write_shows D w k :
  ok D k -> output_ok D w ->
  exists k', dispatch (write_frame w) k = Done w.2 k' /\ ok D k' /\ behind k' = behind k /\
    Vga.frame (memory k) (memory k') /\ serial_of k' = serial_of k ++ shown (memory k) w /\
    Vga.term_of (WRITER k') (memory k')
    = Vga.t_write_string (Vga.term_of (WRITER k) (memory k)) (shown (memory k) w).
Proof.
  destruct w as [[fd buf] count]. intros Hk (Hfd & Hb & Hc & Hd & _). cbn [write_frame snd shown].
  assert (dispatch (mkFrame SYS_WRITE fd buf count 0 0 0) k = sys_write fd buf count k) as ->.
  { change (sys_write (as_i32 fd) buf count k = sys_write fd buf count k).
    by destruct Hfd as [->| ->]. }
  unfold sys_write. destruct (Z.eqb_spec count 0) as [->|Hc0].
  { exists k. rewrite app_nil_r. by split_and!. }
  rewrite (proj2 (Z.eqb_neq _ _) Hb).
  assert ((fd =? 1) || (fd =? 2) = true) as -> by (by destruct Hfd as [->| ->]).
  unfold mbind, M_bind. rewrite mem_read_peek by (rewrite Z2Nat.id by lia; by apply (ok_mapped D)).
  destruct (from_utf8 _) as [s|]; cbn [default from_option id].
  - unfold serial_print, modify, kprint. cbn [WRITER memory add_io].
    destruct (Vga.write_string_spec (WRITER k) (memory k) s) as (w & m & E & Hw & Hm & Hf & Ht);
      [by apply Hk|by apply (ok_ready D)|]. rewrite E. eexists. split_and!.
    + by rewrite as_i64_id.
    + apply ok_set_screen; [by apply ok_add_io|done..].
    + done.
    + done.
    + apply serial_of_print.
    + done.
  - exists k. rewrite as_i64_id, app_nil_r by lia. by split_and!.
Qed.

End output.

(** C12: Console output: any sequence of writes to descriptors 1 and 2, from
    buffers in memory, returns the counts asked for; the texts, in order, are
    sent to the serial line and appear on the terminal, where a write whose
    bytes are not UTF-8 has no text; only the text buffer changes in memory,
    and nothing else of the kernel. *)
Theorem console_output `{Pl : Platform} `{Pr : Profile} (D : gset Z) (k : Kernel) (ws : list Output) :
  ok D k -> Forall (output_ok D) ws ->
  let texts := shown (memory k) <$> ws in
  exists k', write_all ws k = Done (snd <$> ws) k' /\ ok D k' /\ behind k' = behind k /\
    Vga.frame (memory k) (memory k') /\ serial_of k' = serial_of k ++ mjoin texts /\
    Vga.term_of (WRITER k') (memory k')
    = foldl Vga.t_write_string (Vga.term_of (WRITER k) (memory k)) texts.
Proof.
  intros Hk Hws. revert k Hk. induction Hws as [|w ws Hw Hws IH]; intros k Hk; cbn [write_all].
  { exists k. rewrite app_nil_r. by split_and!. }
  destruct (write_shows D w k Hk Hw) as (k1 & E & Hk1 & Hb & Hf & Hs & Ht).
  destruct (IH k1 Hk1) as (k2 & E2 & Hk2 & Hb2 & Hf2 & Hs2 & Ht2).
  assert (shown (memory k1) <$> ws = shown (memory k) <$> ws) as Hsame.
  { apply list_fmap_ext. intros i [[fd buf] count] Hi. rewrite Forall_forall in Hws.
    assert ((fd, buf, count) ∈ ws) as (_ & _ & _ & _ & Hd)%Hws by (apply list_elem_of_lookup; eauto).
    unfold shown. by rewrite (peek_frame _ _ _ _ Hf Hd). }
  rewrite Hsame in *. exists k2. unfold mbind, M_bind. rewrite E, E2. csimpl.
  split_and!; [done|done|by rewrite Hb2|by etrans|by rewrite Hs2, Hs, app_assoc|by rewrite Ht2, Ht].
Qed.

(** ** Pointers to nowhere *)

Section pointers.
Context `{Pl : Platform} `{Pr : Profile}.

Lemma mem_write_unmapped k a bs : memory k !! a = None -> bs <> [] -> mem_write a bs k = Panicked k.
Proof.
  intros Ha Hb. destruct bs as [|b bs]; [done|]. unfold mem_write. simpl. unfold store8.
  by rewrite Ha.
Qed.

Lemma mem_read_unmapped k a n : memory k !! a = None -> (0 < n)%nat -> mem_read a n k = Panicked k.
Proof.
  intros Ha Hn. destruct n as [|n]; [lia|]. unfold mem_read. simpl. unfold load8. by rewrite Ha.
Qed.

Lemma user_cstr_unmapped k a : memory k !! a = None -> a <> 0 -> user_cstr a k = Panicked k.
Proof.
  intros Ha H0. unfold user_cstr, mbind, M_bind, gets, read_user_cstr.
  rewrite (proj2 (Z.eqb_neq _ _) H0). cbn [read_cstr]. unfold load8. by rewrite Ha.
Qed.

Lemma read_node_unmapped k f buf count :
  memory k !! buf = None -> 0 < count -> 0 <= f_offset f < 2 ^ 64 ->
  delivered (TICK k) f count <> [] -> read_node (f_node f) buf count (f_offset f) k = Panicked k.
Proof.
  intros Hb Hc Ho. unfold delivered.
  assert (forall text, take (Z.to_nat count) (drop (Z.to_nat (f_offset f)) text) <> [] ->
    read_static buf count (f_offset f) text k = Panicked k) as Hs.
  { intros text Hd. unfold read_static, mbind, M_bind.
    rewrite mem_write_unmapped; [done..|]. by rewrite static_bytes_spec by lia. }
  destruct (f_node f); cbn [content read_node]; intros Hd; [by apply Hs|by apply Hs|by apply Hs|by apply Hs|..].
  - by rewrite drop_nil, take_nil in Hd.
  - unfold mbind, M_bind. by rewrite mem_write_unmapped.
  - unfold mbind, M_bind. by rewrite mem_write_unmapped.
  - by rewrite drop_nil, take_nil in Hd.
Qed.

End pointers.

(** C33: A bad pointer stops the machine: with [a] a pointer other than null
    to memory that is not mapped, [open] and [execve] of a path at [a], a
    [write] to the console from [a], a [read] to [a] of a file that has
    something to deliver, and a [wait4] that reaps a child with [a] as status
    pointer panic in the kernel, the last one after the child is gone; only the
    null pointer is answered with an error. *)
Theorem bad_pointer_panics `{Pl : Platform} `{Pr : Profile} (k : Kernel) (a : Z) :
  a <> 0 -> memory k !! a = None ->
  (forall flags, sys_open a flags k = Panicked k) /\
  sys_execve a k = Panicked k /\
  (forall fd count, fd = 1 \/ fd = 2 -> 0 < count -> sys_write fd a count k = Panicked k) /\
  (forall fd count f, 3 <= fd < 2 ^ 31 -> fds k fd = Some f -> 0 <= f_offset f < 2 ^ 64 -> 0 < count ->
     delivered (TICK k) f count <> [] -> sys_read fd a count k = Panicked k) /\
  (forall pid i p, pid <= 0 ->
     find_index (is_dead_child (CURRENT_PID k) None) (PROCESS_TABLE k) = Some (i, p) ->
     sys_wait4 pid a k = Panicked (set_table (delete i (PROCESS_TABLE k)) k)).
Proof.
  intros H0 Ha. pose proof (proj2 (Z.eqb_neq a 0) H0) as E0. split_and!.
  - intros flags. unfold sys_open, mbind, M_bind. by rewrite E0, user_cstr_unmapped.
  - unfold sys_execve, mbind, M_bind. by rewrite E0, user_cstr_unmapped.
  - intros fd count Hfd Hc. unfold sys_write. rewrite (proj2 (Z.eqb_neq count 0)), E0 by lia.
    assert ((fd =? 1) || (fd =? 2) = true) as -> by (by destruct Hfd as [->| ->]).
    unfold mbind, M_bind. by rewrite mem_read_unmapped by (done || lia).
  - intros fd count f Hfd Hf Ho Hc Hd. unfold sys_read.
    rewrite (proj2 (Z.eqb_neq count 0)), E0, (proj2 (Z.eqb_neq fd 0)) by lia.
    unfold mbind, M_bind. rewrite fd_lookup_spec, Hf by done. cbn [fmap option_fmap option_map].
    by rewrite read_node_unmapped.
  - intros pid i p Hp Hi. unfold sys_wait4, mbind, M_bind. rewrite (proj2 (Z.leb_le _ _)) by done.
    rewrite (waitpid_reaps _ _ _ _ Hi), E0. unfold store_i32. destruct (_ && _); [done|]. by rewrite mem_write_unmapped.
Qed.

(** ** Witnesses *)

#[local] Existing Instance dev.
#[local] Opaque demo_memory.

(** A greeting and an empty write. *)
Definition demo_outputs : list Output := [(1, 8192, 5); (2, 8192, 0)].

Lemma demo_outputs_ok D : in_dom D 8192 5 -> Forall (output_ok D) demo_outputs.
Proof.
  intros Hd. assert (in_dom D 8192 0) by (intros i Hi; lia).
  repeat (apply Forall_cons; split; [unfold output_ok, VGA_BUFFER_ADDR; split_and!; auto; lia|]).
  constructor.
Qed.

Lemma console_output_witness :
  exists k', write_all demo_outputs demo_running = Done [5; 0] k' /\
    serial_of k' = serial_of demo_running ++ mjoin (shown (memory demo_running) <$> demo_outputs).
Proof.
  destruct (console_output (dom demo_memory) demo_running demo_outputs) as (k' & E & _ & _ & _ & Hs & _).
  - apply demo_running_ok.
  - apply demo_outputs_ok. intros i Hi. by apply (demo_mapped _ (lit "hello")); [|right].
  - exists k'. split; [exact E|exact Hs].
Defined.

(** A character of two bytes written byte by byte is lost, although each write
    reports success. *)
Lemma split_character_lost (m : mem) (a : Z) :
  m !! a = Some 0xC3 -> m !! (a + 1) = Some 0xA9 ->
  shown m (1, a, 2) = [0xC3; 0xA9] /\ shown m (1, a, 1) = [] /\ shown m (1, a + 1, 1) = [].
Proof.
  intros H1 H2.
  assert (peek m a 2 = [0xC3; 0xA9]) as E2 by (by rewrite !peek_cons, H1, H2).
  assert (peek m a 1 = [0xC3]) as E1 by (by rewrite !peek_cons, H1).
  assert (peek m (a + 1) 1 = [0xA9]) as E3 by (by rewrite !peek_cons, H2).
  unfold shown. change (Z.to_nat 2) with 2%nat. change (Z.to_nat 1) with 1%nat. by rewrite E1, E2, E3.
Qed.

Definition demo_nowhere : Kernel :=
  Demo.kernel [Demo.proc 0 0 Running 0; Demo.proc 1 0 Zombie 0] 0 0 ∅ [].

Lemma bad_pointer_panics_witness :
  sys_open 4096 0 demo_nowhere = Panicked demo_nowhere /\
  exists k', sys_wait4 (-1) 4096 demo_nowhere = Panicked k' /\ length (PROCESS_TABLE k') = 1%nat.
Proof.
  destruct (bad_pointer_panics demo_nowhere 4096) as (Ho & _ & _ & _ & Hw); [done|done|].
  split; [apply Ho|]. eexists. split; [eapply Hw; [lia|reflexivity]|reflexivity].
Defined.
