(* ===== verification/Interleaving.v ===== *)
(** * Interrupts and the code they interrupt

    What the reader of the keyboard can rely on when keys arrive at any
    moment, and two places where the order of sections shows: keys that
    overtake each other, and an exit that is interrupted. *)

From S2P Require Import Prelude RustStr KeyBuffer Mem Vga Kernel Signal Scheduler Keyboard Interrupts Process Syscall Lifecycle Preempt ExitWait Files FileSpec Safety SafeCalls.

Section wakeup.
Context `{Pl : Platform} `{Pr : Profile}.

(** Nothing from outside takes a byte out of the ring. *)
Definition grows (k k' : Kernel) : Prop :=
  KeyRing.inv (KEY_BUFFER k) ->
  KeyRing.inv (KEY_BUFFER k') /\
  KeyRing.contents (KEY_BUFFER k) `prefix_of` KeyRing.contents (KEY_BUFFER k').

#[local] Instance grows_preorder : PreOrder grows.
Proof.
  split; [by intros k|]. intros k1 k2 k3 H1 H2 Hi.
  destruct (H1 Hi) as [Hi2 Hp2]. destruct (H2 Hi2) as [Hi3 Hp3]. split; [done|by etrans].
Qed.

#[local] Hint Extern 1 (grows _ _) => (intros ?; split; done) : moves.

Lemma grows_same {A} (m : M A) : (forall k, KEY_BUFFER (state_of (m k)) = KEY_BUFFER k) -> moves grows m.
Proof. intros H k Hi. by rewrite H. Qed.

Lemma grows_read_port p : moves grows (read_port p).
Proof. apply grows_same. intros k. unfold read_port. by destruct (port_read _ _). Qed.
Lemma grows_decode s : moves grows (decode_scancode s).
Proof. unfold decode_scancode, set_keyboard, serial_print. walk. Qed.
#[local] Hint Resolve grows_read_port grows_decode : moves.

Lemma grows_handle_interrupt : moves grows handle_interrupt.
Proof.
  unfold handle_interrupt. apply moves_bind; [apply _|auto with moves|]. intros s.
  apply moves_bind; [apply _|auto with moves|]. intros [b|]; [|auto with moves].
  intros k Hi. unfold mbind, M_bind, gets, lift.
  destruct (KeyRing.push_spec (KEY_BUFFER k) b Hi) as (q' & -> & Hi' & Hc). simpl.
  split; [done|]. rewrite Hc. case_match; [by apply prefix_app_r|done].
Qed.

Lemma grows_tick : moves grows tick.
Proof.
  unfold tick, count_tick, dispatch_signals, schedule, current_pid, serial_println, serial_print. walk.
Qed.
#[local] Hint Resolve grows_handle_interrupt grows_tick : moves.

Lemma grows_interfere e : moves grows (interfere e).
Proof.
  destruct e as [|v|d]; simpl; [walk| |walk]. unfold interrupt.
  destruct (idt !! v) as [h|]; [|by apply grows_same].
  destruct h; simpl; unfold notify_end_of_interrupt, serial_println, serial_print; walk;
    by apply grows_same.
Qed.

(** [loop { if let Some(ch) = next_char() { break ch } hlt(); }], the wait of
    the shell. *)
Definition read_key_task : task Z := Loop next_char_task Return.

(** The oldest byte of the ring. *)
Definition first_key (ch : Z) (k : Kernel) : Prop := exists rest, KeyRing.contents (KEY_BUFFER k) = ch :: rest.

Lemma first_key_outside e k k' ch D :
  ok D k -> first_key ch k -> interfere e k = Done tt k' -> first_key ch k'.
Proof.
  intros Hk [rest Hr] E. pose proof (grows_interfere e k (ok_ring _ _ Hk)) as [_ [l Hl]].
  rewrite E, Hr in Hl. simpl in Hl. by exists (rest ++ l).
Qed.

(** An event from outside, served. *)
Lemma outside_step {A} D e es (t : task A) k ch :
  exposed t = false -> event_ok e -> e <> Run -> ok D k -> first_key ch k ->
  TICK k + zlen (irqs k) + zlen (e :: es) < 2 ^ 64 ->
  exists k1, run (e :: es) t k = run es (wake e t) k1 /\ ok D k1 /\ first_key ch k1 /\
    TICK k1 + zlen (irqs k1) + zlen es < 2 ^ 64.
Proof.
  intros Ht He Hne Hk Hf Hb. rewrite zlen_cons in Hb. pose proof (zlen_nonneg es).
  destruct (interfere_ok D e k) as (k1 & E & Hk1 & Htk & Hi); [done..|lia|].
  exists k1. split_and!; [|done|by apply (first_key_outside e k k1 ch D)|rewrite Hi; lia].
  cbn [run]. rewrite advance_served by done. unfold served. by rewrite E.
Qed.

(** What a reader that has its byte does with the rest. *)
Lemma read_done D es k (ch : Z) :
  ok D k -> Forall event_ok es -> TICK k + zlen (irqs k) + zlen es < 2 ^ 64 ->
  exists k', run es (Return ch) k = Some (Return ch, k').
Proof.
  intros Hk He Hb.
  destruct (guarded_run D (fun _ => True) es (Return ch) k) as (t & k' & Hr & _);
    [by apply g_return|constructor|done..|].
  rewrite Hr. apply run_return in Hr as ->. by exists k'.
Qed.

(** Awake, the reader takes the byte on its second turn. *)
Lemma awake_reads D es t k ch :
  ok D k -> first_key ch k -> Forall event_ok es -> TICK k + zlen (irqs k) + zlen es < 2 ^ 64 ->
  (t = read_key_task /\ 2 <= turns es)%nat \/
  (t = turn next_char_task Return /\ 1 <= turns es)%nat ->
  exists k', run es t k = Some (Return ch, k').
Proof.
  revert t k. induction es as [|e es IH]; intros t k Hk Hf He Hb Ht;
    [unfold turns in Ht; simpl in Ht; lia|].
  inversion He as [|? ? He1 He2]; subst.
  unfold turns in Ht. rewrite filter_cons in Ht. destruct (decide (e = Run)) as [->|Hne].
  2:{ destruct (outside_step D e es t k ch) as (k1 & -> & Hk1 & Hf1 & Hb1);
        [by destruct Ht as [[-> _]|[-> _]]|done..|].
      apply IH; try done. by destruct Ht as [[-> Ht]|[-> Ht]]; [left|right]; destruct e. }
  rewrite zlen_cons in Hb. simpl in Ht. destruct Ht as [[-> Ht]|[-> Ht]].
  - cbn [run advance resume read_key_task]. apply IH; try done; [lia|]. right. split; [done|].
    unfold turns. lia.
  - pose proof (safe_try_read D k Hk) as Hs. destruct Hf as [rest Hr].
    destruct (KeyRing.pop_spec (KEY_BUFFER k) (ok_ring _ _ Hk)) as (q' & Hp & _).
    rewrite Hr in Hp. cbn [run advance resume turn next_char_task chain] in *.
    unfold try_read_char, mbind, M_bind, gets, lift in *. rewrite Hp in *. cbn in *.
    apply (read_done D); [apply Hs|done|]. simpl. lia.
Qed.

(** Asleep, it does so after the next interrupt. *)
Lemma asleep_reads D es1 v es2 k ch :
  ok D k -> first_key ch k -> Forall event_ok (es1 ++ Irq v :: es2) ->
  TICK k + zlen (irqs k) + zlen (es1 ++ Irq v :: es2) < 2 ^ 64 -> (2 <= turns es2)%nat ->
  exists k', run (es1 ++ Irq v :: es2) (Sleep read_key_task) k = Some (Return ch, k').
Proof.
  revert k. induction es1 as [|e es1 IH]; intros k Hk Hf He Hb Ht; cbn [app] in *;
    inversion He as [|? ? He1 He2]; subst.
  - destruct (outside_step D (Irq v) es2 (Sleep read_key_task) k ch) as (k1 & -> & ? & ? & ?);
      [done..|]. apply (awake_reads D); try done. by left.
  - destruct (decide (e = Run)) as [->|Hne].
    { cbn [run advance resume]. apply IH; try done. rewrite zlen_cons in Hb. lia. }
    destruct (outside_step D e (es1 ++ Irq v :: es2) (Sleep read_key_task) k ch)
      as (k1 & -> & ? & ? & ?); [done..|].
    destruct e as [|w|d]; [done| |by apply IH].
    apply (awake_reads D); try done. left. split; [done|]. unfold turns in *.
    rewrite filter_app, filter_cons, decide_False, length_app by done. lia.
Qed.

End wakeup.

(** C22: No key is slept through: a reader that has gone to sleep although the ring
    holds a byte, because the key came between its last look and its [hlt],
    returns the oldest byte after the next interrupt of any kind and two turns
    of its own, whatever else happens in between. *)
Theorem key_not_slept_through `{Pl : Platform} `{Pr : Profile} (D : gset Z) (k : Kernel)
    (es1 es2 : list event) (v ch : Z) (rest : list Z) :
  ok D k -> KeyRing.contents (KEY_BUFFER k) = ch :: rest ->
  Forall event_ok (es1 ++ Irq v :: es2) ->
  TICK k + zlen (irqs k) + zlen (es1 ++ Irq v :: es2) < 2 ^ 64 -> (2 <= turns es2)%nat ->
  exists k', run (es1 ++ Irq v :: es2) (Sleep read_key_task) k = Some (Return ch, k').
Proof. intros Hk Hr. apply (asleep_reads D); [done|by exists rest]. Qed.

(** ** Sections out of order *)

(** Runs of [n] sections. *)
Definition sections `{Pl : Platform} (n : nat) : list event := replicate n Run.

Section keys.
Context `{Pl : Platform} `{Pr : Profile}.

(** The controller holds a key that the decoder turns into the byte [ch]. *)
Definition types (kb : Keyboard) (d : Devices) (ch : Z) (kb' : Keyboard) (d' : Devices) : Prop :=
  exists scancode kb1 ev c, port_read d KEYBOARD_DATA_PORT = (scancode, d') /\
    add_byte kb scancode = (Some (Some ev), kb1) /\
    process_keyevent kb1 ev = (Some (Unicode c), kb') /\ ch = as_u8 c.

(** Its status register says so. *)
Definition full (d : Devices) : Prop :=
  exists status, port_read d KEYBOARD_STATUS_PORT = (status, d) /\
    Z.land status STATUS_OUTPUT_BUFFER_FULL <> 0.

(** The ring holds [l]. *)
Definition holds (l : list Z) (k : Kernel) : Prop :=
  KeyRing.inv (KEY_BUFFER k) /\ KeyRing.contents (KEY_BUFFER k) = l.

(** The rest of the state the reader depends on. *)
Definition context (k : Kernel) := (PROCESS_TABLE k, CURRENT_PID k, memory k).

Lemma decode_types k ch d' kb' :
  types (KEYBOARD k) (devices k) ch kb' d' ->
  exists k', (scancode ← read_port KEYBOARD_DATA_PORT; decode_scancode scancode) k = Done (Some ch) k' /\
    KEYBOARD k' = kb' /\ devices k' = d' /\ KEY_BUFFER k' = KEY_BUFFER k /\ context k' = context k.
Proof.
  intros (s & kb1 & ev & c & Hp & Ha & He & ->).
  unfold read_port, decode_scancode, mbind, M_bind, gets, set_keyboard, modify, serial_print, modify.
  rewrite Hp. simpl. rewrite Ha. simpl. rewrite He. simpl. by eexists.
Qed.

(** The keyboard interrupt puts the byte at the end of the ring. *)
Lemma key_interrupt k ch d' kb' l :
  types (KEYBOARD k) (devices k) ch kb' d' -> holds l k -> zlen l < KEY_BUF_SIZE ->
  exists k', interfere (Irq 0x21) k = Done tt k' /\
    KEYBOARD k' = kb' /\ devices k' = d' /\ holds (l ++ [ch]) k' /\ context k' = context k.
Proof.
  intros (k1 & E & Hk & Hd & Hb & Hc)%decode_types [Hi Hl] Hlen.
  assert (interrupt 0x21 [] = (_ ← handle_interrupt; notify_end_of_interrupt Key)) as Hh.
  { unfold interrupt. assert (idt !! 0x21 = Some keyboard_interrupt_handler) as -> by (by vm_compute). done. }
  cbn [interfere]. rewrite Hh. unfold handle_interrupt, mbind, M_bind in *.
  destruct (read_port _ k) as [s k0| | |]; try done. rewrite E. unfold gets, lift.
  destruct (KeyRing.push_spec (KEY_BUFFER k1) ch) as (q & -> & Hq & Hcq); [by rewrite Hb|].
  eexists. split; [done|]. split_and!; [done|done| |done].
  split; [done|]. simpl. rewrite Hcq, Hb, Hl.
  destruct (Z.ltb_spec (kb_count (KEY_BUFFER k)) KEY_BUF_SIZE) as [|Hge]; [done|].
  pose proof (KeyRing.length_contents (KEY_BUFFER k)) as Hn. rewrite Hl in Hn. unfold zlen in *. lia.
Qed.

Lemma try_holds k l :
  holds l k -> exists k', try_read_char k = Done (head l) k' /\ holds (tail l) k' /\
    KEYBOARD k' = KEYBOARD k /\ devices k' = devices k /\ context k' = context k.
Proof.
  intros [Hi Hl]. unfold try_read_char, mbind, M_bind, gets, lift.
  destruct (KeyRing.pop_spec _ Hi) as (q & -> & Hq & Hc). rewrite Hl in *. by eexists.
Qed.

Lemma poll_types k ch d' kb' l :
  full (devices k) -> types (KEYBOARD k) (devices k) ch kb' d' -> holds l k ->
  exists k', poll_char k = Done (Some ch) k' /\ holds l k' /\ context k' = context k.
Proof.
  intros (st & Hp & Hst) Ht [Hi Hl].
  destruct (decode_types (set_input (KEY_BUFFER k) (KEYBOARD k) (devices k) k) ch d' kb' Ht)
    as (k1 & E & _ & _ & Hb & Hc).
  unfold poll_char, mbind, M_bind in *. unfold read_port at 1. rewrite Hp, (proj2 (Z.eqb_neq _ _) Hst).
  exists k1. split; [exact E|]. split; [|done]. unfold holds. rewrite Hb. done.
Qed.

Lemma write_byte k a b :
  is_Some (memory k !! a) -> mem_write a [b] k = Done tt (set_screen (WRITER k) (<[a := b]> (memory k)) k).
Proof.
  intros [v Hv]. unfold mem_write. cbn [store_list]. unfold store8. by rewrite Hv.
Qed.

Lemma run_section {A X} es (m : M X) (next : X -> task A) k x k' :
  m k = Done x k' -> run (Run :: es) (Atomic m next) k = run es (next x) k'.
Proof. intros E. cbn [run advance resume]. by rewrite E. Qed.

Lemma run_outside {A} e es (t : task A) k k' :
  exposed t = false -> e <> Run -> interfere e k = Done tt k' ->
  run (e :: es) t k = run es (wake e t) k'.
Proof. intros Ht He E. cbn [run]. rewrite advance_served by done. unfold served. by rewrite E. Qed.

Lemma lively k k0 :
  (forall p, find_proc (CURRENT_PID k) (PROCESS_TABLE k) = Some p -> p_state p <> Zombie) ->
  context k0 = context k -> current_is_zombie k0 = Done false k0.
Proof.
  intros Hz [= Ht Hc _]. unfold current_is_zombie, mbind, M_bind, current_pid, gets. rewrite Ht, Hc.
  destruct (find_proc _ _) as [p|]; [|done]. by rewrite bool_decide_eq_false_2 by auto.
Qed.

(** The reader once it has its first byte, with another one in the ring. *)
Lemma reads_second k k0 buf x y l :
  mapped (memory k) buf 2 -> context k0 = context k -> holds (y :: l) k0 ->
  exists k', run (sections 3)
      (mem_write buf [x];;
       chain (read_more_task 1 buf 1) (fun read => Return (as_i64 read))) k0 = Some (Return 2, k') /\
    load_list (memory k') buf 2 = Ret [x; y].
Proof.
  intros Hm [= _ _ Hmem] Hh. assert (is_Some (memory k !! buf)) as H0.
  { replace buf with (buf + 0) by lia. apply Hm. lia. }
  assert (is_Some (memory k !! (buf + 1))) as H1 by (apply Hm; lia).
  change (sections 3) with [Run; Run; Run].
  rewrite <- Hmem in H0, H1. rewrite (run_section _ _ _ _ _ _ (write_byte k0 buf x H0)).
  set (k1 := set_screen _ _ k0). destruct (try_holds k1 (y :: l) Hh) as (k2 & E & _ & _ & _ & [= _ _ Hm2]).
  cbn [read_more_task next_char_task chain]. rewrite (run_section _ _ _ _ _ _ E). cbn [chain head].
  assert (is_Some (memory k2 !! (buf + 1))) as H2 by (rewrite Hm2; simpl; by rewrite lookup_insert_ne by lia).
  rewrite (run_section _ _ _ _ _ _ (write_byte k2 (buf + 1) y H2)).
  exists (set_screen (WRITER k2) (<[buf + 1 := y]> (memory k2)) k2). split; [by case_match|].
  apply (load_list_spec _ buf [x; y]). intros i b Hb. cbn [memory set_screen]. rewrite Hm2. simpl.
  destruct i as [|[|i]]; simpl in Hb; simplify_eq.
  - rewrite lookup_insert_ne by lia. rewrite Z.add_0_r. apply lookup_insert_eq.
  - apply lookup_insert_eq.
Qed.

(** C37: Keys overtake each other.  Two keys wait in the controller, decoded as
    [c1] and then [c2], the ring is empty, and the current process reads two
    bytes from the console.  With both keyboard interrupts before the call it
    gets [c1], [c2]; with the first one between the look into the ring and the
    look at the controller it gets [c2], [c1], the poll taking the second key
    while the first is in the ring. *)
Theorem keys_overtake (k : Kernel) (buf c1 c2 : Z) (kb1 kb2 : Keyboard) (d1 d2 : Devices) :
  holds [] k -> types (KEYBOARD k) (devices k) c1 kb1 d1 -> full d1 -> types kb1 d1 c2 kb2 d2 ->
  (forall p, find_proc (CURRENT_PID k) (PROCESS_TABLE k) = Some p -> p_state p <> Zombie) ->
  buf <> 0 -> mapped (memory k) buf 2 ->
  let read_two := dispatch_task (mkFrame SYS_READ 0 buf 2 0 0 0) in
  (exists k', run (Irq 0x21 :: Irq 0x21 :: sections 6) read_two k = Some (Return 2, k') /\
     load_list (memory k') buf 2 = Ret [c1; c2]) /\
  (exists k', run (sections 3 ++ Irq 0x21 :: sections 4) read_two k = Some (Return 2, k') /\
     load_list (memory k') buf 2 = Ret [c2; c1]).
Proof.
  intros Hr T1 Hf T2 Hz Hb Hm read_two.
  assert (read_two = read_console_task buf 2) as ->.
  { subst read_two. unfold dispatch_task, sys_read_task. simpl. by rewrite (proj2 (Z.eqb_neq _ _) Hb). }
  split.
  - destruct (key_interrupt k c1 d1 kb1 [] T1 Hr) as (k1 & E1 & Hk1 & Hd1 & Hr1 & X1); [done|].
    destruct (key_interrupt k1 c2 d2 kb2 [c1]) as (k2 & E2 & _ & _ & Hr2 & X2); [by rewrite Hk1, Hd1|done..|].
    destruct (try_holds k2 _ Hr2) as (k3 & E3 & Hr3 & _ & _ & X3).
    rewrite (run_outside _ _ _ k k1), (run_outside _ _ _ k1 k2) by done.
    change (sections 6) with (Run :: Run :: Run :: sections 3).
    cbn [run advance resume wake read_console_task read_first_task chain turn].
    rewrite (lively k k2) by (done || congruence). cbn [next_char_task chain resume].
    rewrite E3. cbn [head app chain fmap option_fmap option_map].
    apply (reads_second k k3 buf c1 c2 []); [done|congruence|done].
  - destruct (try_holds k [] Hr) as (k1 & E1 & Hr1 & Hk1 & Hd1 & X1).
    destruct (key_interrupt k1 c1 d1 kb1 []) as (k2 & E2 & Hk2 & Hd2 & Hr2 & X2); [by rewrite Hk1, Hd1|done..|].
    destruct (poll_types k2 c2 d2 kb2 [c1]) as (k3 & E3 & Hr3 & X3); [by rewrite Hd2|by rewrite Hk2, Hd2|done|].
    change (sections 3 ++ Irq 0x21 :: sections 4) with ([Run; Run; Run; Irq 0x21; Run] ++ sections 3).
    cbn [app run advance resume read_console_task read_first_task chain turn].
    rewrite (lively k k) by done. cbn [next_char_task chain resume].
    rewrite E1. cbn [head chain fmap option_fmap option_map].
    unfold served. rewrite E2. cbn [wake chain resume].
    rewrite E3. cbn [chain fmap option_fmap option_map].
    apply (reads_second k k3 buf c2 c1 []); [done|congruence|done].
Qed.

End keys.

(** ** An interrupted exit *)

Section exits.
Context `{Pl : Platform} `{Pr : Profile}.

Definition exit_frame (code : Z) : SyscallFrame := mkFrame SYS_EXIT code 0 0 0 0 0.

Lemma timer_interrupt : interrupt 0x20 [] = (_ ← tick; notify_end_of_interrupt Timer).
Proof.
  unfold interrupt. assert (idt !! 0x20 = Some timer_interrupt_handler) as -> by (by vm_compute). done.
Qed.

Lemma exit_mark_spec k code :
  NoDup (p_pid <$> PROCESS_TABLE k) ->
  exit_mark code k = Done tt (set_table (after_exit (CURRENT_PID k) code (PROCESS_TABLE k)) k).
Proof.
  intros Hnd. unfold exit_mark, mbind, M_bind, current_pid, gets, modify. do 2 f_equal.
  rewrite update_proc_map by done. unfold after_exit. by rewrite <- list_fmap_compose.
Qed.

(** What is left of [exit] after the mark. *)
Lemma exit_rest k code q :
  q ∈ PROCESS_TABLE k -> p_pid q = CURRENT_PID k ->
  run (sections 4)
    (pid <- getpid;; serial_println (exit_message code pid);; lock_table;;
     Locked force_schedule (fun _ => Stop (A := Z))) k
  = Some (Stop, set_current (rr_next (PROCESS_TABLE k) (CURRENT_PID k))
                  (add_io (Com1 (exit_message code (CURRENT_PID k) ++ [10])) k)).
Proof.
  intros Hq Hp. cbn -[exit_message]. unfold force_schedule.
  by rewrite (schedule_exact _ q).
Qed.

Lemma update_proc_same pid f t p :
  find_proc pid t = Some p -> f p = p -> update_proc pid f t = t.
Proof.
  intros Hp Hf. induction t as [|q t IH]; [done|]. unfold find_proc in *. simpl in *.
  destruct (p_pid q =? pid); [by simplify_eq; rewrite Hf|]. by rewrite IH.
Qed.

Lemma find_after_exit cur code t p :
  find_proc cur t = Some p ->
  find_proc cur (after_exit cur code t) = Some (reparent cur (make_zombie code p)).
Proof.
  assert (forall q, p_pid (reparent cur q) = p_pid q) as Hr by (intros; unfold reparent; by case_match).
  unfold find_proc, after_exit. induction t as [|q t IH]; [done|]. csimpl. rewrite Hr.
  destruct (Z.eqb_spec (p_pid q) cur) as [E|E]; simpl.
  - intros [= ->]. by rewrite (proj2 (Z.eqb_eq _ _) E).
  - rewrite (proj2 (Z.eqb_neq _ _) E). apply IH.
Qed.

(** The process that gets the CPU from an exiting one is another one. *)
Lemma successor_lives cur code t :
  NoDup (p_pid <$> t) -> Exists (fun q => runnable q = true /\ p_pid q <> cur) t ->
  exists q, q ∈ after_exit cur code t /\ runnable q = true /\ p_pid q <> cur /\
    rr_next (after_exit cur code t) cur = p_pid q.
Proof.
  assert (forall q, p_pid (reparent cur q) = p_pid q /\ p_state (reparent cur q) = p_state q) as Hr
    by (intros q; unfold reparent; by case_match).
  intros Hnd (q & Hq & Hrun & Hne)%Exists_exists.
  destruct (rr_next_runnable (after_exit cur code t) cur) as (q' & Hq' & Hr' & E).
  - apply Exists_exists. exists (reparent cur q). unfold runnable in *. destruct (Hr q) as [_ ->].
    split; [|done]. apply list_elem_of_fmap. exists q. by rewrite (proj2 (Z.eqb_neq _ _) Hne).
  - exists q'. split_and!; try done. apply list_elem_of_fmap in Hq' as (q0 & -> & _).
    unfold runnable in Hr'. destruct (Z.eqb_spec (p_pid q0) cur) as [E0|E0].
    + destruct (Hr (make_zombie code q0)) as [_ Hs]. by rewrite Hs in Hr'.
    + by rewrite (proj1 (Hr q0)).
Qed.

(** C38: An interrupted exit reports and skips the wrong process.  The current
    process exits, with no signal pending and another process able to run, on
    the last tick of its time slice.  Without a break the log names it, and the
    CPU goes to the process after it.  When the timer interrupt comes right
    after the mark, the log names that next process, which lives, and the CPU
    is taken from it at once for the one after. *)
Theorem exit_misreports (k : Kernel) (code : Z) (p : Process) :
  NoDup (p_pid <$> PROCESS_TABLE k) -> find_proc (CURRENT_PID k) (PROCESS_TABLE k) = Some p ->
  p_pending_signals p = 0 -> - 2 ^ 31 <= code < 2 ^ 31 ->
  Exists (fun q => runnable q = true /\ p_pid q <> CURRENT_PID k) (PROCESS_TABLE k) ->
  0 <= TICK k -> TICK k + 1 < 2 ^ 64 -> (TICK k + 1) `mod` TIMESLICE = 0 ->
  let t := after_exit (CURRENT_PID k) code (PROCESS_TABLE k) in
  let next := rr_next t (CURRENT_PID k) in
  (exists q, find_proc next t = Some q /\ runnable q = true /\ next <> CURRENT_PID k) /\
  (exists k', run (sections 5) (dispatch_task (exit_frame code)) k = Some (Stop, k') /\
     PROCESS_TABLE k' = t /\ CURRENT_PID k' = next /\
     trace k' = trace k ++ [Com1 (exit_message code (CURRENT_PID k) ++ [10])]) /\
  (exists k', run (Run :: Irq 0x20 :: sections 4) (dispatch_task (exit_frame code)) k = Some (Stop, k') /\
     PROCESS_TABLE k' = t /\ CURRENT_PID k' = rr_next t next /\
     trace k' = trace k ++ [Eoi 0x20; Com1 (exit_message code next ++ [10])]).
Proof.
  intros Hnd Hp Hsig Hcode Hex H0 H1 Hslice t next.
  assert (dispatch_task (exit_frame code) = sys_exit_task code) as ->.
  { unfold dispatch_task, exit_frame. simpl. by rewrite as_i32_id. }
  destruct (successor_lives (CURRENT_PID k) code (PROCESS_TABLE k)) as (q & Hq & Hr & Hne & Eq); [done..|].
  fold t next in Hq, Eq. set (k1 := set_table t k).
  assert (exit_mark code k = Done tt k1) as Em by by apply exit_mark_spec.
  assert (exists p1, p1 ∈ t /\ p_pid p1 = CURRENT_PID k /\ update_proc (CURRENT_PID k) deliver t = t)
    as (p1 & Hp1 & Ep1 & Hsame).
  { pose proof (find_after_exit _ code _ _ Hp) as Hf. fold t in Hf. eexists.
    destruct (find_proc_Some _ _ _ Hf) as [? ?]. split_and!; [done..|].
    eapply update_proc_same; [done|]. unfold deliver.
    assert (p_pending_signals (reparent (CURRENT_PID k) (make_zombie code p)) = 0) as -> by (unfold reparent; by case_match).
    done. }
  split_and!.
  - exists q. split_and!; [|done|by rewrite Eq]. apply find_proc_elem; [unfold t; by rewrite after_exit_pids|done..].
  - change (sections 5) with (Run :: sections 4). unfold sys_exit_task.
    rewrite (run_section _ _ _ _ _ _ Em), (exit_rest k1 code p1) by done. by eexists.
  - unfold sys_exit_task. rewrite (run_section _ _ _ _ _ _ Em).
    assert (interfere (Irq 0x20) k1 = Done tt (add_io (Eoi 0x20) (set_current next (set_tick (TICK k + 1) k1))))
      as Ei.
    { cbn [interfere]. rewrite timer_interrupt. unfold mbind, M_bind.
      rewrite (tick_exact k1 p1) by done. cbn [TICK k1 set_table PROCESS_TABLE CURRENT_PID].
      rewrite Hsame, Hslice. done. }
    rewrite (run_outside _ _ _ k1 _) by (done || exact Ei). cbn [wake].
    rewrite (exit_rest _ code q) by done. eexists. split; [done|]. split_and!; [done|done|].
    simpl. by rewrite <- app_assoc.
Qed.

(** A tick that finds the exiting process current, after its mark, delivers its
    signals: a fatal one replaces the exit code the log names. *)
Lemma exit_code_replaced k code p sig :
  NoDup (p_pid <$> PROCESS_TABLE k) -> find_proc (CURRENT_PID k) (PROCESS_TABLE k) = Some p ->
  List.find (Z.testbit (p_pending_signals p)) by_strength = Some sig -> - 2 ^ 31 <= code < 2 ^ 31 ->
  0 <= TICK k -> TICK k + 1 < 2 ^ 64 ->
  exists t k' p', run [Run; Irq 0x20] (dispatch_task (exit_frame code)) k = Some (t, k') /\
    find_proc (CURRENT_PID k) (PROCESS_TABLE k') = Some p' /\ p_exit_code p' = 128 + sig.
Proof.
  intros Hnd Hp Hsig Hcode H0 H1.
  assert (dispatch_task (exit_frame code) = sys_exit_task code) as ->.
  { unfold dispatch_task, exit_frame. simpl. by rewrite as_i32_id. }
  set (t := after_exit (CURRENT_PID k) code (PROCESS_TABLE k)). set (k1 := set_table t k).
  assert (exit_mark code k = Done tt k1) as Em by by apply exit_mark_spec.
  pose proof (find_after_exit _ code _ _ Hp) as Hf. fold t in Hf.
  destruct (find_proc_Some _ _ _ Hf) as [Hin Hpid].
  set (p1 := reparent (CURRENT_PID k) (make_zombie code p)) in *.
  assert (p_exit_code (deliver p1) = 128 + sig) as Hcd.
  { rewrite deliver_spec. assert (p_pending_signals p1 = p_pending_signals p) as ->
      by (unfold p1, reparent; by case_match). by rewrite Hsig. }
  unfold sys_exit_task. rewrite (run_section _ _ _ _ _ _ Em). cbn [run advance]. unfold served.
  cbn [interfere]. rewrite timer_interrupt. unfold mbind, M_bind.
  rewrite (tick_exact k1 p1) by done. do 2 eexists. exists (deliver p1). split; [done|]. split; [|done].
  assert (find_proc (CURRENT_PID k) (update_proc (CURRENT_PID k) deliver t) = Some (deliver p1)) as E.
  { rewrite find_update_eq by auto with kernel. by rewrite Hf. }
  by case_match.
Qed.

(** [getppid] caught by the timer with the process table locked never returns. *)
Lemma getppid_spins k es t k' :
  run (Run :: Irq 0x20 :: es) (dispatch_task (mkFrame SYS_GETPPID 0 0 0 0 0 0)) k = Some (t, k') ->
  t = Spin.
Proof.
  change (dispatch_task _) with sys_getppid_task. unfold sys_getppid_task.
  rewrite (run_section _ _ _ k tt k) by done. cbn [run advance]. rewrite Z.eqb_refl.
  destruct (count_tick k); [apply run_spin|done..].
Qed.

End exits.

(** ** Witnesses *)

#[local] Existing Instance dev.

#[local] Opaque demo_memory.

(** A key in the ring, the reader asleep. *)
Definition demo_key : Kernel (P := Demo.platform) :=
  set_input (mkKeyBuffer (<[0%nat := 97]> (replicate 256 0)) 0 1 1) tt [] demo_running.

Lemma demo_key_ok : ok (dom demo_memory) demo_key.
Proof.
  apply ok_set_input; [apply demo_running_ok|by split|]. vm_compute. by repeat constructor.
Qed.

Lemma key_not_slept_through_witness :
  exists k', run ([World (Pl := Demo.platform) []] ++ Irq 0x20 :: sections 2) (Sleep read_key_task) demo_key
    = Some (Return 97, k').
Proof.
  apply (key_not_slept_through (dom demo_memory) demo_key [World (Pl := Demo.platform) []]
    (sections 2) 0x20 97 []).
  - apply demo_key_ok.
  - reflexivity.
  - repeat constructor; done.
  - by vm_compute.
  - vm_compute. lia.
Defined.

(** Two keys wait in the controller. *)
Definition two_keys : Kernel (P := Demo.platform) :=
  set_input KeyRing.new tt [97; 98]
    (Demo.kernel [Demo.proc 0 0 Running 0] 0 0 (region 8192 [0; 0]) []).

Lemma keys_overtake_witness :
  exists k', run (sections 3 ++ Irq 0x21 :: sections 4)
      (dispatch_task (mkFrame SYS_READ 0 8192 2 0 0 0)) two_keys = Some (Return 2, k') /\
    load_list (memory k') 8192 2 = Ret [98; 97].
Proof.
  refine (proj2 (keys_overtake two_keys 8192 97 98 tt tt [98] [] _ _ _ _ _ _ _)).
  - split; [by split|reflexivity].
  - by exists 97, tt, 97, 97.
  - by exists 1.
  - by exists 98, tt, 98, 98.
  - by intros p [= <-].
  - done.
  - by apply mapped_region.
Defined.

(** Three processes, the first of which exits at the end of its time slice. *)
Definition three_processes : Kernel (P := Demo.platform) :=
  Demo.kernel [Demo.proc 5 0 Running 0; Demo.proc 6 0 Ready 0; Demo.proc 7 0 Ready 0] 5 9 ∅ [].

Lemma exit_misreports_witness :
  exists k', run (Run :: Irq 0x20 :: sections 4) (dispatch_task (exit_frame 3)) three_processes
      = Some (Stop, k') /\
    CURRENT_PID k' = 7 /\ trace k' = [Eoi 0x20; Com1 (exit_message 3 6 ++ [10])].
Proof.
  destruct (exit_misreports three_processes 3 (Demo.proc 5 0 Running 0)) as (_ & _ & k' & E & _ & Hc & Ht).
  - by_decide.
  - reflexivity.
  - reflexivity.
  - lia.
  - apply Exists_exists. exists (Demo.proc 6 0 Ready 0). split; [right; left|done].
  - done.
  - done.
  - reflexivity.
  - exists k'. split; [exact E|]. split; [exact Hc|exact Ht].
Defined.
