(* ===== verification/Console.v ===== *)
(** * Console: reading typed lines

    What [read] on descriptor 0 delivers, from the keyboard ring of
    [drivers/keyboard.rs] through [sys_read] of [syscall/mod.rs]; and a key
    press on its way from the controller port to the reader. *)

From S2P Require Import Prelude RustStr KeyBuffer Mem Vga Kernel Signal Scheduler Keyboard Interrupts Process Syscall Lifecycle Files.

(** What the second loop takes: up to [n] bytes, to the first line end. *)
Fixpoint line_rest (n : nat) (l : list Z) : list Z :=
  match n, l with
  | S n, c :: l => c :: if (c =? 10) || (c =? 13) then [] else line_rest n l
  | _, _ => []
  end.

(** What a read of [count] bytes takes from the queued bytes: the first byte,
    whatever it is, then the rest of a line. *)
Definition console_line (count : Z) (l : list Z) : list Z :=
  match l with
  | [] => []
  | c :: l => c :: line_rest (Z.to_nat (count - 1)) l
  end.

Section console.
Context `{Pl : Platform} `{Pr : Profile}.

(** The keyboard controller has nothing to deliver. *)
Definition controller_idle (d : Devices) : Prop :=
  exists s, port_read d KEYBOARD_STATUS_PORT = (s, d) /\ Z.land s STATUS_OUTPUT_BUFFER_FULL = 0.

(** [k'] is [k] after input and writes to memory; the ring holds [l]. *)
Definition after_input (k k' : Kernel) (l : list Z) : Prop :=
  KeyRing.inv (KEY_BUFFER k') /\ KeyRing.contents (KEY_BUFFER k') = l /\
  devices k' = devices k /\ dom (memory k') = dom (memory k) /\
  PROCESS_TABLE k' = PROCESS_TABLE k /\ CURRENT_PID k' = CURRENT_PID k /\
  FD_TABLE k' = FD_TABLE k /\ irqs k' = irqs k.

Lemma next_char_queued k c l :
  KeyRing.inv (KEY_BUFFER k) -> KeyRing.contents (KEY_BUFFER k) = c :: l ->
  exists k', next_char k = Done (Some c) k' /\ after_input k k' l /\ memory k' = memory k.
Proof.
  intros Hi Hc. destruct (KeyRing.pop_spec _ Hi) as (q & E & Hq & Hl). rewrite Hc in E, Hl.
  unfold next_char, try_read_char, mbind, M_bind, gets, lift. rewrite E.
  by eexists.
Qed.

Lemma next_char_none k :
  KeyRing.inv (KEY_BUFFER k) -> KeyRing.contents (KEY_BUFFER k) = [] ->
  controller_idle (devices k) ->
  exists k', next_char k = Done None k' /\ after_input k k' [] /\ memory k' = memory k.
Proof.
  intros Hi Hc (s & Hp & Hs). destruct (KeyRing.pop_spec _ Hi) as (q & E & Hq & Hl).
  rewrite Hc in E, Hl.
  unfold next_char, try_read_char, poll_char, read_port, mbind, M_bind, gets, lift. rewrite E.
  simpl. rewrite Hp, Hs. by eexists.
Qed.

Lemma after_input_trans k1 k2 k3 l l' :
  after_input k1 k2 l -> after_input k2 k3 l' -> after_input k1 k3 l'.
Proof.
  intros (?&?&?&?&?&?&?&?) (?&?&?&?&?&?&?&?). split_and!; congruence.
Qed.

Lemma after_input_mapped k k' l a n :
  after_input k k' l -> mapped (memory k) a n -> mapped (memory k') a n.
Proof.
  intros (_&_&_&Hd&_) Hm i Hi. apply elem_of_dom. rewrite Hd. apply elem_of_dom. by apply Hm.
Qed.

Lemma line_rest_length n l : (length (line_rest n l) <= n)%nat.
Proof.
  revert l. induction n as [|n IH]; intros [|c l]; simpl; try lia.
  case_match; simpl; [lia|]. specialize (IH l). lia.
Qed.

Lemma load_list_app m a n n' bs bs' :
  load_list m a n = Ret bs -> load_list m (a + Z.of_nat n) n' = Ret bs' ->
  load_list m a (n + n') = Ret (bs ++ bs').
Proof.
  revert a bs. induction n as [|n IH]; intros a bs.
  - intros [= <-]. by rewrite Z.add_0_r.
  - intros (b & bs1 & -> & Hb & Hl)%load_list_cons Hr. simpl. rewrite Hb. simpl.
    rewrite (IH (a + 1) bs1); [done..|]. rewrite <- Hr. f_equal. lia.
Qed.

Lemma load_list_frame m m' a n :
  (forall b, a <= b < a + Z.of_nat n -> m' !! b = m !! b) ->
  load_list m' a n = load_list m a n.
Proof.
  revert a. induction n as [|n IH]; intros a H; simpl; [done|].
  unfold load8. rewrite H by lia. destruct (m !! a); [|done]. simpl.
  by rewrite IH by (intros; apply H; lia).
Qed.

(** The second loop. *)
Lemma read_more_spec n buf read k l :
  KeyRing.inv (KEY_BUFFER k) -> KeyRing.contents (KEY_BUFFER k) = l ->
  controller_idle (devices k) -> 0 <= read -> mapped (memory k) buf (read + Z.of_nat n) ->
  let bs := line_rest n l in
  exists k', read_more n buf read k = Done (read + zlen bs) k' /\
    after_input k k' (drop (length bs) l) /\
    load_list (memory k') (buf + read) (length bs) = Ret bs /\
    forall a, ~ buf + read <= a -> memory k' !! a = memory k !! a.
Proof.
  revert read k l. induction n as [|n IH]; intros read k l Hi Hl Hd Hr Hm bs.
  { exists k. subst bs. simpl. by rewrite Z.add_0_r, drop_0. }
  destruct l as [|c l].
  { destruct (next_char_none k) as (k' & E & Ha & Hmem); [done..|]. exists k'.
    subst bs. simpl. unfold mbind, M_bind. rewrite E, Z.add_0_r, Hmem. done. }
  destruct (next_char_queued k c l) as (k1 & E & Ha & Hmem); [done..|].
  destruct (mem_write_spec k1 (buf + read) [c]) as (m' & Ew & Hld & Hdom & Hfr).
  { rewrite Hmem. intros i Hi'. rewrite <- Z.add_assoc. apply Hm. unfold zlen in Hi'. simpl in Hi'. lia. }
  set (k2 := set_screen (WRITER k1) m' k1).
  assert (after_input k k2 l) as Ha2.
  { destruct Ha as (?&?&?&?&?&?&?&?). split_and!; try done. simpl. congruence. }
  assert (forall a, ~ buf + read <= a -> memory k2 !! a = memory k !! a) as Hf2.
  { intros a Hna. simpl. rewrite Hfr, Hmem; [done|]. lia. }
  simpl. unfold mbind, M_bind. rewrite E, Ew. fold k2. subst bs. simpl.
  destruct ((c =? 10) || (c =? 13)).
  - exists k2. simpl in *. by rewrite drop_0.
  - destruct (IH (read + 1) k2 l) as (k3 & E3 & Ha3 & Hl3 & Hf3); [apply Ha2|apply Ha2| |lia| |].
    { destruct Ha2 as (_&_&->&_). done. }
    { eapply after_input_mapped; [exact Ha2|]. by replace (read + 1 + Z.of_nat n)
        with (read + Z.of_nat (S n)) by lia. }
    exists k3. rewrite E3, zlen_cons, Z.add_assoc. split_and!; [done| | |].
    + by eapply after_input_trans.
    + apply (load_list_app _ _ 1 _ [c]); [|by rewrite <- Z.add_assoc].
      rewrite <- Hld. apply load_list_frame. simpl length. intros b Hb. rewrite Hf3 by lia. done.
    + intros a Hna. rewrite Hf3 by lia. by apply Hf2.
Qed.


(** ** A key press *)

(** From key press to reader: when the controller delivers a scancode that the
    decoder turns into a character and the ring has room, the keyboard
    interrupt queues the low byte of that character behind the bytes already
    there, so that they are read first; with a full ring the key is dropped. *)
Theorem key_press_queued (k : Kernel) (fr : list Z) (sc : Z) (d : Devices)
    (kb1 kb2 : Keyboard) (e : KeyEvent) (c : Z) :
  KeyRing.inv (KEY_BUFFER k) ->
  port_read (devices k) KEYBOARD_DATA_PORT = (sc, d) ->
  add_byte (KEYBOARD k) sc = (Some (Some e), kb1) ->
  process_keyevent kb1 e = (Some (Unicode c), kb2) ->
  exists k', interrupt (as_vector Key) fr k = Done tt k' /\
    KEYBOARD k' = kb2 /\ devices k' = d /\ KeyRing.inv (KEY_BUFFER k') /\
    trace k' = trace k ++ [Com1 (utf8_char c); Eoi (as_vector Key)] /\
    KeyRing.contents (KEY_BUFFER k')
    = if decide (length (KeyRing.contents (KEY_BUFFER k)) < 256)%nat
      then KeyRing.contents (KEY_BUFFER k) ++ [as_u8 c]
      else KeyRing.contents (KEY_BUFFER k).
Proof.
  intros Hi Hp Ha He.
  change (interrupt (as_vector Key) fr) with (_ ← handle_interrupt; notify_end_of_interrupt Key).
  unfold handle_interrupt, decode_scancode, read_port, mbind, M_bind, gets, set_keyboard, modify, lift.
  rewrite Hp. simpl. rewrite Ha. simpl. rewrite He. simpl.
  destruct (KeyRing.push_spec (KEY_BUFFER k) (as_u8 c) Hi) as (q & -> & Hq & Hl).
  eexists. split; [done|]. simpl. split_and!; [done..| |].
  - by rewrite <- app_assoc.
  - rewrite Hl, KeyRing.length_contents. pose proof (KeyRing.inv_count _ Hi).
    unfold KEY_BUF_SIZE in *. destruct (Z.ltb_spec (kb_count (KEY_BUFFER k)) 256);
      case_decide; try done; lia.
Qed.

End console.

(** ** Witnesses *)

#[local] Existing Instance dev.

(** "ls" and a line end typed ahead, another "x" behind. *)
Definition demo_typed : Kernel :=
  let k := Demo.kernel [Demo.proc 0 0 Running 0] 0 0 (region 8192 (replicate 16 0)) [] in
  set_input (P := Demo.platform) (mkKeyBuffer (overwrite (replicate 256 0) [108; 115; 10; 120]) 0 4 4) tt [] k.

Definition demo_pressed : Kernel :=
  set_input (P := Demo.platform) (KEY_BUFFER demo_typed) tt [121] demo_typed.


Lemma key_press_queued_witness :
  exists k', interrupt 0x21 [] demo_pressed = Done tt k' /\
    KeyRing.contents (KEY_BUFFER k') = lit "ls" ++ [10] ++ lit "xy".
Proof.
  destruct (key_press_queued (Pl := Demo.platform) demo_pressed [] 121 [] tt tt 121 121)
    as (k' & E & _ & _ & _ & _ & Hq).
  - by split.
  - reflexivity.
  - reflexivity.
  - reflexivity.
  - exists k'. split; [exact E|]. rewrite Hq. by vm_compute.
Defined.
