(* ===== verification/Net.v ===== *)
(** * The network stack ([net/])

    Ethernet, IPv4, TCP and UDP: the records, their parsers and serialisers,
    the Internet checksum, and the stub sockets.  Bytes are [Z]s below 256,
    [&[u8]] is a list; a parser returns [None] for the source's [None] and
    panics where an index or a slice is out of range. *)

From S2P Require Import Prelude.

(** [u16::from_be_bytes], [u32::from_be_bytes], [u16::to_be_bytes]. *)
Definition from_be16 (a b : Z) : Z := a * 256 + b.
Definition from_be32 (a b c d : Z) : Z := ((a * 256 + b) * 256 + c) * 256 + d.
Definition to_be16 (v : Z) : list Z := [v / 256; v `mod` 256].

(** [data[a..b].try_into().ok()?] into an array of [n] bytes. *)
Definition to_array (n : Z) (s : list Z) : option (list Z) :=
  if decide (zlen s = n) then Some s else None.

(** [Option::?] inside code that may panic. *)
Definition try_ {A B} (o : option A) (k : A -> outcome (option B)) : outcome (option B) :=
  match o with Some a => k a | None => Ret None end.

(** ** Ethernet *)
Module Ethernet.

Definition MacAddress : Type := list Z.
Definition BROADCAST : MacAddress := replicate 6 0xFF.
Definition ZERO : MacAddress := replicate 6 0.

Record EthernetFrame := mkFrame {
  dst : MacAddress; src : MacAddress; ethertype : Z; payload : list Z }.

Definition ETHERTYPE_IPV4 : Z := 0x0800.
Definition ETHERTYPE_ARP : Z := 0x0806.
Definition ETHERTYPE_IPV6 : Z := 0x86DD.

Definition parse (data : list Z) : outcome (option EthernetFrame) :=
  if zlen data <? 14 then Ret None
  else
    s ← slice data 0 6;
    try_ (to_array 6 s) (fun dst =>
    s ← slice data 6 12;
    try_ (to_array 6 s) (fun src =>
    b12 ← index data 12;
    b13 ← index data 13;
    payload ← slice_from data 14;
    Ret (Some (mkFrame dst src (from_be16 b12 b13) payload)))).

Definition serialize (f : EthernetFrame) : list Z :=
  dst f ++ src f ++ to_be16 (ethertype f) ++ payload f.

(** The types of the fields: arrays of six bytes, a [u16], a byte vector. *)
Definition wf (f : EthernetFrame) : Prop :=
  zlen (dst f) = 6 /\ zlen (src f) = 6 /\ bytes_ok (dst f) /\ bytes_ok (src f) /\
  is_u16 (ethertype f) /\ bytes_ok (payload f).

End Ethernet.

(** ** IPv4 *)
Module Ip.

Definition Ipv4Addr : Type := list Z.
Definition LOOPBACK : Ipv4Addr := [127; 0; 0; 1].
Definition BROADCAST : Ipv4Addr := [255; 255; 255; 255].
Definition ANY : Ipv4Addr := [0; 0; 0; 0].

Record IpPacket := mkPacket {
  src : Ipv4Addr; dst : Ipv4Addr; protocol : Z; ttl : Z; payload : list Z }.

Definition PROTO_ICMP : Z := 1.
Definition PROTO_TCP : Z := 6.
Definition PROTO_UDP : Z := 17.

Section ip.
Context `{Pr : Profile}.

Definition parse (data : list Z) : outcome (option IpPacket) :=
  if zlen data <? 20 then Ret None
  else
    version_ihl ← index data 0;
    if negb (Z.shiftr version_ihl 4 =? 4) then Ret None
    else
      ihl ← mul_u 8 (Z.land version_ihl 0x0F) 4;
      ttl ← index data 8;
      protocol ← index data 9;
      s ← slice data 12 16;
      try_ (to_array 4 s) (fun src =>
      s ← slice data 16 20;
      try_ (to_array 4 s) (fun dst =>
      payload ← slice_from data ihl;
      Ret (Some (mkPacket src dst protocol ttl payload)))).

(** The first loop of [checksum], over [header.chunks(2)]. *)
Fixpoint sum_words (sum : Z) (header : list Z) : outcome Z :=
  match header with
  | a :: b :: rest => sum ← add_u 32 sum (from_be16 a b); sum_words sum rest
  | [a] => add_u 32 sum (wrap 32 (Z.shiftl a 8))
  | [] => Ret sum
  end.

(** The second loop: [while sum >> 16 != 0].  Two turns are enough for a
    [u32] ([fold_carry_done]). *)
Fixpoint fold_carry (fuel : nat) (sum : Z) : outcome Z :=
  match fuel with
  | O => Ret sum
  | S fuel =>
    if Z.shiftr sum 16 =? 0 then Ret sum
    else sum ← add_u 32 (Z.land sum 0xFFFF) (Z.shiftr sum 16); fold_carry fuel sum
  end.

Definition fold_fuel : nat := 3.

(** [!(sum as u16)]. *)
Definition checksum (header : list Z) : outcome Z :=
  sum ← sum_words 0 header;
  sum ← fold_carry fold_fuel sum;
  Ret (2 ^ 16 - 1 - as_u16 sum).

End ip.
End Ip.

(** ** TCP *)
Module Tcp.

(** The union of the flags the [bitflags!] block declares. *)
Definition TcpFlags_all : Z :=
  foldr Z.lor 0 [0x01; 0x02; 0x04; 0x08; 0x10; 0x20; 0x40; 0x80].

Record TcpSegment := mkSegment {
  src_port : Z; dst_port : Z; seq_num : Z; ack_num : Z; flags : Z; window : Z;
  payload : list Z }.

Section tcp.
Context `{Pr : Profile}.
(** [T::from_bits_truncate(bits)] of the [bitflags] crate, for a type whose
    flags have the union [all]. *)
Variable from_bits_truncate : Z -> Z -> Z.

Definition parse (data : list Z) : outcome (option TcpSegment) :=
  if zlen data <? 20 then Ret None
  else
    b0 ← index data 0; b1 ← index data 1; b2 ← index data 2; b3 ← index data 3;
    b4 ← index data 4; b5 ← index data 5; b6 ← index data 6; b7 ← index data 7;
    b8 ← index data 8; b9 ← index data 9; b10 ← index data 10; b11 ← index data 11;
    b12 ← index data 12;
    data_offset ← mul_u 8 (Z.shiftr b12 4) 4;
    b13 ← index data 13;
    b14 ← index data 14; b15 ← index data 15;
    payload ← slice_from data data_offset;
    Ret (Some (mkSegment (from_be16 b0 b1) (from_be16 b2 b3) (from_be32 b4 b5 b6 b7)
                 (from_be32 b8 b9 b10 b11) (from_bits_truncate TcpFlags_all b13)
                 (from_be16 b14 b15) payload)).

End tcp.

Inductive TcpState :=
| Closed | Listen | SynSent | SynReceived | Established | FinWait1 | FinWait2
| CloseWait | Closing | LastAck | TimeWait.

Record TcpSocket := mkSocket { state : TcpState; local_port : Z; remote_port : Z }.

Definition new (local_port : Z) : TcpSocket := mkSocket Closed local_port 0.

(** The stubs: [Err("... not yet implemented")] is [None]; the socket after. *)
Definition connect (s : TcpSocket) (_remote_port : Z) : option unit * TcpSocket := (None, s).
Definition send (s : TcpSocket) (_data : list Z) : option Z := None.
Definition recv (s : TcpSocket) (_buf : list Z) : option Z := None.

End Tcp.

(** ** UDP *)
Module Udp.

Record UdpDatagram := mkDatagram { src_port : Z; dst_port : Z; payload : list Z }.

Definition parse (data : list Z) : outcome (option UdpDatagram) :=
  if zlen data <? 8 then Ret None
  else
    b0 ← index data 0; b1 ← index data 1; b2 ← index data 2; b3 ← index data 3;
    b4 ← index data 4; b5 ← index data 5;
    let length := from_be16 b4 b5 in
    if (length <? 8) || (zlen data <? length) then Ret None
    else
      payload ← slice data 8 length;
      Ret (Some (mkDatagram (from_be16 b0 b1) (from_be16 b2 b3) payload)).

Definition serialize (d : UdpDatagram) : list Z :=
  let length := as_u16 (8 + zlen (payload d)) in
  to_be16 (src_port d) ++ to_be16 (dst_port d) ++ to_be16 length ++ to_be16 0 ++ payload d.

Definition wf (d : UdpDatagram) : Prop :=
  is_u16 (src_port d) /\ is_u16 (dst_port d) /\ bytes_ok (payload d).

Record UdpSocket := mkUdpSocket { local_port : Z }.

Definition bind (port : Z) : UdpSocket := mkUdpSocket port.
Definition send_to (s : UdpSocket) (_data : list Z) (_dst_port : Z) : option Z := None.
Definition recv_from (s : UdpSocket) (_buf : list Z) : option (Z * Z) := None.

End Udp.
