(* ===== verification/NetSpec.v ===== *)
(** * What the network code promises

    Round trips of the codecs, the exact conditions under which the parsers
    refuse a packet or panic, and a datagram on its way up the stack. *)

From S2P Require Import Prelude Net.

(** Evaluation of parsers on a list with an explicit front. *)
Ltac front_len := unfold zlen in *; simpl length in *; lia.
Ltac take_bytes :=
  repeat (erewrite index_lookup; [| done | reflexivity]; cbn [mbind outcome_bind]).

(** Name the first bytes of a long enough list. *)
Ltac byte d H := destruct d as [|? d]; [exfalso; front_len|].

Lemma from_to_be16 v : is_u16 v -> from_be16 (v / 256) (v `mod` 256) = v.
Proof. intros. unfold from_be16. pose proof (Z.div_mod v 256). lia. Qed.

Lemma to_from_be16 a b : is_u8 a -> is_u8 b -> to_be16 (from_be16 a b) = [a; b].
Proof.
  intros [? ?] [? ?]. unfold to_be16, from_be16.
  rewrite Z.div_add_l, Z.div_small, Z.add_0_r by lia.
  by rewrite Z.add_comm, Z.mod_add, Z.mod_small by lia.
Qed.

Lemma to_be16_bytes v : is_u16 v -> is_u8 (v / 256) /\ is_u8 (v `mod` 256).
Proof.
  intros [? ?]. split; [|apply Z.mod_pos_bound; lia].
  split; [apply Z.div_pos; lia|apply Z.div_lt_upper_bound; lia].
Qed.

Lemma from_be16_u16 a b : is_u8 a -> is_u8 b -> is_u16 (from_be16 a b).
Proof. unfold from_be16, is_u. lia. Qed.

(** ** Ethernet *)

Lemma eth_parse_front d0 d1 d2 d3 d4 d5 s0 s1 s2 s3 s4 s5 t0 t1 pl :
  Ethernet.parse (d0 :: d1 :: d2 :: d3 :: d4 :: d5 :: s0 :: s1 :: s2 :: s3 :: s4 :: s5
                  :: t0 :: t1 :: pl)
  = Ret (Some (Ethernet.mkFrame [d0; d1; d2; d3; d4; d5] [s0; s1; s2; s3; s4; s5]
                 (from_be16 t0 t1) pl)).
Proof.
  unfold Ethernet.parse. rewrite (proj2 (Z.ltb_ge _ _)) by front_len.
  erewrite (slice_at _ 0 6 [] [d0; d1; d2; d3; d4; d5]); [|reflexivity|done..]. cbn [mbind outcome_bind].
  unfold to_array at 1. rewrite decide_True by done. simpl try_.
  erewrite (slice_at _ 6 12 [d0; d1; d2; d3; d4; d5] [s0; s1; s2; s3; s4; s5]); [|reflexivity|done..].
  cbn [mbind outcome_bind]. unfold to_array. rewrite decide_True by done. simpl try_.
  take_bytes. rewrite slice_from_ret by front_len. done.
Qed.

(** The Ethernet codec is a bijection between well-formed frames and byte strings
    of at least 14 bytes: parsing a serialised frame gives it back, every long
    enough byte string parses to a frame that serialises to it, and shorter
    ones are refused; the parser never panics. *)
Theorem ethernet_roundtrip (f : Ethernet.EthernetFrame) (data : list Z) :
  (Ethernet.wf f -> Ethernet.parse (Ethernet.serialize f) = Ret (Some f)) /\
  (bytes_ok data -> 14 <= zlen data ->
     exists g, Ethernet.parse data = Ret (Some g) /\ Ethernet.wf g /\ Ethernet.serialize g = data) /\
  (zlen data < 14 -> Ethernet.parse data = Ret None).
Proof.
  split_and!.
  - destruct f as [dst src ty pl]. intros (Hd & Hs & _ & _ & Ht & _). simpl in *.
    do 6 (byte dst Hd). destruct dst; [|exfalso; front_len].
    do 6 (byte src Hs). destruct src; [|exfalso; front_len].
    unfold Ethernet.serialize. simpl. by rewrite eth_parse_front, from_to_be16.
  - intros Hb Hl. do 14 (byte data Hl). eexists. split; [apply eth_parse_front|].
    repeat (apply Forall_cons in Hb as [? Hb]). unfold Ethernet.wf, Ethernet.serialize.
    cbn [Ethernet.dst Ethernet.src Ethernet.ethertype Ethernet.payload].
    rewrite to_from_be16 by done. split_and!;
      first [done|by apply from_be16_u16|by repeat apply Forall_cons_2].
  - intros. unfold Ethernet.parse. by rewrite (proj2 (Z.ltb_lt _ _)).
Qed.

(** ** UDP *)

Lemma udp_parse_front a0 a1 b0 b1 l0 l1 c0 c1 pl :
  Udp.parse (a0 :: a1 :: b0 :: b1 :: l0 :: l1 :: c0 :: c1 :: pl)
  = Ret (let n := from_be16 l0 l1 in
         if decide (8 <= n <= 8 + zlen pl)
         then Some (Udp.mkDatagram (from_be16 a0 a1) (from_be16 b0 b1)
                      (take (Z.to_nat (n - 8)) pl))
         else None).
Proof.
  unfold Udp.parse. rewrite (proj2 (Z.ltb_ge _ _)) by front_len. take_bytes.
  set (n := from_be16 l0 l1).
  assert (zlen (a0 :: a1 :: b0 :: b1 :: l0 :: l1 :: c0 :: c1 :: pl) = 8 + zlen pl) as Hl
    by front_len.
  rewrite Hl. case_decide as H.
  - rewrite (proj2 (Z.ltb_ge n 8)), (proj2 (Z.ltb_ge _ n)) by lia. simpl orb.
    rewrite slice_ret by (rewrite ?Hl; lia). done.
  - destruct (Z.ltb_spec n 8); [done|]. by rewrite (proj2 (Z.ltb_lt _ n)) by lia.
Qed.

Lemma udp_serialize_parse d padding :
  Udp.wf d -> zlen (Udp.payload d) <= 65527 ->
  Udp.parse (Udp.serialize d ++ padding) = Ret (Some d).
Proof.
  destruct d as [sp dp pl]. intros (Hs & Hd & _) Hl. simpl in *.
  pose proof (zlen_nonneg pl). pose proof (zlen_nonneg padding).
  unfold Udp.serialize. simpl. rewrite udp_parse_front.
  rewrite (wrap_id 16) by (split; lia). rewrite !from_to_be16 by (done || split; lia).
  rewrite zlen_app. simpl. rewrite decide_True by lia.
  do 3 f_equal. replace (Z.to_nat (8 + zlen pl - 8)) with (length pl) by (unfold zlen; lia).
  by rewrite take_app_length.
Qed.

(** C28: The UDP codec: a datagram whose payload fits the 16-bit length field (at most
    65527 bytes) survives serialising and parsing, also with padding behind
    it; a longer payload never does, because [serialize] truncates the length. *)
Theorem udp_roundtrip (d : Udp.UdpDatagram) (padding : list Z) :
  Udp.wf d ->
  (zlen (Udp.payload d) <= 65527 ->
     Udp.parse (Udp.serialize d ++ padding) = Ret (Some d)) /\
  (zlen (Udp.payload d) > 65527 -> Udp.parse (Udp.serialize d) <> Ret (Some d)).
Proof.
  intros Hwf. split; [by apply udp_serialize_parse|].
  destruct d as [sp dp pl], Hwf as (Hs & Hd & _). simpl in *. intros Hl.
  unfold Udp.serialize. simpl. rewrite udp_parse_front. simpl.
  case_decide as H; [|done]. intros [= _ _ E]. apply (f_equal length) in E.
  rewrite length_take in E. pose proof (wrap_range 16 (8 + zlen pl) ltac:(lia)) as Hw.
  rewrite from_to_be16 in * by done. destruct Hw. unfold zlen in *. lia.
Qed.

(** The UDP parser is total: on any byte string it returns, and what it returns
    is exactly the ports and the bytes the length field covers, or [None]
    when there are fewer than 8 bytes or the length field is below 8 or beyond
    the data. *)
Theorem udp_parse_total (data : list Z) :
  Udp.parse data = Ret
    match data with
    | a0 :: a1 :: b0 :: b1 :: l0 :: l1 :: _ :: _ :: rest =>
      let n := from_be16 l0 l1 in
      if decide (8 <= n <= zlen data)
      then Some (Udp.mkDatagram (from_be16 a0 a1) (from_be16 b0 b1) (take (Z.to_nat (n - 8)) rest))
      else None
    | _ => None
    end.
Proof.
  do 8 (destruct data as [|? data];
    [unfold Udp.parse; by rewrite (proj2 (Z.ltb_lt _ _)) by front_len|]).
  rewrite udp_parse_front. simpl. f_equal.
  match goal with |- context [decide (8 <= _ <= zlen ?l)] =>
    replace (zlen l) with (8 + zlen data) by front_len end. done.
Qed.

(** ** IPv4 *)

Lemma nibbles v : is_u8 v -> Z.shiftr v 4 = v / 16 /\ Z.land v 0x0F = v `mod` 16.
Proof.
  intros _. split; [by rewrite Z.shiftr_div_pow2|].
  change 0x0F with (Z.ones 4). by rewrite Z.land_ones.
Qed.

Section ip.
Context `{Pr : Profile}.

Lemma ip_parse_front v b1 b2 b3 b4 b5 b6 b7 ttl proto c0 c1 s0 s1 s2 s3 d0 d1 d2 d3 rest :
  is_u8 v ->
  let data := v :: b1 :: b2 :: b3 :: b4 :: b5 :: b6 :: b7 :: ttl :: proto :: c0 :: c1
              :: s0 :: s1 :: s2 :: s3 :: d0 :: d1 :: d2 :: d3 :: rest in
  Ip.parse data
  = if v / 16 =? 4
    then payload ← slice_from data (4 * (v `mod` 16));
         Ret (Some (Ip.mkPacket [s0; s1; s2; s3] [d0; d1; d2; d3] proto ttl payload))
    else Ret None.
Proof.
  intros Hv data. unfold Ip.parse, data. rewrite (proj2 (Z.ltb_ge _ _)) by front_len.
  take_bytes. destruct (nibbles v Hv) as [-> ->]. destruct (v / 16 =? 4); [|done]. simpl negb.
  pose proof (Z.mod_pos_bound v 16 ltac:(lia)). unfold mul_u. rewrite in_width_ok by (split; lia).
  rewrite (Z.mul_comm _ 4). take_bytes.
  erewrite (slice_at _ 12 16 [v; b1; b2; b3; b4; b5; b6; b7; ttl; proto; c0; c1] [s0; s1; s2; s3]);
    [|reflexivity|done..]. cbn [mbind outcome_bind].
  unfold to_array at 1. rewrite decide_True by done. simpl try_.
  erewrite (slice_at _ 16 20 [v; b1; b2; b3; b4; b5; b6; b7; ttl; proto; c0; c1; s0; s1; s2; s3]
    [d0; d1; d2; d3]); [|reflexivity|done..]. cbn [mbind outcome_bind].
  unfold to_array. rewrite decide_True by done. done.
Qed.

(** C34: What the IPv4 parser does with any byte string: fewer than 20 bytes or a version
    other than 4 is refused; otherwise it panics exactly when the header
    length field points beyond the data, and returns a packet whose payload is
    everything behind the header when it does not (a header length below 20
    is not refused: the payload then starts inside the header). *)
Theorem ip_parse_outcome (data : list Z) (v : Z) (rest : list Z) :
  (zlen data < 20 -> Ip.parse data = Ret None) /\
  (bytes_ok data -> 20 <= zlen data -> data = v :: rest ->
     (v / 16 <> 4 -> Ip.parse data = Ret None) /\
     (v / 16 = 4 -> zlen data < 4 * (v `mod` 16) -> Ip.parse data = Panic) /\
     (v / 16 = 4 -> 4 * (v `mod` 16) <= zlen data ->
        exists p, Ip.parse data = Ret (Some p) /\
          Ip.payload p = drop (Z.to_nat (4 * (v `mod` 16))) data /\
          Ip.ttl p = nth 8 data 0 /\ Ip.protocol p = nth 9 data 0 /\
          Ip.src p = take 4 (drop 12 data) /\ Ip.dst p = take 4 (drop 16 data))).
Proof.
  split; [intros; unfold Ip.parse; by rewrite (proj2 (Z.ltb_lt _ _))|].
  intros Hb Hl ->. apply Forall_cons in Hb as [Hv _].
  do 19 (byte rest Hl). rewrite ip_parse_front by done. pose proof (Z.mod_pos_bound v 16 ltac:(lia)).
  split_and!.
  - intros H1. by rewrite (proj2 (Z.eqb_neq _ _) H1).
  - intros -> H2. simpl Z.eqb. by rewrite (proj2 (slice_from_panic _ (4 * (v `mod` 16)) ltac:(lia)) H2).
  - intros -> H2. simpl Z.eqb. rewrite slice_from_ret by lia. eexists. split; [done|].
    simpl. by rewrite !take_0.
Qed.

End ip.

(** ** TCP *)

Section tcp.
Context `{Pr : Profile}.
Variable from_bits_truncate : Z -> Z -> Z.

(** What the TCP parser does with any byte string: fewer than 20 bytes are
    refused; otherwise it panics exactly when the data offset field points
    beyond the segment, and returns the ports, numbers and window of the
    header with everything behind the data offset as payload when it does not. *)
Theorem tcp_parse_outcome (data : list Z) (off : Z) :
  (forall b, is_u8 b -> from_bits_truncate Tcp.TcpFlags_all b = Z.land b Tcp.TcpFlags_all) ->
  (zlen data < 20 -> Tcp.parse from_bits_truncate data = Ret None) /\
  (bytes_ok data -> 20 <= zlen data -> off = 4 * (nth 12 data 0 / 16) ->
     (zlen data < off -> Tcp.parse from_bits_truncate data = Panic) /\
     (off <= zlen data -> exists s, Tcp.parse from_bits_truncate data = Ret (Some s) /\
        Tcp.payload s = drop (Z.to_nat off) data /\
        to_be16 (Tcp.src_port s) ++ to_be16 (Tcp.dst_port s) = take 4 data /\
        Tcp.flags s = nth 13 data 0 /\ to_be16 (Tcp.window s) = take 2 (drop 14 data))).
Proof.
  intros Htr.
  split; [intros; unfold Tcp.parse; by rewrite (proj2 (Z.ltb_lt _ _))|].
  intros Hb Hl Hoff. do 20 (byte data Hl). repeat (apply Forall_cons in Hb as [? Hb]).
  cbn [nth] in Hoff. unfold Tcp.parse. rewrite (proj2 (Z.ltb_ge _ _)) by front_len. take_bytes.
  match goal with H : off = 4 * (?b / 16) |- _ =>
    destruct (nibbles b) as [-> _]; [done|];
    assert (0 <= b / 16 < 16) by (split; [apply Z.div_pos|apply Z.div_lt_upper_bound];
      unfold is_u in *; lia)
  end.
  unfold mul_u. rewrite in_width_ok by (split; lia). cbn [mbind outcome_bind].
  rewrite (Z.mul_comm _ 4), <- Hoff. take_bytes. split; intros Ho.
  - by rewrite (proj2 (slice_from_panic _ off ltac:(lia)) Ho).
  - rewrite slice_from_ret by lia. eexists. split; [done|].
    cbn [Tcp.payload Tcp.src_port Tcp.dst_port Tcp.flags Tcp.window nth take drop].
    rewrite !to_from_be16, Htr by done. split_and!; try done.
    change Tcp.TcpFlags_all with (Z.ones 8). rewrite Z.land_ones by lia. by apply Z.mod_small.
Qed.

End tcp.

(** ** Up the stack *)

(** An IPv4 packet as RFC 791 lays it out, with [4 * n] bytes of options. *)
Definition ip_encode (tos len0 len1 id0 id1 fr0 fr1 ck0 ck1 : Z) (p : Ip.IpPacket)
    (options : list Z) : list Z :=
  [64 + (5 + zlen options / 4); tos; len0; len1; id0; id1; fr0; fr1; Ip.ttl p; Ip.protocol p;
   ck0; ck1] ++ Ip.src p ++ Ip.dst p ++ options ++ Ip.payload p.

Lemma ip_parse_encode `{Pr : Profile} tos len0 len1 id0 id1 fr0 fr1 ck0 ck1 p options :
  zlen (Ip.src p) = 4 -> zlen (Ip.dst p) = 4 ->
  zlen options `mod` 4 = 0 -> zlen options <= 40 ->
  Ip.parse (ip_encode tos len0 len1 id0 id1 fr0 fr1 ck0 ck1 p options) = Ret (Some p).
Proof.
  destruct p as [src dst proto ttl pl]. simpl. intros Hs Hd Hm Ho.
  do 4 (byte src Hs). destruct src; [|exfalso; front_len].
  do 4 (byte dst Hd). destruct dst; [|exfalso; front_len].
  pose proof (zlen_nonneg options) as H0. pose proof (Z.div_mod (zlen options) 4 ltac:(lia)) as Hdm.
  set (n := zlen options / 4) in *. unfold ip_encode. fold n. cbn [app Ip.src Ip.dst Ip.ttl Ip.protocol Ip.payload].
  rewrite ip_parse_front by (split; lia).
  replace ((64 + (5 + n)) / 16) with 4 by (apply Z.div_unique with (5 + n); lia).
  replace ((64 + (5 + n)) `mod` 16) with (5 + n) by (apply Z.mod_unique with 4; lia).
  simpl Z.eqb. rewrite slice_from_ret.
  - replace (Z.to_nat (4 * (5 + n))) with (20 + length options)%nat by (unfold zlen in *; lia).
    simpl. by rewrite drop_app_length.
  - rewrite !zlen_cons, zlen_app. pose proof (zlen_nonneg pl). lia.
Qed.

(** C27: A datagram travels up the stack: a UDP datagram, put into an IPv4 packet
    with any options, put into an Ethernet frame and padded, comes out again
    when the Ethernet, IPv4 and UDP parsers are applied to each other's
    payloads, with the addresses, the protocol and the time to live intact.
    (The comment on [Ipv4Packet] says options are not supported; [parse] skips
    them.) *)
Theorem stack_delivers `{Pr : Profile} (d : Udp.UdpDatagram) (mac_dst mac_src : list Z)
    (ip_src ip_dst options padding : list Z) (ttl tos len0 len1 id0 id1 fr0 fr1 ck0 ck1 : Z) :
  Udp.wf d -> zlen (Udp.payload d) <= 65527 -> zlen mac_dst = 6 -> zlen mac_src = 6 ->
  zlen ip_src = 4 -> zlen ip_dst = 4 -> zlen options `mod` 4 = 0 -> zlen options <= 40 ->
  let p := Ip.mkPacket ip_src ip_dst Ip.PROTO_UDP ttl (Udp.serialize d ++ padding) in
  let f := Ethernet.mkFrame mac_dst mac_src Ethernet.ETHERTYPE_IPV4
             (ip_encode tos len0 len1 id0 id1 fr0 fr1 ck0 ck1 p options) in
  Ethernet.parse (Ethernet.serialize f) = Ret (Some f) /\
  Ip.parse (Ethernet.payload f) = Ret (Some p) /\
  Udp.parse (Ip.payload p) = Ret (Some d).
Proof.
  intros Hd Hl Hm1 Hm2 Hs1 Hs2 Ho1 Ho2 p f. split_and!.
  - subst f. do 6 (byte mac_dst Hm1). destruct mac_dst; [|exfalso; front_len].
    do 6 (byte mac_src Hm2). destruct mac_src; [|exfalso; front_len].
    unfold Ethernet.serialize. cbn [app Ethernet.dst Ethernet.src Ethernet.ethertype Ethernet.payload to_be16].
    by rewrite eth_parse_front.
  - by apply ip_parse_encode.
  - by apply udp_serialize_parse.
Qed.

(** ** Witnesses *)

Definition demo_datagram : Udp.UdpDatagram := Udp.mkDatagram 53 4242 [1; 2; 3].

Lemma udp_roundtrip_witness :
  Udp.parse (Udp.serialize demo_datagram ++ [0; 0]) = Ret (Some demo_datagram).
Proof.
  refine (proj1 (udp_roundtrip demo_datagram [0; 0] _) _); [|by vm_compute].
  split_and!; [done..|]. repeat (apply Forall_cons; split); done.
Defined.

Lemma tcp_parse_outcome_witness :
  Tcp.parse (Pr := dev) (fun all b => Z.land b all)
    ([0; 80; 31; 144] ++ replicate 8 0 ++ [0x60] ++ replicate 7 0) = Panic.
Proof.
  refine (proj1 (proj2 (tcp_parse_outcome (Pr := dev) (fun all b => Z.land b all)
    ([0; 80; 31; 144] ++ replicate 8 0 ++ [0x60] ++ replicate 7 0) 24 _) _ _ _) _).
  - done.
  - repeat (apply Forall_cons; split); done.
  - by vm_compute.
  - reflexivity.
  - by vm_compute.
Defined.

Lemma stack_delivers_witness :
  Ip.parse (Pr := dev) (ip_encode 0 0 31 0 1 0 0 0 0
     (Ip.mkPacket Ip.LOOPBACK Ip.LOOPBACK Ip.PROTO_UDP 64 (Udp.serialize demo_datagram ++ [0]))
     [1; 1; 1; 0])
  = Ret (Some (Ip.mkPacket Ip.LOOPBACK Ip.LOOPBACK Ip.PROTO_UDP 64 (Udp.serialize demo_datagram ++ [0]))).
Proof.
  refine (proj1 (proj2 (stack_delivers (Pr := dev) demo_datagram Ethernet.BROADCAST Ethernet.ZERO
    Ip.LOOPBACK Ip.LOOPBACK [1; 1; 1; 0] [0] 64 0 0 31 0 1 0 0 0 0 _ _ _ _ _ _ _ _)));
    [|by vm_compute..].
  split_and!; [done..|]. repeat (apply Forall_cons; split); done.
Defined.
