(* ===== verification/Checksum.v ===== *)
(** * The Internet checksum of [net/ip.rs]

    [IpPacket::checksum] against the arithmetic of one's complement sums. *)

From S2P Require Import Prelude Net NetSpec.

(** Induction two elements at a time. *)
Lemma list_ind2 {A} (P : list A -> Prop) :
  P [] -> (forall a, P [a]) -> (forall a b l, P l -> P (a :: b :: l)) -> forall l, P l.
Proof.
  intros H0 H1 H2. fix IH 1. intros [|a [|b l]]; [done|by apply H1|]. apply H2, IH.
Qed.

(** The sum of the 16-bit words of a header, an odd last byte padded. *)
Fixpoint word_sum (h : list Z) : Z :=
  match h with
  | a :: b :: rest => from_be16 a b + word_sum rest
  | [a] => a * 256
  | [] => 0
  end.

(** The one's complement value of a sum: its residue modulo 65535, with 65535
    as the residue of positive multiples. *)
Definition ones_complement (s : Z) : Z := if s =? 0 then 0 else (s - 1) `mod` 65535 + 1.

Lemma word_sum_bound h :
  bytes_ok h -> 0 <= word_sum h /\ 2 * word_sum h <= 65535 * (zlen h + 1).
Proof.
  induction h as [|a|a b h IH] using list_ind2; intros Hb.
  - simpl. unfold zlen. simpl. lia.
  - apply Forall_cons in Hb as [[??] _]. simpl. unfold zlen. simpl. lia.
  - apply Forall_cons in Hb as [[??] Hb]. apply Forall_cons in Hb as [[??] Hb].
    specialize (IH Hb). rewrite !zlen_cons. simpl. unfold from_be16. lia.
Qed.

Lemma word_sum_app p h : Z.even (zlen p) = true -> word_sum (p ++ h) = word_sum p + word_sum h.
Proof.
  induction p as [|a|a b p IH] using list_ind2; intros He; [done..|].
  rewrite !zlen_cons, Z.add_assoc, Z.even_add in He. simpl. rewrite IH; [lia|].
  by destruct (Z.even (zlen p)).
Qed.

Lemma ones_complement_small s : 0 <= s < 65536 -> ones_complement s = s.
Proof.
  intros H. unfold ones_complement. destruct (Z.eqb_spec s 0); [lia|].
  rewrite Z.mod_small; lia.
Qed.

Lemma ones_complement_fold s :
  0 <= s -> ones_complement (s `mod` 65536 + s / 65536) = ones_complement s.
Proof.
  intros H. pose proof (Z.div_mod s 65536 ltac:(lia)) as Hd.
  pose proof (Z.mod_pos_bound s 65536 ltac:(lia)). pose proof (Z.div_pos s 65536 H ltac:(lia)).
  unfold ones_complement. destruct (Z.eqb_spec s 0) as [->|]; [done|].
  destruct (Z.eqb_spec (s `mod` 65536 + s / 65536) 0); [lia|]. f_equal.
  rewrite <- (Z.mod_add (s `mod` 65536 + s / 65536 - 1) (s / 65536)) by lia. f_equal. lia.
Qed.

Section checksum.
Context `{Pr : Profile}.

Lemma sum_words_spec s h :
  bytes_ok h -> 0 <= s -> s + word_sum h < 2 ^ 32 -> Ip.sum_words s h = Ret (s + word_sum h).
Proof.
  revert s. induction h as [|a|a b h IH] using list_ind2; intros s Hb Hs Hlt; simpl in *.
  - by rewrite Z.add_0_r.
  - apply Forall_cons in Hb as [[??] _]. rewrite Z.shiftl_mul_pow2 by lia.
    rewrite wrap_id by (split; lia). unfold add_u. by rewrite in_width_ok by (split; lia).
  - apply Forall_cons in Hb as [[??] Hb]. apply Forall_cons in Hb as [[??] Hb].
    pose proof (word_sum_bound h Hb) as [? _]. unfold add_u, from_be16 in *.
    rewrite in_width_ok by (split; lia). simpl. rewrite IH by (done || lia).
    f_equal. lia.
Qed.

(** Three turns of the loop are enough for any [u32]. *)
Lemma fold_carry_done s :
  0 <= s < 2 ^ 32 -> Ip.fold_carry Ip.fold_fuel s = Ret (ones_complement s).
Proof.
  assert (forall n s, 0 <= s < 2 ^ 32 ->
    Ip.fold_carry (S n) s = if decide (s < 65536) then Ret s
                            else Ip.fold_carry n (s `mod` 65536 + s / 65536)) as Hstep.
  { intros n t Ht. cbn [Ip.fold_carry]. rewrite Z.shiftr_div_pow2 by lia. change (2 ^ 16) with 65536.
    pose proof (Z.mod_pos_bound t 65536 ltac:(lia)).
    assert (0 <= t / 65536 < 65536)
      by (split; [apply Z.div_pos|apply Z.div_lt_upper_bound]; lia).
    case_decide as Hd; [by rewrite Z.div_small by lia|].
    rewrite (proj2 (Z.eqb_neq _ _)) by (intros E; apply Z.div_small_iff in E; lia).
    change 0xFFFF with (Z.ones 16). rewrite Z.land_ones by lia. change (2 ^ 16) with 65536.
    unfold add_u. rewrite in_width_ok by (split; lia). done. }
  intros Hs. unfold Ip.fold_fuel. rewrite Hstep by done.
  case_decide as H1; [by rewrite ones_complement_small by lia|].
  rewrite <- ones_complement_fold by lia. set (t := s `mod` 65536 + s / 65536).
  assert (1 <= t <= 131070) as Ht.
  { subst t. pose proof (Z.mod_pos_bound s 65536 ltac:(lia)).
    assert (1 <= s / 65536 < 65536)
      by (split; [apply Z.div_le_lower_bound|apply Z.div_lt_upper_bound]; lia). lia. }
  rewrite Hstep by lia. case_decide as H2; [by rewrite ones_complement_small by lia|].
  rewrite <- ones_complement_fold by lia.
  assert (t / 65536 = 1) as E by (symmetry; apply Z.div_unique with (t - 65536); lia).
  pose proof (Z.div_mod t 65536 ltac:(lia)). rewrite E in *.
  rewrite Hstep by lia. rewrite decide_True by lia. by rewrite ones_complement_small by lia.
Qed.

Lemma checksum_spec h :
  bytes_ok h -> zlen h <= 131071 -> Ip.checksum h = Ret (65535 - ones_complement (word_sum h)).
Proof.
  intros Hb Hl. pose proof (word_sum_bound h Hb) as [H0 H1]. unfold Ip.checksum.
  rewrite sum_words_spec by (done || lia). rewrite Z.add_0_l. cbn [mbind outcome_bind].
  rewrite fold_carry_done by lia. cbn [mbind outcome_bind]. f_equal.
  rewrite wrap_id; [done|]. unfold ones_complement, is_u.
  pose proof (Z.mod_pos_bound (word_sum h - 1) 65535 ltac:(lia)). case_match; lia.
Qed.

(** C26: The checksum is the Internet checksum: for every header of up to 131071
    bytes neither loop panics or runs on, and the result is the complement of
    the one's complement sum of the 16-bit words (an odd last byte padded with
    zero). *)
Theorem checksum_is_internet_checksum (h : list Z) :
  bytes_ok h -> zlen h <= 131071 ->
  exists c, Ip.checksum h = Ret c /\ is_u16 c /\
    65535 - c = ones_complement (word_sum h) /\ (c + word_sum h) `mod` 65535 = 0.
Proof.
  intros Hb Hl. eexists. split; [by apply checksum_spec|].
  pose proof (word_sum_bound h Hb) as [H0 _]. unfold ones_complement.
  pose proof (Z.mod_pos_bound (word_sum h - 1) 65535 ltac:(lia)).
  destruct (Z.eqb_spec (word_sum h) 0) as [->|]; [done|]. split_and!; [split; lia|lia|].
  pose proof (Z.div_mod (word_sum h - 1) 65535 ltac:(lia)).
  apply Z.mod_divide; [lia|]. exists ((word_sum h - 1) / 65535 + 1). lia.
Qed.

(** A receiver accepts what a sender computes: filling the checksum of a header,
    taken with the checksum field zero, into that field (at an even offset)
    makes the checksum of the whole header zero. *)
Theorem checksum_verifies (pre post : list Z) :
  bytes_ok pre -> bytes_ok post -> Z.even (zlen pre) = true ->
  zlen pre + zlen post <= 131069 ->
  exists c, Ip.checksum (pre ++ to_be16 0 ++ post) = Ret c /\
    Ip.checksum (pre ++ to_be16 c ++ post) = Ret 0.
Proof.
  intros Hb1 Hb2 He Hl.
  assert (forall v, is_u16 v -> bytes_ok (pre ++ to_be16 v ++ post) /\
    zlen (pre ++ to_be16 v ++ post) <= 131071 /\
    word_sum (pre ++ to_be16 v ++ post) = v + (word_sum pre + word_sum post)) as Hv.
  { intros v Hv. destruct (to_be16_bytes v Hv). split_and!.
    - rewrite !Forall_app. split_and!; [done| |done]. by repeat apply Forall_cons_2.
    - rewrite !zlen_app. unfold to_be16. change (zlen [v / 256; v `mod` 256]) with 2. lia.
    - rewrite word_sum_app by done. simpl. rewrite from_to_be16 by done. lia. }
  pose proof (word_sum_bound pre Hb1) as [? _]. pose proof (word_sum_bound post Hb2) as [? _].
  set (s := word_sum pre + word_sum post) in *.
  destruct (Hv 0) as (B0 & L0 & S0); [done|].
  eexists. split; [by apply checksum_spec|]. rewrite S0, Z.add_0_l.
  assert (0 <= ones_complement s <= 65535 /\
          ones_complement (65535 - ones_complement s + s) = 65535) as [Hr E].
  { unfold ones_complement. pose proof (Z.mod_pos_bound (s - 1) 65535 ltac:(lia)).
    destruct (Z.eqb_spec s 0) as [Hs|Hs]; [by rewrite Hs|].
    pose proof (Z.div_mod (s - 1) 65535 ltac:(lia)).
    assert (0 <= (s - 1) / 65535) by (apply Z.div_pos; lia).
    replace (65535 - ((s - 1) `mod` 65535 + 1) + s)
      with (65535 + (s - 1) / 65535 * 65535) by lia.
    split; [lia|]. rewrite (proj2 (Z.eqb_neq _ _)) by lia.
    replace (65535 + (s - 1) / 65535 * 65535 - 1)
      with (65534 + (s - 1) / 65535 * 65535) by lia.
    rewrite Z.mod_add by lia. done. }
  destruct (Hv (65535 - ones_complement s)) as (B1 & L1 & S1); [split; lia|].
  rewrite checksum_spec, S1, E by done. done.
Qed.

End checksum.

(** ** Witnesses *)

(** The header of the example of RFC 1071 style computations: a 20-byte IPv4
    header around its checksum field. *)
Definition demo_pre : list Z := [0x45; 0; 0; 0x73; 0; 0; 0x40; 0; 0x40; 0x11].
Definition demo_post : list Z := [0xc0; 0xa8; 0; 1; 0xc0; 0xa8; 0; 0xc7].

Lemma checksum_is_internet_checksum_witness :
  exists c, Ip.checksum (Pr := dev) (demo_pre ++ [0; 0] ++ demo_post) = Ret c /\ is_u16 c.
Proof.
  destruct (checksum_is_internet_checksum (Pr := dev) (demo_pre ++ [0; 0] ++ demo_post))
    as (c & E & Hc & _).
  - repeat (apply Forall_cons; split); done.
  - by vm_compute.
  - exists c. exact (conj E Hc).
Defined.

Lemma checksum_verifies_witness :
  exists c, Ip.checksum (Pr := dev) (demo_pre ++ to_be16 0 ++ demo_post) = Ret c /\
    Ip.checksum (Pr := dev) (demo_pre ++ to_be16 c ++ demo_post) = Ret 0.
Proof.
  apply (checksum_verifies (Pr := dev) demo_pre demo_post).
  - repeat (apply Forall_cons; split); done.
  - repeat (apply Forall_cons; split); done.
  - reflexivity.
  - by vm_compute.
Defined.
