(* ===== verification/Vfs.v ===== *)
(** * The virtual file system ([fs/vfs.rs]) and the pseudo file systems

    Inodes, directory entries, the [FileSystem] trait as a record of
    operations, and its implementations [DevFs] ([fs/dev_fs.rs]), [ProcFs]
    ([fs/proc_fs.rs]), [SysFs] ([fs/sys_fs.rs]) and [Ext4Fs] ([fs/ext4.rs]). *)

From S2P Require Import Prelude RustStr Kernel Scheduler Syscall.

Inductive VfsError :=
| NotFound | PermissionDenied | NotADirectory | IsADirectory | NoSpace | InvalidPath
| NotSupported | IoError.

(** [Result<A, VfsError>]. *)
Inductive result (A : Type) : Type :=
| Ok (a : A)
| Err (e : VfsError).
Arguments Ok {A} a.
Arguments Err {A} e.

Inductive InodeKind :=
| RegularFile | Directory | Symlink | CharDevice | BlockDevice | Pipe | Socket.

#[export] Instance InodeKind_eq_dec : EqDecision InodeKind.
Proof. solve_decision. Defined.

(** Permission bits; the source writes them in octal: 644, 755, 666, 660. *)
Definition DEFAULT_FILE : Z := 0x1A4.
Definition DEFAULT_DIR : Z := 0x1ED.

Record Inode := mkInode {
  inode_num : Z; kind : InodeKind; mode : Z; size : Z; uid : Z; gid : Z;
  link_count : Z; atime : Z; mtime : Z; ctime : Z }.

Definition Inode_new (num : Z) (k : InodeKind) : Inode :=
  mkInode num k (match k with Directory => DEFAULT_DIR | _ => DEFAULT_FILE end)
    0 0 0 1 0 0 0.

Definition with_mode (m : Z) (i : Inode) : Inode :=
  mkInode (inode_num i) (kind i) m (size i) (uid i) (gid i) (link_count i)
    (atime i) (mtime i) (ctime i).
Definition with_size (s : Z) (i : Inode) : Inode :=
  mkInode (inode_num i) (kind i) (mode i) s (uid i) (gid i) (link_count i)
    (atime i) (mtime i) (ctime i).

Record DirEntry := mkDirEntry { de_name : list Z; de_inode_num : Z; de_kind : InodeKind }.

(** The trait.  [read] gets the contents of the caller's buffer and returns
    them as the call leaves them. *)
Record FileSystem `{Pl : Platform} := mkFileSystem {
  fs_name : list Z;
  fs_lookup : list Z -> M (result Inode);
  fs_read : Inode -> Z -> list Z -> M (result Z * list Z);
  fs_write : Inode -> Z -> list Z -> M (result Z);
  fs_readdir : Inode -> M (result (list DirEntry));
  fs_create : Inode -> list Z -> InodeKind -> Z -> M (result Inode);
  fs_unlink : Inode -> list Z -> M (result unit);
}.

Record MountPoint `{Pl : Platform} := mkMountPoint { mp_path : list Z; mp_fs : FileSystem }.

(** [let n = buf.len().min(src.len()); buf[..n].copy_from_slice(&src[..n]); Ok(n)]. *)
Definition copy_out (src buf : list Z) : result Z * list Z :=
  let n := Z.min (zlen buf) (zlen src) in
  (Ok n, overwrite buf (take (Z.to_nat n) src)).

Section filesystems.
Context `{Pl : Platform}.

(** ** /dev *)
Definition dev_lookup (path : list Z) : M (result Inode) := mret (
  if decide (path = lit "/") then Ok (Inode_new 1 Directory)
  else if decide (path = []) then Ok (Inode_new 1 Directory)
  else if decide (path = lit "/null") then Ok (with_mode 0x1B6 (Inode_new 2 CharDevice))
  else if decide (path = lit "/zero") then Ok (with_mode 0x1B6 (Inode_new 3 CharDevice))
  else if decide (path = lit "/full") then Ok (with_mode 0x1B6 (Inode_new 4 CharDevice))
  else if decide (path = lit "/ttyS0") then Ok (with_mode 0x1B0 (Inode_new 5 CharDevice))
  else Err NotFound).

Definition dev_read (inode : Inode) (_offset : Z) (buf : list Z) : M (result Z * list Z) :=
  mret (if inode_num inode =? 2 then (Ok 0, buf)
        else if (inode_num inode =? 3) || (inode_num inode =? 4)
        then (Ok (zlen buf), replicate (length buf) 0)
        else if inode_num inode =? 5 then (Ok 0, buf)
        else (Err NotFound, buf)).

(** [for &byte in buf { _serial_print(format_args!("{}", byte as char)) }]. *)
Fixpoint serial_chars (buf : list Z) : M unit :=
  match buf with
  | [] => mret tt
  | b :: buf => _ ← serial_print (utf8_char b); serial_chars buf
  end.

Definition dev_write (inode : Inode) (_offset : Z) (buf : list Z) : M (result Z) :=
  if (inode_num inode =? 2) || (inode_num inode =? 3) then mret (Ok (zlen buf))
  else if inode_num inode =? 4 then mret (Err NoSpace)
  else if inode_num inode =? 5 then _ ← serial_chars buf; mret (Ok (zlen buf))
  else mret (Err NotFound).

Definition dev_readdir (inode : Inode) : M (result (list DirEntry)) := mret (
  if negb (inode_num inode =? 1) then Err NotADirectory
  else Ok [ mkDirEntry (lit "null") 2 CharDevice; mkDirEntry (lit "zero") 3 CharDevice;
            mkDirEntry (lit "full") 4 CharDevice; mkDirEntry (lit "ttyS0") 5 CharDevice ]).

(** [create] and [unlink] of every file system but [Ext4Fs]. *)
Definition denied {A} : M (result A) := mret (Err PermissionDenied).

Definition DevFs : FileSystem :=
  mkFileSystem _ (lit "devfs") dev_lookup dev_read dev_write dev_readdir
    (fun _ _ _ _ => denied) (fun _ _ => denied).

(** ** /proc *)
Definition proc_lookup (path : list Z) : M (result Inode) := mret (
  if decide (path = lit "/") then Ok (Inode_new 1 Directory)
  else if decide (path = []) then Ok (Inode_new 1 Directory)
  else if decide (path = lit "/version") then Ok (Inode_new 2 RegularFile)
  else if decide (path = lit "/uptime") then Ok (Inode_new 3 RegularFile)
  else if decide (path = lit "/meminfo") then Ok (Inode_new 4 RegularFile)
  else Err NotFound).

Definition version_content : list Z :=
  lit "ComputeKERNEL version 1.0.0 (Rust nightly)" ++ [10].
Definition uptime_content : M (list Z) :=
  t ← ticks;
  let seconds := t / 100 in
  mret (fmt_dec seconds ++ lit ".00 " ++ fmt_dec seconds ++ lit ".00" ++ [10]).
Definition meminfo_content : list Z :=
  lit "MemTotal:         102400 kB" ++ [10] ++ lit "MemFree:           51200 kB" ++ [10].

Definition proc_read (inode : Inode) (offset : Z) (buf : list Z) : M (result Z * list Z) :=
  c ← (if inode_num inode =? 2 then mret (Some version_content)
       else if inode_num inode =? 3 then t ← uptime_content; mret (Some t)
       else if inode_num inode =? 4 then mret (Some meminfo_content)
       else mret None);
  match c with
  | None => mret (Err NotFound, buf)
  | Some content =>
    if offset >=? zlen content then mret (Ok 0, buf)
    else available ← lift (slice_from content offset); mret (copy_out available buf)
  end.

Definition proc_readdir (inode : Inode) : M (result (list DirEntry)) := mret (
  if negb (inode_num inode =? 1) then Err NotADirectory
  else Ok [ mkDirEntry (lit "version") 2 RegularFile; mkDirEntry (lit "uptime") 3 RegularFile;
            mkDirEntry (lit "meminfo") 4 RegularFile ]).

Definition ProcFs : FileSystem :=
  mkFileSystem _ (lit "proc") proc_lookup proc_read (fun _ _ _ => denied) proc_readdir
    (fun _ _ _ _ => denied) (fun _ _ => denied).

(** ** /sys *)
Definition sys_lookup (path : list Z) : M (result Inode) := mret (
  if decide (path = lit "/") then Ok (Inode_new 1 Directory)
  else if decide (path = []) then Ok (Inode_new 1 Directory)
  else if decide (path = lit "/kernel") then Ok (Inode_new 2 Directory)
  else if decide (path = lit "/kernel/hostname") then Ok (Inode_new 3 RegularFile)
  else Err NotFound).

Definition sysfs_read (inode : Inode) (offset : Z) (buf : list Z) : M (result Z * list Z) :=
  mret (if offset >? 0 then (Ok 0, buf)
        else if inode_num inode =? 3 then copy_out (lit "computekernel" ++ [10]) buf
        else (Err NotFound, buf)).

Definition sys_readdir (inode : Inode) : M (result (list DirEntry)) := mret (
  if inode_num inode =? 1 then Ok [mkDirEntry (lit "kernel") 2 Directory]
  else if inode_num inode =? 2 then Ok [mkDirEntry (lit "hostname") 3 RegularFile]
  else Err NotADirectory).

Definition SysFs : FileSystem :=
  mkFileSystem _ (lit "sysfs") sys_lookup sysfs_read (fun _ _ _ => denied) sys_readdir
    (fun _ _ _ _ => denied) (fun _ _ => denied).

(** ** ext4 (a stub: every operation is [NotSupported]) *)
Record Ext4Fs := mkExt4Fs { device : list Z }.

Definition Ext4Fs_new (dev : list Z) : M Ext4Fs :=
  _ ← serial_println (lit "[ext4] mounting " ++ dev ++ lit " (stub)"); mret (mkExt4Fs dev).

Definition unsupported {A} : M (result A) := mret (Err NotSupported).

Definition Ext4 (fs : Ext4Fs) : FileSystem :=
  mkFileSystem _ (lit "ext4") (fun _ => unsupported)
    (fun _ _ buf => mret (Err NotSupported, buf)) (fun _ _ _ => unsupported)
    (fun _ => unsupported) (fun _ _ _ _ => unsupported) (fun _ _ => unsupported).

End filesystems.
