(* ===== verification/VfsSpec.v ===== *)
(** * What the file systems promise

    The documented behaviour of [FileSystem::read] as a type class, its
    instances, directory listings against lookups, and the pseudo files of the system
    call layer against the file systems that also serve them. *)

From S2P Require Import Prelude RustStr Mem Kernel Scheduler Process Syscall Files Vfs.

(** What a file holds: a text, or a byte without end. *)
Inductive Content := Text (bs : list Z) | Endless (b : Z).

(** The bytes at an offset, at most [n] of them. *)
Definition bytes_at (c : Content) (offset : Z) (n : nat) : list Z :=
  match c with
  | Text bs => take n (drop (Z.to_nat offset) bs)
  | Endless b => replicate n b
  end.

(** What [FileSystem::read] is documented to do, read data from an inode at a
    given byte offset: there is a content for each inode number, and a read
    puts its bytes at the offset into the front of the caller's buffer, as many
    as fit, reports how many, and changes nothing else; without a content it
    fails and leaves the buffer alone. *)
Class PositionalFs `{Pl : Platform} (fs : FileSystem) := {
  stored : Kernel -> Z -> option Content;
  read_at inode offset buf k : 0 <= offset ->
    fs_read fs inode offset buf k =
    Done (match stored k (inode_num inode) with
          | Some c => let bs := bytes_at c offset (length buf) in (Ok (zlen bs), overwrite buf bs)
          | None => (Err NotFound, buf)
          end) k;
}.

(** The bytes [copy_out] delivers. *)
Lemma copy_out_spec src buf :
  exists n buf', copy_out src buf = (Ok n, buf') /\ n = Z.min (zlen buf) (zlen src) /\
    length buf' = length buf /\ take (Z.to_nat n) buf' = take (Z.to_nat n) src /\
    drop (Z.to_nat n) buf' = drop (Z.to_nat n) buf.
Proof.
  eexists _, _. split; [done|]. split; [done|].
  assert (length (take (Z.to_nat (zlen buf `min` zlen src)) src)
          = Z.to_nat (zlen buf `min` zlen src)) as Hl.
  { rewrite length_take. unfold zlen. lia. }
  split_and!.
  - apply length_overwrite. rewrite Hl. unfold zlen. lia.
  - unfold overwrite. by rewrite take_app_length' by done.
  - unfold overwrite. by rewrite drop_app_length', Hl by done.
Qed.

Section contracts.
Context `{Pl : Platform}.

Lemma copy_out_bytes text offset buf :
  copy_out (drop (Z.to_nat offset) text) buf
  = let bs := bytes_at (Text text) offset (length buf) in (Ok (zlen bs), overwrite buf bs).
Proof.
  unfold copy_out, bytes_at. set (src := drop _ text).
  assert (take (Z.to_nat (zlen buf `min` zlen src)) src = take (length buf) src) as ->.
  { unfold zlen. destruct (decide (length buf <= length src)%nat).
    - f_equal. lia.
    - rewrite !take_ge by lia. done. }
  do 2 f_equal. unfold zlen. rewrite length_take. lia.
Qed.

#[export] Program Instance DevFs_positional : PositionalFs DevFs := {|
  stored _ n :=
    if n =? 2 then Some (Text []) else if (n =? 3) || (n =? 4) then Some (Endless 0)
    else if n =? 5 then Some (Text []) else None;
|}.
Next Obligation.
  intros inode offset buf k _. simpl. unfold dev_read.
  assert (take (length buf) (drop (Z.to_nat offset) []) = ([] : list Z)) as Hn by (by rewrite drop_nil, take_nil).
  assert (overwrite buf [] = buf) as Ho by (unfold overwrite; by rewrite drop_0).
  destruct (_ =? 2); [unfold bytes_at; by rewrite Hn, Ho|]. destruct (_ || _).
  - unfold bytes_at, overwrite, zlen. by rewrite length_replicate, drop_all, app_nil_r.
  - destruct (_ =? 5); [unfold bytes_at; by rewrite Hn, Ho|done].
Qed.

Lemma proc_read_spec inode offset buf (k : Kernel) text :
  (inode_num inode = 2 /\ text = version_text) \/
  (inode_num inode = 3 /\ text = uptime_text (TICK k)) \/
  (inode_num inode = 4 /\ text = meminfo_text) -> 0 <= offset ->
  proc_read inode offset buf k
  = Done (copy_out (drop (Z.to_nat offset) text) buf) k.
Proof.
  intros Ht Ho.
  assert (proc_read inode offset buf k
    = (if offset >=? zlen text then mret (Ok 0, buf)
       else available ← lift (slice_from text offset); mret (copy_out available buf)) k) as ->.
  { unfold proc_read, mbind, M_bind. by destruct Ht as [[-> ->]|[[-> ->]|[-> ->]]]. }
  destruct (Z.geb_spec offset (zlen text)) as [H|H].
  - rewrite drop_ge by (unfold zlen in *; lia). unfold copy_out, overwrite.
    change (zlen []) with 0. rewrite Z.min_r by (unfold zlen; lia). simpl. by rewrite drop_0.
  - unfold mbind, M_bind, lift. by rewrite slice_from_ret by lia.
Qed.

#[export] Program Instance ProcFs_positional : PositionalFs ProcFs := {|
  stored k n :=
    if n =? 2 then Some (Text version_text) else if n =? 3 then Some (Text (uptime_text (TICK k)))
    else if n =? 4 then Some (Text meminfo_text) else None;
|}.
Next Obligation.
  intros inode offset buf k Ho. simpl.
  destruct (Z.eqb_spec (inode_num inode) 2);
    [by rewrite (proc_read_spec _ _ _ _ version_text), copy_out_bytes by eauto|].
  destruct (Z.eqb_spec (inode_num inode) 3);
    [by rewrite (proc_read_spec _ _ _ _ (uptime_text (TICK k))), copy_out_bytes by eauto|].
  destruct (Z.eqb_spec (inode_num inode) 4);
    [by rewrite (proc_read_spec _ _ _ _ meminfo_text), copy_out_bytes by eauto|].
  unfold proc_read, mbind, M_bind. by rewrite !(proj2 (Z.eqb_neq _ _)) by done.
Qed.

(** The files of the two file systems that read by position, with their paths
    and contents. *)
Definition pseudo_files (k : Kernel) : list (FileSystem * list Z * Content) :=
  [ (DevFs, lit "/null", Text []); (DevFs, lit "/zero", Endless 0); (DevFs, lit "/full", Endless 0);
    (DevFs, lit "/ttyS0", Text []); (ProcFs, lit "/version", Text version_text);
    (ProcFs, lit "/uptime", Text (uptime_text (TICK k))); (ProcFs, lit "/meminfo", Text meminfo_text) ].

(** C32: What the pseudo file systems deliver.  Each file of [/dev] and [/proc] is
    found under its path, and reading it at any offset into any buffer puts the
    bytes of its content at that offset, as many as fit, into the front of the
    buffer and reports their number: [null] and [ttyS0] are empty, [zero] and
    [full] zeros without end, [version], [uptime] and [meminfo] their texts.
    Nothing but these files and the root directory can be looked up.  [SysFs]
    delivers the host name at offset 0 only: at every other offset it reports
    no bytes, where the name goes on. *)
Theorem pseudo_files_read (k : Kernel) (offset : Z) (buf : list Z) :
  0 <= offset ->
  (forall fs path c, (fs, path, c) ∈ pseudo_files k ->
     exists inode, fs_lookup fs path k = Done (Ok inode) k /\ kind inode <> Directory /\
       let bs := bytes_at c offset (length buf) in
       fs_read fs inode offset buf k = Done (Ok (zlen bs), overwrite buf bs) k) /\
  (forall fs path inode, fs = DevFs \/ fs = ProcFs -> fs_lookup fs path k = Done (Ok inode) k ->
     (path = [] \/ path = lit "/") \/ exists c, (fs, path, c) ∈ pseudo_files k) /\
  (exists inode, fs_lookup SysFs (lit "/kernel/hostname") k = Done (Ok inode) k /\
     let bs := if offset =? 0 then take (length buf) hostname_text else [] in
     fs_read SysFs inode offset buf k = Done (Ok (zlen bs), overwrite buf bs) k).
Proof.
  intros Ho. split_and!.
  - intros fs path c H. unfold pseudo_files in H.
    repeat (apply elem_of_cons in H as [[= -> -> ->]|H];
      [eexists; split; [reflexivity|]; split; [done|]; by rewrite read_at|]).
    by apply not_elem_of_nil in H.
  - intros fs path inode [-> | ->]; simpl; unfold dev_lookup, proc_lookup, mret, M_ret; intros H;
      repeat (case_decide as E; [subst path; try (by auto); right; eexists; by repeat first [left | right]|clear E]);
      done.
  - eexists. split; [reflexivity|]. simpl. unfold sysfs_read. rewrite Z.gtb_ltb.
    destruct (Z.ltb_spec 0 offset).
    + rewrite (proj2 (Z.eqb_neq _ _)) by lia. unfold overwrite. by rewrite drop_0.
    + assert (offset = 0) as -> by lia. exact (f_equal (fun r => Done r k) (copy_out_bytes hostname_text 0 buf)).
Qed.

(** ** Listings and lookups *)

(** The directory [dir] of [fs] at [path] lists exactly the names that can be
    looked up below it, with the same inode numbers and kinds. *)
Definition listing_exact (fs : FileSystem) (path : list Z) (dir : Inode) (k : Kernel) : Prop :=
  exists es, fs_readdir fs dir k = Done (Ok es) k /\
    forall name num kd, name <> [] -> slash ∉ name ->
      mkDirEntry name num kd ∈ es <->
      exists i, fs_lookup fs (path ++ slash :: name) k = Done (Ok i) k /\
        inode_num i = num /\ kind i = kd.

(** The root directories of [/dev], [/proc] and [/sys] and the directory
    [/sys/kernel] list exactly what can be looked up in them: every entry can
    be looked up with the listed inode number and kind, and every name that
    can be looked up is listed. *)
Theorem listings_match_lookups (k : Kernel) :
  listing_exact DevFs [] (Inode_new 1 Directory) k /\
  listing_exact ProcFs [] (Inode_new 1 Directory) k /\
  listing_exact SysFs [] (Inode_new 1 Directory) k /\
  listing_exact SysFs (lit "/kernel") (Inode_new 2 Directory) k.
Proof.
  split_and!; (eexists; split; [done|]); intros name num kd Hn Hs;
    cbn [fs_lookup DevFs ProcFs SysFs];
    unfold dev_lookup, proc_lookup, sys_lookup, mret, M_ret; split; intros H.
  1,3,5,7: repeat (apply elem_of_cons in H as [[= -> -> ->]|H]; [by eexists|]);
    by apply not_elem_of_nil in H.
  all: destruct H as (i & Hl & <- & <-);
    repeat (case_decide as E; [vm_compute in E; simplify_eq;
      first [done | by repeat first [left | right]
            | by exfalso; apply Hs; repeat first [left | right]]|clear E]); done.
Qed.

(** ** Two ways to the same files *)

(** The pseudo files of the system call layer and [ProcFs] agree: a [read] system
    call on [/proc/version], [/proc/uptime] or [/proc/meminfo] delivers, for
    every offset and size, the bytes [ProcFs::read] puts into a buffer of that
    size, and returns the count it returns. *)
Theorem syscall_agrees_with_procfs (k : Kernel) (node : PseudoNode) (inode : Inode)
    (offset : Z) (buf : list Z) :
  (node, inode_num inode) ∈ [(ProcVersion, 2); (ProcUptime, 3); (ProcMeminfo, 4)] ->
  0 <= offset ->
  exists text n buf', content (TICK k) node = Some text /\
    fs_read ProcFs inode offset buf k = Done (Ok n, buf') k /\
    zlen (static_bytes (zlen buf) offset text) = n /\
    static_bytes (zlen buf) offset text = take (Z.to_nat n) buf'.
Proof.
  intros Hin Ho.
  assert (exists text, content (TICK k) node = Some text /\
    fs_read ProcFs inode offset buf k = Done (copy_out (drop (Z.to_nat offset) text) buf) k)
    as (text & Hc & Hr).
  { repeat (apply elem_of_cons in Hin as [[= -> E]|Hin];
      [eexists; split; [done|]; apply proc_read_spec; naive_solver|]).
    by apply not_elem_of_nil in Hin. }
  destruct (copy_out_spec (drop (Z.to_nat offset) text) buf) as (n & buf' & E & Hn & Hl & Ht & _).
  exists text, n, buf'. rewrite Hr, E. rewrite static_bytes_spec by (done || unfold zlen; lia).
  split_and!; [done..| |].
  - subst n. unfold zlen. rewrite length_take. lia.
  - rewrite Ht. subst n. unfold zlen. destruct (Nat.min_spec (length buf)
      (length (drop (Z.to_nat offset) text))) as [[? E1]|[? E1]];
      rewrite <- Nat2Z.inj_min, E1, !Nat2Z.id; [done|].
    by rewrite !take_ge by lia.
Qed.

(** [/sys/kernel/hostname] read in pieces: through [SysFs] every read at an
    offset above zero is empty, so that the rest of the name is lost after the
    first piece, where the system call layer goes on with the remaining bytes. *)
Theorem sysfs_loses_the_rest (k : Kernel) (offset : Z) (buf : list Z) :
  0 < offset < zlen hostname_text -> buf <> [] ->
  fs_read SysFs (Inode_new 3 RegularFile) offset buf k = Done (Ok 0, buf) k /\
  content (TICK k) SysHostname = Some hostname_text /\
  static_bytes (zlen buf) offset hostname_text <> [].
Proof.
  intros Ho Hb. split_and!; [|done|].
  - simpl. unfold sysfs_read. by rewrite Z.gtb_ltb, (proj2 (Z.ltb_lt _ _)) by lia.
  - rewrite static_bytes_spec by (unfold zlen; lia). intros E%(f_equal length).
    rewrite length_take, length_drop in E. destruct buf; [done|]. unfold zlen in *. simpl in *. lia.
Qed.

End contracts.

(** ** Witnesses *)

Lemma pseudo_files_read_witness :
  let k := Demo.kernel [] 0 6100 ∅ [] in
  exists inode, fs_lookup ProcFs (lit "/uptime") k = Done (Ok inode) k /\
    fs_read ProcFs inode 3 (replicate 4 0) k = Done (Ok 4, lit "00 6") k.
Proof.
  destruct (pseudo_files_read (Demo.kernel [] 0 6100 ∅ []) 3 (replicate 4 0)) as (H & _); [lia|].
  destruct (H ProcFs (lit "/uptime") (Text (uptime_text 6100))) as (inode & El & _ & Er).
  - do 5 right. left.
  - exists inode. split; [exact El|exact Er].
Defined.

Lemma syscall_agrees_with_procfs_witness :
  let k := Demo.kernel [] 0 6100 ∅ [] in
  exists text n buf', content (TICK k) ProcUptime = Some text /\
    fs_read ProcFs (Inode_new 3 RegularFile) 1 (replicate 4 0) k = Done (Ok n, buf') k /\
    zlen (static_bytes 4 1 text) = n /\ static_bytes 4 1 text = take (Z.to_nat n) buf'.
Proof.
  apply (syscall_agrees_with_procfs (Demo.kernel [] 0 6100 ∅ []) ProcUptime
    (Inode_new 3 RegularFile) 1 (replicate 4 0)); [right; left|lia].
Defined.

Lemma sysfs_loses_the_rest_witness :
  fs_read SysFs (Inode_new 3 RegularFile) 7 [0; 0] (Demo.kernel [] 0 0 ∅ [])
  = Done (Ok 0, [0; 0]) (Demo.kernel [] 0 0 ∅ []).
Proof.
  refine (proj1 (sysfs_loses_the_rest (Demo.kernel [] 0 0 ∅ []) 7 [0; 0] _ _)); [by vm_compute|done].
Defined.
