(* ===== verification/Initramfs.v ===== *)
(** * The initial RAM file system ([fs/initramfs.rs])

    The parser of cpio "newc" archives and the read-only file system over the
    parsed entries. *)

From S2P Require Import Prelude RustStr Kernel Vfs.

Record CpioEntry := mkEntry {
  e_path : list Z; e_inode_num : Z; e_mode : Z; e_size : Z; e_data_offset : Z }.

Record InitramFs := mkInitramFs { ram_data : list Z; ram_entries : list CpioEntry }.

Definition CPIO_NEWC_MAGIC : list Z := lit "070701".
Definition HEADER_SIZE : Z := 110.
Definition TRAILER : list Z := lit "TRAILER!!!".

(** [core::str::from_utf8(buf).ok()?] and [u32::from_str_radix(s, 16).ok()]. *)
Definition parse_hex8 (buf : list Z) : option Z :=
  match from_utf8 buf with Some s => u32_from_hex s | None => None end.

(** The file type bits of a mode (octal 170000, 040000 and 120000). *)
Definition S_IFMT : Z := 0xF000.
Definition S_IFDIR : Z := 0x4000.
Definition S_IFLNK : Z := 0xA000.

Section initramfs.
Context `{Pl : Platform} `{Pr : Profile}.

(** [(x + 3) & !3]. *)
Definition align4 (x : Z) : outcome Z := y ← add_u 64 x 3; Ret (y - y `mod` 4).

(** What one turn of the parser's loop does. *)
Inductive turn :=
| Fail_
| Break
| Entry (e : CpioEntry) (offset : Z).

Definition parse_turn (data : list Z) (offset inode_num : Z) : outcome turn :=
  magic ← slice data offset (offset + 6);
  if negb (bool_decide (magic = CPIO_NEWC_MAGIC)) then Ret Break
  else
    s ← slice data (offset + 94) (offset + 102);
    match parse_hex8 s with
    | None => Ret Fail_
    | Some namesize =>
    s ← slice data (offset + 54) (offset + 62);
    match parse_hex8 s with
    | None => Ret Fail_
    | Some filesize =>
    s ← slice data (offset + 14) (offset + 22);
    match parse_hex8 s with
    | None => Ret Fail_
    | Some mode =>
      name_offset ← add_u 64 offset HEADER_SIZE;
      name_end ← add_u 64 name_offset namesize;
      if name_end >? zlen data then Ret Break
      else
        last ← sub_u 64 name_end 1;
        name_bytes ← slice data name_offset last;
        match from_utf8 name_bytes with
        | None => Ret Fail_
        | Some path =>
          data_start ← align4 name_end;
          data_end ← add_u 64 data_start filesize;
          if bool_decide (path = TRAILER) then Ret Break
          else
            next ← align4 data_end;
            Ret (Entry (mkEntry path inode_num mode filesize data_start) next)
        end
    end end end.

(** [while offset + HEADER_SIZE <= data.len()]; the entries are in archive
    order, [None] is the early return of [None].  Every turn advances the
    offset by at least [HEADER_SIZE], so one turn per byte is more than enough
    fuel. *)
Fixpoint parse_loop (fuel : nat) (data : list Z) (offset inode_num : Z) :
    outcome (option (list CpioEntry)) :=
  match fuel with
  | O => Ret (Some [])
  | S fuel =>
    off ← add_u 64 offset HEADER_SIZE;
    if off <=? zlen data then
      t ← parse_turn data offset inode_num;
      match t with
      | Fail_ => Ret None
      | Break => Ret (Some [])
      | Entry e next =>
        i ← add_u 64 inode_num 1;
        rest ← parse_loop fuel data next i;
        Ret (option_map (cons e) rest)
      end
    else Ret (Some [])
  end.

(** [InitramFs::new]. *)
Definition InitramFs_new (data : list Z) : M (option InitramFs) :=
  r ← lift (parse_loop (S (length data)) data 0 2);
  match r with
  | None => mret None
  | Some entries =>
    _ ← serial_println (lit "[initramfs] Parsed " ++ fmt_dec (zlen entries) ++ lit " entries");
    mret (Some (mkInitramFs data entries))
  end.

Definition ram_find (fs : InitramFs) (path : list Z) : option CpioEntry :=
  List.find (fun e => bool_decide (e_path e = path)
                      || bool_decide (e_path e = trim_start_matches slash path))
    (ram_entries fs).

Definition ram_lookup (fs : InitramFs) (path : list Z) : M (result Inode) := mret (
  if bool_decide (path = lit "/") || bool_decide (path = []) then Ok (Inode_new 1 Directory)
  else match ram_find fs path with
       | None => Err NotFound
       | Some entry =>
         let kind := if Z.land (e_mode entry) S_IFMT =? S_IFDIR then Directory
                     else if Z.land (e_mode entry) S_IFMT =? S_IFLNK then Symlink
                     else RegularFile in
         Ok (with_mode (as_u16 (e_mode entry))
               (with_size (e_size entry) (Inode_new (e_inode_num entry) kind)))
       end).

Definition find_inode (fs : InitramFs) (num : Z) : option CpioEntry :=
  List.find (fun e => e_inode_num e =? num) (ram_entries fs).

Definition ram_read_bytes (fs : InitramFs) (entry : CpioEntry) (offset : Z) (buf : list Z) :
    outcome (result Z * list Z) :=
  start ← add_u 64 (e_data_offset entry) offset;
  end_ ← add_u 64 (e_data_offset entry) (e_size entry);
  if start >=? end_ then Ret (Ok 0, buf)
  else available ← slice (ram_data fs) start end_; Ret (copy_out available buf).

Definition ram_read (fs : InitramFs) (inode : Inode) (offset : Z) (buf : list Z) :
    M (result Z * list Z) :=
  match find_inode fs (inode_num inode) with
  | None => mret (Err NotFound, buf)
  | Some entry => lift (ram_read_bytes fs entry offset buf)
  end.

(** The listing of one entry under a prefix, when it is listed. *)
Definition ram_child (prefix : list Z) (e : CpioEntry) : option DirEntry :=
  if starts_with prefix (e_path e) then
    let name := trim_start_matches slash (drop (length prefix) (e_path e)) in
    if negb (contains slash name) && negb (bool_decide (name = [])) then
      Some (mkDirEntry name (e_inode_num e)
              (if Z.land (e_mode e) S_IFMT =? S_IFDIR then Directory else RegularFile))
    else None
  else None.

Definition ram_readdir (fs : InitramFs) (inode : Inode) : M (result (list DirEntry)) := mret (
  let prefix := if inode_num inode =? 1 then Some []
                else e_path <$> find_inode fs (inode_num inode) in
  match prefix with
  | None => Err NotFound
  | Some prefix => Ok (omap (ram_child prefix) (ram_entries fs))
  end).

Definition Initram (fs : InitramFs) : FileSystem :=
  mkFileSystem _ (lit "initramfs") (ram_lookup fs) (ram_read fs) (fun _ _ _ => denied)
    (ram_readdir fs) (fun _ _ _ _ => denied) (fun _ _ => denied).

End initramfs.
