(* ===== verification/InitramfsSpec.v ===== *)
(** * What the initial RAM file system promises

    The archive format written down as an encoder; the parser recovers what
    was encoded, and reads, lookups and listings deliver it; and where the
    parser and the reader panic. *)

From S2P Require Import Prelude RustStr Kernel Vfs VfsSpec Initramfs.

(** ** The archive format *)

Record CpioFile := mkFile {
  c_name : list Z; c_mode : Z; c_content : list Z;
  (** The header fields the kernel skips: inode; uid to mtime; devices; check. *)
  c_ino : list Z; c_times : list Z; c_devs : list Z; c_check : list Z }.

Definition hexd (d : Z) : Z := if d <? 10 then 48 + d else 87 + d.

Definition hex8 (v : Z) : list Z :=
  (fun i => hexd ((v / 16 ^ i) `mod` 16)) <$> [7; 6; 5; 4; 3; 2; 1; 0].

Definition pad (n : Z) : list Z := replicate (Z.to_nat ((- n) `mod` 4)) 0.

Definition header (f : CpioFile) : list Z :=
  CPIO_NEWC_MAGIC ++ c_ino f ++ hex8 (c_mode f) ++ c_times f ++ hex8 (zlen (c_content f))
  ++ c_devs f ++ hex8 (zlen (c_name f) + 1) ++ c_check f.

Definition encode (f : CpioFile) : list Z :=
  header f ++ c_name f ++ [0] ++ pad (HEADER_SIZE + zlen (c_name f) + 1)
  ++ c_content f ++ pad (zlen (c_content f)).

Definition file_ok (f : CpioFile) : Prop :=
  from_utf8 (c_name f) = Some (c_name f) /\ zlen (c_name f) + 1 < 2 ^ 32 /\
  zlen (c_content f) < 2 ^ 32 /\ is_u32 (c_mode f) /\
  zlen (c_ino f) = 8 /\ zlen (c_times f) = 32 /\ zlen (c_devs f) = 32 /\ zlen (c_check f) = 8.

(** Where a file's content starts, from the start of its header. *)
Definition content_start (f : CpioFile) : Z :=
  let n := HEADER_SIZE + zlen (c_name f) + 1 in n + (- n) `mod` 4.

Definition file_len (f : CpioFile) : Z :=
  content_start f + zlen (c_content f) + (- zlen (c_content f)) `mod` 4.

(** The entries the parser makes of a list of files. *)
Fixpoint entries_of (offset ino : Z) (fs : list CpioFile) : list CpioEntry :=
  match fs with
  | [] => []
  | f :: fs =>
    mkEntry (c_name f) ino (c_mode f) (zlen (c_content f)) (offset + content_start f)
    :: entries_of (offset + file_len f) (ino + 1) fs
  end.

(** ** Numbers and padding *)

Lemma hex_digit_hexd d : 0 <= d < 16 -> hex_digit (hexd d) = Some d.
Proof.
  intros H. assert (d ∈ seqZ 0 16) as Hd by (apply elem_of_seqZ; lia). clear H.
  cbv in Hd. repeat (apply elem_of_cons in Hd as [->|Hd]; [done|]). by apply not_elem_of_nil in Hd.
Qed.

Lemma hex_digits_step acc d bs :
  0 <= d < 16 -> acc * 16 + d < 2 ^ 32 ->
  hex_digits acc (hexd d :: bs) = hex_digits (acc * 16 + d) bs.
Proof.
  intros Hd Ha. cbn [hex_digits]. rewrite hex_digit_hexd by done.
  by rewrite (proj2 (Z.ltb_lt _ _) Ha).
Qed.

Lemma hexd_range d : 0 <= d < 16 -> 48 <= hexd d < 0x80.
Proof. intros. unfold hexd. destruct (Z.ltb_spec d 10); lia. Qed.

Lemma parse_hex8_hex8 v : is_u32 v -> parse_hex8 (hex8 v) = Some v.
Proof.
  intros Hv.
  assert (forall i, 0 <= (v / 16 ^ i) `mod` 16 < 16) as Hm by (intros; apply Z.mod_pos_bound; lia).
  assert (forall i, 0 <= i -> v / 16 ^ i = v / 16 ^ (i + 1) * 16 + (v / 16 ^ i) `mod` 16) as Hs.
  { intros i Hi. rewrite Z.pow_add_r, Z.pow_1_r, <- Z.div_div by lia.
    rewrite (Z.div_mod (v / 16 ^ i) 16) at 1 by lia. lia. }
  assert (forall i, 0 <= i -> v / 16 ^ i < 2 ^ 32) as Hb.
  { intros i Hi. destruct Hv. apply Z.le_lt_trans with v; [|lia].
    apply Z.div_le_upper_bound; [by apply Z.pow_pos_nonneg|].
    pose proof (Z.pow_pos_nonneg 16 i ltac:(lia) Hi). nia. }
  unfold parse_hex8. rewrite from_utf8_ascii.
  2:{ apply Forall_fmap, Forall_forall. intros i _. simpl.
      pose proof (hexd_range _ (Hm i)). lia. }
  unfold hex8. cbn [fmap list_fmap].
  assert (v / 16 ^ 8 = 0) as H8 by (apply Z.div_small; destruct Hv; split; [done|]; lia).
  unfold u32_from_hex. pose proof (hexd_range _ (Hm 7)).
  rewrite (proj2 (Z.eqb_neq _ _)) by lia.
  assert (forall i acc bs, 0 <= i -> acc = v / 16 ^ (i + 1) ->
    hex_digits acc (hexd ((v / 16 ^ i) `mod` 16) :: bs) = hex_digits (v / 16 ^ i) bs) as Hstep.
  { intros i acc bs Hi ->. rewrite hex_digits_step; [by rewrite <- Hs|done|].
    rewrite <- Hs by done. by apply Hb. }
  rewrite (Hstep 7) by (done || by rewrite H8). do 7 (rewrite Hstep by done).
  simpl. by rewrite Z.div_1_r.
Qed.

Lemma zlen_hex8 v : zlen (hex8 v) = 8.
Proof. done. Qed.

Lemma zlen_pad n : zlen (pad n) = (- n) `mod` 4.
Proof.
  unfold pad, zlen. rewrite length_replicate, Z2Nat.id; [done|]. by apply Z.mod_pos_bound.
Qed.

Lemma zlen_header f : file_ok f -> zlen (header f) = HEADER_SIZE.
Proof.
  intros (_ & _ & _ & _ & H1 & H2 & H3 & H4). unfold header.
  rewrite !zlen_app, !zlen_hex8, H1, H2, H3, H4. done.
Qed.

Lemma zlen_encode f : file_ok f -> zlen (encode f) = file_len f.
Proof.
  intros Hf. unfold encode. rewrite !zlen_app, !zlen_pad, zlen_header by done.
  change (zlen [0]) with 1. unfold file_len, content_start. lia.
Qed.

Lemma up4 n : (n + (- n) `mod` 4) `mod` 4 = 0 /\ 0 <= (- n) `mod` 4 < 4.
Proof.
  pose proof (Z.mod_pos_bound (- n) 4 ltac:(lia)) as Hb. split; [|done].
  pose proof (Z.div_mod (- n) 4 ltac:(lia)).
  replace (n + (- n) `mod` 4) with (- ((- n) / 4) * 4) by lia. by apply Z.mod_mul.
Qed.

Lemma file_len_aligned f : file_len f `mod` 4 = 0 /\ HEADER_SIZE <= file_len f.
Proof.
  unfold file_len, content_start, HEADER_SIZE.
  pose proof (up4 (110 + zlen (c_name f) + 1)) as [H1 H2].
  pose proof (up4 (zlen (c_content f))) as [H3 H4].
  pose proof (zlen_nonneg (c_name f)). pose proof (zlen_nonneg (c_content f)).
  split; [|lia]. rewrite <- Z.add_assoc, Z.add_mod, H1, H3 by lia. done.
Qed.

Section align.
Context `{Pr : Profile}.

(** [align4] from a multiple of four onwards. *)
Lemma align4_spec b n :
  0 <= b -> b `mod` 4 = 0 -> 0 <= n -> b + n + 3 < 2 ^ 64 ->
  align4 (b + n) = Ret (b + (n + (- n) `mod` 4)).
Proof.
  intros H0 Hb Hn Hlt. unfold align4, add_u. rewrite in_width_ok by (split; lia).
  cbn [mbind outcome_bind]. f_equal. pose proof (up4 n) as [H1 H2].
  pose proof (Z.div_mod b 4 ltac:(lia)). pose proof (Z.div_mod (n + (- n) `mod` 4) 4 ltac:(lia)).
  assert ((b + n + 3) `mod` 4 = 3 - (- n) `mod` 4); [|lia].
  symmetry. apply Z.mod_unique with (b / 4 + (n + (- n) `mod` 4) / 4); lia.
Qed.

End align.

(** ** Parsing what was encoded *)

Section parse.
Context `{Pr : Profile}.

(** The header field from [a] to [b] of the file that follows [pre]. *)
Ltac header_field a b pre p s :=
  erewrite (slice_at _ a b (pre ++ p) s);
  [ cbn [mbind outcome_bind]
  | unfold encode, header; rewrite <- ?app_assoc; reflexivity
  | rewrite ?zlen_app, ?zlen_hex8, ?zlen_nil; change (zlen CPIO_NEWC_MAGIC) with 6; lia
  | rewrite ?zlen_app, ?zlen_hex8, ?zlen_nil; change (zlen CPIO_NEWC_MAGIC) with 6; lia ].

Lemma parse_turn_encode pre f post ino :
  let data := pre ++ encode f ++ post in
  file_ok f -> zlen pre `mod` 4 = 0 -> zlen data < 2 ^ 63 ->
  parse_turn data (zlen pre) ino
  = Ret (if bool_decide (c_name f = TRAILER) then Break
         else Entry (mkEntry (c_name f) ino (c_mode f) (zlen (c_content f))
                       (zlen pre + content_start f)) (zlen pre + file_len f)).
Proof.
  intros data Hf Hal Hlen. pose proof Hf as (Hu & Hn & Hc & Hm & H1 & H2 & H3 & H4).
  pose proof (zlen_nonneg pre). pose proof (zlen_nonneg (c_name f)) as Hn0.
  pose proof (zlen_nonneg (c_content f)). pose proof (zlen_nonneg post).
  assert (zlen data = zlen pre + file_len f + zlen post) as Hd.
  { subst data. rewrite !zlen_app, zlen_encode by done. lia. }
  pose proof (up4 (HEADER_SIZE + zlen (c_name f) + 1)) as [_ Hp1].
  pose proof (up4 (zlen (c_content f))) as [_ Hp2].
  assert (HEADER_SIZE + zlen (c_name f) + 1 <= file_len f) as Hfl.
  { unfold file_len, content_start. lia. }
  unfold parse_turn, data.
  header_field (zlen pre) (zlen pre + 6) pre ([] : list Z) CPIO_NEWC_MAGIC.
  rewrite bool_decide_eq_true_2 by done. simpl negb.
  header_field (zlen pre + 94) (zlen pre + 102) pre (CPIO_NEWC_MAGIC ++ c_ino f
    ++ hex8 (c_mode f) ++ c_times f ++ hex8 (zlen (c_content f)) ++ c_devs f) (hex8 (zlen (c_name f) + 1)).
  rewrite parse_hex8_hex8 by (split; lia).
  header_field (zlen pre + 54) (zlen pre + 62) pre
    (CPIO_NEWC_MAGIC ++ c_ino f ++ hex8 (c_mode f) ++ c_times f)
    (hex8 (zlen (c_content f))).
  rewrite parse_hex8_hex8 by (split; lia).
  header_field (zlen pre + 14) (zlen pre + 22) pre (CPIO_NEWC_MAGIC ++ c_ino f) (hex8 (c_mode f)).
  rewrite parse_hex8_hex8 by done.
  fold data. unfold add_u, sub_u, HEADER_SIZE in *.
  rewrite (in_width_ok 64 (zlen pre + 110)) by (split; lia). cbn [mbind outcome_bind].
  rewrite in_width_ok by (split; lia). cbn [mbind outcome_bind].
  rewrite Z.gtb_ltb, (proj2 (Z.ltb_ge _ _)) by lia.
  rewrite in_width_ok by (split; lia). cbn [mbind outcome_bind].
  erewrite (slice_at data _ _ (pre ++ header f) (c_name f));
    [|subst data; unfold encode; rewrite <- !app_assoc; reflexivity
     |rewrite zlen_app, zlen_header by done; done
     |rewrite zlen_app, zlen_header by done; unfold HEADER_SIZE; lia].
  cbn [mbind outcome_bind]. rewrite Hu.
  replace (zlen pre + 110 + (zlen (c_name f) + 1)) with (zlen pre + (110 + zlen (c_name f) + 1)) by lia.
  rewrite align4_spec by (done || lia). cbn [mbind outcome_bind].
  assert (zlen pre + (110 + zlen (c_name f) + 1 + (- (110 + zlen (c_name f) + 1)) `mod` 4)
          = zlen pre + content_start f) as -> by done.
  rewrite in_width_ok by (unfold content_start, HEADER_SIZE; split; lia). cbn [mbind outcome_bind].
  case_bool_decide; [done|].
  rewrite align4_spec; [|unfold content_start, HEADER_SIZE; lia| |done|
    unfold content_start, HEADER_SIZE; lia].
  - cbn [mbind outcome_bind]. do 2 f_equal. unfold file_len. lia.
  - unfold content_start, HEADER_SIZE. pose proof (up4 (110 + zlen (c_name f) + 1)) as [E _].
    by rewrite Z.add_mod, Hal, E by lia.
Qed.

Definition archive (files : list CpioFile) (t : CpioFile) (tail : list Z) : list Z :=
  concat (encode <$> files) ++ encode t ++ tail.

Lemma parse_loop_encode pre files t tail ino fuel :
  let data := pre ++ archive files t tail in
  Forall (fun f => file_ok f /\ c_name f <> TRAILER) files -> file_ok t -> c_name t = TRAILER ->
  zlen pre `mod` 4 = 0 -> zlen data < 2 ^ 63 -> (length files < fuel)%nat ->
  0 <= ino -> ino + zlen files < 2 ^ 64 ->
  parse_loop fuel data (zlen pre) ino = Ret (Some (entries_of (zlen pre) ino files)).
Proof.
  intros data Hfs Ht Htn. subst data. revert pre ino fuel.
  induction Hfs as [|f files [Hf Hne] Hfs IH]; intros pre ino [|fuel] Hal Hlen Hfuel Hi0 Hi;
    simpl in Hfuel; try lia.
  - unfold archive in *. cbn [fmap list_fmap concat app parse_loop entries_of] in *.
    pose proof (file_len_aligned t) as [_ Hl].
    rewrite !zlen_app, zlen_encode in Hlen by done.
    pose proof (zlen_nonneg pre). pose proof (zlen_nonneg tail).
    unfold add_u, HEADER_SIZE in *. rewrite (in_width_ok 64 (zlen pre + 110)) by (split; lia). cbn [mbind outcome_bind].
    rewrite (proj2 (Z.leb_le _ _)) by (rewrite !zlen_app, zlen_encode by done; lia).
    rewrite parse_turn_encode by (try done; rewrite !zlen_app, zlen_encode by done; lia).
    by rewrite bool_decide_eq_true_2.
  - pose proof (file_len_aligned f) as [Hfa Hl]. unfold archive in *. cbn [fmap list_fmap concat] in *.
    rewrite <- app_assoc in *. set (post := concat (encode <$> files) ++ encode t ++ tail) in *.
    assert (zlen (pre ++ encode f ++ post) = zlen pre + file_len f + zlen post) as Hd.
    { rewrite !zlen_app, zlen_encode by done. lia. }
    pose proof (zlen_nonneg pre). pose proof (zlen_nonneg post). rewrite zlen_cons in Hi.
    pose proof (zlen_nonneg files). cbn [parse_loop].
    unfold add_u, HEADER_SIZE in *. rewrite (in_width_ok 64 (zlen pre + 110)) by (split; lia). cbn [mbind outcome_bind].
    rewrite (proj2 (Z.leb_le _ _)) by lia. rewrite parse_turn_encode by done.
    rewrite bool_decide_eq_false_2 by done. cbn [mbind outcome_bind].
    rewrite in_width_ok by (split; lia). cbn [mbind outcome_bind].
    specialize (IH (pre ++ encode f) (ino + 1) fuel).
    rewrite zlen_app, zlen_encode, <- app_assoc in IH by done. rewrite IH; [done|..]; try lia.
    by rewrite Z.add_mod, Hal, Hfa by lia.
Qed.

(** An entry and its content in the archive. *)
Lemma entries_lookup pre files post ino i f :
  Forall file_ok files -> files !! i = Some f ->
  exists e p q, entries_of (zlen pre) ino files !! i = Some e /\
    e_path e = c_name f /\ e_inode_num e = ino + Z.of_nat i /\ e_mode e = c_mode f /\
    e_size e = zlen (c_content f) /\ zlen p = e_data_offset e /\
    pre ++ concat (encode <$> files) ++ post = p ++ c_content f ++ q.
Proof.
  intros Hfs. revert pre ino i. induction Hfs as [|g files Hg Hfs IH]; intros pre ino i Hi; [done|].
  destruct i as [|i]; simpl in Hi.
  - injection Hi as ->. eexists _, (pre ++ header f ++ c_name f ++ [0]
      ++ pad (HEADER_SIZE + zlen (c_name f) + 1)), _.
    cbn [entries_of lookup list_lookup e_path e_inode_num e_mode e_size e_data_offset].
    rewrite Z.add_0_r. split_and!; [done..| |].
    + rewrite !zlen_app, zlen_pad, zlen_header by done. change (zlen [0]) with 1.
      unfold content_start. cbn [e_data_offset]. lia.
    + cbn [fmap list_fmap concat]. unfold encode. rewrite <- !app_assoc. reflexivity.
  - destruct (IH (pre ++ encode g) (ino + 1) i Hi) as (e & p & q & He & Hp & Hn & Hm & Hs & Ho & Hd).
    exists e, p, q. rewrite zlen_app, zlen_encode in He by done.
    split_and!; [done|done|lia|done..|]. rewrite <- Hd.
    cbn [fmap list_fmap concat]. by rewrite <- !app_assoc.
Qed.

Lemma find_inode_entries offset ino files i :
  List.find (fun e => e_inode_num e =? ino + Z.of_nat i) (entries_of offset ino files)
  = entries_of offset ino files !! i.
Proof.
  revert offset ino i. induction files as [|f files IH]; intros offset ino [|i]; [done..| |].
  - simpl. by rewrite Z.add_0_r, Z.eqb_refl.
  - replace (ino + Z.of_nat (S i)) with (ino + 1 + Z.of_nat i) by lia.
    cbn [entries_of List.find e_inode_num]. rewrite (proj2 (Z.eqb_neq _ _)) by lia.
    exact (IH (offset + file_len f) (ino + 1) i).
Qed.

(** Reading an entry whose content lies in the archive. *)
Lemma ram_read_content fs e p c q offset buf :
  ram_data fs = p ++ c ++ q -> zlen p = e_data_offset e -> e_size e = zlen c ->
  zlen (ram_data fs) < 2 ^ 63 -> 0 <= offset < 2 ^ 63 ->
  ram_read_bytes fs e offset buf = Ret (copy_out (drop (Z.to_nat offset) c) buf).
Proof.
  intros Hd Hp Hs Hlen Ho. rewrite Hd, !zlen_app in Hlen.
  pose proof (zlen_nonneg p). pose proof (zlen_nonneg c). pose proof (zlen_nonneg q).
  unfold ram_read_bytes, add_u. rewrite in_width_ok by (split; lia). cbn [mbind outcome_bind].
  rewrite in_width_ok by (split; lia). cbn [mbind outcome_bind]. rewrite Hs, <- Hp.
  destruct (Z.geb_spec (zlen p + offset) (zlen p + zlen c)) as [H2|H2].
  - rewrite drop_ge by (unfold zlen in *; lia). unfold copy_out, overwrite.
    change (zlen []) with 0. rewrite Z.min_r by (unfold zlen; lia). simpl. by rewrite drop_0.
  - rewrite (slice_at _ _ _ (p ++ take (Z.to_nat offset) c) (drop (Z.to_nat offset) c) q); [done|..].
    + rewrite Hd, <- app_assoc. f_equal. rewrite app_assoc. by rewrite take_drop.
    + rewrite zlen_app. unfold zlen in *. rewrite length_take. lia.
    + rewrite zlen_app. unfold zlen in *. rewrite length_take, length_drop. lia.
Qed.

End parse.

Lemma find_entries_path (P : list Z -> bool) offset ino files i f :
  files !! i = Some f -> P (c_name f) = true ->
  (forall j g, j <> i -> files !! j = Some g -> P (c_name g) = false) ->
  List.find (fun e => P (e_path e)) (entries_of offset ino files) = entries_of offset ino files !! i.
Proof.
  revert offset ino i. induction files as [|g files IH]; intros offset ino [|i] Hi Hp Ho; [done..| |].
  - injection Hi as ->. simpl. by rewrite Hp.
  - cbn [entries_of List.find e_path]. rewrite (Ho 0%nat g) by done.
    apply (IH (offset + file_len g) (ino + 1) i Hi Hp).
    intros j h Hj Hh. by apply (Ho (S j)); [lia|].
Qed.

Lemma encode_length files : Forall file_ok files ->
  110 * zlen files <= zlen (concat (encode <$> files)).
Proof.
  induction 1 as [|f files Hf _ IH]; [done|]. rewrite fmap_cons. cbn [concat].
  rewrite zlen_app, zlen_cons, zlen_encode by done. pose proof (file_len_aligned f) as [_ H].
  unfold HEADER_SIZE in H. lia.
Qed.

Section filesystem.
Context `{Pl : Platform} `{Pr : Profile}.

Definition files_ok (files : list CpioFile) (t : CpioFile) : Prop :=
  Forall (fun f => file_ok f /\ c_name f <> TRAILER) files /\ file_ok t /\ c_name t = TRAILER.

Lemma new_archive files t tail (k : Kernel) :
  files_ok files t -> zlen (archive files t tail) < 2 ^ 63 ->
  exists k', InitramFs_new (archive files t tail) k
    = Done (Some (mkInitramFs (archive files t tail) (entries_of 0 2 files))) k' /\
    PROCESS_TABLE k' = PROCESS_TABLE k /\ memory k' = memory k.
Proof.
  intros (Hfs & Ht & Htn) Hlen.
  assert (Forall file_ok files) as Hok by (eapply Forall_impl; [exact Hfs|]; by intros ? []).
  pose proof (encode_length files Hok) as Hel.
  assert (zlen files <= zlen (archive files t tail)) as Hfl.
  { unfold archive. rewrite zlen_app. pose proof (zlen_nonneg files).
    pose proof (zlen_nonneg (encode t ++ tail)). lia. }
  unfold InitramFs_new, mbind, M_bind, lift.
  change 0 with (zlen ([] : list Z)) at 1. change (archive files t tail) with ([] ++ archive files t tail) at 2.
  rewrite (parse_loop_encode [] files t tail 2); [|done..| |lia|]; [by eexists| |].
  - unfold zlen in *. lia.
  - unfold zlen in *. simpl. lia.
Qed.


(** C29: Lookups in the initial RAM disk: with distinct, non-empty names that do
    not start with a slash, every packed file is found under its name, with
    and without a leading slash, with the inode number, size and permission
    bits of its header and the kind its mode says. *)
Theorem initramfs_lookup (files : list CpioFile) (t : CpioFile) (tail : list Z) (k : Kernel)
    (i : nat) (f : CpioFile) (k1 : Kernel) :
  files_ok files t -> zlen (archive files t tail) < 2 ^ 63 -> NoDup (c_name <$> files) ->
  Forall (fun f => c_name f <> [] /\ head (c_name f) <> Some slash) files -> files !! i = Some f ->
  exists fs k' inode, InitramFs_new (archive files t tail) k = Done (Some fs) k' /\
    fs_lookup (Initram fs) (c_name f) k1 = Done (Ok inode) k1 /\
    fs_lookup (Initram fs) (slash :: c_name f) k1 = Done (Ok inode) k1 /\
    inode_num inode = 2 + Z.of_nat i /\ size inode = zlen (c_content f) /\
    mode inode = c_mode f `mod` 2 ^ 16 /\
    (kind inode = Directory <-> Z.land (c_mode f) S_IFMT = S_IFDIR) /\
    (kind inode = Symlink <-> Z.land (c_mode f) S_IFMT = S_IFLNK).
Proof.
  intros Hok Hlen Hnd Hnm Hi. destruct (new_archive files t tail k Hok Hlen) as (k' & E & _).
  destruct (entries_lookup [] files (encode t ++ tail) 2 i f) as (e & p & q & He & Hpa & Hin & Hm & Hs & _);
    [eapply Forall_impl; [exact (proj1 Hok)|]; by intros ? []|done|].
  change (zlen []) with 0 in He.
  pose proof (Forall_lookup_1 _ _ _ _ Hnm Hi) as [Hne Hhd].
  set (P path (s : list Z) := bool_decide (s = path) || bool_decide (s = trim_start_matches slash path)).
  assert (forall path, path = c_name f \/ path = slash :: c_name f ->
    ram_find (mkInitramFs (archive files t tail) (entries_of 0 2 files)) path = Some e) as Hfind.
  { intros path Hpath. unfold ram_find. cbn [ram_entries]. rewrite <- He.
    apply (find_entries_path (P path) 0 2 files i f Hi); unfold P.
    - destruct Hpath as [->| ->]; [by rewrite bool_decide_eq_true_2|].
      rewrite orb_true_iff. right. apply bool_decide_eq_true. simpl.
      by rewrite trim_start_matches_id.
    - intros j g Hj Hg. pose proof (Forall_lookup_1 _ _ _ _ Hnm Hg) as [_ Hgh].
      assert (c_name g <> c_name f) as Hgf.
      { intros Eg. apply Hj. eapply (NoDup_lookup (c_name <$> files)); [done|..];
          rewrite list_lookup_fmap; [by rewrite Hg|]. rewrite Hi. simpl. by rewrite Eg. }
      rewrite orb_false_iff, !bool_decide_eq_false. destruct Hpath as [->| ->]; simpl;
        rewrite trim_start_matches_id by done; split; try done. intros Eg. by rewrite Eg in Hgh. }
  assert (forall path, path = c_name f \/ path = slash :: c_name f ->
    bool_decide (path = lit "/") || bool_decide (path = []) = false) as Hroot.
  { intros path Hpath. rewrite orb_false_iff, !bool_decide_eq_false.
    destruct Hpath as [->| ->]; split; try done; intros Ep; [by rewrite Ep in Hhd|].
    injection Ep as Ep. done. }
  eexists _, k', _. split; [exact E|]. cbn [fs_lookup Initram]. unfold ram_lookup.
  rewrite !Hroot, !Hfind by auto. split_and!; [done|done| | | | |]; simpl.
  - done.
  - done.
  - by rewrite Hm.
  - rewrite Hm. destruct (Z.eqb_spec (Z.land (c_mode f) S_IFMT) S_IFDIR) as [->|]; [done|].
    split; [|done]. by destruct (_ =? S_IFLNK).
  - rewrite Hm. destruct (Z.eqb_spec (Z.land (c_mode f) S_IFMT) S_IFDIR) as [->|]; [done|].
    destruct (Z.eqb_spec (Z.land (c_mode f) S_IFMT) S_IFLNK); done.
Qed.

(** ** Listings *)

(** C30: What a directory of the initial RAM disk lists: an entry appears under the
    name [n] exactly when its path is the directory's path, then any number of
    slashes, then [n], with [n] not empty and free of slashes.  Any number
    includes none: an entry that merely continues the directory's name
    ([binary] next to [bin]) is listed as if it were inside ([ary]). *)
Theorem initramfs_listing (fs : InitramFs) (dir : CpioEntry) (inode : Inode) (k : Kernel) :
  find_inode fs (inode_num inode) = Some dir -> inode_num inode <> 1 ->
  exists es, fs_readdir (Initram fs) inode k = Done (Ok es) k /\
    forall n num kd, mkDirEntry n num kd ∈ es <->
      exists e j, e ∈ ram_entries fs /\ e_path e = e_path dir ++ replicate j slash ++ n /\
        n <> [] /\ slash ∉ n /\ num = e_inode_num e /\
        kd = if Z.land (e_mode e) S_IFMT =? S_IFDIR then Directory else RegularFile.
Proof.
  intros Hf Hne. cbn [fs_readdir Initram]. unfold ram_readdir.
  rewrite (proj2 (Z.eqb_neq _ _) Hne), Hf. eexists. split; [done|]. intros n num kd.
  rewrite list_elem_of_omap. unfold ram_child. split.
  - intros (e & He & Hc). destruct (starts_with _ _) eqn:Hs; [|done].
    apply starts_with_spec in Hs as [r Hr]. rewrite Hr, drop_app_length in Hc.
    destruct (trim_start_matches_spec slash r) as (j & Ej & _).
    destruct (negb _ && negb _) eqn:Hb; [|done]. injection Hc as <- <- <-.
    apply andb_true_iff in Hb as [Hb1 Hb2]. apply negb_true_iff, contains_false in Hb1.
    apply negb_true_iff, bool_decide_eq_false in Hb2.
    exists e, j. split_and!; try done. by rewrite Hr, <- Ej.
  - intros (e & j & He & Hp & Hn & Hs & -> & ->). exists e. split; [done|].
    rewrite (proj2 (starts_with_spec _ _)) by (rewrite Hp; eauto).
    rewrite Hp, drop_app_length.
    assert (trim_start_matches slash (replicate j slash ++ n) = n) as ->.
    { clear Hp. induction j; simpl; [|done]. apply trim_start_matches_id.
      destruct n; simpl; [done|]. intros [= ->]. apply Hs. left. }
    by rewrite (proj2 (contains_false _ _) Hs), bool_decide_eq_false_2 by done.
Qed.

(** ** Panics *)

(** A header field. *)
Definition field (data : list Z) (a b : Z) : option Z :=
  match slice data a b with Ret s => parse_hex8 s | Panic => None end.

Lemma parse_hex8_range s n : parse_hex8 s = Some n -> is_u32 n.
Proof. unfold parse_hex8. case_match; [|done]. apply u32_from_hex_range. Qed.

Lemma align4_total x : 0 <= x -> x + 3 < 2 ^ 64 ->
  exists y, align4 x = Ret y /\ x <= y <= x + 3.
Proof.
  intros H0 H1. unfold align4, add_u. rewrite in_width_ok by (split; lia). cbn [mbind outcome_bind].
  eexists. split; [done|]. pose proof (Z.mod_pos_bound (x + 3) 4 ltac:(lia)). lia.
Qed.

(** One turn of the parser on a header inside the archive. *)
Lemma parse_turn_spec data offset ino :
  zlen data < 2 ^ 63 -> 0 <= offset -> offset + HEADER_SIZE <= zlen data ->
  (exists next e, parse_turn data offset ino = Ret (Entry e next) /\
     offset + HEADER_SIZE <= next < 2 ^ 64 - HEADER_SIZE) \/
  parse_turn data offset ino = Ret Break \/ parse_turn data offset ino = Ret Fail_ \/
  (parse_turn data offset ino = Panic /\ slice data offset (offset + 6) = Ret CPIO_NEWC_MAGIC /\
   field data (offset + 94) (offset + 102) = Some 0 /\
   field data (offset + 54) (offset + 62) <> None /\
   field data (offset + 14) (offset + 22) <> None).
Proof.
  intros Hlen H0 Hh. unfold HEADER_SIZE in *. unfold field, parse_turn, HEADER_SIZE.
  rewrite !slice_ret by lia. cbn [mbind outcome_bind].
  case_bool_decide as Hmag; simpl negb; [|by right; left].
  rewrite Hmag.
  destruct (parse_hex8 (take (Z.to_nat (offset + 102 - (offset + 94))) _)) as [n|] eqn:E1; [|auto].
  destruct (parse_hex8 (take (Z.to_nat (offset + 62 - (offset + 54))) _)) as [s|] eqn:E2; [|auto].
  destruct (parse_hex8 (take (Z.to_nat (offset + 22 - (offset + 14))) _)) as [md|] eqn:E3; [|auto].
  apply parse_hex8_range in E1 as [??], E2 as [??]. unfold add_u, sub_u.
  rewrite (in_width_ok 64 (offset + 110)) by (split; lia). cbn [mbind outcome_bind].
  rewrite in_width_ok by (split; lia). cbn [mbind outcome_bind].
  destruct (offset + 110 + n >? zlen data) eqn:Hgt; [by right; left|].
  rewrite Z.gtb_ltb, Z.ltb_ge in Hgt.
  rewrite in_width_ok by (split; lia). cbn [mbind outcome_bind].
  destruct (decide (n = 0)) as [->|Hn].
  { right. right. right. rewrite (proj2 (slice_panic _ _ _)) by lia. done. }
  rewrite slice_ret by lia. cbn [mbind outcome_bind].
  destruct (from_utf8 _) as [path|]; [|auto].
  destruct (align4_total (offset + 110 + n)) as (y & -> & Hy); [lia..|]. cbn [mbind outcome_bind].
  rewrite in_width_ok by (split; lia). cbn [mbind outcome_bind].
  case_bool_decide; [by right; left|].
  destruct (align4_total (y + s)) as (z & -> & Hz); [lia..|]. left. eexists _, _. split; [done|]. lia.
Qed.

(** When the parser panics: on a header inside the archive exactly when the magic
    is right, the size and mode fields are readable and the name size field
    is zero (the slice that strips the name's NUL then ends before it starts). *)
Theorem parse_turn_panics_iff (data : list Z) (offset ino : Z) :
  zlen data < 2 ^ 63 -> 0 <= offset -> offset + HEADER_SIZE <= zlen data ->
  parse_turn data offset ino = Panic <->
  slice data offset (offset + 6) = Ret CPIO_NEWC_MAGIC /\
  field data (offset + 94) (offset + 102) = Some 0 /\
  field data (offset + 54) (offset + 62) <> None /\
  field data (offset + 14) (offset + 22) <> None.
Proof.
  intros Hlen H0 Hh. split.
  - destruct (parse_turn_spec data offset ino Hlen H0 Hh)
      as [(?&?&->&_)|[->|[->|(_&?)]]]; done.
  - intros (Hm & Hn & Hs & Hmd). unfold field, parse_turn, HEADER_SIZE in *. rewrite Hm.
    cbn [mbind outcome_bind]. rewrite bool_decide_eq_true_2 by done. simpl negb.
    destruct (slice data (offset + 94) _) as [s1|]; [|done]. cbn [mbind outcome_bind]. rewrite Hn.
    destruct (slice data (offset + 54) _) as [s2|]; [|done]. cbn [mbind outcome_bind].
    destruct (parse_hex8 s2) as [sz|]; [|done].
    destruct (slice data (offset + 14) _) as [s3|]; [|done]. cbn [mbind outcome_bind].
    destruct (parse_hex8 s3) as [md|]; [|done]. unfold add_u, sub_u.
    rewrite (in_width_ok 64 (offset + 110)) by (split; lia). cbn [mbind outcome_bind].
    rewrite Z.add_0_r, in_width_ok by (split; lia). cbn [mbind outcome_bind].
    rewrite Z.gtb_ltb, (proj2 (Z.ltb_ge _ _)) by lia.
    rewrite in_width_ok by (split; lia). cbn [mbind outcome_bind].
    by rewrite (proj2 (slice_panic _ _ _)) by lia.
Qed.

(** C31: The parser terminates: on any archive below 2^63 bytes the loop needs at most
    one turn per byte; any two amounts of fuel above that give the same
    result, in particular the one [InitramFs::new] is modelled with. *)
Theorem parse_loop_fuel (data : list Z) (offset ino : Z) (n n' : nat) :
  zlen data < 2 ^ 63 -> 0 <= offset < 2 ^ 64 - HEADER_SIZE ->
  (Z.to_nat (zlen data - offset) < n)%nat -> (Z.to_nat (zlen data - offset) < n')%nat ->
  parse_loop n data offset ino = parse_loop n' data offset ino.
Proof.
  intros Hlen. revert offset ino n'. induction n as [|n IH]; intros offset ino n' H0 H1 H2; [lia|].
  destruct n' as [|n']; [lia|]. cbn [parse_loop]. unfold add_u.
  rewrite (in_width_ok 64 (offset + HEADER_SIZE)) by (unfold HEADER_SIZE in *; split; lia). cbn [mbind outcome_bind].
  destruct (Z.leb_spec (offset + HEADER_SIZE) (zlen data)) as [Hh|]; [|done].
  destruct (parse_turn_spec data offset ino Hlen ltac:(lia) Hh)
    as [(next & e & -> & Hn)|[->|[->|(->&_)]]]; [|done..].
  cbn [mbind outcome_bind]. destruct (in_width 64 (ino + 1)) as [i|]; [|done].
  cbn [mbind outcome_bind]. unfold HEADER_SIZE in *. rewrite (IH next i n'); [done|lia..].
Qed.

(** A truncated archive: reading an entry panics exactly when some of the
    requested part is announced but its announced end lies beyond the
    archive. *)
Theorem truncated_read_panics (fs : InitramFs) (e : CpioEntry) (offset : Z) (buf : list Z) :
  zlen (ram_data fs) < 2 ^ 63 -> 0 <= e_data_offset e < 2 ^ 63 -> 0 <= e_size e < 2 ^ 32 ->
  0 <= offset < 2 ^ 63 ->
  ram_read_bytes fs e offset buf = Panic <->
  offset < e_size e /\ zlen (ram_data fs) < e_data_offset e + e_size e.
Proof.
  intros Hlen Hd Hs Ho. unfold ram_read_bytes, add_u.
  rewrite in_width_ok by (split; lia). cbn [mbind outcome_bind].
  rewrite in_width_ok by (split; lia). cbn [mbind outcome_bind].
  destruct (Z.geb_spec (e_data_offset e + offset) (e_data_offset e + e_size e)) as [H|H].
  - split; [done|lia].
  - destruct (decide (zlen (ram_data fs) < e_data_offset e + e_size e)).
    + rewrite (proj2 (slice_panic _ _ _)) by lia. split; [lia|done].
    + rewrite slice_ret by lia. split; [done|lia].
Qed.

End filesystem.

(** ** Witnesses *)

#[local] Existing Instance dev.

Definition demo_file (name content : list Z) (mode : Z) : CpioFile :=
  mkFile name mode content (hex8 1) (replicate 32 48) (replicate 32 48) (hex8 0).

(** A directory [bin], a file in it, and a sibling whose name starts the same. *)
Definition demo_list : list CpioFile :=
  [ demo_file (lit "bin") [] 0x41ED; demo_file (lit "bin/sh") (lit "#!") 0x81ED;
    demo_file (lit "binary") (lit "data!") 0x81A4 ].
Definition demo_trailer : CpioFile := demo_file TRAILER [] 0.

Lemma demo_files_ok : files_ok demo_list demo_trailer.
Proof.
  assert (forall n c m, from_utf8 n = Some n -> zlen n < 1000 -> zlen c < 1000 -> is_u32 m ->
    file_ok (demo_file n c m)) as H.
  { intros n c m Hn Hl Hc Hm. unfold file_ok. simpl. split_and!; done || lia || apply Hm. }
  split_and!; [|by apply H|done].
  repeat (apply Forall_cons; split); [split; [apply H; done|done]..|constructor].
Qed.


Lemma initramfs_lookup_witness :
  exists fs k' inode, InitramFs_new (archive demo_list demo_trailer []) (Demo.kernel [] 0 0 ∅ [])
    = Done (Some fs) k' /\
    fs_lookup (Initram fs) (lit "/bin/sh") (Demo.kernel [] 0 0 ∅ [])
    = Done (Ok inode) (Demo.kernel [] 0 0 ∅ []) /\ inode_num inode = 3.
Proof.
  destruct (initramfs_lookup demo_list demo_trailer [] (Demo.kernel [] 0 0 ∅ []) 1
    (demo_file (lit "bin/sh") (lit "#!") 0x81ED) (Demo.kernel [] 0 0 ∅ []))
    as (fs & k' & inode & E & _ & El & En & _).
  - apply demo_files_ok.
  - by vm_compute.
  - by_decide.
  - repeat (apply Forall_cons; split); [done..|constructor].
  - reflexivity.
  - exists fs, k', inode. exact (conj E (conj El En)).
Defined.

Lemma initramfs_listing_witness :
  let fs := mkInitramFs [] (entries_of 0 2 demo_list) in
  exists es, fs_readdir (Initram fs) (Inode_new 2 Directory) (Demo.kernel [] 0 0 ∅ [])
    = Done (Ok es) (Demo.kernel [] 0 0 ∅ []) /\
    mkDirEntry (lit "sh") 3 RegularFile ∈ es /\ mkDirEntry (lit "ary") 4 RegularFile ∈ es.
Proof.
  destruct (initramfs_listing (mkInitramFs [] (entries_of 0 2 demo_list))
    (mkEntry (lit "bin") 2 0x41ED 0 116) (Inode_new 2 Directory) (Demo.kernel [] 0 0 ∅ []))
    as (es & E & H).
  - reflexivity.
  - done.
  - exists es. split; [exact E|]. split; apply H.
    + eexists _, 1%nat. split; [right; left|]. split; [reflexivity|]. split_and!; try done. by_decide.
    + eexists _, 0%nat. split; [right; right; left|]. split; [reflexivity|]. split_and!; try done. by_decide.
Defined.

Definition demo_bad_header : list Z :=
  CPIO_NEWC_MAGIC ++ hex8 1 ++ hex8 0x81A4 ++ replicate 32 48 ++ hex8 0 ++ replicate 32 48
  ++ hex8 0 ++ hex8 0.

Lemma parse_turn_panics_iff_witness : parse_turn demo_bad_header 0 2 = Panic.
Proof.
  apply (parse_turn_panics_iff demo_bad_header 0 2); [by vm_compute|lia|by vm_compute|].
  split_and!; by vm_compute.
Defined.

Lemma parse_loop_fuel_witness :
  parse_loop 700 (archive demo_list demo_trailer []) 0 2
  = parse_loop 800 (archive demo_list demo_trailer []) 0 2.
Proof.
  apply (parse_loop_fuel (archive demo_list demo_trailer []) 0 2 700 800);
    [by vm_compute|by vm_compute|by_decide|by_decide].
Defined.

Lemma truncated_read_panics_witness :
  ram_read_bytes (mkInitramFs [1; 2; 3] []) (mkEntry (lit "a") 2 0 9 1) 0 [0] = Panic.
Proof.
  apply (truncated_read_panics (mkInitramFs [1; 2; 3] []) (mkEntry (lit "a") 2 0 9 1) 0 [0]);
    [by vm_compute|simpl; lia|simpl; lia|lia|]. by vm_compute.
Defined.
