(* ===== verification/Shell.v ===== *)
(** * The kernel shell ([shell.rs])

    The prompt, the line editor over the keyboard, and the built-in commands.
    A line is edited as bytes; a command is a list of Unicode scalar values. *)

From S2P Require Import Prelude RustStr KeyBuffer Mem Vga Kernel Scheduler Keyboard Interrupts.

Definition MAX_CMD_LEN : Z := 256.
Definition HOSTNAME : list Z := lit "computekernel".
Definition USERNAME : list Z := lit "root".

(** [char::is_whitespace]. *)
Definition is_whitespace (c : Z) : bool :=
  in_rg 0x09 0x0D c || (c =? 0x20) || (c =? 0x85) || (c =? 0xA0) || (c =? 0x1680)
  || in_rg 0x2000 0x200A c || (c =? 0x2028) || (c =? 0x2029) || (c =? 0x202F)
  || (c =? 0x205F) || (c =? 0x3000).

Fixpoint trim_start (s : list Z) : list Z :=
  match s with
  | c :: s' => if is_whitespace c then trim_start s' else s
  | [] => []
  end.

(** [str::trim]. *)
Definition trim (s : list Z) : list Z := reverse (trim_start (reverse (trim_start s))).

(** [{:3}] of an integer: right-aligned in three columns. *)
Definition pad3 (s : list Z) : list Z := replicate (3 - length s) 32 ++ s.

Definition state_text (st : ProcessState) : list Z :=
  match st with
  | Ready => lit "READY  "
  | Running => lit "RUNNING"
  | Blocked => lit "BLOCKED"
  | Zombie => lit "ZOMBIE "
  end.

(** [core::str::from_utf8(raw).unwrap_or("").trim()]. *)
Definition command_line (raw : list Z) : list Z := trim (default [] (utf8_decode raw)).

(** The command word and its arguments. *)
Definition split_command (line : list Z) : list Z * list Z :=
  match find_char 32 line with
  | Some i => (take i line, trim (drop (S i) line))
  | None => (line, [])
  end.

Section shell.
Context `{Pl : Platform} `{Pr : Profile}.

Definition kprintln (s : list Z) : M unit := kprint (s ++ [10]).

(** [without_interrupts(|| WRITER.lock().f())]. *)
Definition with_writer (f : Writer -> mem -> outcome (Writer * mem)) : M unit := fun k =>
  match f (WRITER k) (memory k) with
  | Ret (w, m) => Done tt (set_screen w m k)
  | Panic => Panicked k
  end.

Definition set_color (fg bg : Color) : M unit :=
  with_writer (fun w m => Ret (Vga.set_color w fg bg, m)).

Definition print_prompt : M unit :=
  _ ← set_color LightGreen Black;
  _ ← kprint (USERNAME ++ lit "@" ++ HOSTNAME);
  _ ← set_color White Black;
  _ ← kprint (lit " ~ ");
  _ ← set_color LightCyan Black;
  _ ← kprint (lit "% ");
  set_color White Black.

(** The inner loop: block until a character is there. *)
Definition read_key : M Z := wait_until next_char.

(** The outer loop of [read_line], with a bound on the number of keys: the
    length of the line and the buffer.  [fuel] keys are not enough when more
    are read before the line ends. *)
Fixpoint read_line (fuel : nat) (buf : list Z) (pos : Z) : M (Z * list Z) :=
  match fuel with
  | O => fun k => Waiting k
  | S fuel =>
    ch ← read_key;
    if (ch =? 10) || (ch =? 13) then _ ← kprintln []; mret (pos, buf)
    else if (ch =? 0x08) || (ch =? 0x7F) then
      if pos >? 0 then
        buf' ← lift (KeyRing.buf_store buf (pos - 1) 0);
        _ ← with_writer Vga.backspace;
        read_line fuel buf' (pos - 1)
      else read_line fuel buf pos
    else if ch =? 0x03 then _ ← kprintln (lit "^C"); mret (0, buf)
    else if (ch >=? 0x20) && (pos <? MAX_CMD_LEN - 1) then
      buf' ← lift (KeyRing.buf_store buf pos ch);
      _ ← kprint (utf8_char ch);
      read_line fuel buf' (pos + 1)
    else read_line fuel buf pos
  end.

(** ** Built-in commands *)

Definition cmd_help : M unit :=
  _ ← kprintln (lit "ComputeKERNEL built-in commands:");
  _ ← kprintln (lit "  help      - show this help");
  _ ← kprintln (lit "  clear     - clear the screen");
  _ ← kprintln (lit "  echo      - print arguments");
  _ ← kprintln (lit "  uname     - print system information");
  _ ← kprintln (lit "  version   - print kernel version");
  _ ← kprintln (lit "  ps        - list processes");
  _ ← kprintln (lit "  uptime    - show uptime in ticks");
  _ ← kprintln (lit "  halt      - halt the system");
  kprintln (lit "  reboot    - reboot the system").

Definition cmd_clear : M unit := with_writer Vga.clear.

Definition cmd_echo (args : list Z) : M unit := kprintln (utf8_encode args).

Definition cmd_uname : M unit := kprintln (lit "ComputeKERNEL v1.0.0 x86_64").

Definition cmd_version : M unit :=
  _ ← kprintln (lit "ComputeKERNEL v1.0.0");
  _ ← kprintln (lit "Built with Rust (nightly)");
  kprintln (lit "Architecture: x86_64").

Fixpoint print_processes (t : list Process) : M unit :=
  match t with
  | [] => mret tt
  | p :: t =>
    _ ← kprintln (lit "  " ++ pad3 (fmt_dec (p_pid p)) ++ lit "  " ++ state_text (p_state p)
                  ++ lit "  " ++ p_name p);
    print_processes t
  end.

Definition cmd_ps : M unit :=
  t ← gets PROCESS_TABLE;
  _ ← kprintln (lit "  PID  STATE    NAME");
  print_processes t.

Definition cmd_uptime : M unit :=
  t ← ticks; kprintln (lit "uptime: " ++ fmt_dec t ++ lit " ticks").

(** [interrupts::disable()]: no interrupt is delivered from here on. *)
Definition interrupts_disable : M unit := modify (set_irqs []).

Definition cmd_halt : M unit :=
  _ ← kprintln (lit "Halting system...");
  _ ← interrupts_disable;
  halt_forever.

Definition cmd_reboot : M unit :=
  _ ← kprintln (lit "Rebooting...");
  _ ← modify (add_io (PortOut 0x64 0xFE));
  halt_forever.

Definition execute (raw : list Z) : M unit :=
  let line := command_line raw in
  if bool_decide (line = []) then mret tt
  else
    let '(cmd, args) := split_command line in
    if bool_decide (cmd = lit "help") then cmd_help
    else if bool_decide (cmd = lit "clear") then cmd_clear
    else if bool_decide (cmd = lit "echo") then cmd_echo args
    else if bool_decide (cmd = lit "uname") then cmd_uname
    else if bool_decide (cmd = lit "version") then cmd_version
    else if bool_decide (cmd = lit "ps") then cmd_ps
    else if bool_decide (cmd = lit "uptime") then cmd_uptime
    else if bool_decide (cmd = lit "halt") || bool_decide (cmd = lit "poweroff") then cmd_halt
    else if bool_decide (cmd = lit "reboot") then cmd_reboot
    else
      _ ← set_color LightRed Black;
      _ ← kprintln (lit "shell: command not found: " ++ utf8_encode cmd);
      set_color White Black.

(** ** The shell loop *)

Definition greeting : M unit :=
  _ ← kprintln [];
  _ ← kprintln (lit "Welcome to ComputeKERNEL v1.0.0");
  _ ← kprintln (lit "Type 'help' for available commands.");
  kprintln [].

(** One turn of [run]'s loop; a line takes at most [fuel] keys. *)
Definition shell_turn (fuel : nat) : M unit :=
  _ ← print_prompt;
  r ← read_line fuel (replicate 256 0) 0;
  raw ← lift (slice r.2 0 r.1);
  execute raw.

(** [n] turns. *)
Fixpoint shell_run (n fuel : nat) : M unit :=
  match n with
  | O => mret tt
  | S n => _ ← shell_turn fuel; shell_run n fuel
  end.

Definition shell_main (n fuel : nat) : M unit := _ ← greeting; shell_run n fuel.

End shell.
