(* ===== verification/ShellSpec.v ===== *)
(** * What the shell promises

    The line editor against an editor on lists, with what it shows on the
    screen; and that no turn of the shell panics. *)

From S2P Require Import Prelude RustStr KeyBuffer Mem Vga Kernel Signal Scheduler Keyboard Interrupts Process Syscall Lifecycle ExitWait Files Safety Shell.

(** ** The editor on lists *)

Definition is_enter (c : Z) : bool := (c =? 10) || (c =? 13).
Definition is_erase (c : Z) : bool := (c =? 0x08) || (c =? 0x7F).
Definition is_cancel (c : Z) : bool := c =? 0x03.
Definition is_text (c : Z) (line : list Z) : bool := (c >=? 0x20) && (zlen line <? 255).

(** The line a sequence of keys enters and the keys behind it; [None] when
    the keys do not complete a line. *)
Fixpoint edit (line keys : list Z) : option (list Z * list Z) :=
  match keys with
  | [] => None
  | c :: keys =>
    if is_enter c then Some (line, keys)
    else if is_erase c then edit (removelast line) keys
    else if is_cancel c then Some ([], keys)
    else if is_text c line then edit (line ++ [c]) keys
    else edit line keys
  end.

(** What the screen shows meanwhile. *)
Fixpoint echo (t : Vga.Term) (line keys : list Z) : Vga.Term :=
  match keys with
  | [] => t
  | c :: keys =>
    if is_enter c then Vga.t_write_string t [10]
    else if is_erase c then
      echo (if bool_decide (line = []) then t else Vga.t_backspace t) (removelast line) keys
    else if is_cancel c then Vga.t_write_string t (lit "^C" ++ [10])
    else if is_text c line then echo (Vga.t_write_string t (utf8_char c)) (line ++ [c]) keys
    else echo t line keys
  end.

(** ** The editor over the keyboard and the screen *)

Section editor.
Context `{Pl : Platform} `{Pr : Profile}.

(** The statics a console session leaves alone. *)
Definition others (k : Kernel) :=
  (PROCESS_TABLE k, NEXT_PID k, TICK k, CURRENT_PID k, FD_TABLE k, KEYBOARD k, devices k).

Context {r : list Process * Z * Z * Z * list (option OpenFile) * Keyboard * Devices}.

(** The keyboard ring holds [keys], the screen is well formed and shows [t], and
    the other statics are [r]. *)
Definition console (k : Kernel) (keys : list Z) (t : Vga.Term) : Prop :=
  KeyRing.inv (KEY_BUFFER k) /\ KeyRing.contents (KEY_BUFFER k) = keys /\
  Vga.inv (WRITER k) /\ Vga.ready (memory k) /\ Vga.term_of (WRITER k) (memory k) = t /\
  others k = r.

Lemma read_key_queued k c keys t :
  console k (c :: keys) t -> exists k', read_key k = Done c k' /\ console k' keys t.
Proof.
  intros (Hi & Hc & Hw & Hm & Ht & Hr). destruct (KeyRing.pop_spec _ Hi) as (q & E & Hq & Hl).
  rewrite Hc in E, Hl. unfold read_key, wait_until. cbn [wait_loop].
  unfold next_char, try_read_char, mbind, M_bind, gets, lift. rewrite E. by eexists.
Qed.

Lemma with_writer_console f g k keys t :
  (forall w m, Vga.inv w -> Vga.ready m -> exists w' m', f w m = Ret (w', m') /\
     Vga.refines (g (Vga.term_of w m)) w' m' m) ->
  console k keys t -> exists k', with_writer f k = Done tt k' /\ console k' keys (g t).
Proof.
  intros Hf (Hi & Hc & Hw & Hm & <- & Hr). destruct (Hf _ _ Hw Hm) as (w & m & E & Hw' & Hm' & _ & Ht').
  unfold with_writer. rewrite E. eexists. split; [done|]. by rewrite <- Ht'.
Qed.

Lemma kprint_console s k keys t :
  console k keys t -> exists k', kprint s k = Done tt k' /\ console k' keys (Vga.t_write_string t s).
Proof.
  apply (with_writer_console (fun w m => Vga.write_string w m s)
    (fun t => Vga.t_write_string t s)). intros. by apply Vga.write_string_spec.
Qed.

(** The fixed-size buffer holds the line and nothing behind it matters. *)
Lemma buf_store_line (line rest : list Z) x c :
  KeyRing.buf_store (line ++ x :: rest) (zlen line) c = Ret (line ++ c :: rest).
Proof.
  unfold KeyRing.buf_store. rewrite decide_True.
  - f_equal. unfold zlen. by rewrite Nat2Z.id, insert_app_r_alt, Nat.sub_diag by lia.
  - rewrite zlen_app, zlen_cons. pose proof (zlen_nonneg line). pose proof (zlen_nonneg rest). lia.
Qed.

Lemma read_line_spec fuel line rest0 keys line' rest t k :
  (length keys <= fuel)%nat -> zlen line <= 255 -> zlen (line ++ rest0) = 256 ->
  edit line keys = Some (line', rest) -> console k keys t ->
  exists k' buf, read_line fuel (line ++ rest0) (zlen line) k = Done (zlen line', buf) k' /\
    zlen buf = 256 /\ zlen line' <= 255 /\ take (length line') buf = line' /\
    console k' rest (echo t line keys).
Proof.
  revert line rest0 keys t k. induction fuel as [|fuel IH];
    intros line rest0 keys t k Hf Hl Hb He Hk; (destruct keys as [|c keys]; [done|]); simpl in Hf; [lia|].
  destruct (read_key_queued k c keys t Hk) as (k1 & E1 & Hk1).
  cbn [edit echo] in *. cbn [read_line]. unfold mbind, M_bind. rewrite E1.
  fold (is_enter c). destruct (is_enter c).
  { injection He as <- <-. destruct (kprint_console [10] k1 keys t Hk1) as (k2 & E2 & Hk2).
    unfold kprintln. simpl app. rewrite E2. eexists _, _. split; [done|].
    split_and!; [done..|by rewrite take_app_length|done]. }
  fold (is_erase c). destruct (is_erase c).
  { rewrite Z.gtb_ltb. destruct line as [|x line _] using rev_ind.
    { simpl in *. by apply (IH [] rest0 keys t k1); [lia|..]. }
    rewrite removelast_last in *. rewrite zlen_app in *. change (zlen [x]) with 1 in *.
    pose proof (zlen_nonneg line).
    rewrite (proj2 (Z.ltb_lt _ _)) by lia. rewrite Z.add_simpl_r, <- app_assoc. simpl app.
    unfold lift. rewrite buf_store_line.
    destruct (with_writer_console Vga.backspace Vga.t_backspace k1 keys t
      ltac:(intros; by apply Vga.backspace_spec) Hk1) as (k2 & E2 & Hk2).
    rewrite E2. rewrite bool_decide_eq_false_2 by (by destruct line).
    apply IH; [lia|lia| |done|done]. rewrite ?zlen_app, ?zlen_cons, ?zlen_nil in *. lia. }
  fold (is_cancel c). destruct (is_cancel c).
  { injection He as <- <-. destruct (kprint_console (lit "^C" ++ [10]) k1 keys t Hk1) as (k2 & E2 & Hk2).
    unfold kprintln. rewrite E2. eexists _, _. split; [done|]. split_and!; done. }
  change ((c >=? 0x20) && (zlen line <? MAX_CMD_LEN - 1)) with (is_text c line).
  destruct (is_text c line) eqn:Htx; [|by apply IH; [lia|..]].
  unfold is_text in Htx. apply andb_true_iff in Htx as [_ Hlt%Z.ltb_lt].
  destruct rest0 as [|x rest0]; [rewrite app_nil_r in Hb; lia|].
  unfold lift. rewrite buf_store_line.
  destruct (kprint_console (utf8_char c) k1 keys t Hk1) as (k2 & E2 & Hk2). rewrite E2.
  specialize (IH (line ++ [c]) rest0 keys (Vga.t_write_string t (utf8_char c)) k2).
  rewrite zlen_app, <- app_assoc in IH. change (zlen [c]) with 1 in IH.
  apply IH; [lia|lia| |done|done]. rewrite zlen_app in *. simpl app. rewrite zlen_cons in *. lia.
Qed.

(** The line in the buffer. *)
Lemma line_of_buffer (buf line : list Z) :
  zlen buf = 256 -> zlen line <= 255 -> take (length line) buf = line -> slice buf 0 (zlen line) = Ret line.
Proof.
  intros Hb Hl Ht. pose proof (zlen_nonneg line). rewrite slice_ret by lia. simpl.
  rewrite drop_0, Z.sub_0_r. unfold zlen. by rewrite Nat2Z.id, Ht.
Qed.

(** The line editor: with keys queued that complete a line, [read_line] returns
    exactly the line an editor on lists makes of them (text appended up to 255
    bytes, backspace and delete erase, control-C cancels, anything else is
    ignored), leaves the keys behind it queued, shows the echo on the screen,
    changes nothing else, and does not panic. *)
Theorem read_line_edits (k : Kernel) (keys line rest : list Z) (t : Vga.Term) (fuel : nat) :
  (length keys <= fuel)%nat -> console k keys t -> edit [] keys = Some (line, rest) ->
  exists k' buf, read_line fuel (replicate 256 0) 0 k = Done (zlen line, buf) k' /\
    zlen line <= 255 /\ slice buf 0 (zlen line) = Ret line /\ console k' rest (echo t [] keys).
Proof.
  intros Hf Hk He.
  destruct (read_line_spec fuel [] (replicate 256 0) keys line rest t k) as (k' & buf & E & Hb & Hl & Ht & Hk');
    [done..|]. exists k', buf. split_and!; [done..|by apply line_of_buffer|done].
Qed.

End editor.

(** ** No turn panics *)

Section safe_shell.
Context `{Pl : Platform} `{Pr : Profile} (D : gset Z).

Lemma safe_with_writer f g :
  (forall w m, Vga.inv w -> Vga.ready m -> exists w' m', f w m = Ret (w', m') /\
     Vga.refines (g (Vga.term_of w m)) w' m' m) ->
  safe D (with_writer f) (fun _ => True).
Proof.
  intros Hf k Hk. destruct (Hf (WRITER k) (memory k)) as (w & m & E & Hw & Hm & Hfr & _);
    [by apply Hk|by eapply ok_ready|].
  unfold with_writer. rewrite E. split; [|done]. by apply ok_set_screen.
Qed.

Lemma safe_set_color fg bg : safe D (set_color fg bg) (fun _ => True).
Proof.
  apply (safe_with_writer _ (Vga.t_exec (Vga.SetColor fg bg))). intros w m Hw Hm.
  exact (Vga.exec_spec (Vga.SetColor fg bg) w m Hw Hm).
Qed.

Lemma safe_kprintln s : safe D (kprintln s) (fun _ => True).
Proof. apply safe_kprint. Qed.

#[local] Hint Resolve safe_set_color safe_kprintln safe_kprint : safe.

Lemma safe_prompt : safe D print_prompt (fun _ => True).
Proof. unfold print_prompt. repeat safe_step. Qed.

Lemma safe_read_key : safe D read_key is_u8.
Proof. apply safe_wait_until. apply safe_next_char. Qed.

(** A line within the buffer. *)
Definition line_ok (r : Z * list Z) : Prop := 0 <= r.1 <= 255 /\ zlen r.2 = 256.

Lemma safe_buf_store buf i b :
  0 <= i <= 255 -> zlen buf = 256 ->
  safe D (lift (KeyRing.buf_store buf i b)) (fun buf' => zlen buf' = 256).
Proof.
  intros Hi Hb. apply safe_lift. unfold KeyRing.buf_store. rewrite decide_True by lia.
  eexists. split; [done|]. unfold zlen in *. by rewrite length_insert.
Qed.

Lemma safe_read_line fuel buf pos :
  0 <= pos <= 255 -> zlen buf = 256 -> safe D (read_line fuel buf pos) line_ok.
Proof.
  revert buf pos. induction fuel as [|fuel IH]; intros buf pos Hp Hb; [by intros k Hk|]. simpl.
  eapply safe_bind; [apply safe_read_key|]. intros ch _.
  case_match; [eapply safe_bind; [apply safe_kprintln|]; intros; by apply safe_ret|].
  case_match.
  { rewrite Z.gtb_ltb. destruct (Z.ltb_spec 0 pos); [|by apply IH].
    eapply safe_bind; [apply safe_buf_store; [lia|done]|]. intros buf' Hb'.
    eapply safe_bind; [|intros; apply IH; [lia|done]].
    apply (safe_with_writer _ Vga.t_backspace). intros. by apply Vga.backspace_spec. }
  case_match; [eapply safe_bind; [apply safe_kprintln|]; intros; apply safe_ret; split; [simpl; lia|done]|].
  destruct ((ch >=? 32) && (pos <? MAX_CMD_LEN - 1)) eqn:E; [|by apply IH].
  apply andb_true_iff in E as [_ E%Z.ltb_lt]. unfold MAX_CMD_LEN in E.
  eapply safe_bind; [apply safe_buf_store; [lia|done]|]. intros buf' Hb'.
  eapply safe_bind; [apply safe_kprint|]. intros. apply IH; [lia|done].
Qed.

Lemma safe_print_processes t : safe D (print_processes t) (fun _ => True).
Proof. induction t; simpl; [by apply safe_ret|]. eapply safe_bind; [apply safe_kprintln|]. done. Qed.

Lemma safe_halt {A} : safe D (halt_forever (A := A)) (fun _ => True).
Proof. by intros k Hk. Qed.

Lemma safe_clear : safe D cmd_clear (fun _ => True).
Proof. apply (safe_with_writer _ Vga.t_clear). intros. by apply Vga.clear_term_spec. Qed.

Lemma ok_no_irqs k : ok D k -> ok D (set_irqs [] k).
Proof.
  intros []. pose proof (zlen_nonneg (irqs k)). split; try done.
  cbn [TICK irqs set_irqs]. change (zlen []) with 0. lia.
Qed.
#[local] Hint Resolve safe_print_processes safe_halt safe_clear ok_no_irqs safe_gets_any : safe.

Lemma safe_execute raw : safe D (execute raw) (fun _ => True).
Proof.
  unfold execute. destruct (bool_decide _); [by apply safe_ret|].
  destruct (split_command _) as [cmd args].
  unfold cmd_help, cmd_echo, cmd_uname, cmd_version, cmd_ps, cmd_uptime, ticks, cmd_halt,
    interrupts_disable, cmd_reboot.
  repeat safe_step.
Qed.

(** Any number of turns of the shell, whatever is typed and whatever interrupts
    arrive. *)
Lemma safe_shell_main n fuel : safe D (shell_main n fuel) (fun _ => True).
Proof.
  unfold shell_main, greeting. eapply (safe_bind _ _ _ (fun _ => True)); [repeat safe_step|].
  intros _ _. induction n as [|n IH]; simpl; [by apply safe_ret|].
  eapply (safe_bind _ _ _ (fun _ => True)); [|done]. unfold shell_turn.
  eapply safe_bind; [apply safe_prompt|]. intros _ _.
  eapply safe_bind; [by apply safe_read_line|]. intros [m buf] [Hm Hb]. simpl in *.
  eapply (safe_bind _ _ _ (fun _ => True)); [|intros raw _; apply safe_execute].
  apply safe_lift. rewrite slice_ret by lia. by eexists.
Qed.

End safe_shell.

(** ** Witnesses *)

#[local] Existing Instance dev.

(** "sl", two erasures, "ls", Enter, and another key. *)
Definition demo_keys : list Z := [115; 108; 8; 127; 108; 115; 13; 120].

Definition demo_shell : Kernel :=
  set_input (P := Demo.platform)
    (mkKeyBuffer (overwrite (replicate 256 0) demo_keys) 0 8 8) tt [] demo_running.

Lemma memory_set_input `{P : Platform} q kb d (k : Kernel) : memory (set_input q kb d k) = memory k.
Proof. reflexivity. Qed.

Lemma demo_shell_ready : Vga.ready (memory demo_shell).
Proof. unfold demo_shell. rewrite memory_set_input. by apply (ok_ready _ _ demo_running_ok). Qed.

#[local] Opaque demo_memory.

Lemma read_line_edits_witness :
  exists k' buf, read_line 8 (replicate 256 0) 0 demo_shell = Done (2, buf) k' /\
    slice buf 0 2 = Ret (lit "ls") /\ KeyRing.contents (KEY_BUFFER k') = lit "x".
Proof.
  destruct (read_line_edits (r := others demo_shell) demo_shell demo_keys (lit "ls") (lit "x")
    (Vga.term_of (WRITER demo_shell) (memory demo_shell)) 8) as (k' & buf & E & _ & Hs & _ & Hq & _).
  - by_decide.
  - split; [by split|]. split; [reflexivity|]. split; [apply Vga.initial_inv|].
    split; [exact demo_shell_ready|]. split; reflexivity.
  - reflexivity.
  - exists k', buf. exact (conj E (conj Hs Hq)).
Defined.
