(* ===== verification/ShellPreempt.v ===== *)
(** * The shell under preemption

    The shell of [Shell.v] cut at its uninterruptible sections, each print and
    each look at the keyboard; without a break it is the shell, and with
    interrupts in between it does not panic. *)

From S2P Require Import Prelude RustStr KeyBuffer Mem Vga Kernel Signal Scheduler Keyboard Interrupts Process Syscall Lifecycle Preempt ExitWait Files Safety SafeCalls Interleaving Shell ShellSpec.

Section tasks.
Context `{Pl : Platform} `{Pr : Profile}.

(** Statements in a row, each a section. *)
Fixpoint each_task (ms : list (M unit)) : task unit :=
  match ms with
  | [] => Return tt
  | m :: ms => m;; each_task ms
  end.

Definition print_prompt_task : task unit :=
  each_task [set_color LightGreen Black; kprint (USERNAME ++ lit "@" ++ HOSTNAME);
             set_color White Black; kprint (lit " ~ ");
             set_color LightCyan Black; kprint (lit "% "); set_color White Black].

(** As [read_line], with a bound on the number of keys. *)
Fixpoint read_line_task (fuel : nat) (buf : list Z) (pos : Z) : task (Z * list Z) :=
  match fuel with
  | O => r <- (fun k => Waiting k);; Return r
  | S fuel =>
    chain read_key_task (fun ch =>
      if (ch =? 10) || (ch =? 13) then kprintln [];; Return (pos, buf)
      else if (ch =? 0x08) || (ch =? 0x7F) then
        if pos >? 0 then
          buf' <- lift (KeyRing.buf_store buf (pos - 1) 0);;
          with_writer Vga.backspace;;
          read_line_task fuel buf' (pos - 1)
        else read_line_task fuel buf pos
      else if ch =? 0x03 then kprintln (lit "^C");; Return (0, buf)
      else if (ch >=? 0x20) && (pos <? MAX_CMD_LEN - 1) then
        buf' <- lift (KeyRing.buf_store buf pos ch);;
        kprint (utf8_char ch);;
        read_line_task fuel buf' (pos + 1)
      else read_line_task fuel buf pos)
  end.

Definition cmd_help_task : task unit :=
  each_task (kprintln <$>
    [lit "ComputeKERNEL built-in commands:";
     lit "  help      - show this help";
     lit "  clear     - clear the screen";
     lit "  echo      - print arguments";
     lit "  uname     - print system information";
     lit "  version   - print kernel version";
     lit "  ps        - list processes";
     lit "  uptime    - show uptime in ticks";
     lit "  halt      - halt the system";
     lit "  reboot    - reboot the system"]).

Definition cmd_version_task : task unit :=
  each_task (kprintln <$> [lit "ComputeKERNEL v1.0.0"; lit "Built with Rust (nightly)";
                           lit "Architecture: x86_64"]).

Fixpoint print_processes_task (t : list Process) : task unit :=
  match t with
  | [] => Return tt
  | p :: t =>
    Locked (kprintln (lit "  " ++ pad3 (fmt_dec (p_pid p)) ++ lit "  " ++ state_text (p_state p)
                      ++ lit "  " ++ p_name p))
      (fun _ => print_processes_task t)
  end.

(** The table is locked from the header to the last line, interrupts enabled. *)
Definition cmd_ps_task : task unit :=
  lock_table;;
  Locked (gets PROCESS_TABLE) (fun t =>
  Locked (kprintln (lit "  PID  STATE    NAME")) (fun _ =>
  print_processes_task t)).

Definition cmd_uptime_task : task unit :=
  t <- ticks;; kprintln (lit "uptime: " ++ fmt_dec t ++ lit " ticks");; Return tt.

Definition cmd_halt_task : task unit :=
  kprintln (lit "Halting system...");; interrupts_disable;; Stop.

Definition cmd_reboot_task : task unit :=
  kprintln (lit "Rebooting...");; modify (add_io (PortOut 0x64 0xFE));; Stop.

Definition execute_task (raw : list Z) : task unit :=
  let line := command_line raw in
  if bool_decide (line = []) then Return tt
  else
    let '(cmd, args) := split_command line in
    if bool_decide (cmd = lit "help") then cmd_help_task
    else if bool_decide (cmd = lit "clear") then cmd_clear;; Return tt
    else if bool_decide (cmd = lit "echo") then cmd_echo args;; Return tt
    else if bool_decide (cmd = lit "uname") then cmd_uname;; Return tt
    else if bool_decide (cmd = lit "version") then cmd_version_task
    else if bool_decide (cmd = lit "ps") then cmd_ps_task
    else if bool_decide (cmd = lit "uptime") then cmd_uptime_task
    else if bool_decide (cmd = lit "halt") || bool_decide (cmd = lit "poweroff") then cmd_halt_task
    else if bool_decide (cmd = lit "reboot") then cmd_reboot_task
    else each_task [set_color LightRed Black;
                    kprintln (lit "shell: command not found: " ++ utf8_encode cmd);
                    set_color White Black].

Definition greeting_task : task unit :=
  each_task (kprintln <$> [[]; lit "Welcome to ComputeKERNEL v1.0.0";
                           lit "Type 'help' for available commands."; []]).

Definition shell_turn_task (fuel : nat) : task unit :=
  chain print_prompt_task (fun _ =>
  chain (read_line_task fuel (replicate 256 0) 0) (fun r =>
    raw <- lift (slice r.2 0 r.1);; execute_task raw)).

Fixpoint shell_run_task (n fuel : nat) : task unit :=
  match n with
  | O => Return tt
  | S n => chain (shell_turn_task fuel) (fun _ => shell_run_task n fuel)
  end.

Definition shell_main_task (n fuel : nat) : task unit :=
  chain greeting_task (fun _ => shell_run_task n fuel).

(** ** Without a break *)

Lemma collapse_read_key : collapse read_key_task ≐ read_key.
Proof.
  unfold read_key_task, read_key. cbn [collapse]. rewrite bind_ret_r.
  apply wait_until_proper, collapse_next_char.
Qed.

Lemma collapse_read_line fuel buf pos :
  collapse (read_line_task fuel buf pos) ≐ read_line fuel buf pos.
Proof.
  revert buf pos. induction fuel as [|fuel IH]; intros buf pos; [done|].
  cbn [read_line_task read_line]. rewrite collapse_chain, collapse_read_key.
  apply mbind_proper; [|done]. intros ch.
  repeat match goal with |- context [if ?b then _ else _] => destruct b end; try done;
    cbn [collapse]; repeat (apply mbind_proper; [intros ?|done]); apply IH.
Qed.

Lemma collapse_print_processes t : collapse (print_processes_task t) ≐ print_processes t.
Proof. induction t; simpl; [done|]. apply mbind_proper; [|done]. by intros []. Qed.

(** A last statement with nothing after it. *)
Lemma bind_tt (m : M unit) : (m ≫= fun _ => mret tt) ≐ m.
Proof. split. intros k. unfold mbind, M_bind. by destruct (m k) as [[] ?| | |]. Qed.

Lemma collapse_each m ms :
  collapse (each_task (m :: ms)) ≐
  foldr (fun m f p => p ≫= fun _ => f m) (fun p => p) ms m.
Proof.
  revert m. induction ms as [|m' ms IH]; intros m; [apply bind_tt|].
  cbn [each_task collapse foldr] in *. apply mbind_proper; [|done]. intros _. apply IH.
Qed.

Lemma collapse_execute raw : collapse (execute_task raw) ≐ execute raw.
Proof.
  unfold execute_task, execute. cbv zeta. destruct (bool_decide _); [done|].
  destruct (split_command _) as [cmd args].
  repeat match goal with |- context [if ?b then _ else _] => destruct b end;
    try apply bind_tt; try apply collapse_each; try done.
  unfold cmd_ps_task, cmd_ps, lock_table. cbn [collapse]. rewrite bind_ret_l. apply mbind_proper; [|done]. intros t.
  apply mbind_proper; [|done]. intros _. apply collapse_print_processes.
Qed.

Lemma collapse_shell_main n fuel : collapse (shell_main_task n fuel) ≐ shell_main n fuel.
Proof.
  unfold shell_main_task, shell_main. rewrite collapse_chain. apply mbind_proper; [|apply collapse_each].
  intros _. induction n as [|n IH]; [done|]. cbn [shell_run_task shell_run]. rewrite collapse_chain.
  apply mbind_proper; [by intros []|]. unfold shell_turn_task, shell_turn. rewrite collapse_chain.
  apply mbind_proper; [|apply collapse_each]. intros _. rewrite collapse_chain, collapse_read_line.
  apply mbind_proper; [|done]. intros r. cbn [collapse]. apply mbind_proper; [|done].
  intros raw. apply collapse_execute.
Qed.

End tasks.

(** ** With interrupts in between *)

Section safe.
Context `{Pl : Platform} `{Pr : Profile} (D : gset Z).
#[local] Notation any := (fun _ => True).
#[local] Hint Resolve safe_set_color safe_kprintln safe_clear ok_no_irqs : safe.

Lemma guarded_each ms : Forall (fun m => safe D m any) ms -> guarded D any (each_task ms).
Proof. induction 1; simpl; [by apply g_return|]. by apply g_any. Qed.

Lemma guarded_print ss : guarded D any (each_task (kprintln <$> ss)).
Proof. apply guarded_each, Forall_fmap, Forall_true. intros s. apply safe_kprintln. Qed.

Lemma guarded_read_key : guarded D is_u8 read_key_task.
Proof.
  eapply (g_loop D _ _ _ is_u8); [apply guarded_next_char|]. intros ch Hch. by apply g_return.
Qed.

Lemma guarded_read_line fuel buf pos :
  0 <= pos <= 255 -> zlen buf = 256 -> guarded D line_ok (read_line_task fuel buf pos).
Proof.
  revert buf pos. induction fuel as [|fuel IH]; intros buf pos Hp Hb.
  { eapply (g_section D _ _ _ line_ok); [by intros k Hk|]. intros r Hr. by apply g_return. }
  cbn [read_line_task]. eapply guarded_chain; [apply guarded_read_key|]. intros ch _.
  case_match; [apply g_any; [apply safe_kprintln|]; intros; by apply g_return|].
  case_match.
  { rewrite Z.gtb_ltb. destruct (Z.ltb_spec 0 pos); [|by apply IH].
    eapply g_section; [apply safe_buf_store; [lia|done]|]. intros buf' Hb'.
    apply g_any; [|intros; apply IH; [lia|done]].
    apply (safe_with_writer _ _ Vga.t_backspace). intros. by apply Vga.backspace_spec. }
  case_match; [apply g_any; [apply safe_kprintln|]; intros; apply g_return; split; [simpl; lia|done]|].
  destruct ((ch >=? 32) && (pos <? MAX_CMD_LEN - 1)) eqn:E; [|by apply IH].
  apply andb_true_iff in E as [_ E%Z.ltb_lt]. unfold MAX_CMD_LEN in E.
  eapply g_section; [apply safe_buf_store; [lia|done]|]. intros buf' Hb'.
  apply g_any; [apply safe_kprint|]. intros. apply IH; [lia|done].
Qed.

Lemma guarded_print_processes t : guarded D any (print_processes_task t).
Proof. induction t; simpl; [by apply g_return|]. apply g_held; [apply safe_kprintln|done]. Qed.
#[local] Hint Resolve guarded_print guarded_print_processes : guarded.

Lemma guarded_execute raw : guarded D any (execute_task raw).
Proof.
  unfold execute_task, cmd_help_task, cmd_echo, cmd_uname, cmd_version_task, cmd_ps_task,
    cmd_uptime_task, ticks, cmd_halt_task, interrupts_disable, cmd_reboot_task.
  destruct (bool_decide _); [by apply g_return|]. destruct (split_command _) as [cmd args].
  watch.
Qed.

Lemma guarded_shell n fuel : guarded D any (shell_main_task n fuel).
Proof.
  apply (guarded_chain D any); [apply guarded_print|]. intros _ _.
  induction n as [|n IH]; cbn [shell_run_task]; [by apply g_return|].
  apply (guarded_chain D any); [|done]. unfold shell_turn_task, print_prompt_task.
  apply (guarded_chain D any); [apply guarded_each; by repeat (apply Forall_cons; split; [by auto with safe|])|]. intros _ _.
  eapply guarded_chain; [by apply guarded_read_line|]. intros [m buf] [Hm Hb]. simpl in *.
  apply g_any; [|apply guarded_execute]. apply safe_lift. rewrite slice_ret by lia. by eexists.
Qed.

(** ** The clock *)

Lemma moves_with_writer (R : relation Kernel) `{!Ambient R} f : moves R (with_writer f).
Proof. intros k. unfold with_writer. by repeat case_match; simpl; auto with moves. Qed.
#[local] Hint Resolve moves_with_writer : moves.

Lemma same_time_each ms : Forall (moves same_time) ms -> calm same_time (each_task ms).
Proof. induction 1; simpl; by constructor. Qed.

Lemma same_time_print ss : calm same_time (each_task (kprintln <$> ss)).
Proof. apply same_time_each, Forall_fmap, Forall_true. intros s. apply moves_kprint, _. Qed.
#[local] Hint Resolve same_time_print : moves.

Lemma same_time_read_line fuel buf pos : calm same_time (read_line_task fuel buf pos).
Proof.
  revert buf pos. induction fuel as [|fuel IH]; intros buf pos; cbn [read_line_task].
  { constructor; [|by constructor]. by apply moves_same; [apply _|]. }
  pose proof (calm_next_char same_time). unfold read_key_task, kprintln. calmly.
Qed.

Lemma same_time_print_processes t : calm same_time (print_processes_task t).
Proof. induction t; simpl; constructor; [apply moves_kprint, _|done]. Qed.
#[local] Hint Resolve same_time_print_processes : moves.

Lemma same_time_disable : moves same_time interrupts_disable.
Proof. intros k. split; [done|]. simpl. lia. Qed.
#[local] Hint Resolve same_time_disable : moves.

Lemma same_time_execute raw : calm same_time (execute_task raw).
Proof.
  unfold execute_task, cmd_help_task, cmd_echo, cmd_uname, cmd_version_task, cmd_ps_task, lock_table,
    cmd_uptime_task, ticks, cmd_halt_task, cmd_reboot_task, cmd_clear, set_color, kprintln.
  destruct (bool_decide _); [constructor|]. destruct (split_command _) as [cmd args].
  calmly; try apply same_time_print.
Qed.

Lemma same_time_shell n fuel : calm same_time (shell_main_task n fuel).
Proof.
  apply calm_chain; [apply same_time_print|]. intros _.
  induction n as [|n IH]; cbn [shell_run_task]; [constructor|]. apply calm_chain; [|done].
  apply calm_chain; [apply same_time_each; unfold set_color; by repeat (apply Forall_cons; split; [by auto with moves|])|].
  intros _. apply calm_chain; [apply same_time_read_line|]. intros r.
  constructor; [auto with moves|]. apply same_time_execute.
Qed.

(** Any number of turns of the shell, whatever is typed and whatever interrupts
    arrive between its sections. *)
Lemma preempted_shell n fuel es k :
  ok D k -> Forall event_ok es -> TICK k + zlen (irqs k) + zlen es < 2 ^ 64 ->
  exists t k', run es (shell_main_task n fuel) k = Some (t, k') /\ ok D k'.
Proof.
  intros Hk He Hb.
  destruct (guarded_run D any es (shell_main_task n fuel) k) as (t & k' & ? & ? & _);
    [apply guarded_shell|apply same_time_shell|done..|].
  by exists t, k'.
Qed.

End safe.
