(* ===== verification/Session.v ===== *)
(** * Shell sessions

    What a user sees of the shell: an abstract session that maps the keys
    typed to the terminal, from the prompt through the edited line to the
    answer of the command, and the theorem that the shell implements it. *)

From S2P Require Import Prelude RustStr KeyBuffer Mem Vga Kernel Signal Scheduler Keyboard Interrupts Process Syscall Lifecycle ExitWait Files Safety Shell ShellSpec.

(** ** The abstract session *)

Abbreviation show := (foldl (fun t o => Vga.t_exec o t)).

Definition say (s : list Z) : Vga.ConsoleOp := Vga.Print (s ++ [10]).

Definition prompt : list Vga.ConsoleOp :=
  [ Vga.SetColor LightGreen Black; Vga.Print (lit "root@computekernel");
    Vga.SetColor White Black; Vga.Print (lit " ~ ");
    Vga.SetColor LightCyan Black; Vga.Print (lit "% "); Vga.SetColor White Black ].

(** The line [ps] prints for a process. *)
Definition process_line (p : Process) : list Z :=
  lit "  " ++ pad3 (fmt_dec (p_pid p)) ++ lit "  " ++ state_text (p_state p) ++ lit "  " ++ p_name p.

(** A command's answer: what it shows, and whether the shell stops with it. *)
Abbreviation Answer := (list Vga.ConsoleOp * bool)%type.

(** The commands, given the arguments, the table and the clock. *)
Definition commands (args : list Z) (table : list Process) (tick : Z) : list (list Z * Answer) :=
  [ (lit "help", (say <$>
      [ lit "ComputeKERNEL built-in commands:"; lit "  help      - show this help";
        lit "  clear     - clear the screen"; lit "  echo      - print arguments";
        lit "  uname     - print system information"; lit "  version   - print kernel version";
        lit "  ps        - list processes"; lit "  uptime    - show uptime in ticks";
        lit "  halt      - halt the system"; lit "  reboot    - reboot the system" ], false));
    (lit "clear", ([Vga.Clear], false));
    (lit "echo", ([say (utf8_encode args)], false));
    (lit "uname", ([say (lit "ComputeKERNEL v1.0.0 x86_64")], false));
    (lit "version", (say <$> [ lit "ComputeKERNEL v1.0.0"; lit "Built with Rust (nightly)";
                               lit "Architecture: x86_64" ], false));
    (lit "ps", (say <$> lit "  PID  STATE    NAME" :: (process_line <$> table), false));
    (lit "uptime", ([say (lit "uptime: " ++ fmt_dec tick ++ lit " ticks")], false));
    (lit "halt", ([say (lit "Halting system...")], true));
    (lit "poweroff", ([say (lit "Halting system...")], true));
    (lit "reboot", ([say (lit "Rebooting...")], true)) ].

Definition unknown (cmd : list Z) : Answer :=
  ([ Vga.SetColor LightRed Black; say (lit "shell: command not found: " ++ utf8_encode cmd);
     Vga.SetColor White Black ], false).

(** The first entry under a name. *)
Fixpoint assoc (name : list Z) (l : list (list Z * Answer)) : option Answer :=
  match l with
  | [] => None
  | (n, x) :: l => if bool_decide (name = n) then Some x else assoc name l
  end.

(** The answer to a line. *)
Definition answer (table : list Process) (tick : Z) (raw : list Z) : Answer :=
  let line := command_line raw in
  if bool_decide (line = []) then ([], false)
  else let '(cmd, args) := split_command line in
       default (unknown cmd) (assoc cmd (commands args table tick)).

(** [n] lines of a session: the terminal, the keys left, and whether the shell
    has stopped; [None] when the keys do not complete a line. *)
Fixpoint session (table : list Process) (tick : Z) (n : nat) (keys : list Z) (t : Vga.Term) :
    option (Vga.Term * list Z * bool) :=
  match n with
  | O => Some (t, keys, false)
  | S n =>
    '(line, rest) ← edit [] keys;
    let '(os, stop) := answer table tick line in
    let t := show (echo (show t prompt) [] keys) os in
    if stop then Some (t, rest, true) else session table tick n rest t
  end.

(** ** The shell implements it *)

Section session.
Context `{Pl : Platform} `{Pr : Profile}.
Context {r : list Process * Z * Z * Z * list (option OpenFile) * Keyboard * Devices}.

Notation console := (console (r := r)).

(** [m] makes the console operations [os] and nothing else. *)
Definition shows (m : M unit) (os : list Vga.ConsoleOp) : Prop := forall k keys t,
  console k keys t -> exists k', m k = Done tt k' /\ console k' keys (show t os).

Lemma shows_bind m f os os' :
  shows m os -> shows (f tt) os' -> shows (m ≫= f) (os ++ os').
Proof.
  intros Hm Hf k keys t Hk. destruct (Hm k keys t Hk) as (k1 & E1 & H1).
  destruct (Hf k1 keys _ H1) as (k2 & E2 & H2). exists k2. unfold mbind, M_bind.
  rewrite E1, foldl_app. done.
Qed.

Lemma shows_cons m f o os : shows m [o] -> shows (f tt) os -> shows (m ≫= f) (o :: os).
Proof. apply (shows_bind m f [o] os). Qed.

Lemma shows_nil : shows (mret tt) [].
Proof. intros k keys t Hk. by exists k. Qed.

Lemma shows_op o f :
  (forall w m, f w m = Vga.exec o w m) -> shows (with_writer f) [o].
Proof.
  intros Hf k keys t Hk. apply (with_writer_console f (Vga.t_exec o)); [|done].
  intros w m Hw Hm. rewrite Hf. by apply Vga.exec_spec.
Qed.

Lemma shows_kprint s : shows (kprint s) [Vga.Print s].
Proof. by apply (shows_op (Vga.Print s) (fun w m => Vga.write_string w m s)). Qed.

Lemma shows_kprintln s : shows (kprintln s) [say s].
Proof. apply shows_kprint. Qed.

Lemma shows_set_color fg bg : shows (set_color fg bg) [Vga.SetColor fg bg].
Proof. by apply shows_op. Qed.

Lemma shows_clear : shows cmd_clear [Vga.Clear].
Proof. by apply shows_op. Qed.

Lemma shows_processes table : shows (print_processes table) (say <$> (process_line <$> table)).
Proof.
  induction table as [|p table IH]; simpl; [apply shows_nil|].
  apply shows_cons; [apply shows_kprintln|done].
Qed.

(** [m] shows the answer [x]. *)
Definition answers (m : M unit) (x : Answer) : Prop := forall k keys t,
  console k keys t -> exists k', m k = (if x.2 then Halted k' else Done tt k') /\
    console k' keys (show t x.1).

Lemma answers_shows m os : shows m os -> answers m (os, false).
Proof. done. Qed.

Lemma answers_final m f o :
  shows m [o] -> (forall k keys t, console k keys t -> exists k', f tt k = Halted k' /\ console k' keys t) ->
  answers (m ≫= f) ([o], true).
Proof.
  intros Hm Hf k keys t Hk. destruct (Hm k keys t Hk) as (k1 & E1 & H1).
  destruct (Hf k1 keys _ H1) as (k2 & E2 & H2). exists k2. unfold mbind, M_bind. by rewrite E1.
Qed.

End session.

Create HintDb shows.
#[export] Hint Resolve shows_nil shows_kprint shows_kprintln shows_set_color shows_clear
  shows_processes : shows.

(** Follow a sequence of prints. *)
Ltac shows := repeat first [solve [auto with shows] | apply shows_cons; [solve [auto with shows]|]].

Section refinement.
Context `{Pl : Platform} `{Pr : Profile}.
Context {r : list Process * Z * Z * Z * list (option OpenFile) * Keyboard * Devices}.

Notation console := (console (r := r)).

Lemma shows_prompt : shows (r := r) print_prompt prompt.
Proof. unfold print_prompt, prompt. shows. Qed.

(** A command that reads a static first. *)
Lemma answers_gets {A} (f : Kernel -> A) (m : A -> M unit) (a : A) x :
  (forall k keys t, console k keys t -> f k = a) -> answers (r := r) (m a) x ->
  answers (r := r) (gets f ≫= m) x.
Proof.
  intros Ha Hm k keys t Hk. unfold mbind, M_bind, gets. rewrite (Ha k keys t Hk). by apply Hm.
Qed.

Lemma answers_ps table :
  (forall k keys t, console k keys t -> PROCESS_TABLE k = table) ->
  answers (r := r) cmd_ps (say <$> lit "  PID  STATE    NAME" :: (process_line <$> table), false).
Proof.
  intros Ht. eapply answers_gets; [exact Ht|]. apply answers_shows. rewrite fmap_cons. shows.
Qed.

Lemma answers_uptime tick :
  (forall k keys t, console k keys t -> TICK k = tick) ->
  answers (r := r) cmd_uptime ([say (lit "uptime: " ++ fmt_dec tick ++ lit " ticks")], false).
Proof. intros Ht. eapply answers_gets; [exact Ht|]. apply answers_shows. shows. Qed.

Lemma answers_halt : answers (r := r) cmd_halt ([say (lit "Halting system...")], true).
Proof. apply answers_final; [apply shows_kprintln|]. intros k keys t Hk. by eexists. Qed.

Lemma answers_reboot : answers (r := r) cmd_reboot ([say (lit "Rebooting...")], true).
Proof. apply answers_final; [apply shows_kprintln|]. intros k keys t Hk. by eexists. Qed.

Lemma execute_answers table tick raw :
  (forall k keys t, console k keys t -> PROCESS_TABLE k = table) ->
  (forall k keys t, console k keys t -> TICK k = tick) ->
  answers (r := r) (execute raw) (answer table tick raw).
Proof.
  intros Ht Hc. unfold execute, answer. destruct (bool_decide (command_line raw = [])).
  { apply answers_shows. shows. }
  destruct (split_command (command_line raw)) as [cmd args]. unfold commands. cbn [assoc].
  repeat match goal with |- context [if bool_decide (cmd = ?c) then _ else _] =>
    destruct (bool_decide (cmd = c)) end;
    cbn [default orb id]; auto using answers_ps, answers_uptime, answers_halt, answers_reboot;
    apply answers_shows; unfold cmd_help, cmd_version, cmd_echo, cmd_uname; cbn [fmap list_fmap]; shows.
Qed.

(** A line uses up keys. *)
Lemma edit_shorter line keys line' rest : edit line keys = Some (line', rest) -> (length rest < length keys)%nat.
Proof.
  revert line. induction keys as [|c keys IH]; intros line E; [done|]. cbn [edit length] in *.
  repeat case_match; simplify_eq; try lia; apply IH in E; lia.
Qed.

(** A turn of the shell is a line of the session. *)
Lemma shell_turn_answers table tick fuel k keys t line rest :
  (forall k keys t, console k keys t -> PROCESS_TABLE k = table) ->
  (forall k keys t, console k keys t -> TICK k = tick) ->
  (length keys <= fuel)%nat -> console k keys t -> edit [] keys = Some (line, rest) ->
  let x := answer table tick line in
  exists k', shell_turn fuel k = (if x.2 then Halted k' else Done tt k') /\
    console k' rest (show (echo (show t prompt) [] keys) x.1).
Proof.
  intros Ht Hc Hf Hk He x. destruct (shows_prompt k keys t Hk) as (k1 & E1 & H1).
  destruct (read_line_spec (r := r) fuel [] (replicate 256 0) keys line rest (show t prompt) k1)
    as (k2 & buf & E2 & Hb & Hl & Hbuf & H2); [done..|].
  destruct (execute_answers table tick line Ht Hc k2 rest _ H2) as (k3 & E3 & H3).
  exists k3. split; [|done]. unfold shell_turn, mbind, M_bind. rewrite E1.
  change (read_line fuel (replicate 256 0) 0 k1 = Done (zlen line, buf) k2) in E2. rewrite E2. unfold lift. cbn [fst snd].
  rewrite (line_of_buffer buf line) by (done || lia). done.
Qed.

(** C13: The shell refines the abstract session: with keys queued that complete
    the lines, any number of turns shows on the screen exactly the prompts,
    the echoed lines and the answers of the session, consumes exactly its
    keys, changes neither the processes nor the files nor the clock, and comes
    back unless a command halts or reboots the machine, after which it does
    not. *)
Theorem shell_refines_session (k : Kernel) (n fuel : nat) (keys rest : list Z) (t t' : Vga.Term) (stop : bool) :
  (length keys <= fuel)%nat -> console k keys t ->
  session (PROCESS_TABLE k) (TICK k) n keys t = Some (t', rest, stop) ->
  exists k', shell_run n fuel k = (if stop then Halted k' else Done tt k') /\ console k' rest t'.
Proof.
  intros Hf Hk. assert (forall k1 keys t, console k1 keys t -> others k1 = others k) as Hr.
  { intros k1 ? ? (? & ? & ? & ? & ? & ->). by destruct Hk as (? & ? & ? & ? & ? & ->). }
  remember (PROCESS_TABLE k) as table eqn:Et. remember (TICK k) as tick eqn:Ec.
  assert (forall k1 keys t, console k1 keys t -> PROCESS_TABLE k1 = table) as Ht.
  { intros k1 ? ? H1%Hr. unfold others in H1. congruence. }
  assert (forall k1 keys t, console k1 keys t -> TICK k1 = tick) as Hc.
  { intros k1 ? ? H1%Hr. unfold others in H1. congruence. }
  clear Et Ec Hr. revert k keys t Hf Hk. induction n as [|n IH]; intros k keys t Hf Hk Hs.
  { simpl in Hs. simplify_eq. by exists k. }
  cbn [session] in Hs. apply bind_Some in Hs as ([line left] & He & Hs).
  destruct (shell_turn_answers table tick fuel k keys t line left Ht Hc Hf Hk He) as (k1 & E1 & H1).
  destruct (answer table tick line) as [os []]; cbn [fst snd] in *; cbn [shell_run];
    unfold mbind, M_bind; rewrite E1.
  - simplify_eq. by exists k1.
  - refine (IH k1 left _ _ H1 Hs). apply edit_shorter in He. lia.
Qed.

End refinement.

(** ** A session *)

#[local] Existing Instance dev.

(** "uname", Enter, "halt", Enter. *)
Definition demo_lines : list Z := lit "uname" ++ [13] ++ lit "halt" ++ [13].

Definition demo_console : Kernel :=
  set_input (P := Demo.platform)
    (mkKeyBuffer (overwrite (replicate 256 0) demo_lines) 0 11 11) tt [] demo_running.

Lemma demo_console_ready : Vga.ready (memory demo_console).
Proof. unfold demo_console. rewrite memory_set_input. by apply (ok_ready _ _ demo_running_ok). Qed.

#[local] Opaque demo_memory.

Lemma answer_known table tick raw line cmd args x :
  command_line raw = line -> line <> [] -> split_command line = (cmd, args) ->
  assoc cmd (commands args table tick) = Some x -> answer table tick raw = x.
Proof.
  intros Hl Hne Hs Ha. unfold answer. rewrite Hl, bool_decide_false by done. by rewrite Hs, Ha.
Qed.

Lemma demo_session table tick t : exists t', session table tick 5 demo_lines t = Some (t', [], true).
Proof.
  cbn [session]. assert (edit [] demo_lines = Some (lit "uname", lit "halt" ++ [13])) as -> by by_decide.
  cbn [mbind option_bind].
  rewrite (answer_known table tick (lit "uname") (lit "uname") (lit "uname") []
    ([say (lit "ComputeKERNEL v1.0.0 x86_64")], false)) by (by_decide || done).
  cbv beta iota zeta. assert (edit [] (lit "halt" ++ [13]) = Some (lit "halt", [])) as -> by by_decide.
  cbn [mbind option_bind]. cbv beta iota zeta.
  rewrite (answer_known table tick (lit "halt") (lit "halt") (lit "halt") []
    ([say (lit "Halting system...")], true)) by (by_decide || done).
  by eexists.
Qed.

Lemma shell_refines_session_witness :
  exists k', shell_run 5 11 demo_console = Halted k' /\ KeyRing.contents (KEY_BUFFER k') = [].
Proof.
  assert (console (r := others demo_console) demo_console demo_lines
    (Vga.term_of (WRITER demo_console) (memory demo_console))) as Hk.
  { split; [by split|]. split; [reflexivity|]. split; [apply Vga.initial_inv|].
    split; [exact demo_console_ready|]. split; reflexivity. }
  destruct (demo_session (PROCESS_TABLE demo_console) (TICK demo_console)
    (Vga.term_of (WRITER demo_console) (memory demo_console))) as (t' & Ht').
  destruct (shell_refines_session (r := others demo_console) demo_console 5 11 demo_lines []
    (Vga.term_of (WRITER demo_console) (memory demo_console)) t' true) as (k' & E & _ & Hq & _).
  - by_decide.
  - exact Hk.
  - exact Ht'.
  - exists k'. exact (conj E Hq).
Defined.
