(* ===== verification/Framebuffer.v ===== *)
(** * The framebuffer driver ([drivers/framebuffer.rs])

    Pixels over the byte buffer the bootloader hands over, and what filling a
    rectangle does to every byte of it. *)

From S2P Require Import Prelude Mem.

(** [PixelFormat] and the fields of [FrameBufferInfo] the driver uses, from
    the bootloader's interface; [OtherFormat] stands for the remaining formats. *)
Inductive PixelFormat := Rgb | Bgr | U8 | OtherFormat.

Record FrameBufferInfo := mkInfo {
  width : Z; height : Z; stride : Z; bytes_per_pixel : Z; pixel_format : PixelFormat }.

Record FramebufferDriver := mkDriver { buffer : list Z; info : FrameBufferInfo }.

(** [FramebufferDriver::new], on the buffer and the info of the bootloader's
    framebuffer. *)
Definition FramebufferDriver_new (buf : list Z) (i : FrameBufferInfo) : FramebufferDriver :=
  mkDriver buf i.

(** [self.buffer[i] = v]. *)
Definition set_byte (d : FramebufferDriver) (i v : Z) : outcome FramebufferDriver :=
  if decide (0 <= i < zlen (buffer d))
  then Ret (mkDriver (<[Z.to_nat i := v]> (buffer d)) (info d)) else Panic.

Section framebuffer.
Context `{Pr : Profile}.

Definition put_pixel (d : FramebufferDriver) (x y r g b : Z) : outcome FramebufferDriver :=
  o ← mul_u 64 y (stride (info d));
  offset ← add_u 64 o x;
  let bpp := bytes_per_pixel (info d) in
  base ← mul_u 64 offset bpp;
  end_ ← add_u 64 base bpp;
  if end_ >? zlen (buffer d) then Ret d
  else
    match pixel_format (info d) with
    | Rgb =>
      d ← set_byte d base r; b1 ← add_u 64 base 1; d ← set_byte d b1 g;
      b2 ← add_u 64 base 2; set_byte d b2 b
    | Bgr =>
      d ← set_byte d base b; b1 ← add_u 64 base 1; d ← set_byte d b1 g;
      b2 ← add_u 64 base 2; set_byte d b2 r
    | U8 => set_byte d base (as_u8 ((r + g + b) / 3))
    | OtherFormat => Ret d
    end.

Definition driver_fill_rect (d : FramebufferDriver) (x y w h r g b : Z) : outcome FramebufferDriver :=
  yh ← add_u 64 y h;
  for_range y (Z.min yh (height (info d))) (fun row d =>
    xw ← add_u 64 x w;
    for_range x (Z.min xw (width (info d))) (fun col d => put_pixel d col row r g b) d) d.

Definition driver_clear (d : FramebufferDriver) : FramebufferDriver :=
  mkDriver ((fun _ => 0) <$> buffer d) (info d).

(** ** The static [FB] *)

Definition FB : Type := option FramebufferDriver.

Definition fb_clear (fb : FB) : FB := option_map driver_clear fb.

Definition fb_init (buf : list Z) (i : FrameBufferInfo) : FB :=
  fb_clear (Some (FramebufferDriver_new buf i)).

Definition fill_rect (fb : FB) (x y w h r g b : Z) : outcome FB :=
  match fb with
  | Some d => d' ← driver_fill_rect d x y w h r g b; Ret (Some d')
  | None => Ret None
  end.

Definition dimensions (fb : FB) : option (Z * Z) :=
  option_map (fun d => (width (info d), height (info d))) fb.

End framebuffer.

(** ** What a rectangle paints *)

(** The bytes of a pixel in a colour. *)
Definition shade (f : PixelFormat) (r g b : Z) : list Z :=
  match f with
  | Rgb => [r; g; b]
  | Bgr => [b; g; r]
  | U8 => [as_u8 ((r + g + b) / 3)]
  | OtherFormat => []
  end.

(** A geometry the bootloader may report: rows of [stride] pixels, the visible
    part inside, room for a colour in every pixel, and the buffer covers it. *)
Record geometry_ok (d : FramebufferDriver) : Prop := {
  geo_width : 0 <= width (info d) <= stride (info d);
  geo_height : 0 <= height (info d);
  geo_bpp : 0 < bytes_per_pixel (info d) < 2 ^ 16 /\
            zlen (shade (pixel_format (info d)) 0 0 0) <= bytes_per_pixel (info d);
  geo_len : stride (info d) * height (info d) * bytes_per_pixel (info d) <= zlen (buffer d);
  geo_max : zlen (buffer d) < 2 ^ 63;
}.

(** The column, the row and the byte within the pixel of a buffer index. *)
Definition col_of (n : FrameBufferInfo) (i : Z) : Z := (i / bytes_per_pixel n) `mod` stride n.
Definition row_of (n : FrameBufferInfo) (i : Z) : Z := i / bytes_per_pixel n / stride n.
Definition byte_of (n : FrameBufferInfo) (i : Z) : Z := i `mod` bytes_per_pixel n.

(** [d'] is [d] with the pixels of [R] painted in [cs], and every other byte as
    it was. *)
Definition painted (R : Z -> Z -> Prop) `{!forall x y, Decision (R x y)} (cs : list Z)
    (d d' : FramebufferDriver) : Prop :=
  info d' = info d /\ length (buffer d') = length (buffer d) /\
  forall i : nat, (i < length (buffer d))%nat ->
    let z := Z.of_nat i in
    buffer d' !! i =
      if decide (R (col_of (info d) z) (row_of (info d) z) /\ byte_of (info d) z < zlen cs)
      then cs !! Z.to_nat (byte_of (info d) z) else buffer d !! i.

Section paint.
Context `{Pr : Profile}.

Lemma insert_bytes (cs : list Z) (l : list Z) (b i : nat) :
  (b + length cs <= length l)%nat ->
  (take b l ++ cs ++ drop (b + length cs) l) !! i
  = if decide (b <= i < b + length cs)%nat then cs !! (i - b)%nat else l !! i.
Proof.
  intros Hb. assert (length (take b l) = b) as Ht by (rewrite length_take; lia).
  case_decide as H.
  - rewrite lookup_app_r, Ht by lia. by rewrite lookup_app_l by lia.
  - destruct (decide (i < b)%nat).
    + rewrite lookup_app_l, lookup_take_lt by lia. done.
    + rewrite lookup_app_r, Ht, lookup_app_r, lookup_drop by lia. f_equal. lia.
Qed.

Lemma set_bytes_spec d base cs :
  0 <= base -> base + zlen cs <= zlen (buffer d) -> zlen (buffer d) < 2 ^ 63 -> zlen cs <= 3 ->
  match cs with
  | [c0; c1; c2] =>
    d1 ← set_byte d base c0; b1 ← add_u 64 base 1; d2 ← set_byte d1 b1 c1;
    b2 ← add_u 64 base 2; set_byte d2 b2 c2
  | [c0] => set_byte d base c0
  | _ => Ret (mkDriver (take (Z.to_nat base) (buffer d) ++ cs
                        ++ drop (Z.to_nat base + length cs) (buffer d)) (info d))
  end = Ret (mkDriver (take (Z.to_nat base) (buffer d) ++ cs
                       ++ drop (Z.to_nat base + length cs) (buffer d)) (info d)).
Proof.
  intros H0 H1 H2 H3. destruct cs as [|c0 [|c1 [|c2 [|]]]]; try done.
  - change (zlen [c0]) with 1 in *. unfold set_byte. rewrite decide_True by lia. do 2 f_equal.
    apply list_eq. intros i. unfold zlen in *. rewrite (insert_bytes [c0]) by (simpl; lia).
    simpl length. case_decide as E.
    + replace i with (Z.to_nat base) by lia. rewrite list_lookup_insert_eq by lia.
      by rewrite Nat.sub_diag.
    + rewrite list_lookup_insert_ne by lia. done.
  - change (zlen [c0; c1; c2]) with 3 in *. unfold set_byte, add_u, zlen in *.
    rewrite decide_True by lia. cbn [mbind outcome_bind buffer info].
    rewrite (in_width_ok 64 (base + 1)) by (split; lia). cbn [mbind outcome_bind].
    rewrite length_insert, decide_True by lia. cbn [mbind outcome_bind buffer info].
    rewrite (in_width_ok 64 (base + 2)) by (split; lia). cbn [mbind outcome_bind].
    rewrite !length_insert, decide_True by lia. cbn [buffer info]. do 2 f_equal.
    replace (Z.to_nat (base + 1)) with (S (Z.to_nat base)) by lia.
    replace (Z.to_nat (base + 2)) with (S (S (Z.to_nat base))) by lia.
    set (b := Z.to_nat base) in *. assert (b + 3 <= length (buffer d))%nat by lia.
    apply list_eq. intros i. rewrite (insert_bytes [c0; c1; c2]) by done. simpl length.
    destruct (decide (i = S (S b))) as [->|].
    { rewrite list_lookup_insert_eq by (rewrite !length_insert; lia).
      rewrite decide_True by lia. by replace (S (S b) - b)%nat with 2%nat by lia. }
    rewrite list_lookup_insert_ne by done. destruct (decide (i = S b)) as [->|].
    { rewrite list_lookup_insert_eq by (rewrite !length_insert; lia).
      rewrite decide_True by lia. by replace (S b - b)%nat with 1%nat by lia. }
    rewrite list_lookup_insert_ne by done. destruct (decide (i = b)) as [->|].
    { rewrite list_lookup_insert_eq by lia. rewrite decide_True by lia. by rewrite Nat.sub_diag. }
    rewrite list_lookup_insert_ne by done. by rewrite decide_False by lia.
Qed.

(** The bytes of the pixel at column [x] and row [y]. *)
Lemma pixel_bytes n x y i :
  0 < bytes_per_pixel n -> 0 <= x < stride n -> 0 <= y -> 0 <= i ->
  let base := (y * stride n + x) * bytes_per_pixel n in
  (base <= i < base + bytes_per_pixel n) <-> (col_of n i = x /\ row_of n i = y).
Proof.
  intros Hb Hx Hy Hi base. unfold col_of, row_of.
  pose proof (Z.div_mod i (bytes_per_pixel n) ltac:(lia)) as Hd.
  pose proof (Z.mod_pos_bound i (bytes_per_pixel n) ltac:(lia)) as Hm.
  set (o := i / bytes_per_pixel n) in *.
  pose proof (Z.div_mod o (stride n) ltac:(lia)) as Hd2. split.
  - intros Hr. assert (o = y * stride n + x) as Ho by nia. rewrite Ho.
    rewrite Z.add_comm, Z.mod_add, Z.mod_small by lia.
    by rewrite Z.div_add, Z.div_small by lia.
  - intros [E1 E2]. rewrite E1, E2 in Hd2. subst base.
    replace (y * stride n + x) with o by lia. nia.
Qed.

(** A pixel of a well-formed geometry lies in the buffer, at an offset no
    operation of the driver overflows on. *)
Lemma pixel_fits d x y :
  geometry_ok d -> 0 <= x < stride (info d) -> 0 <= y < height (info d) ->
  let o := y * stride (info d) + x in
  0 <= y * stride (info d) <= o /\ o < 2 ^ 63 /\ 0 <= o * bytes_per_pixel (info d) /\
  o * bytes_per_pixel (info d) + bytes_per_pixel (info d) <= zlen (buffer d).
Proof.
  intros [Hw Hh [Hb Hs] Hl Hx] Hpx Hpy o. set (n := info d) in *.
  assert (0 <= y * stride n <= o) by (subst o; nia).
  assert (o + 1 <= stride n * height n) by (subst o; nia).
  assert (o * bytes_per_pixel n + bytes_per_pixel n <= zlen (buffer d)).
  { etrans; [|exact Hl].
    replace (o * bytes_per_pixel n + bytes_per_pixel n) with ((o + 1) * bytes_per_pixel n) by lia.
    apply Z.mul_le_mono_nonneg_r; lia. }
  split_and!; nia.
Qed.

(** Writing the bytes of a colour at a pixel adds the pixel to what is painted. *)
Lemma painted_pixel (R : Z -> Z -> Prop) `{!forall x y, Decision (R x y)} cs d0 d x y :
  let n := info d0 in let base := (y * stride n + x) * bytes_per_pixel n in
  0 < bytes_per_pixel n -> 0 <= x < stride n -> 0 <= y -> 0 <= base ->
  zlen cs <= bytes_per_pixel n -> base + bytes_per_pixel n <= zlen (buffer d0) ->
  painted R cs d0 d ->
  painted (fun cx cy => R cx cy \/ (cx = x /\ cy = y)) cs d0
    (mkDriver (take (Z.to_nat base) (buffer d) ++ cs
               ++ drop (Z.to_nat base + length cs) (buffer d)) n).
Proof.
  intros n base Hb Hx Hy H0 Hcs Hfits (Hi & Hlen & Hp). split; [done|]. cbn [buffer info].
  assert (Z.to_nat base + length cs <= length (buffer d))%nat as Hfit.
  { rewrite Hlen. unfold zlen in *. lia. }
  split; [rewrite !length_app, length_take, length_drop; lia|]. intros i Hil.
  rewrite insert_bytes by done. fold n. specialize (Hp i Hil). cbv zeta in Hp. fold n in Hp.
  set (z := Z.of_nat i) in *.
  pose proof (pixel_bytes n x y z ltac:(lia) ltac:(lia) ltac:(lia) ltac:(lia)) as Hpb.
  cbv zeta in Hpb. fold base in Hpb.
  assert (base <= z < base + bytes_per_pixel n -> byte_of n z = z - base) as Hby.
  { intros Hz. unfold byte_of. symmetry.
    apply (Z.mod_unique_pos _ _ (y * stride n + x)); subst base; lia. }
  unfold zlen in *. destruct (decide (Z.to_nat base <= i < Z.to_nat base + length cs)%nat) as [Hin|Hout].
  - rewrite decide_True by (rewrite Hby by lia; split; [right; apply Hpb|]; lia).
    rewrite Hby by lia. f_equal. lia.
  - rewrite Hp. destruct (decide (byte_of n z < Z.of_nat (length cs))) as [Hc|Hc];
      [|rewrite !decide_False by tauto; done].
    assert (~ (col_of n z = x /\ row_of n z = y)) as Hne.
    { intros Hq%Hpb. rewrite (Hby Hq) in Hc. lia. }
    apply decide_ext. tauto.
Qed.

Lemma put_pixel_painted (R : Z -> Z -> Prop) `{!forall x y, Decision (R x y)} d0 d x y r g b :
  geometry_ok d0 -> 0 <= x < stride (info d0) -> 0 <= y < height (info d0) ->
  let cs := shade (pixel_format (info d0)) r g b in
  painted R cs d0 d ->
  exists d', put_pixel d x y r g b = Ret d' /\
    painted (fun cx cy => R cx cy \/ (cx = x /\ cy = y)) cs d0 d'.
Proof.
  intros Hok Hpx Hpy cs HR. pose proof HR as (Hi & Hlen & _).
  pose proof (pixel_fits d0 x y Hok Hpx Hpy) as (Ho & Ho63 & Hb0 & Hb1). destruct Hok as [_ _ [Hb Hs] _ Hx].
  assert (zlen cs <= bytes_per_pixel (info d0) /\ zlen cs <= 3) as [Hcs Hcs3].
  { subst cs. by destruct (pixel_format (info d0)). }
  eexists. split; [|apply painted_pixel; first [exact HR | lia]].
  set (n := info d0) in *. set (o := y * stride n + x) in *. set (base := o * bytes_per_pixel n) in *.
  assert (zlen (buffer d) = zlen (buffer d0)) as Hz by (unfold zlen; by rewrite Hlen).
  pose proof (set_bytes_spec d base cs Hb0 ltac:(rewrite Hz; lia) ltac:(rewrite Hz; lia) Hcs3) as E.
  rewrite Hi in E. fold n in E. rewrite <- E. unfold put_pixel, mul_u, add_u. rewrite Hi. fold n.
  rewrite (in_width_ok 64 (y * stride n)) by (split; lia). cbn [mbind outcome_bind]. fold o.
  rewrite (in_width_ok 64 o) by (split; lia). cbn [mbind outcome_bind]. fold base.
  rewrite (in_width_ok 64 base) by (split; lia). cbn [mbind outcome_bind].
  rewrite (in_width_ok 64 (base + bytes_per_pixel n)) by (split; lia). cbn [mbind outcome_bind].
  rewrite Z.gtb_ltb, (proj2 (Z.ltb_ge _ _)) by (rewrite Hz; lia).
  subst cs. destruct (pixel_format n) eqn:Ef; try done. simpl.
  rewrite Nat.add_0_r, take_drop. destruct d; simpl in *; by subst.
Qed.

Lemma painted_ext (R R' : Z -> Z -> Prop) `{!forall x y, Decision (R x y)}
    `{!forall x y, Decision (R' x y)} cs d d' :
  (forall x y, R x y <-> R' x y) -> painted R cs d d' -> painted R' cs d d'.
Proof.
  intros HR (? & ? & Hp). split_and!; [done|done|]. intros i Hi z. rewrite (Hp i Hi).
  apply decide_ext. by rewrite HR.
Qed.

Lemma painted_none (R : Z -> Z -> Prop) `{!forall x y, Decision (R x y)} cs d :
  (forall x y, ~ R x y) -> painted R cs d d.
Proof.
  intros HR. split_and!; [done|done|]. intros i Hi z. rewrite decide_False; [done|].
  by intros [?%HR _].
Qed.

(** One row of a rectangle. *)
Lemma fill_row_painted d0 d x xe y row r g b :
  geometry_ok d0 -> 0 <= x -> xe <= width (info d0) -> 0 <= y <= row -> row < height (info d0) ->
  let cs := shade (pixel_format (info d0)) r g b in
  painted (fun cx cy => x <= cx < xe /\ y <= cy < row) cs d0 d ->
  exists d', for_range x xe (fun col d => put_pixel d col row r g b) d = Ret d' /\
    painted (fun cx cy => x <= cx < xe /\ y <= cy < row + 1) cs d0 d'.
Proof.
  intros Hok Hx Hxe Hy Hrow cs HR. pose proof (geo_width _ Hok) as Hw.
  destruct (decide (xe <= x)).
  { exists d. unfold for_range. rewrite Z2Nat.nonpos by lia. split; [done|].
    eapply painted_ext; [|exact HR]. simpl. lia. }
  destruct (for_range_inv
    (fun col d => painted (fun cx cy => (x <= cx < xe /\ y <= cy < row) \/ (x <= cx < col /\ cy = row)) cs d0 d)
    x xe (fun col d => put_pixel d col row r g b) d) as (d' & E & HP).
  - lia.
  - eapply painted_ext; [|exact HR]. simpl. lia.
  - intros col d1 Hc H1. destruct (put_pixel_painted _ d0 d1 col row r g b Hok ltac:(lia) ltac:(lia) H1)
      as (d2 & E2 & H2). exists d2. split; [done|]. eapply painted_ext; [|exact H2]. simpl. lia.
  - exists d'. split; [done|]. eapply painted_ext; [|exact HP]. simpl. lia.
Qed.


End paint.

#[local] Existing Instance dev.

Definition demo_driver : FramebufferDriver := mkDriver (repeat 7 24) (mkInfo 2 2 3 4 Rgb).

