(* ===== verification/Pci.v ===== *)
(** * The PCI bus ([drivers/pci.rs]) and the drivers that bind to its devices

    Configuration-space access through the two ports, enumeration, and the
    theorem that enumeration finds every function of the bus exactly once. *)

From stdpp Require Import sorting.
From S2P Require Import Prelude RustStr Mem Kernel.

(** ** The host bridge

    The ports belong to the machine: a state, and what writing and reading a
    32-bit port does to it. *)

Class HostBridge := {
  Bus : Type;
  port_write : Z -> Z -> Bus -> Bus;
  port_read : Z -> Bus -> Z * Bus;
}.

Definition CONFIG_ADDRESS : Z := 0xCF8.
Definition CONFIG_DATA : Z := 0xCFC.

Record PciDevice := mkPciDevice {
  bus : Z; device : Z; function : Z; vendor_id : Z; device_id : Z;
  class : Z; subclass : Z; prog_if : Z; revision : Z; header_type : Z }.

#[export] Instance PciDevice_eq_dec : EqDecision PciDevice.
Proof. solve_decision. Defined.

Section pci.
Context `{Pr : Profile} {H : HostBridge}.

(** The address both [config_read32] and [config_write32] put on the port. *)
Definition config_address (b d f offset : Z) : Z :=
  Z.lor (Z.lor (Z.lor (Z.lor (Z.shiftl 1 31) (Z.shiftl b 16)) (Z.shiftl d 11)) (Z.shiftl f 8))
    (Z.land offset 0xFC).

Definition config_read32 (b d f offset : Z) (s : Bus) : Z * Bus :=
  port_read CONFIG_DATA (port_write CONFIG_ADDRESS (config_address b d f offset) s).

Definition config_write32 (b d f offset value : Z) (s : Bus) : Bus :=
  port_write CONFIG_DATA value (port_write CONFIG_ADDRESS (config_address b d f offset) s).

(** [offset & !2] on a [u8] is [offset & 0xFD]; the shift is at most 16. *)
Definition config_read16 (b d f offset : Z) (s : Bus) : Z * Bus :=
  let (dword, s) := config_read32 b d f (Z.land offset 0xFD) s in
  let shift := Z.land offset 2 * 8 in
  (as_u16 (Z.shiftr dword shift), s).

Definition read_bar (dev : PciDevice) (bar_index : Z) (s : Bus) : outcome (Z * Bus) :=
  x ← mul_u 8 bar_index 4; offset ← add_u 8 0x10 x;
  Ret (config_read32 (bus dev) (device dev) (function dev) offset s).

Definition device_exists (b d f : Z) (s : Bus) : bool * Bus :=
  let (dword, s) := config_read32 b d f 0 s in
  (negb (Z.land dword 0xFFFF =? 0xFFFF), s).

Definition probe (b d f : Z) (s : Bus) : option PciDevice * Bus :=
  let (e, s) := device_exists b d f s in
  if negb e then (None, s)
  else
    let (dw0, s) := config_read32 b d f 0 s in
    let (dw2, s) := config_read32 b d f 8 s in
    let (dw3, s) := config_read32 b d f 0xC s in
    (Some {| bus := b; device := d; function := f;
             vendor_id := as_u16 (Z.land dw0 0xFFFF);
             device_id := as_u16 (Z.shiftr dw0 16);
             revision := as_u8 (Z.land dw2 0xFF);
             prog_if := as_u8 (Z.land (Z.shiftr dw2 8) 0xFF);
             subclass := as_u8 (Z.land (Z.shiftr dw2 16) 0xFF);
             class := as_u8 (Z.land (Z.shiftr dw2 24) 0xFF);
             header_type := as_u8 (Z.land (Z.shiftr dw3 16) 0xFF) |}, s).

(** The loops of [enumerate], on the vector of devices and the bus. *)
Definition scan_functions (b d : Z) : list PciDevice * Bus -> outcome (list PciDevice * Bus) :=
  for_range 1 8 (fun f '(devices, s) =>
    match probe b d f s with
    | (Some x, s) => Ret (devices ++ [x], s)
    | (None, s) => Ret (devices, s)
    end).

Definition scan_device (b d : Z) '((devices, s) : list PciDevice * Bus) :
    outcome (list PciDevice * Bus) :=
  match probe b d 0 s with
  | (Some dev, s) =>
    let multi_function := negb (Z.land (header_type dev) 0x80 =? 0) in
    let devices := devices ++ [dev] in
    if multi_function then scan_functions b d (devices, s) else Ret (devices, s)
  | (None, s) => Ret (devices, s)
  end.

Definition enumerate (s : Bus) : outcome (list PciDevice * Bus) :=
  for_range 0 256 (fun b => for_range 0 32 (fun d => scan_device b d)) ([], s).

(** ** Logging *)

(** [{:x}] padded with zeros to [w] digits, of a value below [16 ^ w]. *)
Fixpoint fmt_hex (w : nat) (n : Z) : list Z :=
  match w with
  | O => []
  | S w => fmt_hex w (n / 16) ++ [let d := n `mod` 16 in if d <? 10 then 48 + d else 87 + d]
  end.

(** [{:02x}:{:02x}.{}]. *)
Definition fmt_location (dev : PciDevice) : list Z :=
  fmt_hex 2 (bus dev) ++ lit ":" ++ fmt_hex 2 (device dev) ++ lit "." ++ fmt_dec (function dev).

(** The dash of the message is U+2014, three bytes. *)
Definition pci_line (dev : PciDevice) : list Z :=
  lit "[PCI] " ++ fmt_location dev ++ lit " " ++ [0xE2; 0x80; 0x94] ++
  lit " vendor=0x" ++ fmt_hex 4 (vendor_id dev) ++ lit " device=0x" ++ fmt_hex 4 (device_id dev) ++
  lit " class=0x" ++ fmt_hex 2 (class dev) ++ lit "/0x" ++ fmt_hex 2 (subclass dev).

(** [init]: the lines it logs and the bus after it. *)
Definition pci_init (s : Bus) : outcome (list Io * Bus) :=
  r ← enumerate s;
  let (devices, s) := r : list PciDevice * Bus in
  Ret (((fun dev => Com1 (pci_line dev ++ [10])) <$> devices) ++
       [Com1 (lit "[PCI] Found " ++ fmt_dec (zlen devices) ++ lit " device(s)" ++ [10])], s).

End pci.

(** ** The drivers

    Each driver's [probe] is a test on the device it is given, and a line on
    the serial port when it binds. *)

Definition found (tag : string) (dev : PciDevice) : list Io :=
  [Com1 (lit tag ++ fmt_location dev ++ [10])].

Definition AHCI_CLASS : Z := 0x01.
Definition AHCI_SUBCLASS : Z := 0x06.
Definition AHCI_PROG_IF : Z := 0x01.
Record AhciController := mkAhci { ahci_pci : PciDevice }.
Definition ahci_probe (d : PciDevice) : option AhciController * list Io :=
  if (class d =? AHCI_CLASS) && (subclass d =? AHCI_SUBCLASS) && (prog_if d =? AHCI_PROG_IF)
  then (Some (mkAhci d), found "[AHCI] Found controller at " d) else (None, []).
Definition ahci_read_sectors (self : AhciController) (port lba count : Z) (buf : list Z) : sum (list Z) unit :=
  inl (lit "AHCI driver not yet implemented").
Definition ahci_write_sectors (self : AhciController) (port lba count : Z) (buf : list Z) : sum (list Z) unit :=
  inl (lit "AHCI driver not yet implemented").

Definition NVME_CLASS : Z := 0x01.
Definition NVME_SUBCLASS : Z := 0x08.
Record NvmeController := mkNvme { nvme_pci : PciDevice }.
Definition nvme_probe (d : PciDevice) : option NvmeController * list Io :=
  if (class d =? NVME_CLASS) && (subclass d =? NVME_SUBCLASS)
  then (Some (mkNvme d), found "[NVMe] Found controller at " d) else (None, []).
Definition nvme_read_blocks (self : NvmeController) (lba count : Z) (buf : list Z) : sum (list Z) unit :=
  inl (lit "NVMe driver not yet implemented").
Definition nvme_write_blocks (self : NvmeController) (lba count : Z) (buf : list Z) : sum (list Z) unit :=
  inl (lit "NVMe driver not yet implemented").

Definition HDA_CLASS : Z := 0x04.
Definition HDA_SUBCLASS : Z := 0x03.
Record HdaController := mkHda { hda_pci : PciDevice }.
Definition hda_probe (d : PciDevice) : option HdaController * list Io :=
  if (class d =? HDA_CLASS) && (subclass d =? HDA_SUBCLASS)
  then (Some (mkHda d), found "[HDA] Found audio controller at " d) else (None, []).
Definition hda_play_pcm (self : HdaController) (samples : list Z) : sum (list Z) unit :=
  inl (lit "HDA driver not yet implemented").

Definition XHCI_CLASS : Z := 0x0C.
Definition XHCI_SUBCLASS : Z := 0x03.
Definition XHCI_PROG_IF : Z := 0x30.
Record XhciController := mkXhci { xhci_pci : PciDevice }.
Definition xhci_probe (d : PciDevice) : option XhciController * list Io :=
  if (class d =? XHCI_CLASS) && (subclass d =? XHCI_SUBCLASS) && (prog_if d =? XHCI_PROG_IF)
  then (Some (mkXhci d), found "[xHCI] Found USB 3 controller at " d) else (None, []).
Definition xhci_enumerate_devices (self : XhciController) : sum (list Z) unit :=
  inl (lit "xHCI driver not yet implemented").

Definition E1000_VENDOR : Z := 0x8086.
Definition E1000_DEVICE : Z := 0x100E.
Record E1000Driver := mkE1000 { e1000_pci : PciDevice }.
Definition e1000_probe (d : PciDevice) : option E1000Driver * list Io :=
  if (vendor_id d =? E1000_VENDOR) && (device_id d =? E1000_DEVICE)
  then (Some (mkE1000 d), found "[e1000] Found NIC at " d) else (None, []).
Definition e1000_send (self : E1000Driver) (frame : list Z) : sum (list Z) unit :=
  inl (lit "e1000 driver not yet implemented").
Definition e1000_recv (self : E1000Driver) (buf : list Z) : sum (list Z) Z :=
  inl (lit "e1000 driver not yet implemented").

(** The Bluetooth stub has no state. *)
Inductive BluetoothHci := mkBluetoothHci.
Definition hci_init : sum (list Z) BluetoothHci * list Io :=
  (inr mkBluetoothHci, [Com1 (lit "[BT] Bluetooth HCI stub initialized" ++ [10])]).
Definition hci_send_command (self : BluetoothHci) (opcode : Z) (params : list Z) : sum (list Z) unit :=
  inl (lit "Bluetooth HCI not yet implemented").
Definition hci_read_event (self : BluetoothHci) (buf : list Z) : sum (list Z) Z :=
  inl (lit "Bluetooth HCI not yet implemented").

(** ** Configuration mechanism #1

    What the PCI specification says of the two ports: with the enable bit set,
    the address selects bus, device, function and register, and reading the
    data port gives that register; the reads change no register.  [config]
    is the configuration space of a bus. *)

Class Mechanism1 {H : HostBridge} (config : Bus -> Z -> Z -> Z -> Z -> Z) : Prop := {
  mech_read s a :
    Z.testbit a 31 = true ->
    fst (port_read CONFIG_DATA (port_write CONFIG_ADDRESS a s))
    = config s (Z.land (Z.shiftr a 16) (Z.ones 8)) (Z.land (Z.shiftr a 11) (Z.ones 5))
        (Z.land (Z.shiftr a 8) (Z.ones 3)) (Z.land a (Z.ones 8));
  mech_same s a :
    config (snd (port_read CONFIG_DATA (port_write CONFIG_ADDRESS a s))) = config s;
  mech_width s b d f r : is_u32 (config s b d f r);
}.

(** Linear arithmetic with division and remainder by constants. *)
Ltac div_lia := Z.to_euclidean_division_equations; lia.

(** The register of an offset: the dword it is in. *)
Lemma land_FC o : is_u8 o -> Z.land o 0xFC = o - o `mod` 4.
Proof.
  assert (Forall (fun o => Z.land o 0xFC = o - o `mod` 4) (seqZ 0 256)) as Hall by by_decide.
  rewrite Forall_forall in Hall. intros Ho. apply Hall, elem_of_seqZ. unfold is_u in Ho. lia.
Qed.

Lemma config_address_sum b d f o :
  is_u8 b -> 0 <= d < 32 -> 0 <= f < 8 -> is_u8 o ->
  config_address b d f o = 2 ^ 31 + b * 2 ^ 16 + d * 2 ^ 11 + f * 2 ^ 8 + (o - o `mod` 4).
Proof.
  intros Hb Hd Hf Ho. unfold config_address. rewrite land_FC by done. unfold is_u in *.
  assert (0 <= o - o `mod` 4 < 256) as Hl by div_lia. rewrite <- !Z.lor_assoc.
  rewrite (lor_shiftl f 8) by lia. rewrite (lor_shiftl d 11) by lia.
  rewrite (lor_shiftl b 16) by lia. rewrite (lor_shiftl 1 31) by lia. lia.
Qed.

Lemma land_80 h : is_u8 h -> negb (Z.land h 0x80 =? 0) = Z.testbit h 7.
Proof.
  assert (Forall (fun h => negb (Z.land h 0x80 =? 0) = Z.testbit h 7) (seqZ 0 256)) as Hall by by_decide.
  rewrite Forall_forall in Hall. intros Ho. apply Hall, elem_of_seqZ. unfold is_u in Ho. lia.
Qed.

(** ** The functions of a bus

    A function answers when its vendor is not [0xFFFF]; a device is there when
    its function 0 answers; bit 7 of the header type of function 0 says that
    the other functions may answer too. *)

Section functions.
Context (c : Z -> Z -> Z -> Z -> Z).

Definition answers (b d f : Z) : Prop := c b d f 0 `mod` 2 ^ 16 <> 0xFFFF.

Definition describe (b d f : Z) : PciDevice := {|
  bus := b; device := d; function := f;
  vendor_id := c b d f 0 `mod` 2 ^ 16; device_id := c b d f 0 / 2 ^ 16;
  class := c b d f 8 / 2 ^ 24; subclass := (c b d f 8 / 2 ^ 16) `mod` 2 ^ 8;
  prog_if := (c b d f 8 / 2 ^ 8) `mod` 2 ^ 8; revision := c b d f 8 `mod` 2 ^ 8;
  header_type := (c b d f 12 / 2 ^ 16) `mod` 2 ^ 8 |}.

Definition multifunction (b d : Z) : bool := Z.testbit (header_type (describe b d 0)) 7.

Definition on_bus (x : PciDevice) : Prop :=
  is_u8 (bus x) /\ 0 <= device x < 32 /\ 0 <= function x < 8 /\
  answers (bus x) (device x) 0 /\ answers (bus x) (device x) (function x) /\
  (function x = 0 \/ multifunction (bus x) (device x) = true) /\
  x = describe (bus x) (device x) (function x).

(** The position of a function in the scan. *)
Definition location (x : PciDevice) : Z := bus x * 256 + device x * 8 + function x.

(** [l] is what a scan has found before position [n]. *)
Definition scanned (n : Z) (l : list PciDevice) : Prop :=
  StronglySorted (fun x y => location x < location y) l /\
  forall x, x ∈ l <-> on_bus x /\ location x < n.

Lemma scanned_skip n m l :
  scanned n l -> n <= m -> (forall x, on_bus x -> n <= location x < m -> False) -> scanned m l.
Proof.
  intros [Hs Hl] Hle Hno. split; [done|]. intros x. rewrite Hl. split; [intuition lia|].
  intros [Hx Hlt]. split; [done|]. destruct (decide (location x < n)); [done|].
  exfalso. apply (Hno x Hx). lia.
Qed.

Lemma scanned_push n l x :
  scanned n l -> on_bus x -> location x = n -> scanned (n + 1) (l ++ [x]).
Proof.
  intros [Hs Hl] Hx Hn. split.
  - apply StronglySorted_app_2; [|done|by repeat constructor].
    intros y z Hy ->%list_elem_of_singleton. apply Hl in Hy. lia.
  - intros y. rewrite elem_of_app, list_elem_of_singleton, Hl. split.
    + intros [[? ?]| ->]; (split; [done|lia]).
    + intros [Hy Hlt]. destruct (decide (location y < n)); [by left|]. right.
      destruct Hx as (? & ? & ? & _ & _ & _ & Ex). destruct Hy as (? & ? & ? & _ & _ & _ & Ey).
      unfold location, is_u in *. assert (bus y = bus x) as E1 by lia.
      assert (device y = device x) as E2 by lia. assert (function y = function x) as E3 by lia.
      rewrite Ex, Ey. by rewrite E1, E2, E3.
Qed.

End functions.

Section enumeration.
Context `{Pr : Profile} {H : HostBridge} {config : Bus -> Z -> Z -> Z -> Z -> Z}.
Context {Hm : Mechanism1 config}.

(** A read reaches the register its arguments name. *)
Lemma config_read32_spec b d f o s :
  is_u8 b -> 0 <= d < 32 -> 0 <= f < 8 -> is_u8 o ->
  exists s', config_read32 b d f o s = (config s b d f (o - o `mod` 4), s') /\ config s' = config s.
Proof.
  intros Hb Hd Hf Ho. unfold config_read32.
  pose proof (config_address_sum b d f o Hb Hd Hf Ho) as E. unfold is_u in *.
  set (a := config_address b d f o) in *.
  destruct (port_read CONFIG_DATA (port_write CONFIG_ADDRESS a s)) as [v s'] eqn:Er.
  exists s'. pose proof (mech_same s a) as Hs. rewrite Er in Hs. split; [|done]. f_equal.
  pose proof (mech_read s a) as Hr. rewrite Er in Hr. cbn [fst] in Hr. rewrite Hr.
  - rewrite !field_of, (Z.land_ones a 8), E by lia. f_equal; div_lia.
  - rewrite Z.testbit_eqb, E by lia. apply Z.eqb_eq. div_lia.
Qed.

Lemma probe_spec b d f s :
  is_u8 b -> 0 <= d < 32 -> 0 <= f < 8 ->
  exists s', config s' = config s /\
    (answers (config s) b d f /\ probe b d f s = (Some (describe (config s) b d f), s') \/
     ~ answers (config s) b d f /\ probe b d f s = (None, s')).
Proof.
  intros Hb Hd Hf. unfold probe, device_exists.
  destruct (config_read32_spec b d f 0 s Hb Hd Hf ltac:(done)) as (s1 & -> & E1).
  cbv beta iota. change (0 - 0 `mod` 4) with 0.
  assert (Z.land (config s b d f 0) 0xFFFF = config s b d f 0 `mod` 2 ^ 16) as ->
    by (by rewrite <- Z.land_ones).
  destruct (decide (config s b d f 0 `mod` 2 ^ 16 = 0xFFFF)) as [Ha|Ha].
  { exists s1. split; [done|]. right. rewrite Ha. split; [by intros []|done]. }
  rewrite (proj2 (Z.eqb_neq _ _) Ha). cbn [negb].
  destruct (config_read32_spec b d f 0 s1 Hb Hd Hf ltac:(done)) as (s2 & -> & E2).
  destruct (config_read32_spec b d f 8 s2 Hb Hd Hf ltac:(done)) as (s3 & -> & E3).
  destruct (config_read32_spec b d f 0xC s3 Hb Hd Hf ltac:(done)) as (s4 & -> & E4).
  exists s4. split; [congruence|]. left. split; [done|]. do 2 f_equal.
  rewrite E3, E2, E1. unfold describe.
  change (0 - 0 `mod` 4) with 0. change (8 - 8 `mod` 4) with 8. change (12 - 12 `mod` 4) with 12.
  pose proof (mech_width s b d f 0) as W0. pose proof (mech_width s b d f 8) as W8.
  change 0xFFFF with (Z.ones 16). change 0xFF with (Z.ones 8).
  rewrite !field_of, !Z.land_ones, Z.shiftr_div_pow2 by done. unfold wrap, is_u in *.
  f_equal; div_lia.
Qed.

Lemma scan_functions_spec b d l s c :
  is_u8 b -> 0 <= d < 32 -> config s = c -> answers c b d 0 -> multifunction c b d = true ->
  scanned c (b * 256 + d * 8 + 1) l ->
  exists l' s', scan_functions b d (l, s) = Ret (l', s') /\ config s' = c /\
    scanned c (b * 256 + d * 8 + 8) l'.
Proof.
  intros Hb Hd Hs Ha Hm8 Hl.
  destruct (for_range_inv (fun f '(l, s) => config s = c /\ scanned c (b * 256 + d * 8 + f) l)
    1 8 (fun f '(devices, s) => match probe b d f s with
      | (Some x, s) => Ret (devices ++ [x], s) | (None, s) => Ret (devices, s) end) (l, s))
    as ([l' s'] & E & Hs' & Hl'); [lia|done| |eauto 10].
  intros f [l1 s1] Hf [Hs1 Hl1].
  destruct (probe_spec b d f s1 Hb Hd ltac:(lia)) as (s2 & E2 & [[Hy ->]|[Hn ->]]);
    rewrite Hs1 in *; eexists (_, _); (split; [done|]); (split; [congruence|]).
  - rewrite Z.add_assoc. apply scanned_push; [done| |done].
    unfold on_bus. simpl. split_and!; (done || lia || by right).
  - apply scanned_skip with (b * 256 + d * 8 + f); [done|lia|].
    intros x (? & ? & ? & _ & Hax & _) Hx. apply Hn. unfold location, is_u in *.
    assert (bus x = b) as <- by lia. assert (device x = d) as <- by lia.
    by assert (function x = f) as <- by lia.
Qed.

Lemma scan_device_spec b d l s c :
  is_u8 b -> 0 <= d < 32 -> config s = c -> scanned c (b * 256 + d * 8) l ->
  exists l' s', scan_device b d (l, s) = Ret (l', s') /\ config s' = c /\
    scanned c (b * 256 + (d + 1) * 8) l'.
Proof.
  intros Hb Hd Hs Hl. unfold scan_device.
  replace (b * 256 + (d + 1) * 8) with (b * 256 + d * 8 + 8) by lia.
  assert (forall x, on_bus c x -> b * 256 + d * 8 <= location x < b * 256 + d * 8 + 8 ->
    bus x = b /\ device x = d) as Hat.
  { intros x (? & ? & ? & _) Hx. unfold location, is_u in *. lia. }
  destruct (probe_spec b d 0 s Hb Hd ltac:(lia)) as (s1 & E1 & [[Hy ->]|[Hn ->]]); rewrite Hs in *.
  - assert (scanned c (b * 256 + d * 8 + 1) (l ++ [describe c b d 0])) as Hl1.
    { apply scanned_push; [done| |simpl; unfold location; simpl; lia].
      unfold on_bus. simpl. split_and!; (done || lia || by left). }
    rewrite land_80 by (simpl; apply Z.mod_pos_bound; lia). fold (multifunction c b d).
    destruct (multifunction c b d) eqn:Emf; [by apply scan_functions_spec|].
    exists (l ++ [describe c b d 0]), s1. split_and!; [done..|].
    apply scanned_skip with (b * 256 + d * 8 + 1); [done|lia|].
    intros x Hx Hin. destruct (Hat x Hx ltac:(lia)) as [Eb Ed].
    destruct Hx as (_ & _ & _ & _ & _ & [Hf|Hmf] & _); [|congruence].
    unfold location in Hin. lia.
  - exists l, s1. split_and!; [done..|]. apply scanned_skip with (b * 256 + d * 8); [done|lia|].
    intros x Hx Hin. destruct (Hat x Hx Hin) as [Eb Ed]. apply Hn.
    destruct Hx as (_ & _ & _ & Ha & _). by rewrite Eb, Ed in Ha.
Qed.

Lemma enumerate_spec s :
  exists l s', enumerate s = Ret (l, s') /\ config s' = config s /\
    StronglySorted (fun x y => location x < location y) l /\
    (forall x, x ∈ l <-> on_bus (config s) x).
Proof.
  destruct (for_range_inv
    (fun b '(l, s1) => config s1 = config s /\ scanned (config s) (b * 256) l) 0 256
    (fun b => for_range 0 32 (fun d => scan_device b d)) ([], s)) as ([l s'] & E & Es & Hso & Hl).
  - lia.
  - split; [done|]. split; [constructor|]. intros x. split; [by intros ?%not_elem_of_nil|].
    intros [(? & ? & ? & _) Hx]. unfold location, is_u in *. lia.
  - intros b [l s1] Hb [Hs1 Hl].
    destruct (for_range_inv
      (fun d '(l, s1) => config s1 = config s /\ scanned (config s) (b * 256 + d * 8) l) 0 32
      (fun d => scan_device b d) (l, s1)) as ([l2 s2] & E2 & Hs2 & Hl2).
    + lia.
    + by rewrite Z.mul_0_l, Z.add_0_r.
    + intros d [l3 s3] Hd [Hs3 Hl3].
      destruct (scan_device_spec b d l3 s3 (config s)) as (l4 & s4 & E4 & ? & ?); [done..|].
      by exists (l4, s4).
    + exists (l2, s2). split; [done|]. split; [done|].
      by replace ((b + 1) * 256) with (b * 256 + 32 * 8) by lia.
  - exists l, s'. split_and!; [done..|]. intros x. rewrite Hl. split; [by intros []|].
    intros Hx. split; [done|]. destruct Hx as (? & ? & ? & _). unfold location, is_u in *. lia.
Qed.

(** C19: Over a host bridge that implements configuration mechanism
    #1, [enumerate] returns, changes no configuration register, and finds
    exactly the functions of the bus: every function of a present device
    (function 0, and functions 1 to 7 of a multi-function device) with the
    identification its registers hold, in the order of bus, device and
    function, and none twice. *)
Theorem enumerate_exact s :
  exists l s', enumerate s = Ret (l, s') /\ config s' = config s /\
    StronglySorted (fun x y => location x < location y) l /\
    (forall x, x ∈ l <-> on_bus (config s) x).
Proof. apply enumerate_spec. Qed.

(** A 16-bit read gives the half of the register its offset names. *)
Lemma config_read16_spec b d f o s :
  is_u8 b -> 0 <= d < 32 -> 0 <= f < 8 -> is_u8 o -> o `mod` 2 = 0 ->
  exists s', config_read16 b d f o s
    = ((config s b d f (o - o `mod` 4) / 2 ^ (8 * (o `mod` 4))) `mod` 2 ^ 16, s') /\
    config s' = config s.
Proof.
  intros Hb Hd Hf Ho Hev. unfold config_read16.
  assert (Forall (fun o => o `mod` 2 = 0 -> is_u8 (Z.land o 0xFD) /\
    Z.land o 0xFD - Z.land o 0xFD `mod` 4 = o - o `mod` 4 /\ Z.land o 2 = o `mod` 4) (seqZ 0 256)) as Hall.
  { by_decide. }
  rewrite Forall_forall in Hall. unfold is_u in *.
  destruct (Hall o) as (Hl & Er & Es); [apply elem_of_seqZ; lia|done|].
  destruct (config_read32_spec b d f (Z.land o 0xFD) s) as (s' & -> & E); [done..|].
  exists s'. split; [|done]. rewrite Er, Es, Z.shiftr_div_pow2 by div_lia. unfold wrap.
  by rewrite Z.mul_comm.
Qed.

(** The six base address registers are read without overflow. *)
Lemma read_bar_spec dev i s :
  is_u8 (bus dev) -> 0 <= device dev < 32 -> 0 <= function dev < 8 -> 0 <= i < 6 ->
  exists s', read_bar dev i s
    = Ret (config s (bus dev) (device dev) (function dev) (0x10 + 4 * i), s') /\ config s' = config s.
Proof.
  intros Hb Hd Hf Hi. unfold read_bar, mul_u, add_u.
  rewrite (in_width_ok 8 (i * 4)) by (split; lia). cbn [mbind outcome_bind].
  rewrite (in_width_ok 8 (0x10 + i * 4)) by (split; lia). cbn [mbind outcome_bind].
  destruct (config_read32_spec (bus dev) (device dev) (function dev) (0x10 + i * 4) s)
    as (s' & -> & E); [done..|unfold is_u; lia|].
  exists s'. split; [|done]. do 3 f_equal. div_lia.
Qed.

End enumeration.

(** No device is claimed by two of the drivers that match on class codes. *)
Lemma class_drivers_exclusive d :
  (length (filter (fun b => b = true)
    [bool_decide (is_Some (ahci_probe d).1); bool_decide (is_Some (nvme_probe d).1);
     bool_decide (is_Some (hda_probe d).1); bool_decide (is_Some (xhci_probe d).1)]) <= 1)%nat.
Proof.
  unfold ahci_probe, nvme_probe, hda_probe, xhci_probe, AHCI_CLASS, NVME_CLASS, HDA_CLASS, XHCI_CLASS,
    AHCI_SUBCLASS, NVME_SUBCLASS, HDA_SUBCLASS, XHCI_SUBCLASS.
  destruct (Z.eqb_spec (class d) 1) as [->|]; [|destruct (Z.eqb_spec (class d) 4) as [->|]];
    [destruct (Z.eqb_spec (subclass d) 6) as [->|]| |]; repeat case_match; simpl; lia.
Qed.

(** ** A bus with a host bridge and a two-function device *)

Module DemoBus.
Definition space (b d f r : Z) : Z :=
  if negb ((b =? 0) && (d <? 2)) then 0xFFFFFFFF
  else match d, f, r with
  | 0, 0, 0 => 0x12378086 | 0, 0, 8 => 0x06000002 | 0, 0, 12 => 0
  | 1, 0, 0 => 0x70008086 | 1, 0, 8 => 0x06010000 | 1, 0, 12 => 0x00800000
  | 1, 3, 0 => 0x71138086 | 1, 3, 8 => 0x06800003 | 1, 3, 12 => 0x00800000
  | _, _, _ => 0xFFFFFFFF
  end.

Definition selected (a : Z) : Z :=
  if Z.testbit a 31 then
    space (Z.land (Z.shiftr a 16) (Z.ones 8)) (Z.land (Z.shiftr a 11) (Z.ones 5))
      (Z.land (Z.shiftr a 8) (Z.ones 3)) (Z.land a (Z.ones 8))
  else 0xFFFFFFFF.

#[export] Instance bridge : HostBridge := {|
  Bus := Z;
  port_write p v s := if p =? CONFIG_ADDRESS then v else s;
  port_read p s := (selected s, s);
|}.

#[export] Instance bridge_mechanism : Mechanism1 (fun _ => space).
Proof.
  split; [|done|].
  - intros s a Ha. simpl. unfold selected. by rewrite Ha.
  - intros _ b d f r. unfold space. repeat case_match; by vm_compute.
Qed.
End DemoBus.

#[local] Existing Instance dev.

Lemma enumerate_exact_witness :
  exists l s', @enumerate DemoBus.bridge 0 = Ret (l, s') /\
    map (fun x => (device x, function x, device_id x)) l
      = [(0, 0, 0x1237); (1, 0, 0x7000); (1, 3, 0x7113)] /\
    (forall x, x ∈ l <-> on_bus DemoBus.space x).
Proof.
  destruct (enumerate_exact (Hm := DemoBus.bridge_mechanism) 0)
    as (l & s' & E & _ & _ & Hl).
  exists l, s'. split; [done|]. split; [|done]. vm_compute in E. by simplify_eq.
Defined.
