(* ===== verification/Memory.v ===== *)
(** * Memory management ([memory/])

    The frame allocator over the bootloader's memory map, the mapping of the
    kernel heap, and the order in which [memory::init] sets them up. *)

From S2P Require Import Prelude.

(** A region of the memory map; the kernel tests its kind for [Usable] only. *)
Inductive MemoryRegionKind := Usable | NotUsable.

#[export] Instance MemoryRegionKind_eq_dec : EqDecision MemoryRegionKind.
Proof. solve_decision. Defined.

Record MemoryRegion := mkRegion { r_start : Z; r_end : Z; r_kind : MemoryRegionKind }.

(** [BootInfoFrameAllocator]. *)
Record FrameAllocator := mkFrameAllocator { memory_regions : list MemoryRegion; next : Z }.

Definition HEAP_START : Z := 0x444444440000.
Definition HEAP_SIZE : Z := 2 * 1024 * 1024.

(** The flags of [PageTableFlags] the heap is mapped with. *)
Inductive PageTableFlag := PRESENT | WRITABLE | NO_EXECUTE.

(** The errors of [Mapper::map_to]. *)
Inductive MapToError := FrameAllocationFailed | ParentEntryHugePage | PageAlreadyMapped.

(** ** The [x86_64] crate

    Addresses, frames, pages and the page-table mapper are the crate's.  A
    frame or a page is its start address. *)

Class X86 := {
  PhysAddr_new : Z -> outcome Z;
  frame_containing : Z -> Z;
  VirtAddr_new : Z -> outcome Z;
  VirtAddr_add : Z -> Z -> outcome Z;
  VirtAddr_sub : Z -> Z -> outcome Z;
  page_containing : Z -> Z;
  page_range_inclusive : Z -> Z -> list Z;
  cr3_frame : Z;
  Mapper : Type;
  OffsetPageTable_new : Z -> Z -> Mapper;
  map_to : Z -> Z -> list PageTableFlag -> Mapper -> FrameAllocator ->
           outcome (sum MapToError unit * Mapper * FrameAllocator);
}.

Section memory.
Context `{Pr : Profile} {X : X86}.

(** ** [frame_allocator.rs] *)

Definition BootInfoFrameAllocator_init (regions : list MemoryRegion) : FrameAllocator :=
  mkFrameAllocator regions 0.

(** [(start..end).step_by(n)] on [u64], which does not overflow. *)
Definition step_by (a b n : Z) : list Z := (fun i => a + n * i) <$> seqZ 0 ((b - a + n - 1) / n).

(** The addresses [usable_frames] maps to frames. *)
Definition usable_addresses (fa : FrameAllocator) : list Z :=
  flat_map (fun r => step_by (r_start r) (r_end r) 4096)
    (filter (fun r => r_kind r = Usable) (memory_regions fa)).

(** [nth] on the iterator: the closure runs on every element it passes. *)
Fixpoint frames_nth (addrs : list Z) (n : nat) : outcome (option Z) :=
  match addrs with
  | [] => Ret None
  | addr :: addrs =>
    p ← PhysAddr_new addr;
    let frame := frame_containing p in
    match n with O => Ret (Some frame) | S n => frames_nth addrs n end
  end.

Definition allocate_frame (fa : FrameAllocator) : outcome (option Z * FrameAllocator) :=
  frame ← frames_nth (usable_addresses fa) (Z.to_nat (next fa));
  n ← add_u 64 (next fa) 1;
  Ret (frame, mkFrameAllocator (memory_regions fa) n).

(** ** [paging.rs] *)

Definition active_level_4_table (physical_memory_offset : Z) : outcome Z :=
  VirtAddr_add physical_memory_offset cr3_frame.

Definition paging_init (physical_memory_offset : Z) : outcome Mapper :=
  level_4_table ← active_level_4_table physical_memory_offset;
  Ret (OffsetPageTable_new level_4_table physical_memory_offset).

Definition phys_from_virt (virt physical_memory_offset : Z) : option Z :=
  if physical_memory_offset <=? virt then Some (virt - physical_memory_offset) else None.

(** ** [heap.rs] *)

Definition heap_flags : list PageTableFlag := [PRESENT; WRITABLE; NO_EXECUTE].

Fixpoint map_pages (pages : list Z) (m : Mapper) (fa : FrameAllocator) :
    outcome (sum MapToError unit * Mapper * FrameAllocator) :=
  match pages with
  | [] => Ret (inr tt, m, fa)
  | page :: pages =>
    r ← allocate_frame fa;
    match r with
    | (None, fa) => Ret (inl FrameAllocationFailed, m, fa)
    | (Some frame, fa) =>
      r ← map_to page frame heap_flags m fa;
      match r with
      | (inl e, m, fa) => Ret (inl e, m, fa)
      | (inr tt, m, fa) => map_pages pages m fa
      end
    end
  end.

Definition heap_pages : outcome (list Z) :=
  heap_start ← VirtAddr_new HEAP_START;
  e ← VirtAddr_add heap_start HEAP_SIZE;
  heap_end ← VirtAddr_sub e 1;
  Ret (page_range_inclusive (page_containing heap_start) (page_containing heap_end)).

Definition init_heap (m : Mapper) (fa : FrameAllocator) :
    outcome (sum MapToError unit * Mapper * FrameAllocator) :=
  pages ← heap_pages; map_pages pages m fa.

(** ** [memory::init]: the mapper, and the range given to the heap allocator. *)
Definition memory_init (physical_memory_offset : option Z) (regions : list MemoryRegion) :
    outcome (Mapper * (Z * Z)) :=
  offset ← unwrap physical_memory_offset;
  phys_mem_offset ← VirtAddr_new offset;
  m ← paging_init phys_mem_offset;
  r ← init_heap m (BootInfoFrameAllocator_init regions);
  match r with
  | (inl _, _, _) => Panic
  | (inr tt, m, _) => Ret (m, (HEAP_START, HEAP_SIZE))
  end.

End memory.

(** ** A valid memory map

    The usable regions are made of whole pages of physical memory and do not
    overlap. *)

Record memory_map_ok (rs : list MemoryRegion) : Prop := {
  map_pages_whole r : r ∈ rs -> r_kind r = Usable ->
    r_start r `mod` 4096 = 0 /\ r_end r `mod` 4096 = 0 /\ 0 <= r_start r <= r_end r /\ r_end r <= 2 ^ 52;
  map_disjoint i j r1 r2 : rs !! i = Some r1 -> rs !! j = Some r2 -> (i < j)%nat ->
    r_kind r1 = Usable -> r_kind r2 = Usable -> r_end r1 <= r_start r2 \/ r_end r2 <= r_start r1;
}.

(** ** What the crate documents

    Physical addresses have 52 bits; a virtual address is canonical when bit 47
    is repeated above it, in either half of the address space, and arithmetic
    that stays canonical succeeds; frames and pages are aligned down.  [translate] is the mapping a mapper
    holds for a 4 KiB page, [huge] tells that a huge page covers it.  [map_to]
    takes at most three frames, for page tables, and only from the allocator it
    is given; it succeeds for an unmapped page no huge page covers when three
    frames are left, and then maps that page and no other. *)

Definition canonical (a : Z) : Prop := 0 <= a < 2 ^ 47 \/ 2 ^ 64 - 2 ^ 47 <= a < 2 ^ 64.

#[export] Instance canonical_dec a : Decision (canonical a).
Proof. unfold canonical. apply _. Defined.

Class LawfulX86 `{Pr : Profile} (X : X86) := {
  translate : Mapper -> Z -> option (Z * list PageTableFlag);
  huge : Mapper -> Z -> bool;
  phys_new a : 0 <= a < 2 ^ 52 -> PhysAddr_new a = Ret a;
  frame_align a : 0 <= a -> frame_containing a = a - a `mod` 4096;
  virt_new a : canonical a -> VirtAddr_new a = Ret a;
  virt_add a n : canonical a -> 0 <= n -> canonical (a + n) -> VirtAddr_add a n = Ret (a + n);
  virt_sub a n : canonical a -> 0 <= n -> canonical (a - n) -> VirtAddr_sub a n = Ret (a - n);
  page_align a : canonical a -> page_containing a = a - a `mod` 4096;
  page_range p q : p `mod` 4096 = 0 -> q `mod` 4096 = 0 -> 0 <= p <= q -> q < 2 ^ 47 ->
    page_range_inclusive p q = (fun i => p + 4096 * i) <$> seqZ 0 ((q - p) / 4096 + 1);
  map_to_ok p f fl m fa :
    memory_map_ok (memory_regions fa) -> translate m p = None -> huge m p = false ->
    0 <= next fa -> next fa + 3 <= zlen (usable_addresses fa) ->
    zlen (usable_addresses fa) < 2 ^ 63 ->
    exists m' n, map_to p f fl m fa = Ret (inr tt, m', mkFrameAllocator (memory_regions fa) n) /\
      next fa <= n <= next fa + 3 /\
      translate m' p = Some (f, fl) /\
      (forall q, q <> p -> translate m' q = translate m q) /\
      (forall q, huge m' q = huge m q);
}.

(** ** The frames of a valid map *)

Lemma elem_of_step_by a b n x :
  0 < n -> x ∈ step_by a b n <-> exists i, 0 <= i /\ x = a + n * i /\ x < b.
Proof.
  intros Hn. unfold step_by. rewrite list_elem_of_fmap. setoid_rewrite elem_of_seqZ.
  assert (forall i, 0 <= i -> (i < 0 + (b - a + n - 1) / n <-> a + n * i < b)) as Hb.
  { intros i Hi. rewrite Z.add_0_l.
    pose proof (Z.div_mod (b - a + n - 1) n ltac:(lia)). pose proof (Z.mod_pos_bound (b - a + n - 1) n Hn).
    set (q := (b - a + n - 1) / n) in *. split; intros; nia. }
  split.
  - intros (i & -> & Hi & Hlt). exists i. split_and!; [done|done|]. by apply Hb.
  - intros (i & Hi & -> & Hlt). exists i. split; [done|]. split; [done|]. by apply Hb.
Qed.

Lemma NoDup_step_by a b n : 0 < n -> NoDup (step_by a b n).
Proof.
  intros Hn. unfold step_by. apply NoDup_fmap_2_strong; [|apply NoDup_seqZ].
  intros x y _ _ E. nia.
Qed.

(** [n] calls of [allocate_frame]. *)
Fixpoint allocate_n `{Pr : Profile} {X : X86} (n : nat) (fa : FrameAllocator) :
    outcome (list (option Z) * FrameAllocator) :=
  match n with
  | O => Ret ([], fa)
  | S n => r ← allocate_frame fa; s ← allocate_n n r.2; Ret (r.1 :: s.1, s.2)
  end.

Section frames.
Context `{Pr : Profile} {X : X86} {L : LawfulX86 X}.

(** A frame of the allocator is a page inside a usable region. *)
Lemma usable_address_region fa a :
  memory_map_ok (memory_regions fa) -> a ∈ usable_addresses fa <->
  a `mod` 4096 = 0 /\ exists r, r ∈ memory_regions fa /\ r_kind r = Usable /\
                       r_start r <= a /\ a + 4096 <= r_end r.
Proof.
  intros Hok. unfold usable_addresses. rewrite list_elem_of_In, in_flat_map.
  setoid_rewrite <- list_elem_of_In. setoid_rewrite list_elem_of_filter. split.
  - intros (r & [Hk Hr] & (i & Hi & -> & Hlt)%elem_of_step_by); [|done].
    destruct (map_pages_whole _ Hok r Hr Hk) as (Hs & He & _).
    split; [Z.to_euclidean_division_equations; lia|]. exists r. split_and!; [done|done|lia|].
    Z.to_euclidean_division_equations; lia.
  - intros (Ha & r & Hr & Hk & Hlo & Hhi). exists r. split; [done|]. apply elem_of_step_by; [done|].
    destruct (map_pages_whole _ Hok r Hr Hk) as (Hs & He & _).
    exists ((a - r_start r) / 4096). Z.to_euclidean_division_equations; lia.
Qed.

Lemma usable_NoDup rs n : memory_map_ok rs -> NoDup (usable_addresses (mkFrameAllocator rs n)).
Proof.
  unfold usable_addresses. cbn [memory_regions]. induction rs as [|r rs IH]; intros Hok; [constructor|].
  assert (memory_map_ok rs) as Hok'.
  { destruct Hok as [Hw Hd]. split; [intros; apply Hw; [by right|done]|].
    intros i j r1 r2 Hi Hj Hlt. by apply (Hd (S i) (S j) r1 r2 Hi Hj); lia. }
  rewrite filter_cons. case_decide as Hk; [|by apply IH]. simpl. apply NoDup_app.
  split_and!; [by apply NoDup_step_by| |by apply IH].
  intros a (i & Hi & -> & Hlt)%elem_of_step_by; [|done].
  rewrite list_elem_of_In, in_flat_map. setoid_rewrite <- list_elem_of_In.
  intros (r2 & [Hk2 [j Hj]%list_elem_of_lookup]%list_elem_of_filter & (i2 & Hi2 & E & Hlt2)%elem_of_step_by); [|done].
  destruct (map_disjoint _ Hok 0 (S j) r r2) as [?|?]; [done|done|lia|done|done|lia|lia].
Qed.

Lemma frames_nth_spec addrs n :
  Forall (fun a => 0 <= a < 2 ^ 52 /\ a `mod` 4096 = 0) addrs -> frames_nth addrs n = Ret (addrs !! n).
Proof.
  intros Hf. revert n. induction Hf as [|a addrs [Ha Hm] Hf IH]; intros n; [done|].
  cbn [frames_nth]. rewrite phys_new by done. cbn [mbind outcome_bind].
  rewrite frame_align, Hm, Z.sub_0_r by lia. destruct n; [done|apply IH].
Qed.

Lemma allocate_frame_spec rs n :
  memory_map_ok rs -> 0 <= n < 2 ^ 64 - 1 ->
  allocate_frame (mkFrameAllocator rs n)
  = Ret (usable_addresses (mkFrameAllocator rs 0) !! Z.to_nat n, mkFrameAllocator rs (n + 1)).
Proof.
  intros Hok Hn. unfold allocate_frame, add_u. cbn [next memory_regions].
  rewrite frames_nth_spec.
  - cbn [mbind outcome_bind]. rewrite (in_width_ok 64 (n + 1)) by (split; lia). done.
  - apply Forall_forall. intros a Ha%usable_address_region; [|done].
    destruct Ha as (? & r & Hr & Hk & ?). destruct (map_pages_whole _ Hok r Hr Hk) as (_ & _ & ?). lia.
Qed.

Lemma allocate_n_spec rs k n :
  memory_map_ok rs -> 0 <= k -> k + Z.of_nat n < 2 ^ 64 ->
  allocate_n n (mkFrameAllocator rs k)
  = Ret ((fun i => usable_addresses (mkFrameAllocator rs 0) !! i) <$> seq (Z.to_nat k) n,
         mkFrameAllocator rs (k + Z.of_nat n)).
Proof.
  intros Hok. revert k. induction n as [|n IH]; intros k Hk Hn.
  { simpl. by rewrite Z.add_0_r. }
  cbn [allocate_n]. rewrite allocate_frame_spec by (done || lia). cbn [mbind outcome_bind fst snd].
  rewrite IH by lia. cbn [mbind outcome_bind fst snd seq fmap list_fmap].
  do 3 f_equal; [|lia]. do 2 f_equal. lia.
Qed.

Lemma omap_lookups {A} (l : list A) n :
  omap id ((fun i => l !! i) <$> seq 0 n) = take n l.
Proof.
  revert n. induction l as [|x l IH]; intros [|n]; try done.
  - rewrite take_nil. generalize (seq 0 (S n)) as js. by induction js.
  - simpl. f_equal. rewrite <- fmap_S_seq, <- list_fmap_compose. apply IH.
Qed.

(** C18: over a valid memory map, successive allocations never fail with
    a panic, never hand out a frame twice, and hand out only page-aligned
    frames that lie inside a usable region; once an allocation returns
    [None], every page of the usable regions has been handed out. *)
Theorem frames_distinct_and_usable rs n :
  memory_map_ok rs -> Z.of_nat n < 2 ^ 64 ->
  exists l fa', allocate_n n (BootInfoFrameAllocator_init rs) = Ret (l, fa') /\
    length l = n /\ NoDup (omap id l) /\
    (forall f, Some f ∈ l -> f `mod` 4096 = 0 /\
       exists r, r ∈ rs /\ r_kind r = Usable /\ r_start r <= f /\ f + 4096 <= r_end r) /\
    (None ∈ l -> forall f r, f `mod` 4096 = 0 -> r ∈ rs -> r_kind r = Usable ->
       r_start r <= f -> f + 4096 <= r_end r -> Some f ∈ l).
Proof.
  intros Hok Hn. do 2 eexists. split; [by apply allocate_n_spec|].
  set (F := usable_addresses (mkFrameAllocator rs 0)). change (Z.to_nat 0) with 0%nat.
  split_and!.
  - by rewrite length_fmap, length_seq.
  - rewrite omap_lookups. eapply sublist_NoDup; [exact (usable_NoDup rs 0 Hok)|apply sublist_take].
  - intros f (i & Hf%eq_sym & _)%list_elem_of_fmap. apply list_elem_of_lookup_2 in Hf.
    by apply (usable_address_region (mkFrameAllocator rs 0)) in Hf.
  - intros (i & Hi%eq_sym & Hin)%list_elem_of_fmap f r Hm Hr Hk Hlo Hhi.
    assert (f ∈ F) as [j Hj]%list_elem_of_lookup 
      by (apply (usable_address_region (mkFrameAllocator rs 0)); eauto 10).
    apply lookup_ge_None in Hi. apply lookup_lt_Some in Hj as Hlt.
    apply list_elem_of_fmap. exists j. split; [done|]. apply elem_of_seq in Hin. apply elem_of_seq. lia.
Qed.

(** Mapping a list of fresh pages. *)
Lemma map_pages_spec rs pages m n :
  let F := usable_addresses (mkFrameAllocator rs 0) in
  memory_map_ok rs -> NoDup pages ->
  (forall p, p ∈ pages -> translate m p = None /\ huge m p = false) ->
  0 <= n -> n + 4 * zlen pages <= zlen F -> zlen F < 2 ^ 63 ->
  exists m' n', map_pages pages m (mkFrameAllocator rs n) = Ret (inr tt, m', mkFrameAllocator rs n') /\
    (forall q, q ∉ pages -> translate m' q = translate m q) /\
    (forall p, p ∈ pages -> exists i f, (Z.to_nat n <= i)%nat /\ F !! i = Some f /\
       translate m' p = Some (f, heap_flags)) /\
    (forall p q, p ∈ pages -> q ∈ pages -> translate m' p = translate m' q -> p = q).
Proof.
  intros F Hok Hnd. revert m n.
  induction Hnd as [|p pages Hp Hnd IH]; intros m n Hfresh Hn Hfit Hmax.
  { exists m, n. split_and!; [done|done|set_solver..]. }
  rewrite zlen_cons in Hfit. pose proof (zlen_nonneg pages). cbn [map_pages].
  rewrite allocate_frame_spec by (done || lia). cbn [mbind outcome_bind].
  destruct (lookup_lt_is_Some_2 F (Z.to_nat n)) as [f Hf]; [unfold zlen in *; lia|].
  fold F. rewrite Hf. destruct (Hfresh p ltac:(by left)) as [Ht Hh].
  destruct (map_to_ok p f heap_flags m (mkFrameAllocator rs (n + 1)))
    as (m1 & n1 & -> & Hn1 & Tp & Tq & Hq); cbn [next memory_regions] in *;
    [done..|lia|change (n + 1 + 3 <= zlen F); lia|done|].
  cbn [mbind outcome_bind].
  destruct (IH m1 n1) as (m2 & n2 & -> & Tn & Tm & Ti); [|lia|lia|done|].
  { intros q Hqin. rewrite Tq, Hq by set_solver. apply Hfresh. by right. }
  assert (translate m2 p = Some (f, heap_flags)) as Tp2 by (by rewrite Tn).
  assert (forall q, q ∈ pages -> translate m2 q <> translate m2 p) as Hne.
  { intros q Hqin E. destruct (Tm q Hqin) as (i & g & Hi & Hg & Tg). rewrite Tg, Tp2 in E.
    simplify_eq. pose proof (NoDup_lookup F i (Z.to_nat n) f (usable_NoDup rs 0 Hok) Hg Hf). lia. }
  exists m2, n2. split_and!; [done| | |].
  - intros q Hqn. rewrite Tn, Tq by set_solver. done.
  - intros q [-> | Hqin]%elem_of_cons; [exists (Z.to_nat n), f; split_and!; [lia|done|done]|].
    destruct (Tm q Hqin) as (i & g & Hi & Hg & Tg). exists i, g. split_and!; [lia|done|done].
  - intros q q' [-> | Hin]%elem_of_cons [-> | Hin']%elem_of_cons E; [done| | |by apply Ti].
    + by destruct (Hne q' Hin').
    + by destruct (Hne q Hin).
Qed.

Lemma heap_pages_spec :
  heap_pages = Ret ((fun i => HEAP_START + 4096 * i) <$> seqZ 0 512).
Proof.
  unfold heap_pages. rewrite virt_new by (by left). cbn [mbind outcome_bind].
  rewrite virt_add by (done || by left). cbn [mbind outcome_bind].
  rewrite virt_sub by (done || by left). cbn [mbind outcome_bind].
  rewrite !page_align by (by left). by rewrite page_range by done.
Qed.

(** [memory::init] maps the heap. *)
Lemma memory_init_spec rs offset m :
  memory_map_ok rs -> canonical offset -> paging_init offset = Ret m ->
  2048 <= zlen (usable_addresses (BootInfoFrameAllocator_init rs)) < 2 ^ 63 ->
  (forall i, 0 <= i < 512 -> translate m (HEAP_START + 4096 * i) = None /\
                             huge m (HEAP_START + 4096 * i) = false) ->
  exists m' (frame : Z -> Z), memory_init (Some offset) rs = Ret (m', (HEAP_START, 512 * 4096)) /\
    (forall i, 0 <= i < 512 ->
       translate m' (HEAP_START + 4096 * i) = Some (frame i, [PRESENT; WRITABLE; NO_EXECUTE]) /\
       frame i ∈ usable_addresses (BootInfoFrameAllocator_init rs)) /\
    (forall i j, 0 <= i < 512 -> 0 <= j < 512 -> frame i = frame j -> i = j) /\
    (forall q, (forall i, 0 <= i < 512 -> q <> HEAP_START + 4096 * i) -> translate m' q = translate m q).
Proof.
  intros Hok Hoff Hm Hfit Hfree. unfold BootInfoFrameAllocator_init in *.
  pose proof heap_pages_spec as Ehp.
  remember ((fun i => HEAP_START + 4096 * i) <$> seqZ 0 512) as pages eqn:Epages.
  assert (forall p, p ∈ pages <-> exists i, p = HEAP_START + 4096 * i /\ 0 <= i < 512) as Hpages.
  { intros p. rewrite Epages, list_elem_of_fmap. by setoid_rewrite elem_of_seqZ. }
  destruct (map_pages_spec rs pages m 0) as (m' & n' & E & To & Tp & Ti); [done| | |lia| |apply Hfit|].
  - rewrite Epages. apply NoDup_fmap_2_strong; [lia|apply NoDup_seqZ].
  - intros p (i & -> & Hi)%Hpages. by apply Hfree.
  - rewrite Epages. unfold zlen at 1. rewrite length_fmap, length_seqZ. lia.
  - exists m', (fun i => default 0 (fst <$> translate m' (HEAP_START + 4096 * i))).
    assert (forall i, 0 <= i < 512 -> HEAP_START + 4096 * i ∈ pages) as Hin
      by (intros i Hi; apply Hpages; eauto).
    split_and!.
    + unfold memory_init, BootInfoFrameAllocator_init. cbn [unwrap mbind outcome_bind]. rewrite virt_new by done.
      cbn [mbind outcome_bind]. rewrite Hm. cbn [mbind outcome_bind]. unfold init_heap.
      rewrite Ehp. cbn [mbind outcome_bind]. rewrite E. reflexivity.
    + intros i Hi. destruct (Tp _ (Hin i Hi)) as (k & f & _ & Hf & ->). split; [done|].
      by apply list_elem_of_lookup_2 in Hf.
    + intros i j Hi Hj Eq. assert (HEAP_START + 4096 * i = HEAP_START + 4096 * j); [|lia].
      apply Ti; [by apply Hin..|]. destruct (Tp _ (Hin i Hi)) as (k & f & _ & _ & Hf).
      destruct (Tp _ (Hin j Hj)) as (k' & f' & _ & _ & Hf'). rewrite Hf, Hf' in Eq.
      simpl in Eq. by rewrite Hf, Hf', Eq.
    + intros q Hq. apply To. intros (i & -> & Hi)%Hpages. by apply (Hq i).
Qed.

(** C17: With physical memory mapped at a canonical address, in either half of
    the address space, a valid memory map with at least
    2048 usable frames and an address space in which the heap's pages are
    free, [memory::init] does not panic; it maps each of the 512 pages of the
    heap, present, writable and not executable, to a usable frame, no two
    pages to the same frame, changes no other mapping, and hands the heap
    allocator the range it mapped.  Without the offset it panics. *)
Theorem memory_init_maps_heap rs offset m :
  memory_map_ok rs -> canonical offset -> paging_init offset = Ret m ->
  2048 <= zlen (usable_addresses (BootInfoFrameAllocator_init rs)) < 2 ^ 63 ->
  (forall i, 0 <= i < 512 -> translate m (HEAP_START + 4096 * i) = None /\
                             huge m (HEAP_START + 4096 * i) = false) ->
  memory_init None rs = Panic /\
  exists m' (frame : Z -> Z), memory_init (Some offset) rs = Ret (m', (HEAP_START, 512 * 4096)) /\
    (forall i, 0 <= i < 512 ->
       translate m' (HEAP_START + 4096 * i) = Some (frame i, [PRESENT; WRITABLE; NO_EXECUTE]) /\
       frame i ∈ usable_addresses (BootInfoFrameAllocator_init rs)) /\
    (forall i j, 0 <= i < 512 -> 0 <= j < 512 -> frame i = frame j -> i = j) /\
    (forall q, (forall i, 0 <= i < 512 -> q <> HEAP_START + 4096 * i) -> translate m' q = translate m q).
Proof. intros. split; [done|]. by apply memory_init_spec. Qed.

(** The offset mapping and its inverse. *)
Lemma phys_from_virt_roundtrip offset phys :
  0 <= offset -> 0 <= phys -> phys_from_virt (offset + phys) offset = Some phys.
Proof. intros. unfold phys_from_virt. case_match; f_equal; lia. Qed.

End frames.

(** ** A machine with 2048 pages of usable memory above a reserved megabyte

    Its mapper keeps the mapping as a function and takes one frame for a page
    table when one is left. *)

Module DemoMachine.
#[local] Existing Instance dev.

Definition checked (a : Z) : outcome Z := if decide (canonical a) then Ret a else Panic.

#[export] Instance x86 : X86 := {|
  PhysAddr_new a := if decide (0 <= a < 2 ^ 52) then Ret a else Panic;
  frame_containing a := a - a `mod` 4096;
  VirtAddr_new := checked;
  VirtAddr_add a n := checked (a + n);
  VirtAddr_sub a n := checked (a - n);
  page_containing a := a - a `mod` 4096;
  page_range_inclusive p q := (fun i => p + 4096 * i) <$> seqZ 0 ((q - p) / 4096 + 1);
  cr3_frame := 0x1000;
  Mapper := gmap Z (Z * list PageTableFlag);
  OffsetPageTable_new _ _ := ∅;
  map_to p f fl m fa :=
    match m !! p with
    | Some _ => Ret (inl PageAlreadyMapped, m, fa)
    | None =>
      Ret (inr tt, <[p := (f, fl)]> m,
           mkFrameAllocator (memory_regions fa)
             (if p `mod` 2 ^ 21 =? 0 then next fa + 1 else next fa))
    end;
|}.

#[export] Program Instance lawful : LawfulX86 x86 := {|
  translate m p := (m : gmap Z (Z * list PageTableFlag)) !! p;
  huge _ _ := false;
|}.
Next Obligation. intros a Ha. simpl. by rewrite decide_True. Qed.
Next Obligation. done. Qed.
Next Obligation. intros a Ha. simpl. unfold checked. by rewrite decide_True. Qed.
Next Obligation. intros a n Ha Hn Hs. simpl. unfold checked. by rewrite decide_True. Qed.
Next Obligation. intros a n Ha Hn Hs. simpl. unfold checked. by rewrite decide_True. Qed.
Next Obligation. done. Qed.
Next Obligation. done. Qed.
Next Obligation.
  intros p f fl m fa Hok Ht _ Hn Hfit Hmax. simpl in *. rewrite Ht. do 2 eexists.
  split; [done|]. split; [case_match; lia|].
  split; [apply lookup_insert_eq|]. split; [|done]. intros q Hq. by apply lookup_insert_ne.
Qed.

Definition regions : list MemoryRegion :=
  [mkRegion 0 0x100000 NotUsable; mkRegion 0x100000 0x900000 Usable].

Lemma regions_ok : memory_map_ok regions.
Proof.
  split.
  - intros r Hr. unfold regions in Hr. set_unfold in Hr. destruct Hr as [-> |[-> |[]]]; [done|].
    intros _. by vm_compute.
  - intros i j r1 r2 Hi Hj Hlt Hk1 Hk2. destruct i as [|[|i]]; simpl in Hi; simplify_eq.
    destruct j as [|[|j]]; simpl in Hj; simplify_eq; lia.
Qed.
End DemoMachine.

Lemma frames_distinct_and_usable_witness :
  exists l fa', @allocate_n dev DemoMachine.x86 3 (BootInfoFrameAllocator_init DemoMachine.regions) = Ret (l, fa') /\
    NoDup (omap id l) /\ l = [Some 0x100000; Some 0x101000; Some 0x102000].
Proof.
  destruct (frames_distinct_and_usable (Pr := dev) (L := DemoMachine.lawful) DemoMachine.regions 3)
    as (l & fa' & E & _ & Hnd & _); [exact DemoMachine.regions_ok|done|].
  exists l, fa'. split_and!; [done|done|]. vm_compute in E. by simplify_eq.
Defined.

Lemma memory_init_maps_heap_witness :
  exists m', @memory_init dev DemoMachine.x86 (Some 0xFFFF800000000000) DemoMachine.regions
               = Ret (m', (HEAP_START, 512 * 4096)) /\
    is_Some ((m' : gmap Z (Z * list PageTableFlag)) !! HEAP_START).
Proof.
  destruct (memory_init_maps_heap (Pr := dev) (L := DemoMachine.lawful) DemoMachine.regions
    0xFFFF800000000000 ∅) as (_ & m' & frame & E & Hm & _).
  - exact DemoMachine.regions_ok.
  - by right.
  - by vm_compute.
  - by vm_compute.
  - done.
  - exists m'. split; [done|]. destruct (Hm 0 ltac:(lia)) as [H0 _].
    rewrite Z.add_0_r in H0. by eexists.
Defined.
