(* ===== verification/Acpi.v ===== *)
(** * ACPI ([drivers/acpi_driver.rs])

    The mapping of physical regions for the [acpi] crate, and the search for
    the tables. *)

From S2P Require Import Prelude Kernel Memory.

Record KernelAcpiHandler := mkAcpiHandler { physical_memory_offset : Z }.

Definition KernelAcpiHandler_new (offset : Z) : KernelAcpiHandler := mkAcpiHandler offset.

(** [acpi::PhysicalMapping]. *)
Record PhysicalMapping := mkMapping {
  physical_start : Z; virtual_start : Z; region_length : Z; mapped_length : Z;
  map_handler : KernelAcpiHandler }.

(** The parser of the [acpi] crate, and the text of its errors. *)
Class AcpiCrate := {
  AcpiTables : Type;
  AcpiError : Type;
  AcpiError_debug : AcpiError -> list Z;
  from_rsdp : KernelAcpiHandler -> Z -> outcome (sum AcpiError AcpiTables);
}.

Section acpi.
Context `{Pr : Profile} {A : AcpiCrate}.

Definition map_physical_region (self : KernelAcpiHandler) (physical_address size : Z) :
    outcome PhysicalMapping :=
  virt ← add_u 64 physical_address (physical_memory_offset self);
  (* [NonNull::new(virt).expect(..)] *)
  if virt =? 0 then Panic
  else Ret (mkMapping physical_address virt size size self).

(** Nothing to unmap. *)
Definition unmap_physical_region (region : PhysicalMapping) : unit := tt.

(** [init]: the tables, and the lines logged. *)
Definition acpi_init (rsdp_addr : option Z) (offset : Z) : outcome (option AcpiTables * list Io) :=
  match rsdp_addr with
  | None => Ret (None, [])
  | Some rsdp =>
    let handler := KernelAcpiHandler_new offset in
    r ← from_rsdp handler rsdp;
    match r with
    | inr tables => Ret (Some tables, [Com1 (lit "[ACPI] Tables parsed successfully" ++ [10])])
    | inl e => Ret (None, [Com1 (lit "[ACPI] Failed to parse tables: " ++ AcpiError_debug e ++ [10])])
    end
  end.

(** The handler maps a region where the offset mapping of [paging.rs] finds it:
    translating the address back gives the region's.  It panics exactly when
    the sum leaves the 64-bit space with overflow checks on, or is the null
    pointer. *)
Lemma map_physical_region_spec h pa size :
  is_u64 pa -> is_u64 (physical_memory_offset h) ->
  match map_physical_region h pa size with
  | Ret m =>
    physical_start m = pa /\ region_length m = size /\ mapped_length m = size /\ map_handler m = h /\
    virtual_start m <> 0 /\ is_u64 (virtual_start m) /\
    virtual_start m = wrap 64 (pa + physical_memory_offset h) /\
    (pa + physical_memory_offset h < 2 ^ 64 ->
     phys_from_virt (virtual_start m) (physical_memory_offset h) = Some pa)
  | Panic =>
    (overflow_checks = true /\ 2 ^ 64 <= pa + physical_memory_offset h) \/
    wrap 64 (pa + physical_memory_offset h) = 0
  end.
Proof.
  intros Hp Ho. unfold map_physical_region, add_u, is_u in *. set (s := pa + physical_memory_offset h) in *.
  destruct (decide (s < 2 ^ 64)) as [Hs|Hs].
  - rewrite in_width_ok by (split; lia). cbn [mbind outcome_bind]. rewrite wrap_id by (split; lia).
    destruct (Z.eqb_spec s 0); [by right|]. simpl. split_and!; try (done || lia). intros _.
    unfold phys_from_virt. case_match; [f_equal|]; lia.
  - unfold in_width. rewrite decide_False by (unfold is_u; lia).
    destruct overflow_checks; [left; split; [done|lia]|]. cbn [mbind outcome_bind].
    destruct (Z.eqb_spec (wrap 64 s) 0) as [E|]; [by right|]. simpl.
    pose proof (wrap_range 64 s ltac:(lia)). unfold is_u in *. split_and!; done || lia.
Qed.

End acpi.
