(* ===== verification/Arch.v ===== *)
(** * Descriptor tables and interrupt controllers ([arch/x86_64/])

    [gdt::init], [idt::init] and [init_pics]: the segments, the stacks of the
    critical exceptions, the gates, and the interrupt lines left open. *)

From S2P Require Import Prelude Kernel Interrupts Memory.

Definition DOUBLE_FAULT_IST_INDEX : Z := 0.
Definition GPF_IST_INDEX : Z := 1.
Definition IST_STACK_SIZE : Z := 4096 * 5.

(** The field of the task state segment that is set. *)
Record TaskStateSegment := mkTss { interrupt_stack_table : list Z }.

(** ** The crates

    Segment descriptors and the table that holds them are the [x86_64]
    crate's; the interrupt controllers are [pic8259]'s. *)

Class SegmentTables := {
  Descriptor : Type;
  kernel_code_segment : Descriptor;
  kernel_data_segment : Descriptor;
  user_data_segment : Descriptor;
  user_code_segment : Descriptor;
  tss_segment : TaskStateSegment -> Descriptor;
  TaskStateSegment_new : TaskStateSegment;
  GlobalDescriptorTable : Type;
  GlobalDescriptorTable_new : GlobalDescriptorTable;
  (** [append] returns the selector of the descriptor *)
  append : GlobalDescriptorTable -> Descriptor -> outcome (GlobalDescriptorTable * Z);
}.

Class PicCrate := {
  ChainedPics : Type;
  ChainedPics_new : Z -> Z -> ChainedPics;
  initialize : ChainedPics -> ChainedPics;
  write_masks : Z -> Z -> ChainedPics -> ChainedPics;
}.

(** ** The statics and the registers *)

Record Selectors := mkSelectors {
  kernel_code : Z; kernel_data : Z; user_code : Z; user_data : Z; tss_selector : Z }.

Record GdtHolder `{S : SegmentTables} := mkHolder {
  gdt : GlobalDescriptorTable; selectors : Selectors }.

(** A gate: the handler, the interrupt stack (none: the current one), and the
    code segment it runs in. *)
Record Gate := mkGate { g_handler : Handler; g_stack : option Z; g_cs : Z }.

(** The [Once] statics, empty until the first call, and the registers. *)
Record Arch `{S : SegmentTables} := mkArch {
  TSS : option TaskStateSegment;
  GDT : option GdtHolder;
  IDT : option (gmap Z Gate);
  gdtr : option GlobalDescriptorTable;
  idtr : option (gmap Z Gate);
  cs : Z; ds : Z; tr : Z }.

Section arch.
Context {S : SegmentTables} {X : X86}.

(** The addresses the linker gives to the two stacks. *)
Context (DOUBLE_FAULT_STACK GPF_STACK : Z).

(** ** [gdt.rs] *)

(** [tss.interrupt_stack_table[i] = v]. *)
Definition set_stack (tss : TaskStateSegment) (i v : Z) : outcome TaskStateSegment :=
  if decide (0 <= i < zlen (interrupt_stack_table tss))
  then Ret (mkTss (<[Z.to_nat i := v]> (interrupt_stack_table tss))) else Panic.

Definition build_tss : outcome TaskStateSegment :=
  stack_start ← VirtAddr_new DOUBLE_FAULT_STACK;
  top ← VirtAddr_add stack_start IST_STACK_SIZE;
  tss ← set_stack TaskStateSegment_new DOUBLE_FAULT_IST_INDEX top;
  stack_start ← VirtAddr_new GPF_STACK;
  top ← VirtAddr_add stack_start IST_STACK_SIZE;
  set_stack tss GPF_IST_INDEX top.

Definition build_gdt (tss : TaskStateSegment) : outcome GdtHolder :=
  r ← append GlobalDescriptorTable_new kernel_code_segment;
  let '(g, kcode) := r in
  r ← append g kernel_data_segment;
  let '(g, kdata) := r in
  r ← append g user_data_segment;
  let '(g, udata) := r in
  r ← append g user_code_segment;
  let '(g, ucode) := r in
  r ← append g (tss_segment tss);
  let '(g, tss_sel) := r in
  Ret (mkHolder _ g (mkSelectors kcode kdata ucode udata tss_sel)).

(** [Once::call_once]. *)
Definition call_once {A} (o : option A) (f : outcome A) : outcome A :=
  match o with Some a => Ret a | None => f end.

Definition gdt_init (a : Arch) : outcome Arch :=
  tss ← call_once (TSS a) build_tss;
  holder ← call_once (GDT a) (build_gdt tss);
  Ret (mkArch _ (Some tss) (Some holder) (IDT a) (Some (gdt holder)) (idtr a)
         (kernel_code (selectors holder)) (kernel_data (selectors holder))
         (tss_selector (selectors holder))).

Definition kernel_code_selector (a : Arch) : outcome Z :=
  holder ← unwrap (GDT a); Ret (kernel_code (selectors holder)).

(** ** [idt.rs] *)

(** [set_stack_index]. *)
Definition stack_index (v : Z) : option Z :=
  if v =? 8 then Some DOUBLE_FAULT_IST_INDEX
  else if v =? 13 then Some GPF_IST_INDEX else None.

(** [set_handler_fn] stores the code segment of the moment. *)
Definition build_idt (cs : Z) : gmap Z Gate :=
  list_to_map ((fun '(v, h) => (v, mkGate h (stack_index v) cs)) <$> idt_entries).

Definition idt_init (a : Arch) : Arch :=
  let idt := match IDT a with Some i => i | None => build_idt (cs a) end in
  mkArch _ (TSS a) (GDT a) (Some idt) (gdtr a) (Some idt) (cs a) (ds a) (tr a).

End arch.

(** ** [interrupts.rs] *)

(** [!x] on [u8]. *)
Definition not_u8 (x : Z) : Z := 255 - x.

Definition primary_mask : Z :=
  Z.land 0xFF (not_u8 (Z.lor (Z.lor (Z.shiftl 1 0) (Z.shiftl 1 1)) (Z.shiftl 1 2))).
Definition secondary_mask : Z := 0xFF.

Definition PICS `{C : PicCrate} : ChainedPics := ChainedPics_new PIC_1_OFFSET PIC_2_OFFSET.

Definition init_pics `{C : PicCrate} (pics : ChainedPics) : ChainedPics :=
  write_masks primary_mask secondary_mask (initialize pics).

(** ** What the crates document

    A table of 8 entries starts with the null descriptor; a descriptor takes
    one entry, the one of a task state segment two, and its selector is its
    index with the privilege level of its segment.  [entry] is the descriptor
    at an index. *)

Class LawfulSegments (S : SegmentTables) := {
  entry : GlobalDescriptorTable -> Z -> option Descriptor;
  entries : GlobalDescriptorTable -> Z;
  privilege : Descriptor -> Z;
  size : Descriptor -> Z;
  tss_zeroed : interrupt_stack_table TaskStateSegment_new = replicate 7 0;
  entries_new : entries GlobalDescriptorTable_new = 1;
  segment_facts :
    (size kernel_code_segment = 1 /\ privilege kernel_code_segment = 0) /\
    (size kernel_data_segment = 1 /\ privilege kernel_data_segment = 0) /\
    (size user_data_segment = 1 /\ privilege user_data_segment = 3) /\
    (size user_code_segment = 1 /\ privilege user_code_segment = 3) /\
    (forall t, size (tss_segment t) = 2 /\ privilege (tss_segment t) = 0);
  append_spec g d : entries g + size d <= 8 ->
    exists g', append g d = Ret (g', Z.lor (Z.shiftl (entries g) 3) (privilege d)) /\
      entries g' = entries g + size d /\ entry g' (entries g) = Some d /\
      (forall i, i < entries g -> entry g' i = entry g i);
}.

(** The remapped controllers raise line [n] of the first at its offset plus
    [n], of the second, which is wired to line 2 of the first, at its offset
    plus [n - 8], unless the line is masked. *)
Class LawfulPics (C : PicCrate) := {
  raised : ChainedPics -> Z -> option Z;
  raised_spec o1 o2 m1 m2 n : 0 <= n < 16 ->
    raised (write_masks m1 m2 (initialize (ChainedPics_new o1 o2))) n =
      if n <? 8 then if Z.testbit m1 n then None else Some (o1 + n)
      else if Z.testbit m1 2 || Z.testbit m2 (n - 8) then None else Some (o2 + (n - 8));
}.

(** ** After initialisation *)

Section spec.
Context {S : SegmentTables} {L : LawfulSegments S} `{Pr : Profile} {X : X86} {LX : LawfulX86 X}.
Context (DOUBLE_FAULT_STACK GPF_STACK : Z).

(** Where a stack can be: its two ends are canonical addresses.  The linker
    script puts the statics at 0xFFFFFFFF80000000 and up. *)
Definition placed (a : Z) : Prop := canonical a /\ canonical (a + IST_STACK_SIZE).

Lemma set_stack_ok tss i v :
  0 <= i < zlen (interrupt_stack_table tss) ->
  set_stack tss i v = Ret (mkTss (<[Z.to_nat i := v]> (interrupt_stack_table tss))).
Proof. intros Hi. unfold set_stack. by rewrite decide_True. Qed.

Lemma build_tss_spec :
  placed DOUBLE_FAULT_STACK -> placed GPF_STACK ->
  build_tss DOUBLE_FAULT_STACK GPF_STACK
  = Ret (mkTss ([DOUBLE_FAULT_STACK + IST_STACK_SIZE; GPF_STACK + IST_STACK_SIZE] ++ replicate 5 0)).
Proof.
  intros [Hd Hd'] [Hg Hg']. unfold build_tss. rewrite (virt_new DOUBLE_FAULT_STACK) by done.
  cbn [mbind outcome_bind]. rewrite (virt_add DOUBLE_FAULT_STACK) by done.
  cbn [mbind outcome_bind]. rewrite set_stack_ok by (by rewrite tss_zeroed).
  cbn [mbind outcome_bind]. rewrite (virt_new GPF_STACK) by done. cbn [mbind outcome_bind].
  rewrite (virt_add GPF_STACK) by done. cbn [mbind outcome_bind].
  by rewrite tss_zeroed, set_stack_ok.
Qed.

Lemma build_gdt_spec t :
  exists g, build_gdt t = Ret (mkHolder _ g (mkSelectors 0x08 0x10 0x23 0x1B 0x28)) /\
    entry g 1 = Some kernel_code_segment /\ entry g 2 = Some kernel_data_segment /\
    entry g 3 = Some user_data_segment /\ entry g 4 = Some user_code_segment /\
    entry g 5 = Some (tss_segment t).
Proof.
  destruct segment_facts as ([S1 P1] & [S2 P2] & [S3 P3] & [S4 P4] & Ht).
  destruct (Ht t) as [S5 P5]. pose proof entries_new as E0. unfold build_gdt.
  destruct (append_spec GlobalDescriptorTable_new kernel_code_segment) as (g1 & -> & E1 & N1 & O1); [lia|].
  cbn [mbind outcome_bind].
  destruct (append_spec g1 kernel_data_segment) as (g2 & -> & E2 & N2 & O2); [lia|]. cbn [mbind outcome_bind].
  destruct (append_spec g2 user_data_segment) as (g3 & -> & E3 & N3 & O3); [lia|]. cbn [mbind outcome_bind].
  destruct (append_spec g3 user_code_segment) as (g4 & -> & E4 & N4 & O4); [lia|]. cbn [mbind outcome_bind].
  destruct (append_spec g4 (tss_segment t)) as (g5 & -> & E5 & N5 & O5); [lia|]. cbn [mbind outcome_bind].
  assert (entries g1 = 2 /\ entries g2 = 3 /\ entries g3 = 4 /\ entries g4 = 5) as (F1 & F2 & F3 & F4) by lia.
  rewrite E0, F1, F2, F3, F4 in *. rewrite P1, P2, P3, P4, P5. exists g5. split; [done|].
  split_and!; [rewrite O5, O4, O3, O2 by lia|rewrite O5, O4, O3 by lia|rewrite O5, O4 by lia|rewrite O5 by lia|];
    done.
Qed.

(** A map of an association list, by key. *)
Lemma lookup_assoc_fmap {A B} (f : Z -> A -> B) (l : list (Z * A)) v :
  (list_to_map ((fun '(v, h) => (v, f v h)) <$> l) : gmap Z B) !! v
  = f v <$> (list_to_map l : gmap Z A) !! v.
Proof.
  induction l as [|[w h] l IH]; [done|]. rewrite fmap_cons. cbn [list_to_map foldr uncurry].
  simpl. destruct (decide (w = v)) as [->|Hne]; [by rewrite !lookup_insert_eq|].
  by rewrite !lookup_insert_ne.
Qed.

Lemma build_idt_lookup c v :
  build_idt c !! v = (fun h => mkGate h (stack_index v) c) <$> idt !! v.
Proof. exact (lookup_assoc_fmap (fun v h => mkGate h (stack_index v) c) idt_entries v). Qed.

(** C20: From empty statics, the two interrupt stacks being at canonical
    addresses, [gdt::init] followed by [idt::init] does not panic
    (the descriptors fit the table) and leaves a consistent machine: the code,
    data and task registers select the kernel's code, its data and the task
    state segment in the loaded table; every gate leads to the handler of its
    vector and runs in that code segment; the double fault and the general
    protection fault, and no other vector, run on the top of their own stacks.
    [kernel_code_selector] gives the code register, and panics before the
    initialisation; a second initialisation changes nothing. *)
Theorem descriptor_tables_consistent (a : Arch) :
  placed DOUBLE_FAULT_STACK -> placed GPF_STACK -> TSS a = None -> GDT a = None -> IDT a = None ->
  kernel_code_selector a = Panic /\
  exists a1 g t i, gdt_init DOUBLE_FAULT_STACK GPF_STACK a = Ret a1 /\
  let a2 := idt_init a1 in
  gdtr a2 = Some g /\ idtr a2 = Some i /\
  entry g (cs a2 / 8) = Some kernel_code_segment /\ entry g (ds a2 / 8) = Some kernel_data_segment /\
  entry g (tr a2 / 8) = Some (tss_segment t) /\
  (forall v, g_handler <$> i !! v = idt !! v) /\
  (forall v gate, i !! v = Some gate -> g_cs gate = cs a2 /\
     match g_stack gate with
     | Some k => v = 8 /\ interrupt_stack_table t !! Z.to_nat k = Some (DOUBLE_FAULT_STACK + IST_STACK_SIZE) \/
                 v = 13 /\ interrupt_stack_table t !! Z.to_nat k = Some (GPF_STACK + IST_STACK_SIZE)
     | None => v <> 8 /\ v <> 13
     end) /\
  kernel_code_selector a2 = Ret (cs a2) /\
  gdt_init DOUBLE_FAULT_STACK GPF_STACK a2 = Ret a2 /\ idt_init a2 = a2.
Proof.
  intros Hd Hg HT HG HI. split; [unfold kernel_code_selector; by rewrite HG|].
  unfold gdt_init at 1. rewrite HT, HG. unfold call_once at 1. rewrite build_tss_spec by done.
  cbn [mbind outcome_bind call_once]. set (t := mkTss _).
  destruct (build_gdt_spec t) as (g & -> & G1 & G2 & G3 & G4 & G5). cbn [mbind outcome_bind].
  do 4 eexists. split; [reflexivity|]. unfold idt_init. cbn [TSS GDT IDT gdtr idtr cs ds tr]. rewrite HI.
  split_and!; try reflexivity; [exact G1|exact G2|exact G5| |].
  - intros v. rewrite build_idt_lookup. by destruct (idt !! v).
  - intros v gate. rewrite build_idt_lookup. intros (h & _ & ->)%fmap_Some.
    split; [done|]. simpl. unfold stack_index. destruct (Z.eqb_spec v 8) as [->|]; [by left|].
    destruct (Z.eqb_spec v 13) as [->|]; [by right|done].
Qed.

End spec.

(** After [init_pics] exactly the lines of the timer, the keyboard and the
    cascade are open; they arrive as vectors 0x20, 0x21 and 0x22, whose gates
    hold their handlers. *)
Theorem irq_lines_open `{C : PicCrate} {LP : LawfulPics C} n v :
  0 <= n < 16 ->
  raised (init_pics PICS) n = Some v <->
  exists i h, (n, i, h) ∈ [(0, Timer, timer_interrupt_handler); (1, Key, keyboard_interrupt_handler);
                           (2, Cascade, cascade_interrupt_handler)] /\
    v = as_vector i /\ idt !! v = Some h.
Proof.
  intros Hn. unfold init_pics, PICS. rewrite raised_spec by done. split.
  - intros E. assert (n = 0 \/ n = 1 \/ n = 2 \/ 3 <= n) as [-> |[-> |[-> |Hge]]] by lia.
    + injection E as <-. exists Timer, timer_interrupt_handler. split_and!; [by left|done|by vm_compute].
    + injection E as <-. exists Key, keyboard_interrupt_handler.
      split_and!; [right; by left|done|by vm_compute].
    + injection E as <-. exists Cascade, cascade_interrupt_handler.
      split_and!; [do 2 right; by left|done|by vm_compute].
    + exfalso. assert (n ∈ seqZ 3 13) as Hin by (apply elem_of_seqZ; lia).
      clear Hn Hge. revert n Hin E. refine (proj1 (Forall_forall _ _) _). by repeat constructor.
  - intros (i & h & Hin & -> & _).
    repeat (apply elem_of_cons in Hin as [[= -> -> ->]|Hin]; [done|]). by apply not_elem_of_nil in Hin.
Qed.

(** ** A concrete machine *)

Module DemoArch.

Inductive descriptor := KCode | KData | UData | UCode | Task (t : TaskStateSegment).

Definition slots (d : descriptor) : list (option descriptor) :=
  match d with Task _ => [Some d; None] | _ => [Some d] end.
Definition level (d : descriptor) : Z := match d with UData | UCode => 3 | _ => 0 end.

#[export] Instance segments : SegmentTables := {|
  Descriptor := descriptor;
  kernel_code_segment := KCode; kernel_data_segment := KData;
  user_data_segment := UData; user_code_segment := UCode; tss_segment := Task;
  TaskStateSegment_new := mkTss (replicate 7 0);
  GlobalDescriptorTable := list (option descriptor);
  GlobalDescriptorTable_new := [None];
  append g d :=
    if decide (zlen g + zlen (slots d) <= 8)
    then Ret (g ++ slots d, Z.lor (Z.shiftl (zlen g) 3) (level d)) else Panic;
|}.

#[export] Program Instance segments_lawful : LawfulSegments segments := {|
  entry g i := mjoin (zget (g : list (option descriptor)) i);
  entries g := zlen (g : list (option descriptor));
  privilege := level;
  size d := zlen (slots d);
|}.
Next Obligation. done. Qed.
Next Obligation. done. Qed.
Next Obligation. done. Qed.
Next Obligation.
  intros g d Hfit. simpl in *. rewrite decide_True by done. eexists. split; [done|].
  rewrite zlen_app. split; [done|]. split.
  - rewrite zget_lookup by (rewrite zlen_app; destruct d; unfold zlen; simpl; lia).
    unfold zlen. rewrite Nat2Z.id, lookup_app_r, Nat.sub_diag by lia. by destruct d.
  - intros i Hi. destruct (decide (0 <= i)) as [H0|H0].
    + rewrite !zget_lookup by (rewrite ?zlen_app; pose proof (zlen_nonneg (slots d)); lia).
      rewrite lookup_app_l by (unfold zlen in *; lia). done.
    + by rewrite !(proj2 (zget_None _ _)) by lia.
Qed.

Record pics := mkPics { off1 : Z; off2 : Z; mask1 : Z; mask2 : Z }.

#[export] Instance controllers : PicCrate := {|
  ChainedPics := pics;
  ChainedPics_new o1 o2 := mkPics o1 o2 0xFF 0xFF;
  initialize p := p;
  write_masks m1 m2 p := mkPics (off1 p) (off2 p) m1 m2;
|}.

#[export] Program Instance controllers_lawful : LawfulPics controllers := {|
  raised p n :=
    if n <? 8 then if Z.testbit (mask1 p) n then None else Some (off1 p + n)
    else if Z.testbit (mask1 p) 2 || Z.testbit (mask2 p) (n - 8) then None
    else Some (off2 p + (n - 8));
|}.
Next Obligation. done. Qed.

(** Two statics of the kernel. *)
Definition stack_1 : Z := 0xFFFFFFFF80200000.
Definition stack_2 : Z := stack_1 + IST_STACK_SIZE.

Definition reset : Arch := mkArch _ None None None None None 0 0 0.

End DemoArch.

Lemma descriptor_tables_consistent_witness :
  exists a1, @gdt_init DemoArch.segments DemoMachine.x86 DemoArch.stack_1 DemoArch.stack_2 DemoArch.reset = Ret a1 /\
    cs a1 = 0x08 /\ tr a1 = 0x28.
Proof.
  destruct (descriptor_tables_consistent (L := DemoArch.segments_lawful) (Pr := dev) (X := DemoMachine.x86) (LX := DemoMachine.lawful)
    DemoArch.stack_1 DemoArch.stack_2 DemoArch.reset) as (_ & a1 & g & t & i & E & _); [by split; right..|done|done|done|].
  exists a1. split; [exact E|]. vm_compute in E. by simplify_eq.
Defined.

Lemma irq_lines_open_witness :
  @raised _ DemoArch.controllers_lawful (init_pics PICS) 1 = Some 0x21.
Proof.
  apply (irq_lines_open (LP := DemoArch.controllers_lawful) 1 0x21); [done|].
  exists Key, keyboard_interrupt_handler. split_and!; [right; by left|done|by vm_compute].
Defined.
