(* ===== verification/Boot.v ===== *)
(** * Boot ([main.rs])

    [kernel_main] in the order it initialises the subsystems, down to the
    shell, and the panic handler.  The initialisation of
    each subsystem is the definition of its file; [interrupts::enable] opens
    the door to the interrupts: what follows it is also a task. *)

From S2P Require Import Prelude RustStr KeyBuffer Mem Vga Kernel Signal Scheduler Keyboard Interrupts Process Syscall Lifecycle Preempt ExitWait Files Safety SafeCalls Interleaving Shell ShellSpec ShellPreempt Pci Memory Arch.

(** ** The bootloader

    The crate [bootloader_api]: a configuration the kernel leaves in its image
    and the [BootInfo] the bootloader passes for it. *)

(** The part of [BootInfo] the kernel uses. *)
Record BootInfo := mkBootInfo { physical_memory_offset : option Z; boot_regions : list MemoryRegion }.

Inductive Mapping := Dynamic | FixedAddress (a : Z).

Class Bootloader := {
  BootloaderConfig : Type;
  new_default : BootloaderConfig;
  physical_memory : BootloaderConfig -> option Mapping;
  with_physical_memory : option Mapping -> BootloaderConfig -> BootloaderConfig;
  hands_over : BootloaderConfig -> BootInfo -> Prop;
}.

(** As documented: physical memory is not mapped by default, and the offset of
    its mapping is passed exactly when the configuration asks for it. *)
Class LawfulBootloader (B : Bootloader) : Prop := {
  physical_memory_with o c : physical_memory (with_physical_memory o c) = o;
  physical_memory_default : physical_memory new_default = None;
  offset_handed_over c info : hands_over c info ->
    is_Some (physical_memory_offset info) <-> is_Some (physical_memory c);
}.

Definition BOOTLOADER_CONFIG {B : Bootloader} : BootloaderConfig :=
  with_physical_memory (Some Dynamic) new_default.

Section boot.
Context `{Pl : Platform} `{Pr : Profile} {X : X86} {H : HostBridge}.
Context {S : SegmentTables} {C : PicCrate} (DOUBLE_FAULT_STACK GPF_STACK : Z).

Definition vga_init : M unit := with_writer Vga.clear.

(** What a subsystem logs. *)
Definition emit (l : list Io) : M unit := modify (fun k => foldl (fun k e => add_io e k) k l).

(** Steps 1 to 7 of [kernel_main], with interrupts disabled, on the descriptor
    tables' statics and the registers of the CPU [a]; the result is them and
    the controllers. *)
Definition setup (info : BootInfo) (s : Bus) (a : Arch) : M (Arch * ChainedPics) :=
  _ ← serial_init;
  _ ← serial_println (10 :: lit "[BOOT] ComputeKERNEL v1.0.0 booting...");
  _ ← vga_init;
  _ ← kprintln (lit "ComputeKERNEL v1.0.0");
  _ ← serial_println (lit "[BOOT] Initializing GDT...");
  a ← lift (gdt_init DOUBLE_FAULT_STACK GPF_STACK a);
  _ ← serial_println (lit "[OK]   GDT initialized");
  _ ← serial_println (lit "[BOOT] Initializing IDT...");
  let a := idt_init a in
  _ ← serial_println (lit "[OK]   IDT initialized");
  _ ← serial_println (lit "[BOOT] Initializing PIC...");
  let pics := init_pics PICS in
  _ ← serial_println (lit "[OK]   PIC initialized");
  _ ← serial_println (lit "[BOOT] Initializing memory management...");
  _ ← lift (memory_init (physical_memory_offset info) (boot_regions info));
  _ ← serial_println (lit "[OK]   Memory management initialized");
  _ ← serial_println (lit "[BOOT] Initializing PCI bus...");
  r ← lift (pci_init s);
  _ ← emit r.1;
  _ ← serial_println (lit "[OK]   PCI bus enumerated");
  _ ← serial_println (lit "[BOOT] Initializing keyboard...");
  _ ← Keyboard.init;
  _ ← serial_println (lit "[OK]   Keyboard initialized");
  _ ← serial_println (lit "[BOOT] Initializing scheduler...");
  _ ← process_init;
  _ ← serial_println (lit "[OK]   Scheduler initialized");
  mret (a, pics).

Definition enabled_message : list Z := lit "[OK]   Interrupts enabled".
Definition ready_message : list Z :=
  lit "[BOOT] ComputeKERNEL v1.0.0 ready " ++ [0xE2; 0x80; 0x94] ++ lit " starting shell".

(** Steps 1 to 8. *)
Definition boot (info : BootInfo) (s : Bus) (a : Arch) : M (Arch * ChainedPics) :=
  r ← setup info s a;
  _ ← serial_println enabled_message;
  _ ← serial_println ready_message;
  mret r.

(** [kernel_main], with the turns of the shell and of its waiting loops counted. *)
Definition kernel_main (info : BootInfo) (s : Bus) (a : Arch) (turns fuel : nat) : M unit :=
  _ ← boot info s a; shell_main turns fuel.

(** What [kernel_main] does once interrupts are enabled, section by section. *)
Definition enabled_task (turns fuel : nat) : task unit :=
  serial_println enabled_message;;
  serial_println ready_message;;
  shell_main_task turns fuel.

(** The panic handler, given the text of the [PanicInfo]. *)
Definition panic_handler (msg : list Z) : M unit :=
  _ ← interrupts_disable;
  _ ← serial_println (10 :: lit "[PANIC] " ++ msg);
  _ ← kprintln (10 :: lit "KERNEL PANIC: " ++ msg);
  halt_forever.

End boot.

(** ** The boot runs through *)

(** A machine the kernel can run on, with physical memory mapped at [offset]:
    a valid memory map with enough frames, and the heap's pages free. *)
Definition machine_ok `{Pr : Profile} {X : X86} {L : LawfulX86 X} (info : BootInfo) (offset : Z) : Prop :=
  exists m, canonical offset /\
    memory_map_ok (boot_regions info) /\ paging_init offset = Ret m /\
    2048 <= zlen (usable_addresses (BootInfoFrameAllocator_init (boot_regions info))) < 2 ^ 63 /\
    (forall i, 0 <= i < 512 -> translate m (HEAP_START + 4096 * i) = None /\
                               huge m (HEAP_START + 4096 * i) = false).

Definition bootable `{Pr : Profile} {X : X86} {L : LawfulX86 X} (info : BootInfo) : Prop :=
  exists offset, physical_memory_offset info = Some offset /\ machine_ok info offset.

(** The configuration of the kernel is what makes a machine bootable: with the
    default one the memory initialisation panics. *)
Lemma config_bootable `{Pr : Profile} {X : X86} {L : LawfulX86 X} {B : Bootloader}
    {LB : LawfulBootloader B} info :
  hands_over BOOTLOADER_CONFIG info ->
  (forall offset, physical_memory_offset info = Some offset -> machine_ok info offset) -> bootable info.
Proof.
  intros Hh Hm. destruct (proj2 (offset_handed_over _ _ Hh)) as [offset Ho].
  - unfold BOOTLOADER_CONFIG. by rewrite physical_memory_with.
  - exists offset. auto.
Qed.

Lemma default_config_panics `{Pr : Profile} {X : X86} {B : Bootloader} {LB : LawfulBootloader B} info :
  hands_over new_default info ->
  memory_init (physical_memory_offset info) (boot_regions info) = Panic.
Proof.
  intros Hh. destruct (physical_memory_offset info) eqn:E; [|done].
  destruct (proj1 (offset_handed_over _ _ Hh)) as [m Hm]; [by rewrite E|].
  by rewrite physical_memory_default in Hm.
Qed.

Section runs.
Context `{Pl : Platform} `{Pr : Profile} {X : X86} {L : LawfulX86 X}.
Context {H : HostBridge} {config : Bus -> Z -> Z -> Z -> Z -> Z} {Hm : Mechanism1 config}.
Context {S : SegmentTables} {LS : LawfulSegments S} {C : PicCrate}.
Context (DOUBLE_FAULT_STACK GPF_STACK : Z) (D : gset Z).

(** The statics the steps before the scheduler leave alone. *)
Definition core (k : Kernel) :=
  (PROCESS_TABLE k, NEXT_PID k, TICK k, CURRENT_PID k, FD_TABLE k, KEY_BUFFER k).

(** [m] returns, and takes states with the core [c] to states with the core [c']. *)
Definition runs {A} (m : M A) (c c' : list Process * Z * Z * Z * list (option OpenFile) * KeyBuffer) :
    Prop :=
  forall k, ok D k -> core k = c -> exists a k', m k = Done a k' /\ ok D k' /\ core k' = c'.

Lemma runs_bind {A B} (m : M A) (f : A -> M B) c c1 c' :
  runs m c c1 -> (forall a, runs (f a) c1 c') -> runs (m ≫= f) c c'.
Proof.
  intros H1 H2 k Hk Hc. destruct (H1 k Hk Hc) as (a & k1 & E & Hk1 & Hc1).
  unfold mbind, M_bind. rewrite E. by apply H2.
Qed.

Lemma runs_serial bs c : runs (serial_println bs) c c.
Proof. intros k Hk Hc. do 2 eexists. split; [done|]. split; [by apply ok_add_io|done]. Qed.

Lemma runs_serial_init c : runs serial_init c c.
Proof. intros k Hk Hc. do 2 eexists. split; [done|]. split; [by apply ok_add_io|done]. Qed.

Lemma runs_screen (w : Kernel -> outcome (Writer * mem)) c :
  (forall k, ok D k -> exists w' m', w k = Ret (w', m') /\ Vga.inv w' /\ Vga.ready m' /\
                                      Vga.frame (memory k) m') ->
  runs (fun k => match w k with Ret (w, m) => Done tt (set_screen w m k) | Panic => Panicked k end) c c.
Proof.
  intros Hw k Hk Hc. destruct (Hw k Hk) as (w' & m' & E & Hi & Hr & Hf). rewrite E.
  do 2 eexists. split; [done|]. split; [by apply ok_set_screen|done].
Qed.

Lemma runs_kprintln s c : runs (kprintln s) c c.
Proof.
  apply (runs_screen (fun k => Vga.write_string (WRITER k) (memory k) (s ++ [10]))).
  intros k Hk. destruct (Vga.write_string_spec (WRITER k) (memory k) (s ++ [10]))
    as (w & m & E & Hw & Hr & Hf & _); [by apply Hk|by eapply ok_ready|eauto 10].
Qed.

Lemma runs_vga_init c : runs vga_init c c.
Proof.
  apply (runs_screen (fun k => Vga.clear (WRITER k) (memory k))). intros k Hk.
  destruct (Vga.clear_term_spec (WRITER k) (memory k)) as (w & m & E & Hw & Hr & Hf & _);
    [by apply Hk|by eapply ok_ready|eauto 10].
Qed.

Lemma runs_lift {A} (o : outcome A) c : is_ret o = true -> runs (lift o) c c.
Proof. destruct o as [a|]; [|done]. intros _ k Hk Hc. by exists a, k. Qed.

Lemma runs_emit l c : runs (emit l) c c.
Proof.
  intros k Hk Hc. do 2 eexists. split; [done|]. revert k Hk Hc.
  induction l as [|e l IH]; intros k Hk Hc; [done|]. simpl. apply IH; [by apply ok_add_io|done].
Qed.

Lemma runs_keyboard c : runs Keyboard.init c c.
Proof.
  intros k Hk Hc. unfold Keyboard.init, mbind, M_bind, read_port.
  destruct (Kernel.port_read _ _) as [v d]. do 2 eexists. split; [done|].
  split; [|done]. destruct Hk. by apply ok_set_input.
Qed.

Lemma memory_init_returns info :
  bootable info -> is_ret (memory_init (physical_memory_offset info) (boot_regions info)) = true.
Proof.
  intros (offset & -> & m & Ho & Hok & Hp & Hfit & Hfree).
  destruct (memory_init_spec _ offset m Hok Ho Hp Hfit Hfree) as (m' & fr & -> & _). done.
Qed.

Lemma pci_init_returns s : is_ret (pci_init s) = true.
Proof. unfold pci_init. destruct (enumerate_spec s) as (l & s' & -> & _). done. Qed.

Lemma gdt_init_returns (a : Arch) :
  placed DOUBLE_FAULT_STACK -> placed GPF_STACK ->
  is_ret (gdt_init DOUBLE_FAULT_STACK GPF_STACK a) = true.
Proof.
  intros Hd Hg. unfold gdt_init, call_once. rewrite build_tss_spec by done.
  destruct (TSS a), (GDT a) as [|]; cbn [mbind outcome_bind]; try done;
    (match goal with |- context [build_gdt ?t] => destruct (build_gdt_spec t) as (g & -> & _) end); done.
Qed.

Lemma runs_mret {A} (x : A) c : runs (mret x) c c.
Proof. intros k Hk Hc. by exists x, k. Qed.

Definition init_process : Process := mkProcess 1 0 (lit "init") Ready PNormal 0 0 0.

Lemma runs_process_init tick cur fds q :
  runs process_init ([], 1, tick, cur, fds, q) ([idle_process; init_process], 2, 0, 0, fds, q).
Proof.
  intros k Hk Hc. unfold core in Hc. injection Hc as Ht Hn _ _ Hf Hq. do 2 eexists.
  split; [reflexivity|]. split.
  - destruct Hk. split; try done. simpl. pose proof (zlen_nonneg (irqs k)). lia.
  - unfold core. simpl. by rewrite Ht, Hn, Hf, Hq.
Qed.

Lemma runs_setup info s a tick cur fds q :
  bootable info -> placed DOUBLE_FAULT_STACK -> placed GPF_STACK ->
  runs (setup DOUBLE_FAULT_STACK GPF_STACK info s a) ([], 1, tick, cur, fds, q) ([idle_process; init_process], 2, 0, 0, fds, q).
Proof.
  intros Hb Hdf Hgpf. unfold setup.
  repeat (eapply runs_bind;
    [first [apply runs_serial_init | apply runs_serial | apply runs_vga_init | apply runs_kprintln
           | apply runs_emit | apply runs_keyboard | apply runs_process_init
           | apply runs_lift; by (apply gdt_init_returns || apply memory_init_returns || apply pci_init_returns)]
    |intros ?]).
  apply runs_mret.
Qed.

(** Nothing is taken back from the log of the devices, and no interrupt of
    [irqs] is delivered before [kernel_main] waits. *)
Definition logs (k k' : Kernel) : Prop := trace k `prefix_of` trace k' /\ irqs k' = irqs k.

#[local] Instance logs_preorder : PreOrder logs.
Proof.
  split; [by intros k|]. intros k1 k2 k3 [H1 H2] [H3 H4]. split; [by etrans|congruence].
Qed.

Lemma logs_io e k : logs k (add_io e k).
Proof. split; [by apply prefix_app_r|done]. Qed.
Lemma logs_same k k' : trace k' = trace k -> irqs k' = irqs k -> logs k k'.
Proof. intros H1 H2. split; [by rewrite H1|done]. Qed.
#[local] Hint Resolve logs_io : moves.
#[local] Hint Extern 2 (logs _ _) => (by apply logs_same) : moves.

Lemma logs_emit l : moves logs (emit l).
Proof.
  intros k. unfold emit, modify. cbn [state_of]. revert k.
  induction l as [|e l IH]; intros k; [done|]. simpl. etrans; [apply logs_io|apply IH].
Qed.
Lemma logs_screen f : moves logs (with_writer f).
Proof. intros k. unfold with_writer. destruct (f _ _) as [[w m]|]; by apply logs_same. Qed.
Lemma logs_kprintln bs : moves logs (kprintln bs).
Proof.
  intros k. unfold kprintln, kprint. destruct (Vga.write_string _ _ _) as [[w m]|]; by apply logs_same.
Qed.
Lemma logs_keyboard : moves logs Keyboard.init.
Proof.
  intros k. unfold Keyboard.init, mbind, M_bind, read_port.
  destruct (Kernel.port_read _ _). by apply logs_same.
Qed.
Lemma logs_process_init : moves logs process_init.
Proof. intros k. by apply logs_same. Qed.
#[local] Hint Resolve logs_emit logs_screen logs_kprintln logs_keyboard logs_process_init : moves.

Lemma moves_done (R : relation Kernel) {A} (m : M A) k r k' : moves R m -> m k = Done r k' -> R k k'.
Proof. intros Hmv E. specialize (Hmv k). by rewrite E in Hmv. Qed.

(** The UART is programmed before anything is sent to it. *)
Lemma setup_logs info s a k r k' :
  setup DOUBLE_FAULT_STACK GPF_STACK info s a k = Done r k' -> trace k = [] ->
  head (trace k') = Some (UartInit COM1_PORT) /\ irqs k' = irqs k.
Proof.
  intros E Ht. unfold setup, vga_init in E.
  match type of E with (serial_init ≫= ?f) k = _ =>
    assert (f tt (add_io (UartInit COM1_PORT) k) = Done r k') as E' by exact E;
    assert (moves logs (f tt)) as Hlog end.
  { unfold serial_println, serial_print. cbv zeta. walk. }
  destruct (moves_done logs _ _ _ _ Hlog E') as [[l Hl] Hi]. simpl in Hl, Hi. rewrite Ht in Hl. split; [by rewrite Hl|done].
Qed.

(** C2: From the initial statics, with what the bootloader hands over for the
    kernel's configuration, the setup with interrupts disabled runs to its end:
    the UART is programmed before anything is sent to it, the idle process and
    init, PIDs 0 and 1, are in the table, PID 0 current, the next PID 2, the
    clock at 0, no file is open and no key queued.  From then on [kernel_main],
    which enables interrupts and goes into the shell, never panics, whatever is
    typed, for as long as fewer than [2^64] interrupts arrive, whether they are
    served while it waits or between any two of its sections, and it keeps the
    invariant under which no system call and no interrupt panics.  The machine
    has enough memory, the pages of the heap are not mapped yet, the mapping of
    physical memory and the interrupt stacks are at canonical addresses, the
    VGA text buffer is mapped at its physical address, and allocations
    succeed. *)
Theorem kernel_main_never_panics {B : Bootloader} {LB : LawfulBootloader B} info s
    (a : Arch) kb d (m : mem) (l : list Z) (turns fuel : nat) (es : list event) :
  hands_over BOOTLOADER_CONFIG info ->
  (forall offset, physical_memory_offset info = Some offset -> machine_ok info offset) ->
  placed DOUBLE_FAULT_STACK -> placed GPF_STACK ->
  mem_ok m -> dom m = D -> in_dom D VGA_BUFFER_ADDR 4000 ->
  Forall irq_vector l -> Forall event_ok es -> zlen l + zlen es < 2 ^ 64 ->
  let k0 := statics kb d m l in
  let kernel_main := kernel_main DOUBLE_FAULT_STACK GPF_STACK info s a turns fuel in
  exists r k1, setup DOUBLE_FAULT_STACK GPF_STACK info s a k0 = Done r k1 /\
    head (trace k1) = Some (UartInit COM1_PORT) /\
    PROCESS_TABLE k1 = [idle_process; init_process] /\ CURRENT_PID k1 = 0 /\ NEXT_PID k1 = 2 /\
    TICK k1 = 0 /\ FD_TABLE k1 = [] /\ KeyRing.contents (KEY_BUFFER k1) = [] /\
    panics (kernel_main k0) = false /\ ok D (state_of (kernel_main k0)) /\
    exists t k2, run es (enabled_task turns fuel) k1 = Some (t, k2) /\ ok D k2.
Proof.
  intros Hh Hmach Hdf Hgpf Hbytes Hd Hv Hl Hes Hlen k0 km.
  pose proof (config_bootable info Hh Hmach) as Hb. assert (ok D k0) as Hk.
  { split; try done. simpl. pose proof (zlen_nonneg es). lia. }
  destruct (runs_setup info s a 0 0 [] KeyRing.new Hb Hdf Hgpf k0 Hk eq_refl) as (r & k1 & E & Hk1 & Hc).
  destruct (setup_logs _ _ _ _ _ _ E eq_refl) as [Ht Hi].
  set (k3 := add_io (Com1 (ready_message ++ [10])) (add_io (Com1 (enabled_message ++ [10])) k1)).
  assert (km k0 = shell_main turns fuel k3) as ->.
  { subst km. unfold kernel_main, boot, mbind, M_bind. by rewrite E. }
  assert (ok D k3) as Hk3 by by apply ok_add_io, ok_add_io.
  pose proof (safe_shell_main D turns fuel k3 Hk3) as Hs.
  unfold core in Hc. injection Hc as ? ? ? ? ? Hq. exists r, k1. rewrite Hq.
  split_and!; try done.
  - by destruct (shell_main turns fuel k3).
  - destruct (shell_main turns fuel k3); try done. by destruct Hs.
  - destruct (guarded_run D (fun _ => True) es (enabled_task turns fuel) k1) as (t & k2 & ? & ? & _);
      try done; [| |rewrite Hi; simpl; lia|by exists t, k2].
    + do 2 (apply g_any; [apply safe_serial_println|intros _]). apply guarded_shell.
    + do 2 (constructor; [apply moves_serial_println, _|intros _]). apply same_time_shell.
Qed.

(** The text buffer is used at its physical address: where the bootloader does
    not map that address, the boot ends in step 2. *)
Lemma boot_needs_text_buffer info s (a : Arch) k :
  memory k !! VGA_BUFFER_ADDR = None -> panics (setup DOUBLE_FAULT_STACK GPF_STACK info s a k) = true.
Proof.
  intros Hbuf. unfold setup, vga_init, with_writer, serial_init, serial_println, serial_print, modify.
  unfold mbind, M_bind. cbn [WRITER memory add_io].
  assert (forall x c, Vga.write_char_at (memory k) 0 0 x c = Panic) as E0.
  { intros x c. unfold Vga.write_char_at, store8. change (Vga.addr 0 0) with VGA_BUFFER_ADDR. by rewrite Hbuf. }
  assert (forall w, Vga.clear w (memory k) = Panic) as E.
  { intros w. unfold Vga.clear, for_range, BUFFER_HEIGHT, BUFFER_WIDTH.
    change (Z.to_nat (25 - 0)) with 25%nat. change (Z.to_nat (80 - 0)) with 80%nat.
    cbn [for_n]. by rewrite E0. }
  by rewrite E.
Qed.

End runs.

(** ** A booting machine *)

#[local] Existing Instance dev.

Definition demo_info : BootInfo := mkBootInfo (Some 0xFFFF800000000000) DemoMachine.regions.

(** A bootloader that maps physical memory where it is asked to, or at the
    start of the upper half. *)
#[local] Instance demo_bootloader : Bootloader := {|
  BootloaderConfig := option Mapping;
  new_default := None;
  physical_memory c := c;
  with_physical_memory o _ := o;
  hands_over c info :=
    physical_memory_offset info
    = (fun m => match m with Dynamic => 0xFFFF800000000000 | FixedAddress a => a end) <$> c;
|}.

Lemma demo_lawful : LawfulBootloader demo_bootloader.
Proof. split; [done..|]. intros c info ->. by rewrite fmap_is_Some. Qed.

Lemma demo_machine_ok offset :
  physical_memory_offset demo_info = Some offset -> machine_ok (L := DemoMachine.lawful) demo_info offset.
Proof.
  intros [= <-]. exists ∅. split_and!; try done; [by right|exact DemoMachine.regions_ok|by vm_compute..].
Qed.

(** A timer and a keyboard interrupt between any two sections. *)
Definition demo_interrupts : list event :=
  concat (replicate 40 [Irq (Pl := Demo.platform) 0x20; Run; Irq 0x21]).

Lemma kernel_main_never_panics_witness :
  let m := region VGA_BUFFER_ADDR (replicate 4000 0) in
  let k0 := statics tt [104; 105; 10] m [0x20; 0x21] in
  exists r k1 t k2,
    setup (X := DemoMachine.x86) (H := DemoBus.bridge) (C := DemoArch.controllers)
      DemoArch.stack_1 DemoArch.stack_2 demo_info 0 DemoArch.reset k0 = Done r k1 /\
    run demo_interrupts (enabled_task 5 100) k1 = Some (t, k2).
Proof.
  destruct (kernel_main_never_panics (Pl := Demo.platform) (L := DemoMachine.lawful) (Hm := DemoBus.bridge_mechanism)
    (LB := demo_lawful) (LS := DemoArch.segments_lawful) (C := DemoArch.controllers)
    DemoArch.stack_1 DemoArch.stack_2
    (dom (region VGA_BUFFER_ADDR (replicate 4000 0))) demo_info 0 DemoArch.reset tt [104; 105; 10]
    (region VGA_BUFFER_ADDR (replicate 4000 0)) [0x20; 0x21] 5 100 demo_interrupts)
    as (r & k1 & E & _ & _ & _ & _ & _ & _ & _ & _ & _ & t & k2 & E2 & _).
  - reflexivity.
  - exact demo_machine_ok.
  - by split; right.
  - by split; right.
  - apply mem_ok_region. by apply Forall_replicate.
  - reflexivity.
  - intros i Hi. apply elem_of_dom. apply (mapped_region _ _ 4000); [|done].
    unfold zlen. by rewrite length_replicate.
  - repeat constructor; done.
  - apply Forall_concat, Forall_replicate. repeat constructor; done.
  - by vm_compute.
  - exists r, k1, t, k2. exact (conj E E2).
Defined.
