(* ===== verification/Locks.v ===== *)
(** * Spin locks and interrupts on one CPU

    The lock behaviour of a function, its guards with their scopes, its
    interrupt-free sections and its waits, run as a small-step machine in which
    an interrupt may arrive between any two steps while interrupts are
    enabled.  [check] is a decision procedure for the discipline that keeps
    such a machine from spinning on a lock it holds itself, and
    [checked_machine] its soundness. *)

From stdpp Require Import relations.
From S2P Require Import Prelude.

(** The mutexes of the kernel, one per static. *)
Inductive Lock :=
| L_PROCESS_TABLE | L_FD_TABLE | L_KEY_BUFFER | L_KEYBOARD | L_WRITER | L_SERIAL1
| L_PICS | L_PCI | L_FB | L_ALLOCATOR.

#[export] Instance Lock_eq_dec : EqDecision Lock.
Proof. solve_decision. Defined.

(** What a function does with locks and interrupts.  [Hold l p] takes [l] for
    the scope [p] of its guard; [Without p] is [without_interrupts(|| p)];
    [Alt] is a branch on data the skeleton leaves out, [Star] a loop that may
    end, [Forever] a loop that does not. *)
Inductive prog :=
| Skip
| Hold (l : Lock) (p : prog)
| Without (p : prog)
| Hlt
| Disable
| Enable
| Seq (p q : prog)
| Alt (p q : prog)
| Star (p : prog)
| Forever (p : prog).

Declare Scope lock_scope.
Delimit Scope lock_scope with lock.
Bind Scope lock_scope with prog.
Notation "p ;; q" := (Seq p q) (at level 100, q at level 200, right associativity) : lock_scope.
Notation "p <|> q" := (Alt p q) (at level 80, right associativity) : lock_scope.

(** ** The machine

    The code of a frame is what is left to run in it; [Unlock] drops a guard,
    [Restore b] ends an interrupt-free section entered with the flag [b].
    The frames below the first one are interrupted. *)

Inductive item := Run (p : prog) | Unlock (l : Lock) | Restore (b : bool).

Record cpu := mkCpu { IF : bool; held : list Lock; stack : list (list item) }.

Section machine.
Context (handlers : list prog).

Inductive step : cpu -> cpu -> Prop :=
| step_skip on h c s : step (mkCpu on h ((Run Skip :: c) :: s)) (mkCpu on h (c :: s))
| step_lock on h l p c s : l ∉ h ->
    step (mkCpu on h ((Run (Hold l p) :: c) :: s)) (mkCpu on (l :: h) ((Run p :: Unlock l :: c) :: s))
| step_unlock on h l c s :
    step (mkCpu on h ((Unlock l :: c) :: s)) (mkCpu on (filter (fun x => x <> l) h) (c :: s))
| step_without on h p c s :
    step (mkCpu on h ((Run (Without p) :: c) :: s)) (mkCpu false h ((Run p :: Restore on :: c) :: s))
| step_restore on h b c s :
    step (mkCpu on h ((Restore b :: c) :: s)) (mkCpu (b || on) h (c :: s))
| step_hlt h c s : step (mkCpu true h ((Run Hlt :: c) :: s)) (mkCpu true h (c :: s))
| step_disable on h c s : step (mkCpu on h ((Run Disable :: c) :: s)) (mkCpu false h (c :: s))
| step_enable on h c s : step (mkCpu on h ((Run Enable :: c) :: s)) (mkCpu true h (c :: s))
| step_seq on h p q c s :
    step (mkCpu on h ((Run (Seq p q) :: c) :: s)) (mkCpu on h ((Run p :: Run q :: c) :: s))
| step_alt_l on h p q c s :
    step (mkCpu on h ((Run (Alt p q) :: c) :: s)) (mkCpu on h ((Run p :: c) :: s))
| step_alt_r on h p q c s :
    step (mkCpu on h ((Run (Alt p q) :: c) :: s)) (mkCpu on h ((Run q :: c) :: s))
| step_star_end on h p c s :
    step (mkCpu on h ((Run (Star p) :: c) :: s)) (mkCpu on h (c :: s))
| step_star_turn on h p c s :
    step (mkCpu on h ((Run (Star p) :: c) :: s)) (mkCpu on h ((Run p :: Run (Star p) :: c) :: s))
| step_forever on h p c s :
    step (mkCpu on h ((Run (Forever p) :: c) :: s)) (mkCpu on h ((Run p :: Run (Forever p) :: c) :: s))
| step_irq h p c s : p ∈ handlers ->
    step (mkCpu true h (c :: s)) (mkCpu false h ([Run p] :: c :: s))
| step_iret on h c s : step (mkCpu on h ([] :: c :: s)) (mkCpu true h (c :: s)).

(** ** Running the machine

    A choice resolves a step: the first or the second alternative (for a loop:
    leave it or take a turn), or an interrupt. *)
Inductive choice := First | Second | Irq (n : nat).

Definition exec1 (x : choice) (m : cpu) : option cpu :=
  match x, m with
  | Irq n, mkCpu true h (c :: s) => p ← handlers !! n; Some (mkCpu false h ([Run p] :: c :: s))
  | Irq _, _ => None
  | _, mkCpu on h ([] :: c :: s) => Some (mkCpu true h (c :: s))
  | _, mkCpu on h ((Unlock l :: c) :: s) => Some (mkCpu on (filter (fun x => x <> l) h) (c :: s))
  | _, mkCpu on h ((Restore b :: c) :: s) => Some (mkCpu (b || on) h (c :: s))
  | _, mkCpu on h ((Run p :: c) :: s) =>
    match p, x with
    | Skip, _ => Some (mkCpu on h (c :: s))
    | Hold l p, _ =>
      if decide (l ∈ h) then None else Some (mkCpu on (l :: h) ((Run p :: Unlock l :: c) :: s))
    | Without p, _ => Some (mkCpu false h ((Run p :: Restore on :: c) :: s))
    | Hlt, _ => if on then Some (mkCpu on h (c :: s)) else None
    | Disable, _ => Some (mkCpu false h (c :: s))
    | Enable, _ => Some (mkCpu true h (c :: s))
    | Seq p q, _ => Some (mkCpu on h ((Run p :: Run q :: c) :: s))
    | Alt p q, First => Some (mkCpu on h ((Run p :: c) :: s))
    | Alt p q, _ => Some (mkCpu on h ((Run q :: c) :: s))
    | Star p, First => Some (mkCpu on h (c :: s))
    | Star p, _ => Some (mkCpu on h ((Run p :: Run (Star p) :: c) :: s))
    | Forever p, _ => Some (mkCpu on h ((Run p :: Run (Forever p) :: c) :: s))
    end
  | _, _ => None
  end.

Fixpoint exec (xs : list choice) (m : cpu) : option cpu :=
  match xs with [] => Some m | x :: xs => m' ← exec1 x m; exec xs m' end.

Lemma exec1_step x m m' : exec1 x m = Some m' -> step m m'.
Proof.
  destruct x as [| |n]; [| |destruct m as [[] h [|c s]]; try done; simpl; intros E;
    apply bind_Some in E as (p & Hp & E); simplify_eq;
    apply step_irq; by apply list_elem_of_lookup_2 in Hp].
  all: destruct m as [on h [|[|[p|l|b] c] s]]; simpl; intros E; try done.
  all: try destruct p; try (destruct s; [done|]); try destruct on; try case_decide; simplify_eq; try done.
  all: by econstructor.
Qed.

Lemma exec_steps xs m m' : exec xs m = Some m' -> rtc step m m'.
Proof.
  revert m. induction xs as [|x xs IH]; intros m E; simpl in E; [by simplify_eq|].
  apply bind_Some in E as (m1 & E1 & E). eapply rtc_l; [by eapply exec1_step|]. by apply IH.
Qed.

(** ** What can go wrong *)

(** The CPU spins on a lock that is held: by the running code itself or by code
    it has interrupted, which cannot run to release it. *)
Definition spinning (m : cpu) : Prop :=
  exists l p c s, stack m = (Run (Hold l p) :: c) :: s /\ l ∈ held m.

(** With interrupts disabled nothing can change that any more. *)
Lemma spinning_dead m m' : spinning m -> IF m = false -> ~ step m m'.
Proof.
  intros (l & p & c & s & Es & Hl) Hoff Hst. destruct m as [on h s0]. simpl in *. subst.
  inversion Hst; subst. done.
Qed.

(** The CPU has halted with interrupts disabled. *)
Definition asleep (m : cpu) : Prop :=
  IF m = false /\ exists c s, stack m = (Run Hlt :: c) :: s.

Definition returned (m : cpu) : Prop := stack m = [[]].

(** ** The discipline *)

(** The locks a program may take. *)
Fixpoint locks (p : prog) : list Lock :=
  match p with
  | Hold l p => l :: locks p
  | Without p | Star p | Forever p => locks p
  | Seq p q | Alt p q => locks p ++ locks q
  | _ => []
  end.

(** The locks an interrupt may take. *)
Definition irq_locks : list Lock := handlers ≫= locks.

Definition no_irq_lock (h : list Lock) : bool := forallb (fun l => bool_decide (l ∉ irq_locks)) h.

(** The outcome of checking: a breach, code that never returns, or the
    interrupt flag on return. *)
Inductive flow := Bad | Never | Flag (b : bool).

Definition join (x y : flow) : flow :=
  match x, y with
  | Bad, _ | _, Bad => Bad
  | Never, z | z, Never => z
  | Flag a, Flag b => if Bool.eqb a b then Flag a else Bad
  end.

(** [p], run with the flag [on] and the locks [h] held: no lock is taken twice,
    none that an interrupt may take is taken or kept with interrupts enabled. *)
Fixpoint check (on : bool) (h : list Lock) (p : prog) : flow :=
  match p with
  | Skip | Hlt => Flag on
  | Hold l p =>
    if bool_decide (l ∉ h) && (negb on || bool_decide (l ∉ irq_locks))
    then check on (l :: h) p else Bad
  | Without p =>
    match check false h p with Flag b => Flag (on || b) | r => r end
  | Disable => Flag false
  | Enable => if no_irq_lock h then Flag true else Bad
  | Seq p q => match check on h p with Flag b => check b h q | r => r end
  | Alt p q => join (check on h p) (check on h q)
  | Star p =>
    match check on h p with
    | Flag b => if Bool.eqb b on then Flag on else Bad
    | Never => Flag on
    | Bad => Bad
    end
  | Forever p =>
    match check on h p with
    | Flag b => if Bool.eqb b on then Never else Bad
    | r => r
    end
  end.

Definition disciplined (on : bool) (h : list Lock) (p : prog) : bool :=
  match check on h p with Bad => false | _ => true end.

End machine.

(** ** Soundness of the check *)

Section soundness.
Context (handlers : list prog).
Context (Hh : forall p, p ∈ handlers -> disciplined handlers false [] p = true).

Notation check := (check handlers).
Notation no_irq_lock := (no_irq_lock handlers).

Lemma no_irq_lock_spec h : no_irq_lock h = true <-> forall l, l ∈ h -> l ∉ irq_locks handlers.
Proof.
  unfold Locks.no_irq_lock. rewrite forallb_forall. setoid_rewrite <- list_elem_of_In.
  by setoid_rewrite bool_decide_eq_true.
Qed.

(** Checking does not depend on held locks that the program cannot take. *)
Lemma check_frame p : forall on h1 h,
  (forall l, l ∈ locks p -> l ∉ h) -> no_irq_lock h = true ->
  check on (h1 ++ h) p = check on h1 p.
Proof.
  induction p as [|l p IH|p IH| | | |p IHp q IHq|p IHp q IHq|p IH|p IH]; intros on h1 h Hp Hh';
    simpl in *; try done.
  - assert (bool_decide (l ∉ h1 ++ h) = bool_decide (l ∉ h1)) as ->.
    { apply bool_decide_ext. specialize (Hp l). set_solver. }
    change (l :: h1 ++ h) with ((l :: h1) ++ h). rewrite IH by set_solver. done.
  - by rewrite IH.
  - unfold Locks.no_irq_lock in *. rewrite forallb_app, Hh'. by rewrite andb_true_r.
  - rewrite IHp by set_solver. destruct (check on h1 p); try done. apply IHq; set_solver.
  - by rewrite IHp, IHq by set_solver.
  - by rewrite IH.
  - by rewrite IH.
Qed.

(** The rest of a frame is fine to run with the flag [on] and the locks [h], and
    ends with the locks [base]. *)
Fixpoint code_ok (on : bool) (h : list Lock) (c : list item) (base : list Lock) : Prop :=
  match c with
  | [] => h = base
  | Run p :: c =>
    match check on h p with Bad => False | Never => True | Flag b => code_ok b h c base end
  | Unlock l :: c => exists h', h = l :: h' /\ code_ok on h' c base
  | Restore b :: c => (b = true -> no_irq_lock h = true) /\ code_ok (b || on) h c base
  end.

(** An interrupted frame was interrupted with interrupts enabled. *)
Fixpoint stack_ok (on : bool) (h : list Lock) (s : list (list item)) : Prop :=
  match s with
  | [] => False
  | c :: s => exists base, code_ok on h c base /\
      (s = [] \/ NoDup base /\ no_irq_lock base = true /\ stack_ok true base s)
  end.

Record machine_ok (m : cpu) : Prop := {
  ok_nodup : NoDup (held m);
  ok_enabled : IF m = true -> no_irq_lock (held m) = true;
  ok_stack : stack_ok (IF m) (held m) (stack m);
}.

(** A step inside the first frame. *)
Lemma machine_ok_frame on h c s on' h' c' :
  machine_ok (mkCpu on h (c :: s)) ->
  NoDup h' -> (on' = true -> no_irq_lock h' = true) ->
  (forall base, code_ok on h c base -> code_ok on' h' c' base) ->
  machine_ok (mkCpu on' h' (c' :: s)).
Proof.
  intros [_ _ (base & Hc & Hs)] Hn He Hcode. split; [done|done|]. exists base. auto.
Qed.

Lemma no_irq_lock_cons l h :
  no_irq_lock (l :: h) = bool_decide (l ∉ irq_locks handlers) && no_irq_lock h.
Proof. done. Qed.

Lemma filter_head (l : Lock) h : NoDup (l :: h) -> filter (fun x => x <> l) (l :: h) = h.
Proof.
  intros [Hl Hn]%NoDup_cons. rewrite filter_cons_False by tauto.
  clear Hn. induction h as [|x h IH]; [done|]. rewrite filter_cons_True by set_solver.
  f_equal. apply IH. set_solver.
Qed.

Lemma check_handler p h :
  p ∈ handlers -> no_irq_lock h = true -> code_ok false h [Run p] h.
Proof.
  intros Hp Hn. simpl. change h with ([] ++ h) at 1. rewrite check_frame; [| |done].
  - specialize (Hh p Hp). unfold disciplined in Hh. by destruct (check false [] p).
  - intros l Hl Hin. rewrite no_irq_lock_spec in Hn. apply (Hn l Hin).
    unfold irq_locks. apply list_elem_of_bind. eauto.
Qed.

Lemma machine_ok_lock on h l p c s :
  l ∉ h -> machine_ok (mkCpu on h ((Run (Hold l p) :: c) :: s)) ->
  machine_ok (mkCpu on (l :: h) ((Run p :: Unlock l :: c) :: s)).
Proof.
  intros Hl Hm. pose proof Hm as [Hn He (base & Hc & _)]. simpl in Hn, He, Hc.
  destruct (bool_decide (l ∉ h) && (negb on || bool_decide (l ∉ irq_locks handlers))) eqn:E; [|done].
  apply andb_true_iff in E as [_ E]. eapply machine_ok_frame; [exact Hm| | |].
  - by constructor.
  - intros ->. rewrite no_irq_lock_cons, He by done. by destruct (bool_decide _).
  - intros base' Hc'. simpl in *. rewrite E, bool_decide_true in Hc' by done. simpl in Hc'.
    destruct (check on (l :: h) p); try done. by exists h.
Qed.

Lemma machine_ok_unlock on h l c s :
  machine_ok (mkCpu on h ((Unlock l :: c) :: s)) ->
  machine_ok (mkCpu on (filter (fun x => x <> l) h) (c :: s)).
Proof.
  intros Hm. pose proof Hm as [Hn He (base & (h' & Eh & _) & _)]. simpl in Hn, He, Eh. subst h.
  rewrite filter_head by done. eapply machine_ok_frame; [exact Hm| | |].
  - by apply NoDup_cons in Hn as [_ ?].
  - intros ->. specialize (He eq_refl). rewrite no_irq_lock_cons in He.
    by apply andb_true_iff in He as [_ ?].
  - intros base' (h & ? & Hc'). by simplify_eq.
Qed.

Lemma machine_ok_irq h p c s :
  p ∈ handlers -> machine_ok (mkCpu true h (c :: s)) -> machine_ok (mkCpu false h ([Run p] :: c :: s)).
Proof.
  intros Hp [Hn He Hs]. simpl in *. split; [done|done|]. exists h.
  split; [by apply check_handler; auto|]. right. auto.
Qed.

Lemma machine_ok_iret on h c s :
  machine_ok (mkCpu on h ([] :: c :: s)) -> machine_ok (mkCpu true h (c :: s)).
Proof.
  intros [Hn He (base & -> & [?|(? & ? & Hs)])]; [done|]. by split.
Qed.

Lemma machine_ok_step m m' : step handlers m m' -> machine_ok m -> machine_ok m'.
Proof.
  intros Hst Hm. pose proof (ok_nodup _ Hm) as Hn. pose proof (ok_enabled _ Hm) as He.
  destruct Hst; simpl in Hn, He;
    eauto using machine_ok_lock, machine_ok_unlock, machine_ok_irq, machine_ok_iret.
  all: pose proof Hm as [_ _ (b0 & H0 & _)]; simpl in H0.
  all: eapply machine_ok_frame; [exact Hm|done| |]; simpl; try done.
  - intros base Hc. destruct (check false h p); [done|done|]. done.
  - destruct b; [|done]. intros _. by apply H0.
  - intros base Hc. apply Hc.
  - intros _. by destruct (no_irq_lock h).
  - intros base Hc. by destruct (no_irq_lock h).
  - intros base Hc. by destruct (check on h p).
  - intros base Hc. by destruct (check on h p) as [| |[]], (check on h q) as [| |[]].
  - intros base Hc. by destruct (check on h p) as [| |[]], (check on h q) as [| |[]].
  - intros base Hc. by destruct on, (check _ h p) as [| |[]].
  - intros base Hc. by destruct on, (check _ h p) as [| |[]] eqn:E; simpl; try rewrite E.
  - intros base Hc. by destruct on, (check _ h p) as [| |[]] eqn:E; simpl; try rewrite E.
Qed.

Lemma machine_ok_not_spinning m : machine_ok m -> ~ spinning m.
Proof.
  intros [_ _ Hs] (l & p & c & s & E & Hl). rewrite E in Hs. destruct Hs as (base & Hc & _).
  simpl in Hc. by rewrite bool_decide_false in Hc by tauto.
Qed.

Lemma machine_ok_progress m :
  machine_ok m -> returned m \/ asleep m \/ exists m', step handlers m m'.
Proof.
  intros Hm. pose proof (machine_ok_not_spinning m Hm) as Hspin.
  destruct m as [on h s], Hm as [_ _ Hs]. simpl in Hs. destruct s as [|c s]; [done|].
  destruct Hs as (base & Hc & Hs). destruct c as [|[p|l|b] c].
  - destruct s as [|c s]; [by left|]. right. right. eexists. constructor.
  - destruct p as [|l p| | | | | | | |]; try (right; right; eexists; by constructor).
    + right. right. eexists. constructor. intros Hl. apply Hspin. by exists l, p, c, s.
    + destruct on; [right; right; eexists; constructor|]. right. left. split; [done|eauto].
  - right. right. eexists. constructor.
  - right. right. eexists. constructor.
Qed.

Lemma checked_machine on h p m :
  disciplined handlers on h p = true -> NoDup h -> (on = true -> no_irq_lock h = true) ->
  rtc (step handlers) (mkCpu on h [[Run p]]) m -> machine_ok m.
Proof.
  intros Hd Hn He Hr. assert (machine_ok (mkCpu on h [[Run p]])) as H0.
  { split; [done|done|]. exists h. split; [|by left]. simpl. unfold disciplined in Hd.
    by destruct (check on h p). }
  clear Hd Hn He. induction Hr; eauto using machine_ok_step.
Qed.

End soundness.
