(* ===== verification/LockPaths.v ===== *)
(** * The lock behaviour of the kernel's functions

    For every function of the kernel that takes a lock, its skeleton: which
    guards it takes in which scopes, where interrupts are disabled and where it
    waits.  The skeletons compose as the functions call each other; data is
    left out, so that a branch is an alternative. *)

From stdpp Require Import relations.
From S2P Require Import Prelude Locks.

Open Scope lock_scope.

(** An operation that may call the heap allocator, [LockedHeap]. *)
Definition heap : prog := Hold L_ALLOCATOR Skip <|> Skip.

(** ** Drivers *)

Definition serial_print_locks : prog := Without (Hold L_SERIAL1 Skip).
Definition kprint_locks : prog := Without (Hold L_WRITER Skip).
Definition writer_locks : prog := Without (Hold L_WRITER Skip).

Definition decode_scancode_locks : prog := Hold L_KEYBOARD (Skip <|> serial_print_locks).
Definition handle_interrupt_locks : prog :=
  decode_scancode_locks ;; (Hold L_KEY_BUFFER Skip <|> Skip).
Definition try_read_char_locks : prog := Without (Hold L_KEY_BUFFER Skip).
Definition poll_char_locks : prog := Without (Skip <|> decode_scancode_locks).
Definition keyboard_init_locks : prog := Hold L_KEYBOARD Skip.

Definition config_access_locks : prog := Hold L_PCI Skip.
Definition pci_init_locks : prog := Star (config_access_locks ;; heap) ;; Star serial_print_locks ;; heap.

(** ** Processes *)

Definition schedule_locks : prog := Hold L_PROCESS_TABLE (Skip <|> serial_print_locks).
Definition dispatch_signals_locks : prog := Without (Hold L_PROCESS_TABLE Skip).
Definition tick_locks : prog := dispatch_signals_locks ;; (schedule_locks <|> Skip).
Definition kill_locks : prog := Skip <|> Without (Hold L_PROCESS_TABLE Skip).
Definition process_init_locks : prog := Hold L_PROCESS_TABLE (heap ;; heap ;; heap ;; heap).
Definition fork_locks : prog := Without (Hold L_PROCESS_TABLE (Skip <|> (heap ;; heap))).
Definition execve_locks : prog := Without (Hold L_PROCESS_TABLE (Skip <|> heap)).
Definition current_is_zombie_locks : prog := Without (Hold L_PROCESS_TABLE Skip).
Definition waitpid_turn_locks : prog := Without (Hold L_PROCESS_TABLE (Skip <|> heap)).
Definition waitpid_locks : prog := Star (waitpid_turn_locks ;; Hlt) ;; waitpid_turn_locks.

(** [exit], over what it calls to give up the CPU. *)
Definition exit_locks (force_schedule : prog) : prog :=
  Without (Hold L_PROCESS_TABLE Skip) ;; serial_print_locks ;; force_schedule ;; Forever Hlt.

(** ** Interrupts *)

Definition end_of_interrupt_locks : prog := Hold L_PICS Skip.
Definition timer_locks : prog := tick_locks ;; end_of_interrupt_locks.
Definition keyboard_locks : prog := handle_interrupt_locks ;; end_of_interrupt_locks.

(** The handlers of the hardware interrupts: the timer's, the keyboard's, and
    the others, which only acknowledge. *)
Definition irq_handlers : list prog := [timer_locks; keyboard_locks; end_of_interrupt_locks].

(** ** System calls *)

Definition next_char_locks : prog := try_read_char_locks ;; (Skip <|> poll_char_locks).
Definition sys_read_locks : prog :=
  Skip
  <|> (Star (current_is_zombie_locks ;; next_char_locks ;; Hlt) ;; current_is_zombie_locks ;;
       (Skip <|> (next_char_locks ;; Star next_char_locks)))
  <|> Hold L_FD_TABLE (Skip <|> (heap ;; heap)).
Definition sys_write_locks : prog :=
  Skip <|> (serial_print_locks ;; kprint_locks) <|> Hold L_FD_TABLE (Star serial_print_locks).
Definition read_user_cstr_locks : prog := Star heap.
Definition sys_open_locks : prog :=
  Skip <|> (read_user_cstr_locks ;; (Skip <|> Hold L_FD_TABLE heap) ;; heap).
Definition sys_close_locks : prog := Skip <|> Hold L_FD_TABLE Skip.
Definition sys_getppid_locks : prog := Hold L_PROCESS_TABLE Skip.
Definition sys_execve_locks : prog := Skip <|> (read_user_cstr_locks ;; (Skip <|> execve_locks) ;; heap).

(** [dispatch], over the two calls that take the process table with interrupts
    enabled. *)
Definition dispatch_locks (getppid exit : prog) : prog :=
  sys_read_locks <|> sys_write_locks <|> sys_open_locks <|> sys_close_locks <|> Skip <|> fork_locks
  <|> sys_execve_locks <|> exit <|> waitpid_locks <|> kill_locks <|> getppid.

(** ** The shell *)

Definition print_prompt_locks : prog :=
  writer_locks ;; kprint_locks ;; writer_locks ;; kprint_locks ;; writer_locks ;; kprint_locks ;; writer_locks.
Definition read_key_locks : prog := Star (next_char_locks ;; Hlt) ;; next_char_locks.
Definition read_line_locks : prog := Star (read_key_locks ;; (Skip <|> kprint_locks <|> writer_locks)).
Definition cmd_ps_locks : prog := Hold L_PROCESS_TABLE (kprint_locks ;; Star kprint_locks).
Definition cmd_halt_locks : prog := kprint_locks ;; Disable ;; Forever Hlt.
Definition cmd_reboot_locks : prog := kprint_locks ;; Forever Hlt.

(** [execute]: nothing, the commands that print, [clear], an unknown command,
    [halt], [reboot] and [ps]. *)
Definition execute_locks (ps : prog) : prog :=
  Skip <|> Star kprint_locks <|> writer_locks <|> (writer_locks ;; kprint_locks ;; writer_locks)
  <|> cmd_halt_locks <|> cmd_reboot_locks <|> ps.
Definition shell_locks (ps : prog) : prog :=
  Star kprint_locks ;; Forever (print_prompt_locks ;; read_line_locks ;; execute_locks ps).

(** ** Boot *)

Definition boot_locks : prog :=
  Hold L_SERIAL1 Skip ;; serial_print_locks ;; Hold L_WRITER Skip ;; kprint_locks ;;
  Star serial_print_locks ;; Hold L_PICS Skip ;; serial_print_locks ;;
  serial_print_locks ;; Hold L_ALLOCATOR Skip ;; serial_print_locks ;;
  serial_print_locks ;; pci_init_locks ;; serial_print_locks ;;
  serial_print_locks ;; keyboard_init_locks ;; serial_print_locks ;;
  serial_print_locks ;; process_init_locks ;; serial_print_locks ;;
  Enable ;; serial_print_locks ;; serial_print_locks.
Definition kernel_main_locks (ps : prog) : prog := boot_locks ;; shell_locks ps.

(** ** The discipline of the kernel *)

Lemma handlers_disciplined p :
  p ∈ irq_handlers -> disciplined irq_handlers false [] p = true.
Proof. intros Hp. repeat (apply elem_of_cons in Hp as [-> | Hp]; [done|]). by apply not_elem_of_nil in Hp. Qed.

(** The programs that run: the kernel from its entry, interrupts disabled, and
    a system call, interrupts enabled.  [ps], [getppid] and the scheduling of
    [exit] are either not run or run without interrupts. *)
Definition entry_points : list (bool * prog) :=
  [ (false, kernel_main_locks Skip);
    (false, kernel_main_locks (Without cmd_ps_locks));
    (true, dispatch_locks Skip Skip);
    (true, dispatch_locks (Without sys_getppid_locks) (exit_locks (Without schedule_locks))) ].

(** C3: Wherever interrupts arrive, the kernel does not spin on a lock: from its
    entry point through the shell, and in every system call, with the [ps]
    command, [getppid] and the scheduling in [exit] left out or wrapped in an
    interrupt-free section, no reachable state waits for a lock that is held,
    each one that has not returned or halted for good can go on, and no lock an
    interrupt handler takes is held while interrupts are enabled. *)
Theorem interrupts_never_deadlock on p m :
  (on, p) ∈ entry_points -> rtc (step irq_handlers) (mkCpu on [] [[Run p]]) m ->
  ~ spinning m /\
  (returned m \/ asleep m \/ exists m', step irq_handlers m m') /\
  (IF m = true -> forall l, l ∈ held m -> l ∉ irq_locks irq_handlers).
Proof.
  intros Hp Hr. assert (machine_ok irq_handlers m) as Hm.
  { eapply (checked_machine _ handlers_disciplined on [] p); [|constructor|done|done].
    unfold entry_points in Hp. set_unfold in Hp. naive_solver. }
  split_and!.
  - by apply machine_ok_not_spinning in Hm.
  - by apply machine_ok_progress.
  - intros Hon. apply no_irq_lock_spec. by apply Hm.
Qed.

(** The way to a timer interrupt inside a section that holds the process table. *)
Definition timer_spins : list choice := [Irq 0; First; First; First].

(** C39: Three paths take the process table with interrupts enabled, and a timer
    interrupt that arrives while they hold it ends the machine: [ps], run from
    the shell after the boot, [getppid], and the scheduling of [exit].  The
    timer handler then spins, interrupts disabled, on the lock its own CPU
    holds, and no step is left. *)
Theorem process_table_deadlocks on p :
  (on, p) ∈ [ (false, kernel_main_locks cmd_ps_locks);
              (true, dispatch_locks sys_getppid_locks Skip);
              (true, dispatch_locks Skip (exit_locks schedule_locks)) ] ->
  exists m, rtc (step irq_handlers) (mkCpu on [] [[Run p]]) m /\
    spinning m /\ held m = [L_PROCESS_TABLE] /\ (forall m', ~ step irq_handlers m m').
Proof.
  assert (forall xs m0 m c s, exec irq_handlers xs m0 = Some m -> IF m = false ->
    held m = [L_PROCESS_TABLE] -> stack m = (Run (Hold L_PROCESS_TABLE Skip) :: c) :: s ->
    exists m, rtc (step irq_handlers) m0 m /\ spinning m /\ held m = [L_PROCESS_TABLE] /\
      (forall m', ~ step irq_handlers m m')) as Hend.
  { intros xs m0 m c s E Hoff Hl Hs. exists m. assert (spinning m) as Hspin.
    { exists L_PROCESS_TABLE, Skip, c, s. split; [done|]. rewrite Hl. by left. }
    split_and!; [by eapply exec_steps|done|done|]. intros m'. by apply spinning_dead. }
  intros Hp. repeat (apply elem_of_cons in Hp as [[= -> ->]|Hp]).
  - eapply (Hend (replicate 180 First ++ replicate 6 Second ++ [First] ++ timer_spins)); by vm_compute.
  - eapply (Hend (replicate 10 Second ++ [First] ++ timer_spins)); by vm_compute.
  - eapply (Hend (replicate 7 Second ++ replicate 15 First ++ timer_spins)); by vm_compute.
  - by apply not_elem_of_nil in Hp.
Qed.

(** A read of a file holds the descriptor table when a timer interrupt arrives,
    and its handler has taken the process table. *)
Lemma interrupts_never_deadlock_witness :
  exists m, rtc (step irq_handlers) (mkCpu true [] [[Run (dispatch_locks Skip Skip)]]) m /\
    held m = [L_PROCESS_TABLE; L_FD_TABLE] /\ ~ spinning m.
Proof.
  eexists. assert (rtc (step irq_handlers) (mkCpu true [] [[Run (dispatch_locks Skip Skip)]]) _) as Hr
    by (apply (exec_steps _ ([First; Second; Second; First] ++ timer_spins ++ [First])); vm_compute; reflexivity).
  split_and!; [exact Hr|reflexivity|].
  refine (proj1 (interrupts_never_deadlock true (dispatch_locks Skip Skip) _ _ Hr)). do 2 right; by left.
Defined.

Lemma process_table_deadlocks_witness :
  exists m, rtc (step irq_handlers) (mkCpu true [] [[Run (dispatch_locks sys_getppid_locks Skip)]]) m /\
    spinning m.
Proof.
  destruct (process_table_deadlocks true (dispatch_locks sys_getppid_locks Skip))
    as (m & Hr & Hs & _); [right; by left|]. exists m. exact (conj Hr Hs).
Defined.
