(* ===== verification/Init.v ===== *)
(** * The init program ([init/src/main.rs])

    PID 1 in user space: it mounts the virtual file systems and then starts a
    shell over and over.  What it does is a trace of events; how the commands
    it runs end is given. *)

From S2P Require Import Prelude.

(** Starting a command: its exit status, or the error, as [Display] shows them. *)
Inductive Status := Exited (status : list Z) | Failed (e : list Z).

Inductive Event :=
| Eprintln (s : list Z)
| Spawn (cmd : list Z) (args : list (list Z))
| Sleep (secs : Z).

(** The status of [mount] is dropped. *)
Definition mount (fstype target options : list Z) : list Event :=
  [ Spawn (lit "mount") [lit "-t"; fstype; lit "none"; target; lit "-o"; options];
    Eprintln (lit "[init] mounted " ++ fstype ++ lit " on " ++ target) ].

(** A turn of the loop, with the way the shell ends. *)
Definition start_shell (r : Status) : list Event :=
  [Eprintln (lit "[init] starting /bin/sh"); Spawn (lit "/bin/sh") []] ++
  match r with
  | Exited status => [Eprintln (lit "[init] /bin/sh exited with " ++ status)]
  | Failed e => [Eprintln (lit "[init] failed to start /bin/sh: " ++ e); Sleep 1]
  end.

(** [main], up to the last of the given turns. *)
Definition init_main (rs : list Status) : list Event :=
  [Eprintln (lit "[init] PID 1 starting")] ++
  mount (lit "proc") (lit "/proc") (lit "proc") ++
  mount (lit "sysfs") (lit "/sys") (lit "sysfs") ++
  mount (lit "devtmpfs") (lit "/dev") (lit "devtmpfs") ++
  [Eprintln (lit "[init] filesystems mounted")] ++
  concat (start_shell <$> rs).

(** ** What init does, whatever the commands do *)

Definition commands_run (l : list Event) : list (list Z * list (list Z)) :=
  omap (fun e => match e with Spawn c a => Some (c, a) | _ => None end) l.

Definition slept (l : list Event) : Z :=
  foldr (fun e n => match e with Sleep s => s + n | _ => n end) 0 l.

Definition failed (r : Status) : bool := match r with Failed _ => true | _ => false end.
Definition failures (rs : list Status) : Z := zlen (List.filter failed rs).

Lemma slept_app l l' : slept (l ++ l') = slept l + slept l'.
Proof. induction l as [|e l IH]; [done|]. simpl. rewrite IH. destruct e; lia. Qed.

(** The commands are the three mounts, in order, and then a shell per turn: the
    loop goes on after every way a shell can end, and it sleeps one second for
    each that could not be started. *)
Lemma init_supervises rs :
  commands_run (init_main rs) =
    [ (lit "mount", [lit "-t"; lit "proc"; lit "none"; lit "/proc"; lit "-o"; lit "proc"]);
      (lit "mount", [lit "-t"; lit "sysfs"; lit "none"; lit "/sys"; lit "-o"; lit "sysfs"]);
      (lit "mount", [lit "-t"; lit "devtmpfs"; lit "none"; lit "/dev"; lit "-o"; lit "devtmpfs"]) ]
    ++ replicate (length rs) (lit "/bin/sh", []) /\
  slept (init_main rs) = failures rs.
Proof.
  assert (commands_run (concat (start_shell <$> rs)) = replicate (length rs) (lit "/bin/sh", []) /\
          slept (concat (start_shell <$> rs)) = failures rs) as [Hc Hs].
  { induction rs as [|r rs [IHc IHs]]; [done|]. rewrite fmap_cons. cbn [concat]. split.
    - unfold commands_run in *. rewrite omap_app, IHc. by destruct r.
    - rewrite slept_app, IHs. unfold failures. destruct r; cbn; [done|]. rewrite zlen_cons. lia. }
  unfold init_main, mount. split.
  - unfold commands_run in *. rewrite !omap_app, Hc. done.
  - rewrite !slept_app, Hs. simpl. lia.
Qed.
