(* ===== verification/Build.v ===== *)
(** * The build script ([kernel/build.rs])

    What it tells Cargo, given the environment variable with the directory of
    the crate. *)

From S2P Require Import Prelude RustStr.

(** [PathBuf::join] with a relative path. *)
Definition path_join (dir file : list Z) : list Z :=
  if bool_decide (dir = []) || bool_decide (last dir = Some slash) then dir ++ file
  else dir ++ [slash] ++ file.

(** The lines printed; [env::var(..).unwrap()] panics when the variable is not
    set. *)
Definition build_main (manifest_dir : option (list Z)) : outcome (list (list Z)) :=
  dir ← unwrap manifest_dir;
  let linker_script := path_join dir (lit "linker.ld") in
  Ret [lit "cargo:rerun-if-changed=" ++ linker_script;
       lit "cargo:rerun-if-changed=build.rs";
       lit "cargo:rustc-link-arg=-T" ++ linker_script;
       lit "cargo:rustc-link-arg=-no-pie";
       lit "cargo:rustc-link-arg=--no-relax"].

(** The script that is watched is the one the linker gets. *)
Lemma build_watches_its_script dir out :
  build_main (Some dir) = Ret out ->
  exists script, lit "cargo:rerun-if-changed=" ++ script ∈ out /\
    lit "cargo:rustc-link-arg=-T" ++ script ∈ out /\ lit "linker.ld" `suffix_of` script.
Proof.
  intros [= <-]. exists (path_join dir (lit "linker.ld")). split_and!; [by repeat constructor..|].
  unfold path_join. case_match; [by eexists|]. rewrite app_assoc. by eexists.
Qed.
